(** * DDR5 delay calibration (liblitedram): eye scanner, CS/CA/CK training,
      read and write training.

    A shallow embedding of
    [litex/soc/software/liblitedram/utils/eye_detection_helper.c] and
    [litex/soc/software/liblitedram/ddr5_training.c].

    Conventions.
    - C [int] values are modelled as [Z]; signed overflow is undefined in C
      and the delays handled here are small multiples of [max_delay_taps].
      Division and remainder of [int] are the truncating [Z.quot] and
      [Z.rem].  [uint32_t] bit masks are kept in [[0, 2^32)].
    - An access outside [helper_arr] is undefined behaviour in C; the model
      returns [None] there.
    - The register-access layer ([ctx->cs.check], [ctx->ck.inc_dly],
      [send_mrw], ...) is outside this file.  Every call to it is recorded
      in a trace, most recent call first, and the value it returns is given
      by an environment that may depend on the whole history. *)

From stdpp Require Import gmap strings list.
From Stdlib Require Import ZArith Lia.

Local Open Scope Z_scope.

(** ** Machine integers *)

Definition wrap_u32 (z : Z) : Z := z mod 2 ^ 32.
Definition wrap_i32 (z : Z) : Z := (z + 2 ^ 31) mod 2 ^ 32 - 2 ^ 31.

(** [~x] on a 32-bit mask. *)
Definition not_u32 (x : Z) : Z := wrap_u32 (Z.lnot x).

(** C truth value of an integer. *)
Definition truthy (v : Z) : bool := negb (v =? 0).

(** [!!v] *)
Definition bool_to_int (b : bool) : Z := if b then 1 else 0.

(** ** Eye scanner: [eye_detection_helper.c] *)

Module Eye.

(** [#define UNSET_DELAY 0xefff] *)
Definition UNSET_DELAY : Z := 0xefff.

(** [static int32_t helper_arr[2*MAX(64, SDRAM_PHY_DELAYS)];]
    [static int32_t helper_arr_it;] *)
Record helper_t := mk_helper { helper_arr : list Z; helper_arr_it : Z }.

Definition capacity (SDRAM_PHY_DELAYS : Z) : Z := 2 * Z.max 64 SDRAM_PHY_DELAYS.

Definition helper_init (SDRAM_PHY_DELAYS : Z) : helper_t :=
  {| helper_arr := replicate (Z.to_nat (capacity SDRAM_PHY_DELAYS)) 0;
     helper_arr_it := 0 |}.

(** [helper_arr[i]] *)
Definition arr_get (arr : list Z) (i : Z) : option Z :=
  if 0 <=? i then arr !! Z.to_nat i else None.

(** The sample at index [i], 0 outside the array. *)
Definition sample (h : helper_t) (i : Z) : Z := default 0 (arr_get (helper_arr h) i).

Definition clear_helper_arr (h : helper_t) : helper_t :=
  {| helper_arr := replicate (length (helper_arr h)) 0; helper_arr_it := 0 |}.

(** [helper_arr[helper_arr_it++] = value;] *)
Definition set_helper_arr_value_and_advance (value : Z) (h : helper_t) : option helper_t :=
  let it := helper_arr_it h in
  if (0 <=? it) && (it <? Z.of_nat (length (helper_arr h))) then
    Some {| helper_arr := <[Z.to_nat it := wrap_i32 value]> (helper_arr h);
            helper_arr_it := it + 1 |}
  else None.

(** [for (int it = 1; it < max; ++it) if (helper_arr[it]) return 1; return 0;]
    with [n] iterations left. *)
Fixpoint one_in_loop (arr : list Z) (n : nat) (it : Z) : option Z :=
  match n with
  | O => Some 0
  | S n' =>
      match arr_get arr it with
      | None => None
      | Some v => if truthy v then Some 1 else one_in_loop arr n' (it + 1)
      end
  end.

Definition one_in_helper_arr (h : helper_t) (max : Z) : option Z :=
  match arr_get (helper_arr h) 0 with
  | None => None
  | Some v =>
      if truthy v then Some (-1)
      else one_in_loop (helper_arr h) (Z.to_nat (max - 1)) 1
  end.

Fixpoint one_stride_loop (arr : list Z) (n : nat) (it max : Z) : option Z :=
  match n with
  | O => Some max
  | S n' =>
      match arr_get arr it with
      | None => None
      | Some v => if truthy v then one_stride_loop arr n' (it + 1) max else Some it
      end
  end.

Definition one_stride_helper_arr (h : helper_t) (max : Z) : option Z :=
  one_stride_loop (helper_arr h) (Z.to_nat max) 0 max.

(** The loop of [find_eye_in_helper_arr] with [n] iterations left, and the
    test on [helper_arr[2*max - 1]] that follows it.  The result is the pair
    [( *left, *right )]. *)
Fixpoint find_eye_loop (arr : list Z) (n : nat) (it max left right : Z) : option (Z * Z) :=
  match n with
  | O =>
      match arr_get arr (2 * max - 1) with
      | None => None
      | Some v => Some (if truthy v then 2 * max else left, right)
      end
  | S n' =>
      match arr_get arr it with
      | None => None
      | Some v =>
          let right' := if truthy v && (right =? UNSET_DELAY) then it else right in
          if negb (truthy v) && negb (right' =? UNSET_DELAY) then Some (it, right')
          else find_eye_loop arr n' (it + 1) max left right'
      end
  end.

Definition find_eye_in_helper_arr (h : helper_t) (left right max : Z) : option (Z * Z) :=
  find_eye_loop (helper_arr h) (Z.to_nat (2 * max)) 0 max left right.

End Eye.

(** ** The register-access layer as a trace *)

(** [Call name args ret]: the call [name(args)] to the register-access layer
    (or to a procedure left to the environment) returned [ret].
    [Print fmt args]: a [printf] whose arguments matter below. *)
Inductive event :=
  | Call (name : string) (args : list Z) (ret : Z)
  | Print (fmt : string) (args : list Z).

(** Most recent event first. *)
Definition trace := list event.

(** What a call returns, as a function of everything that happened before. *)
Definition env_t := trace -> string -> list Z -> Z.

Global Instance event_eq_dec : EqDecision event.
Proof. solve_decision. Defined.

(** The delay programmed on a delay line: a reset sets it to 0 and every
    increment adds one tap, so it is the number of [inc] calls with the
    selector [sel] since the last [rst] call with that selector. *)
Fixpoint programmed_delay (rst inc : string) (sel : list Z) (tr : trace) : Z :=
  match tr with
  | [] => 0
  | Call name args _ :: tr' =>
      if bool_decide (name = rst /\ args = sel) then 0
      else if bool_decide (name = inc /\ args = sel) then 1 + programmed_delay rst inc sel tr'
      else programmed_delay rst inc sel tr'
  | Print _ _ :: tr' => programmed_delay rst inc sel tr'
  end.

(** The arguments of the [printf]s with format [fmt], oldest first. *)
Definition printed (fmt : string) (tr : trace) : list (list Z) :=
  omap (fun e => match e with
                 | Print f args => if bool_decide (f = fmt) then Some args else None
                 | Call _ _ _ => None
                 end) (reverse tr).

(** ** Training context and program state *)

Inductive training_type_t := HOST_DRAM | HOST_RCD | RCD_DRAM.

Global Instance training_type_eq_dec : EqDecision training_type_t.
Proof. solve_decision. Defined.

(** Modelled from the spec: the declaration of [training_ctx_t]
    ([ddr5_training.h]) is not part of the sources at hand; the fields are
    the ones [ddr5_training.c] reads and writes.  [cs.delays], [ca.delays]
    are indexed by (channel, rank or address line, 0 = right edge /
    1 = left edge), the [final_delays] by (channel, rank or line).  The
    function pointers of the signal channels are calls to the environment. *)
Record training_ctx_t := mk_ctx {
  channels : Z;
  ranks : Z;
  modules : Z;
  die_width : Z;
  max_delay_taps : Z;
  training_type : training_type_t;
  RDIMM : bool;
  ca_line_count : Z;
  cs_invert : gmap Z Z;
  cs_delays : gmap (Z * Z * Z) Z;
  cs_final_delays : gmap (Z * Z) Z;
  ca_delays : gmap (Z * Z * Z) Z;
  ca_final_delays : gmap (Z * Z) Z;
}.

(** Static storage is zero-initialised. *)
Definition rd {K} `{Countable K} (m : gmap K Z) (k : K) : Z := default 0 (m !! k).

Definition set_cs_invert (f : gmap Z Z -> gmap Z Z) (c : training_ctx_t) : training_ctx_t :=
  mk_ctx (channels c) (ranks c) (modules c) (die_width c) (max_delay_taps c)
         (training_type c) (RDIMM c) (ca_line_count c)
         (f (cs_invert c)) (cs_delays c) (cs_final_delays c) (ca_delays c) (ca_final_delays c).

Definition set_cs_final_delays (f : gmap (Z * Z) Z -> gmap (Z * Z) Z) (c : training_ctx_t) : training_ctx_t :=
  mk_ctx (channels c) (ranks c) (modules c) (die_width c) (max_delay_taps c)
         (training_type c) (RDIMM c) (ca_line_count c)
         (cs_invert c) (cs_delays c) (f (cs_final_delays c)) (ca_delays c) (ca_final_delays c).

Definition set_ca_delays (f : gmap (Z * Z * Z) Z -> gmap (Z * Z * Z) Z) (c : training_ctx_t) : training_ctx_t :=
  mk_ctx (channels c) (ranks c) (modules c) (die_width c) (max_delay_taps c)
         (training_type c) (RDIMM c) (ca_line_count c)
         (cs_invert c) (cs_delays c) (cs_final_delays c) (f (ca_delays c)) (ca_final_delays c).

Definition set_ca_final_delays (f : gmap (Z * Z) Z -> gmap (Z * Z) Z) (c : training_ctx_t) : training_ctx_t :=
  mk_ctx (channels c) (ranks c) (modules c) (die_width c) (max_delay_taps c)
         (training_type c) (RDIMM c) (ca_line_count c)
         (cs_invert c) (cs_delays c) (cs_final_delays c) (ca_delays c) (f (ca_final_delays c)).

(** The state a training procedure runs in: the history of the hardware, the
    eye scanner's buffer, the three file-level statics of
    [ddr5_training.c], and the context [*ctx]. *)
Record state := mk_state {
  st_hw : trace;
  st_helper : Eye.helper_t;
  helper_modules_without_shift : Z;
  helper_modules_seen : Z;
  seen_working : bool;
  st_ctx : training_ctx_t;
}.

Definition set_hw (f : trace -> trace) (s : state) : state :=
  mk_state (f (st_hw s)) (st_helper s) (helper_modules_without_shift s)
           (helper_modules_seen s) (seen_working s) (st_ctx s).

Definition set_helper (h : Eye.helper_t) (s : state) : state :=
  mk_state (st_hw s) h (helper_modules_without_shift s)
           (helper_modules_seen s) (seen_working s) (st_ctx s).

Definition set_cs_statics (without_shift seen : Z) (working : bool) (s : state) : state :=
  mk_state (st_hw s) (st_helper s) without_shift seen working (st_ctx s).

Definition set_ctx (f : training_ctx_t -> training_ctx_t) (s : state) : state :=
  mk_state (st_hw s) (st_helper s) (helper_modules_without_shift s)
           (helper_modules_seen s) (seen_working s) (f (st_ctx s)).

(** ** A state monad with undefined behaviour *)

Definition M (A : Type) : Type := state -> option (A * state).

Global Instance M_ret : MRet M := fun A (a : A) s => Some (a, s).
Global Instance M_bind : MBind M := fun A B (f : A -> M B) (m : M A) s =>
  match m s with
  | None => None
  | Some (a, s') => f a s'
  end.

Definition get : M state := fun s => Some (s, s).
Definition get_ctx : M training_ctx_t := fun s => Some (st_ctx s, s).
Definition modify (f : state -> state) : M unit := fun s => Some (tt, f s).
Definition lift_helper (f : Eye.helper_t -> option Eye.helper_t) : M unit := fun s =>
  match f (st_helper s) with
  | None => None
  | Some h => Some (tt, set_helper h s)
  end.
Definition read_helper {A} (f : Eye.helper_t -> option A) : M A := fun s =>
  match f (st_helper s) with
  | None => None
  | Some a => Some (a, s)
  end.

(** [for (i = lo; ...; ++i) body(i)] running [n] times. *)
Fixpoint for_loop (n : nat) (i : Z) (body : Z -> M unit) : M unit :=
  match n with
  | O => mret tt
  | S n' => body i ;; for_loop n' (i + 1) body
  end.

(** [for (i = lo; i < hi; ++i) body(i)] *)
Definition for_range (lo hi : Z) (body : Z -> M unit) : M unit :=
  for_loop (Z.to_nat (hi - lo)) lo body.

(** [for (i = lo; cond(acc) && i < hi; ++i) acc = body(i, acc)], where [n]
    counts the values of [i] below [hi] that are left. *)
Fixpoint for_while {S : Type} (n : nat) (i : Z) (cond : S -> bool)
    (body : Z -> S -> M S) (acc : S) : M S :=
  match n with
  | O => mret acc
  | S n' =>
      if cond acc then acc' ← body i acc; for_while n' (i + 1) cond body acc'
      else mret acc
  end.

Section WithEnv.

Variable env : env_t.

Definition call (name : string) (args : list Z) : M Z := fun s =>
  let r := env (st_hw s) name args in
  Some (r, set_hw (cons (Call name args r)) s).

Definition printf (fmt : string) (args : list Z) : M unit :=
  modify (set_hw (cons (Print fmt args))).

Definition clear_helper_arr : M unit :=
  modify (fun s => set_helper (Eye.clear_helper_arr (st_helper s)) s).

Definition set_helper_arr_value_and_advance (value : Z) : M unit :=
  lift_helper (Eye.set_helper_arr_value_and_advance value).

Definition one_in_helper_arr (max : Z) : M Z :=
  read_helper (fun h => Eye.one_in_helper_arr h max).

Definition one_stride_helper_arr (max : Z) : M Z :=
  read_helper (fun h => Eye.one_stride_helper_arr h max).

Definition find_eye_in_helper_arr (left right max : Z) : M (Z * Z) :=
  read_helper (fun h => Eye.find_eye_in_helper_arr h left right max).

(** A call whose result is not used. *)
Definition call_ (name : string) (args : list Z) : M unit :=
  call name args ;; mret tt.

(** ** CS training: [ddr5_training.c], lines 57-162 *)

(** [!x] *)
Definition lnot_int (x : Z) : Z := if x =? 0 then 1 else 0.

(** [#define MAX(a, b) (a > b ? a : b)] and [#define MIN(a, b) (a < b ? a : b)] *)
Definition MAX (a b : Z) : Z := if a >? b then a else b.
Definition MIN (a b : Z) : Z := if a <? b then a else b.

Fixpoint reduce_cs_loop (cs : Z) (n : nat) (module ok : Z) : Z :=
  match n with
  | O => ok
  | S n' => reduce_cs_loop cs n' (module + 1) (Z.land ok (Z.land (Z.shiftr cs module) 1))
  end.

(** [reduce_cs], for [0 <= modules <= 32] (a larger shift count is undefined). *)
Definition reduce_cs (cs modules : Z) : Z :=
  bool_to_int (truthy (reduce_cs_loop cs (Z.to_nat modules) 0 1)).

(** Lines 81-86 of [CS_scan_single]: the primary-shift mask [works] after the
    two set tests.  [without_shift] and [seen] are the bit patterns of
    [helper_modules_without_shift] and [helper_modules_seen]; the
    comparisons of the source are made on [uint32_t]. *)
Definition cs_primary (works without_shift seen : Z) : Z :=
  let helper := Z.land works without_shift in
  let works := if helper =? without_shift then works else 0 in
  let helper := Z.land works (not_u32 without_shift) in
  if Z.land helper (not_u32 seen) =? helper then works else 0.

(** Lines 93-95: the opposite-shift mask [works_]. *)
Definition cs_opposite (works_ without_shift : Z) : Z :=
  let helper := Z.land works_ (not_u32 without_shift) in
  if helper =? works_ then works_ else 0.

(** Line 98: [works = works & works_ ? 0 : works | works_;] *)
Definition cs_combine (works works_ : Z) : Z :=
  if truthy (Z.land works works_) then 0 else Z.lor works works_.

(** One iteration of the loop of [CS_scan_single] (lines 75-102). *)
Definition CS_scan_single_tap (channel rank shift_0101 : Z) : M unit :=
  ctx ← get_ctx;
  r ← call "cs.check" [channel; rank; 0; shift_0101; modules ctx; die_width ctx];
  s ← get;
  let without_shift := if seen_working s then helper_modules_without_shift s else 0 in
  let seen := if seen_working s then helper_modules_seen s else 0 in
  let works := cs_primary (wrap_u32 r) without_shift seen in
  let without_shift := Z.lor without_shift works in
  let seen := Z.lor seen works in
  '(works_, seen) ←
    (if bool_decide (training_type ctx ≠ HOST_RCD) then
       r_ ← call "cs.check" [channel; rank; 0; lnot_int shift_0101; modules ctx; die_width ctx];
       let works_ := cs_opposite (wrap_u32 r_) without_shift in
       mret (works_, Z.lor seen works_)
     else mret (0, seen));
  let works := cs_combine works works_ in
  let v := reduce_cs works (modules ctx) in
  set_helper_arr_value_and_advance v;;
  modify (set_cs_statics without_shift seen (seen_working s || truthy v));;
  call_ "cs.inc_dly" [channel; rank; 0].

Definition CS_scan_single (channel rank shift_0101 : Z) : M unit :=
  ctx ← get_ctx;
  for_range 0 (max_delay_taps ctx) (fun _ => CS_scan_single_tap channel rank shift_0101);;
  call_ "cs.rst_dly" [channel; rank; 0].

(** [helper_modules_without_shift = 0; helper_modules_seen = 0;] *)
Definition clear_cs_sets : M unit :=
  modify (fun s => set_cs_statics 0 0 (seen_working s) s).

Definition CS_scan (channel rank : Z) : M bool :=
  ctx ← get_ctx;
  let max := max_delay_taps ctx in
  let shift := rd (cs_invert ctx) channel in
  clear_helper_arr;;
  modify (set_cs_statics 0 0 false);;
  call_ "cs.rst_dly" [channel; rank; 0];;
  call_ "cs.enter_training_mode" [channel; rank];;
  CS_scan_single channel rank shift;;
  shift ←
    (if bool_decide (training_type ctx = HOST_RCD) then
       one ← one_in_helper_arr max;
       if one =? -1 then
         stride ← one_stride_helper_arr max;
         if stride <? Z.quot max 8 then
           modify (set_ctx (set_cs_invert <[channel := 1]>));;
           clear_helper_arr;;
           clear_cs_sets;;
           CS_scan_single channel rank 1;;
           mret 1
         else mret shift
       else mret shift
     else mret shift);
  one ← one_in_helper_arr max;
  subtract ←
    (if one =? -1 then
       clear_helper_arr;;
       CS_scan_single channel rank (lnot_int shift);;
       CS_scan_single channel rank (lnot_int (lnot_int shift));;
       mret true
     else if one =? 1 then
       CS_scan_single channel rank (lnot_int shift);;
       mret false
     else if one =? 0 then
       clear_helper_arr;;
       clear_cs_sets;;
       CS_scan_single channel rank (lnot_int shift);;
       CS_scan_single channel rank shift;;
       mret false
     else mret false);
  call_ "cs.exit_training_mode" [channel; rank];;
  mret subtract.

(** ** CA training: lines 243-340 *)

Definition CA_setup_array : M unit :=
  ctx ← get_ctx;
  for_range 0 (channels ctx) (fun channel =>
    for_range 0 14 (fun address =>
      modify (set_ctx (set_ca_delays (fun d =>
        <[(channel, address, 1) := max_delay_taps ctx]>
          (<[(channel, address, 0) := - max_delay_taps ctx]> d)))))).

Definition CA_scan_single (channel rank address shift_back : Z) : M unit :=
  ctx ← get_ctx;
  call_ "ca.rst_dly" [channel; rank; address];;
  for_range 0 (max_delay_taps ctx) (fun _ =>
    works ← call "ca.check" [channel; rank; address; shift_back];
    set_helper_arr_value_and_advance works;;
    call_ "ca.inc_dly" [channel; rank; address]);;
  call_ "ca.rst_dly" [channel; rank; address].

Definition CA_scan (channel rank address : Z) : M unit :=
  clear_helper_arr;;
  call_ "ca.rst_dly" [channel; rank; address];;
  call_ "ca.enter_training_mode" [channel; rank];;
  CA_scan_single channel rank address 1;;
  CA_scan_single channel rank address 0;;
  call_ "ca.exit_training_mode" [channel; rank].

(** Lines 333-337: the running envelope of one address line takes in one
    more window. *)
Definition ca_widen (channel address right_side left_side : Z)
    (d : gmap (Z * Z * Z) Z) : gmap (Z * Z * Z) Z :=
  let d := if right_side >? rd d (channel, address, 0)
           then <[(channel, address, 0) := right_side]> d else d in
  if left_side <? rd d (channel, address, 1)
  then <[(channel, address, 1) := left_side]> d else d.

(** The body of the inner loop of [CA_training] (lines 314-337).  The result
    is [false] when the procedure stored 0 in [*success] and returned. *)
Definition CA_training_line (channel _rank address : Z) : M bool :=
  ctx ← get_ctx;
  CA_scan channel _rank address;;
  '(left_side, right_side) ←
    find_eye_in_helper_arr Eye.UNSET_DELAY Eye.UNSET_DELAY (max_delay_taps ctx);
  if (left_side =? Eye.UNSET_DELAY) || (right_side =? Eye.UNSET_DELAY) then
    printf "CA line:%2d Eye width:0 Failed" [address];;
    mret false
  else
    let right_side := right_side - max_delay_taps ctx in
    let left_side := left_side - max_delay_taps ctx in
    printf "CA[%d] %d:%d" [address; right_side; left_side];;
    modify (set_ctx (set_ca_delays (ca_widen channel address right_side left_side)));;
    mret true.

(** [CA_training]; the argument is the value of [*success] on entry, the
    result its value on return. *)
Definition CA_training (channel success : Z) : M Z :=
  ctx ← get_ctx;
  let _max_rank := if bool_decide (training_type ctx = HOST_RCD) then 1 else ranks ctx in
  ok ← for_while (Z.to_nat _max_rank) 0 (fun ok : bool => ok) (fun _rank _ =>
          for_while (Z.to_nat (ca_line_count ctx)) 0 (fun ok : bool => ok)
            (fun address _ => CA_training_line channel _rank address) true) true;
  mret (if ok : bool then success else 0).

(** ** CK finalization: lines 351-544 *)

(** [_channel] and [_max_channel] of the three procedures below: all
    channels when [channel == -1], else the one given. *)
Definition channel_span (ctx : training_ctx_t) (channel : Z) : Z * Z :=
  if channel =? -1 then (0, channels ctx) else (channel, channel + 1).

(** [for (i = lo; i < hi; ++i) acc = body(i, acc)] *)
Definition for_acc {S : Type} (lo hi : Z) (body : Z -> S -> M S) (acc : S) : M S :=
  for_while (Z.to_nat (hi - lo)) lo (fun _ => true) body acc.

Definition CS_CA_rescan (ckdly channel : Z) : M unit :=
  ctx ← get_ctx;
  let '(lo, hi) := channel_span ctx channel in
  for_range lo hi (fun _channel =>
    for_range 0 (ranks ctx) (fun _rank =>
      CS_scan _channel _rank;;
      call_ "cs.rst_dly" [_channel; _rank; 0];;
      c ← get_ctx;
      for_range 0 (rd (cs_final_delays c) (_channel, _rank)) (fun _ =>
        call_ "cs.inc_dly" [_channel; _rank; 0]));;
    for_range 0 (ranks ctx) (fun _rank =>
      if bool_decide (training_type ctx = HOST_RCD) && (_rank =? 1) then mret tt
      else
        for_range 0 (ca_line_count ctx) (fun address =>
          CA_scan _channel _rank address;;
          call_ "ca.rst_dly" [_channel; _rank; address];;
          c ← get_ctx;
          for_range 0 (rd (ca_final_delays c) (_channel, address)) (fun _ =>
            call_ "ca.inc_dly" [_channel; _rank; address])))).

(** The eye midpoints, [(right + left) / 2]. *)
Definition cs_midpoint (ctx : training_ctx_t) (channel rank : Z) : Z :=
  Z.quot (rd (cs_delays ctx) (channel, rank, 0) + rd (cs_delays ctx) (channel, rank, 1)) 2.

Definition ca_midpoint (ctx : training_ctx_t) (channel address : Z) : Z :=
  Z.quot (rd (ca_delays ctx) (channel, address, 0) + rd (ca_delays ctx) (channel, address, 1)) 2.

(** [CS_CA_calculate_midpoints]; the pair is [( *min, *max )]. *)
Definition CS_CA_calculate_midpoints (min max channel : Z) : M (Z * Z) :=
  ctx ← get_ctx;
  let '(lo, hi) := channel_span ctx channel in
  for_acc lo hi (fun _channel acc =>
    acc ← for_acc 0 (ranks ctx) (fun _rank '(min, max) =>
      c ← get_ctx;
      let temp := cs_midpoint c _channel _rank in
      modify (set_ctx (set_cs_final_delays <[(_channel, _rank) := temp]>));;
      mret (MIN min temp, MAX max temp)) acc;
    for_acc 0 (ca_line_count ctx) (fun address '(min, max) =>
      c ← get_ctx;
      let temp := ca_midpoint c _channel address in
      modify (set_ctx (set_ca_final_delays <[(_channel, address) := temp]>));;
      mret (MIN min temp, MAX max temp)) acc) (min, max).

Definition CS_CA_set_adjusted_delays (ck_offset channel : Z) : M unit :=
  ctx ← get_ctx;
  let '(lo, hi) := channel_span ctx channel in
  for_range lo hi (fun _channel =>
    for_range 0 (ranks ctx) (fun _rank =>
      modify (set_ctx (set_cs_final_delays (fun d =>
        <[(_channel, _rank) := rd d (_channel, _rank) - ck_offset]> d)));;
      call_ "cs.rst_dly" [_channel; _rank; 0];;
      c ← get_ctx;
      for_range 0 (rd (cs_final_delays c) (_channel, _rank)) (fun _ =>
        call_ "cs.inc_dly" [_channel; _rank; 0]));;
    for_range 0 (ca_line_count ctx) (fun address =>
      modify (set_ctx (set_ca_final_delays (fun d =>
        <[(_channel, address) := rd d (_channel, address) - ck_offset]> d)));;
      call_ "ca.rst_dly" [_channel; 0; address];;
      c ← get_ctx;
      for_range 0 (rd (ca_final_delays c) (_channel, address)) (fun _ =>
        call_ "ca.inc_dly" [_channel; 0; address]))).

Definition CK_CS_CA_finalize_timings (channel : Z) : M unit :=
  ctx ← get_ctx;
  let min := max_delay_taps ctx in
  let max := - max_delay_taps ctx in
  '(min, max) ← CS_CA_calculate_midpoints min max channel;
  let new_ckdly := Z.rem (max_delay_taps ctx - min) (max_delay_taps ctx) in
  call_ "ck.rst_dly" [channel; 0; 0];;
  for_range 0 new_ckdly (fun _ => call_ "ck.inc_dly" [channel; 0; 0]);;
  call_ "busy_wait" [10];;
  CS_CA_set_adjusted_delays min channel;;
  CS_CA_rescan new_ckdly channel.

(** ** Read training: lines 722-1115 *)

(** [DRAM_SCRATCH_PAD] is defined in a header that is not at hand. *)
Variable DRAM_SCRATCH_PAD : Z.

(** The build flag [KEEP_GOING_ON_DRAM_ERROR]: [true] when it is defined. *)
Variable KEEP_GOING_ON_DRAM_ERROR : bool.

Definition read_serial_number (channel rank module width : Z) : M Z :=
  for_acc 0 5 (fun i serial_number =>
    call_ "send_mrr" [channel; rank; 65 + i];;
    v ← call "recover_mrr_value" [channel; module; width];
    mret (Z.lor (Z.shiftl serial_number 8 mod 2 ^ 64) v)) 0.

Definition test_data : list Z := [0xDE; 0xAD; 0xBE; 0xEF].

Fixpoint simple_read_check_loop (channel rank module width : Z)
    (data : list Z) (works : Z) : M Z :=
  match data with
  | [] => mret works
  | d :: data' =>
      call_ "send_mrw" [channel; rank; module; DRAM_SCRATCH_PAD; d];;
      call_ "send_mrr" [channel; rank; DRAM_SCRATCH_PAD];;
      v ← call "recover_mrr_value" [channel; module; width];
      let read_back := v mod 256 in
      simple_read_check_loop channel rank module width data'
        (Z.land works (bool_to_int (read_back =? d)))
  end.

Definition simple_read_check (channel rank module width : Z) : M Z :=
  printf "Simple read check: " [];;
  simple_read_check_loop channel rank module width test_data 1.

(** [find_read_preamble_cycle], [read_training_data_scan], [enter_rptm] and
    [exit_rptm] touch nothing but the hardware and are left to the
    environment. *)
Definition rank_read_training (channel rank modules die_width max_taps : Z) : M bool :=
  call_ "enter_rptm" [channel; rank];;
  good ← for_acc 0 modules (fun module (good : bool) =>
    preamble_cycle ← call "find_read_preamble_cycle" [channel; rank; module; die_width; max_taps];
    if preamble_cycle =? -1 then mret false
    else
      ok ← call "read_training_data_scan"
             [channel; rank; module; die_width; max_taps; preamble_cycle];
      mret (if truthy ok then good else false)) true;
  call_ "exit_rptm" [channel; rank];;
  mret good.

(** [rank_read_check] with [_read_verbosity == 0]. *)
Definition rank_read_check (channel rank modules die_width : Z) (read_back_check : bool) : M bool :=
  for_range 0 modules (fun module =>
    serial_number ← read_serial_number channel rank module die_width;
    printf "Channel:%c rank:%2d module:%2d serial number: 0x%010X"
           [65 + channel; rank; module; serial_number]);;
  for_acc 0 modules (fun module (good : bool) =>
    if read_back_check then
      works ← simple_read_check channel rank module die_width;
      mret (if truthy works then good else false)
    else mret good) true.

(** The body of the rank loop of [sdram_ddr5_read_training] (lines
    1094-1108).  The state of the loops is the pair of [good] and of a flag
    that says that the procedure has returned. *)
Definition read_training_rank (channel rank : Z) (acc : bool * bool) : M (bool * bool) :=
  ctx ← get_ctx;
  let good := fst acc in
  printf "Training rank%2d" [rank];;
  g ← rank_read_training channel rank (modules ctx) (die_width ctx) (max_delay_taps ctx);
  let good := good && g in
  if negb KEEP_GOING_ON_DRAM_ERROR && negb good then mret (good, true)
  else
    g ← rank_read_check channel rank (modules ctx) (die_width ctx)
          (bool_decide (training_type ctx = HOST_DRAM) && negb (RDIMM ctx));
    let good := good && g in
    if negb KEEP_GOING_ON_DRAM_ERROR && negb good then mret (good, true)
    else mret (good, false).

Definition sdram_ddr5_read_training : M bool :=
  ctx ← get_ctx;
  '(good, _) ← for_while (Z.to_nat (channels ctx)) 0 (fun acc : bool * bool => negb (snd acc))
    (fun channel acc =>
       call_ "get_dimm_dq_remapping" [channel; modules ctx; die_width ctx];;
       printf "Subchannel:%c Read training" [65 + channel];;
       for_while (Z.to_nat (ranks ctx)) 0 (fun acc : bool * bool => negb (snd acc))
         (fun rank acc => read_training_rank channel rank acc) acc)
    (true, false);
  mret (if KEEP_GOING_ON_DRAM_ERROR then true else good).

(** ** Write training: lines 1320-1840 *)

(** Lines 1357-1362 of [write_leveling]: the adjustment by WL_ADJ_start made
    before internal write leveling, on the pair of [transition_cycle] and
    [transition_delay]. *)
Definition WL_ADJ_start (max_delay_taps : Z) (cd : Z * Z) : Z * Z :=
  let transition_cycle := fst cd - 1 in
  let transition_delay := snd cd + Z.quot max_delay_taps 4 in
  if transition_delay >=? max_delay_taps
  then (transition_cycle + 1, transition_delay - max_delay_taps)
  else (transition_cycle, transition_delay).

(** Lines 1394-1399: the adjustment made after internal write leveling. *)
Definition WL_ADJ_end (max_delay_taps : Z) (cd : Z * Z) : Z * Z :=
  let transition_cycle := fst cd + 1 in
  let transition_delay := snd cd + Z.quot max_delay_taps 4 in
  if transition_delay >=? max_delay_taps
  then (transition_cycle + 1, transition_delay - max_delay_taps)
  else (transition_cycle, transition_delay).

(** Lines 1370-1377 and 1405-1414: program the cycle and the output delay of
    the write strobe. *)
Definition set_wr_dqs (channel module die_width : Z) (cd : Z * Z) : M unit :=
  call_ "wr_dqs_rst" [channel; module; die_width];;
  for_range 0 (fst cd) (fun _ => call_ "wr_dqs_inc" [channel; module; die_width]);;
  call_ "odly_dqs_rst" [channel; module; die_width];;
  for_range 0 (snd cd) (fun _ => call_ "odly_dqs_inc" [channel; module; die_width]).

Inductive eye_state_t := BEFORE | INSIDE | AFTER.

Global Instance eye_state_eq_dec : EqDecision eye_state_t.
Proof. solve_decision. Defined.

(** [eye_t] and [DEFAULT_EYE], declared as in [lpddr5_helpers.h]. *)
Record eye_t := mk_eye {
  eye_state : eye_state_t;
  eye_start : Z;
  eye_center : Z;
  eye_end : Z;
}.

Definition DEFAULT_EYE : eye_t := mk_eye BEFORE (-1) (-1) (-1).

(** Lines 1646-1656 of [write_data_scan]: the two pattern families at the
    current tap; the result is the pair of [works] and [p_works].
    [write_serial_check] and [write_lfsr_check] are left to the environment
    ([DDR5_TRAINING_SIM] is not defined). *)
Definition write_data_tap (channel rank module : Z) : M (Z * Z) :=
  r ← call "write_serial_check" [channel; rank; module];
  let works := Z.land 1 r in
  if truthy works then
    l ← call "write_lfsr_check" [channel; rank; module];
    let works := Z.land works l in
    mret (works, if truthy works then 3 else 1)
  else mret (works, 0).

(** Lines 1663-1669 *)
Definition eye_step (eye : eye_t) (works tap : Z) : eye_t :=
  if truthy works && bool_decide (eye_state eye = BEFORE)
  then mk_eye INSIDE tap (eye_center eye) (eye_end eye)
  else if negb (truthy works) && bool_decide (eye_state eye = INSIDE)
  then mk_eye AFTER (eye_start eye) (eye_center eye) tap
  else eye.

(** Lines 1671-1675 *)
Definition serial_only_step (st : eye_state_t) (p_works : Z) : eye_state_t :=
  if truthy (Z.land p_works 1) && bool_decide (st = BEFORE) then INSIDE
  else if negb (truthy (Z.land p_works 1)) && bool_decide (st = INSIDE) then AFTER
  else st.

Definition scan_goes_on (acc : eye_t * eye_state_t) : bool :=
  negb (bool_decide (eye_state (fst acc) = AFTER)) && negb (bool_decide (snd acc = AFTER)).

(** The sweep of the output delays at one cycle (lines 1635-1680). *)
Definition write_data_scan_cycle (channel rank module print cycle : Z)
    (acc : eye_t * eye_state_t) : M (eye_t * eye_state_t) :=
  ctx ← get_ctx;
  (if truthy print then printf "%2d|" [cycle] else mret tt);;
  call_ "odly_dq_rst" [channel; module; die_width ctx];;
  acc ← for_acc 0 (max_delay_taps ctx) (fun delay acc =>
    '(works, p_works) ← write_data_tap channel rank module;
    (if truthy print then printf "%d" [p_works] else mret tt);;
    call_ "odly_dq_inc" [channel; module; die_width ctx];;
    mret (eye_step (fst acc) works (cycle * max_delay_taps ctx + delay),
          serial_only_step (snd acc) p_works)) acc;
  call_ "wr_dq_inc" [channel; module; die_width ctx];;
  mret acc.

(** The cycle loop of [write_data_scan] (line 1634): it runs while
    [cycle < 65 && cycle < write_strobe_cycle + 5] and no eye has closed.
    The result is the pair of [eye] and of the state of
    [serial_only_eye]. *)
Definition write_data_scan_sweep (channel rank module write_strobe_cycle print : Z)
    : M (eye_t * eye_state_t) :=
  for_while
    (Z.to_nat (Z.min 65 (write_strobe_cycle + 5) - (write_strobe_cycle - 3)))
    (write_strobe_cycle - 3) scan_goes_on
    (write_data_scan_cycle channel rank module print) (DEFAULT_EYE, BEFORE).

Definition write_data_scan (channel rank module write_strobe_cycle print : Z) : M eye_t :=
  ctx ← get_ctx;
  call_ "wr_dq_rst" [channel; module; die_width ctx];;
  for_range 0 (write_strobe_cycle - 3) (fun _ =>
    call_ "wr_dq_inc" [channel; module; die_width ctx]);;
  acc ← write_data_scan_sweep channel rank module write_strobe_cycle print;
  mret (fst acc).

(** Lines 1749-1752 of [moduel_dm_scan]: [works] after the byte loop.
    [write_dm_lfsr_check] is left to the environment. *)
Definition dm_tap (channel rank module mr5 : Z) : M Z :=
  for_while 16 0 truthy (fun byte works =>
    call_ "write_dm_lfsr_check" [channel; rank; module; byte; mr5];;
    mret works) 1.

(** Lines 1757-1767 *)
Definition dm_eye_step (max_delay_taps : Z) (eye : eye_t) (works delay : Z) : eye_t :=
  let eye := if truthy works && bool_decide (eye_state eye = BEFORE)
             then mk_eye INSIDE delay (eye_center eye) (eye_end eye) else eye in
  if negb (truthy works) && bool_decide (eye_state eye = INSIDE)
  then mk_eye AFTER (eye_start eye) (eye_center eye) delay
  else if (delay =? max_delay_taps - 1) && bool_decide (eye_state eye = INSIDE)
  then mk_eye AFTER (eye_start eye) (eye_center eye) (delay + 1)
  else eye.

(** The delay loop of [moduel_dm_scan] (lines 1743-1769). *)
Definition moduel_dm_scan_eye (channel rank module mr5 : Z) : M eye_t :=
  ctx ← get_ctx;
  call_ "odly_dm_rst" [channel; module; die_width ctx];;
  for_while (Z.to_nat (max_delay_taps ctx)) 0
    (fun eye => negb (bool_decide (eye_state eye = AFTER)))
    (fun delay eye =>
       works ← dm_tap channel rank module mr5;
       printf "%d" [works];;
       call_ "odly_dm_inc" [channel; module; die_width ctx];;
       mret (dm_eye_step (max_delay_taps ctx) eye works delay)) DEFAULT_EYE.

Definition moduel_dm_scan (channel rank module mr5 : Z) : M bool :=
  ctx ← get_ctx;
  eye_dm ← moduel_dm_scan_eye channel rank module mr5;
  let good := bool_decide (eye_state eye_dm = AFTER) in
  let middle_delay := Z.quot (eye_start eye_dm + eye_end eye_dm) 2 in
  printf "eye_width:%2d; eye center: delay:%2d"
         [eye_end eye_dm - eye_start eye_dm; middle_delay];;
  call_ "odly_dm_rst" [channel; module; die_width ctx];;
  for_range 0 middle_delay (fun _ => call_ "odly_dm_inc" [channel; module; die_width ctx]);;
  mret good.

End WithEnv.

(** * The rest of the training code

    The procedures of [eye_detection_helper.c] and [ddr5_training.c] that
    the development above left to the environment or did not need. *)

(** ** Write patterns: [ddr5_training.c], lines 1418-1621 *)

Definition wrap_u8 (z : Z) : Z := z mod 2 ^ 8.
Definition wrap_u16 (z : Z) : Z := z mod 2 ^ 16.

(** [static const uint8_t seeds0[]], [seeds1[]] and [static const uint16_t
    serial[]] ([DDR5_TRAINING_SIM] is not defined). *)
Definition seeds0 : list Z := [0x1c; 0x5a; 0x24; 0x11; 0x36; 0xaa; 0xc1; 0xee].
Definition seeds1 : list Z := [0x72; 0x55; 0x95; 0x3e; 0x59; 0x3c; 0x48; 0xfd].
Definition seeds_count : Z := Z.of_nat (length seeds0).

Definition serial : list Z :=
  [0x0000; 0xffff;
   0xfffe; 0xfffd; 0xfffb; 0xfff7; 0xffef; 0xffdf; 0xffbf; 0xff7f;
   0xfeff; 0xfdff; 0xfbff; 0xf7ff; 0xefff; 0xdfff; 0xbfff; 0x7fff;
   0x0001; 0x0002; 0x0004; 0x0008; 0x0010; 0x0020; 0x0040; 0x0080;
   0x0100; 0x0200; 0x0400; 0x0800; 0x1000; 0x2000; 0x4000; 0x8000].
Definition serial_count : Z := Z.of_nat (length serial).

(** A value that C leaves undefined (an index outside an array). *)
Definition lift_option {A} (o : option A) : M A := fun s =>
  match o with
  | None => None
  | Some a => Some (a, s)
  end.

(** [(serial[cnt_seed] >> k) & 1] *)
Definition serial_bit (cnt_seed k : Z) : option Z :=
  match Eye.arr_get serial cnt_seed with
  | None => None
  | Some v => Some (Z.land (Z.shiftr v k) 1)
  end.

(** [for (temp = 0; temp < die_width; ++temp) wrdata |= bit << (temp + off);]
    on a [uint16_t wrdata], with [n] iterations left; [bit] is read in every
    iteration. *)
Fixpoint or_bits (n : nat) (temp : Z) (bit : option Z) (off wrdata : Z) : option Z :=
  match n with
  | O => Some wrdata
  | S n' =>
      match bit with
      | None => None
      | Some b =>
          or_bits n' (temp + 1) bit off (wrap_u16 (Z.lor wrdata (Z.shiftl b (temp + off))))
      end
  end.

(** Lines 1425-1431 of [setup_serial_write_data]: the word written in phase
    [it]. *)
Definition serial_wrdata (die_width cnt_seed it : Z) : option Z :=
  match or_bits (Z.to_nat die_width) 0 (serial_bit cnt_seed (2 * it)) 0 0 with
  | None => None
  | Some wrdata =>
      or_bits (Z.to_nat die_width) 0 (serial_bit cnt_seed (2 * it + 1)) die_width wrdata
  end.

(** [for (temp = 0; temp < die_width; ++temp)
       works &= !!(((rddata >> (temp + off)) & 1) == bit);] *)
Fixpoint and_bits (n : nat) (temp : Z) (rddata : Z) (bit : option Z) (off works : Z)
    : option Z :=
  match n with
  | O => Some works
  | S n' =>
      match bit with
      | None => None
      | Some b =>
          and_bits n' (temp + 1) rddata bit off
            (Z.land works (bool_to_int (Z.land (Z.shiftr rddata (temp + off)) 1 =? b)))
      end
  end.

(** Lines 1451-1454 of [compare_serial_write_data]: [works] after the two
    loops over the data lines of one phase. *)
Definition serial_compare (die_width cnt_seed phase rddata works : Z) : option Z :=
  match and_bits (Z.to_nat die_width) 0 rddata (serial_bit cnt_seed (2 * phase)) 0 works with
  | None => None
  | Some works =>
      and_bits (Z.to_nat die_width) 0 rddata (serial_bit cnt_seed (2 * phase + 1))
               die_width works
  end.

Section WritePatterns.

Variable env : env_t.

(** [lfsr_next] is defined in a header that is not at hand. *)
Variable lfsr_next : Z -> Z.

Definition setup_serial_write_data (cnt_seed channel module print : Z) : M unit :=
  ctx ← get_ctx;
  (if truthy print then printf "wrdata:" [] else mret tt);;
  for_range 0 8 (fun it =>
    wrdata ← lift_option (serial_wrdata (die_width ctx) cnt_seed it);
    (if truthy print then printf "%04x|" [wrdata] else mret tt);;
    call_ env "set_data_module_phase" [channel; module; die_width ctx; it; wrdata]).

Definition compare_serial_write_data (cnt_seed channel module print : Z) : M Z :=
  ctx ← get_ctx;
  (if truthy print then printf "rddata:" [] else mret tt);;
  for_while 8 0 truthy (fun phase works =>
    r ← call env "get_data_module_phase" [channel; module; die_width ctx; phase];
    let rddata := wrap_u16 r in
    (if truthy print then printf "%04x|" [rddata] else mret tt);;
    lift_option (serial_compare (die_width ctx) cnt_seed phase rddata works)) 1.

(** [for (it = 0; it < 8; ++it) set_data_module_phase(channel, module,
    ctx->die_width, it, 0);] *)
Definition clear_write_data (channel module : Z) : M unit :=
  ctx ← get_ctx;
  for_range 0 8 (fun it =>
    call_ env "set_data_module_phase" [channel; module; die_width ctx; it; 0]).

(** [write_serial_check] with [_write_verbosity == 0].  The procedure
    returns as soon as [works] is 0. *)
Definition write_serial_check (channel rank module : Z) : M Z :=
  for_while (Z.to_nat serial_count) 0 truthy (fun cnt_seed works =>
    setup_serial_write_data cnt_seed channel module 0;;
    works ← for_while 8 0 truthy (fun _ works =>
      call_ env "send_write" [channel; rank];;
      call_ env "send_read" [channel; rank];;
      c ← compare_serial_write_data cnt_seed channel module 0;
      mret (Z.land works c)) works;
    if truthy works then
      clear_write_data channel module;;
      call_ env "send_write" [channel; rank];;
      mret works
    else mret works) 1.

(** One phase of [setup_lfsr_write_data] (lines 1493-1498): the word written
    and the next state of the [uint8_t lfsr]. *)
Definition lfsr_wrdata (die_width lfsr : Z) : Z * Z :=
  let wrdata := wrap_u16 (Z.lxor lfsr 0x55) in
  let lfsr := wrap_u8 (lfsr_next lfsr) in
  if die_width >? 4 then
    (wrap_u16 (Z.lor wrdata (Z.shiftl (Z.lxor lfsr 0x55) 8)), wrap_u8 (lfsr_next lfsr))
  else (wrdata, lfsr).

Definition setup_lfsr_write_data (seed channel module print : Z) : M unit :=
  ctx ← get_ctx;
  for_acc 0 8 (fun it lfsr =>
    let '(wrdata, lfsr) := lfsr_wrdata (die_width ctx) lfsr in
    (if truthy print then printf "wrdata:%04x|" [wrdata] else mret tt);;
    call_ env "set_data_module_phase" [channel; module; die_width ctx; it; wrdata];;
    mret lfsr) (wrap_u8 seed);;
  mret tt.

(** One phase of [compare_lfsr_write_data] (lines 1517-1523): [works] and
    the next state of [lfsr]. *)
Definition lfsr_compare (die_width rddata : Z) (acc : Z * Z) : Z * Z :=
  let '(works, lfsr) := acc in
  let works := Z.land works (bool_to_int (Z.land rddata 0xff =? Z.lxor lfsr 0x55)) in
  let lfsr := wrap_u8 (lfsr_next lfsr) in
  if die_width >? 4 then
    let rddata := Z.shiftr rddata 8 in
    (Z.land works (bool_to_int (Z.land rddata 0xff =? Z.lxor lfsr 0x55)),
     wrap_u8 (lfsr_next lfsr))
  else (works, lfsr).

Definition compare_lfsr_write_data (seed channel module print : Z) : M Z :=
  ctx ← get_ctx;
  acc ← for_while 8 0 (fun acc : Z * Z => truthy (fst acc)) (fun it acc =>
    r ← call env "get_data_module_phase" [channel; module; die_width ctx; it];
    let rddata := wrap_u16 r in
    (if truthy print then printf "rddata:%04x|" [rddata] else mret tt);;
    mret (lfsr_compare (die_width ctx) rddata acc)) (1, wrap_u8 seed);
  mret (fst acc).

(** [seed] of the round [cnt_seed] of [write_lfsr_check] and of
    [write_dm_lfsr_check]. *)
Definition lfsr_seed (cnt_seed : Z) : option Z :=
  if cnt_seed <? seeds_count then Eye.arr_get seeds0 cnt_seed
  else Eye.arr_get seeds1 (cnt_seed - seeds_count).

(** [write_lfsr_check] with [_write_verbosity == 0]. *)
Definition write_lfsr_check (channel rank module : Z) : M Z :=
  for_while (Z.to_nat (seeds_count * 2)) 0 truthy (fun cnt_seed works =>
    seed ← lift_option (lfsr_seed cnt_seed);
    works ← for_while 16 0 truthy (fun _ works =>
      setup_lfsr_write_data seed channel module 0;;
      call_ env "send_write" [channel; rank];;
      call_ env "send_read" [channel; rank];;
      c ← compare_lfsr_write_data seed channel module 0;
      mret (Z.land works c)) works;
    if truthy works then
      clear_write_data channel module;;
      call_ env "send_write" [channel; rank];;
      mret works
    else mret works) 1.

(** [compare_dm_lfsr_write_data] with [_write_verbosity <= 1]. *)
Definition compare_dm_lfsr_write_data (seed channel module byte : Z) : M Z :=
  ctx ← get_ctx;
  acc ← for_acc 0 16 (fun it (acc : Z * Z) =>
    let '(works, lfsr) := acc in
    r ← call env "get_data_module_phase" [channel; module; die_width ctx; Z.quot it 2];
    let rddata := wrap_u16 r in
    let rddata := if truthy (Z.land it 1) then Z.shiftr rddata 8 else rddata in
    let works := if byte =? it
                 then Z.land works (bool_to_int (Z.land rddata 0xff =? lfsr))
                 else works in
    mret (works, wrap_u8 (lfsr_next lfsr))) (1, wrap_u8 seed);
  mret (fst acc).

(** [write_dm_lfsr_check]; [send_write_byte] is left to the environment. *)
Definition write_dm_lfsr_check (channel rank module byte mr5 : Z) : M Z :=
  for_while (Z.to_nat (seeds_count * 2)) 0 truthy (fun cnt_seed works =>
    seed ← lift_option (lfsr_seed cnt_seed);
    call_ env "send_mrw" [channel; rank; module; 5; Z.land mr5 0xDF];;
    clear_write_data channel module;;
    call_ env "send_write" [channel; rank];;
    call_ env "send_mrw" [channel; rank; module; 5; mr5];;
    setup_lfsr_write_data seed channel module 0;;
    call_ env "send_write_byte" [channel; rank; module; byte];;
    call_ env "send_read" [channel; rank];;
    c ← compare_dm_lfsr_write_data seed channel module byte;
    let works := Z.land works c in
    clear_write_data channel module;;
    call_ env "send_write" [channel; rank];;
    mret works) 1.

End WritePatterns.

(** ** Read training, the scans: [ddr5_training.c], lines 785-978 *)

Section ReadScans.

Variable env : env_t.

(** [MAX_READ_CYCLE_DELAY] is defined in a header that is not at hand. *)
Variable MAX_READ_CYCLE_DELAY : Z.

(** The build flag [KEEP_GOING_ON_DRAM_ERROR]: [true] when it is defined. *)
Variable KEEP_GOING_ON_DRAM_ERROR : bool.

(** [rd_cycle_dly_idly_check_if_works] with [_read_verbosity <= 1];
    [compare_serial] and [compare] are left to the environment. *)
Definition rd_cycle_dly_idly_check_if_works (channel rank module width : Z) : M Z :=
  works ← for_while (Z.to_nat serial_count) 0 truthy (fun seed works =>
    pattern ← lift_option (Eye.arr_get serial seed);
    call_ env "send_mrw" [channel; rank; module; 25; 0];;
    call_ env "send_mrw" [channel; rank; module; 26; Z.land pattern 0xff];;
    call_ env "send_mrw" [channel; rank; module; 27; Z.shiftr pattern 8];;
    for_while 16 0 truthy (fun _ works =>
      call_ env "send_mrr" [channel; rank; 31];;
      c ← call env "compare_serial" [channel; rank; module; width; pattern; 0xA5; 0];
      mret (Z.land works c)) works) 1;
  if negb (truthy works) then mret works
  else
    works ← for_while (Z.to_nat seeds_count) 0 truthy (fun seed works =>
      seed0 ← lift_option (Eye.arr_get seeds0 seed);
      seed1 ← lift_option (Eye.arr_get seeds1 seed);
      for_while 16 0 truthy (fun _ works =>
        call_ env "send_mrw" [channel; rank; module; 25; 1];;
        call_ env "send_mrw" [channel; rank; module; 26; seed0];;
        call_ env "send_mrw" [channel; rank; module; 27; seed1];;
        call_ env "send_mrr" [channel; rank; 31];;
        c ← call env "compare"
              [channel; rank; module; width; seed0; seed1; 0xA5; 0x33; 0];
        mret (Z.land works c)) works) works;
    if negb (truthy works) then mret 1 else mret 3.

(** Lines 872-877 of [find_read_preamble_cycle]. *)
Definition preamble_step (eye : eye_t) (preamble rd_cycle_dly : Z) : eye_t :=
  if (preamble =? 4) && bool_decide (eye_state eye = BEFORE)
  then mk_eye INSIDE rd_cycle_dly (eye_center eye) (eye_end eye)
  else if negb (preamble =? 4) && bool_decide (eye_state eye = INSIDE)
  then mk_eye AFTER (eye_start eye) (eye_center eye) (eye_end eye)
  else eye.

(** [find_read_preamble_cycle] with [_read_verbosity == 0]. *)
Definition find_read_preamble_cycle (channel rank module width max_delay_taps : Z) : M Z :=
  call_ env "rd_rst" [channel; module; width];;
  eye ← for_while (Z.to_nat MAX_READ_CYCLE_DELAY) 0
    (fun eye => negb (bool_decide (eye_state eye = AFTER)))
    (fun rd_cycle_dly eye =>
       call_ env "idly_rst" [channel; module; width];;
       eye ← for_acc 0 max_delay_taps (fun _ eye =>
         call_ env "send_mrr" [channel; rank; 31];;
         preamble ← call env "captured_preamble" [channel; module; width];
         call_ env "idly_inc" [channel; module; width];;
         mret (preamble_step eye preamble rd_cycle_dly)) eye;
       call_ env "rd_inc" [channel; module; width];;
       mret eye) DEFAULT_EYE;
  mret (eye_start eye).

(** Lines 928-934 of [read_training_data_scan]. *)
Definition data_step (eye : eye_t) (works tap : Z) : eye_t :=
  if (works =? 3) && bool_decide (eye_state eye = BEFORE)
  then mk_eye INSIDE tap (eye_center eye) (eye_end eye)
  else if negb (works =? 3) && bool_decide (eye_state eye = INSIDE)
  then mk_eye AFTER (eye_start eye) (eye_center eye) tap
  else eye.

(** The scan of [read_training_data_scan] (lines 909-944), from the cycle
    [preamble_cycle] that has been pulled back already. *)
Definition read_data_scan_eye (channel rank module width max_delay_taps preamble_cycle : Z)
    : M eye_t :=
  call_ env "rd_rst" [channel; module; width];;
  for_range 0 preamble_cycle (fun _ => call_ env "rd_inc" [channel; module; width]);;
  for_while (Z.to_nat (MAX_READ_CYCLE_DELAY - preamble_cycle)) preamble_cycle
    (fun eye => negb (bool_decide (eye_state eye = AFTER)))
    (fun rd_cycle_dly eye =>
       printf "%2d|" [rd_cycle_dly];;
       call_ env "idly_rst" [channel; module; width];;
       eye ← for_acc 0 max_delay_taps (fun idly eye =>
         works ← rd_cycle_dly_idly_check_if_works channel rank module width;
         printf "%d" [works];;
         call_ env "idly_inc" [channel; module; width];;
         mret (data_step eye works (rd_cycle_dly * max_delay_taps + idly))) eye;
       call_ env "rd_inc" [channel; module; width];;
       mret eye) DEFAULT_EYE.

(** [read_training_data_scan] with [_read_verbosity == 0]. *)
Definition read_training_data_scan
    (channel rank module width max_delay_taps preamble_cycle : Z) : M bool :=
  let preamble_cycle := preamble_cycle - 1 in
  eye ← read_data_scan_eye channel rank module width max_delay_taps preamble_cycle;
  if negb (bool_decide (eye_state eye = AFTER)) then
    printf "Read training data scan failed for: channel:%c rank:%d module:%d"
           [65 + channel; rank; module];;
    mret KEEP_GOING_ON_DRAM_ERROR
  else
    let eye_width := eye_end eye - eye_start eye in
    let center := eye_start eye + Z.quot eye_width 2 in
    let eye_center_cycle := Z.quot center max_delay_taps in
    let eye_center_delay := Z.rem center max_delay_taps in
    printf "eye_width:%2d; eye center: cycle:%2d,delay:%2d"
           [eye_width; eye_center_cycle; eye_center_delay];;
    call_ env "rd_rst" [channel; module; width];;
    for_range 0 eye_center_cycle (fun _ => call_ env "rd_inc" [channel; module; width]);;
    call_ env "idly_rst" [channel; module; width];;
    for_range 0 eye_center_delay (fun _ => call_ env "idly_inc" [channel; module; width]);;
    mret true.

End ReadScans.

(** ** Write leveling, the cycle alignments: [ddr5_training.c], lines 1127-1297 *)

Section WriteLeveling.

Variable env : env_t.

(** Three macros of headers that are not at hand. *)
Variable SDRAM_PHY_CWL : Z.
Variable SDRAM_PHY_MIN_WR_LATENCY : Z.
Variable MAX_WRITE_CYCLE_DELAY : Z.

(** Lines 1196-1199 and 1287-1289: the first passing check opens the eye. *)
Definition wltm_step (eye : eye_t) (works start : Z) : eye_t :=
  if truthy works && bool_decide (eye_state eye = BEFORE)
  then mk_eye INSIDE start (eye_center eye) (eye_end eye)
  else eye.

(** [wltm_align_external_cycle], built without [DDR5_TRAINING_SIM].  The
    first loop leaves [wr_dqs_cycle_dly] at [minimal_wr_dqs_cycle_dly], or at
    0 when that is negative; the second loop goes on from there. *)
Definition wltm_align_external_cycle (channel rank module width : Z) : M Z :=
  let minimal_wr_dqs_cycle_dly := Z.quot SDRAM_PHY_CWL 2 - SDRAM_PHY_MIN_WR_LATENCY in
  call_ env "wr_dqs_rst" [channel; module; width];;
  for_range 0 minimal_wr_dqs_cycle_dly (fun _ =>
    call_ env "wr_dqs_inc" [channel; module; width]);;
  let first := Z.max 0 minimal_wr_dqs_cycle_dly in
  eye ← for_while (Z.to_nat (MAX_WRITE_CYCLE_DELAY - first)) first
    (fun eye => negb (bool_decide (eye_state eye = INSIDE)))
    (fun wr_dqs_cycle_dly eye =>
       printf "%2d|" [wr_dqs_cycle_dly];;
       works ← for_acc 0 16 (fun _ works =>
         temp ← call env "wr_dqs_check_if_works" [channel; rank; module; width];
         printf "%d" [temp];;
         mret (Z.land works temp)) 1;
       printf "|%d" [works];;
       let eye := wltm_step eye works wr_dqs_cycle_dly in
       call_ env "wr_dqs_inc" [channel; module; width];;
       mret eye) DEFAULT_EYE;
  mret (eye_start eye).

(** [wltm_align_internal_cycle], built without [DDR5_TRAINING_SIM].  The
    argument [single_cycle_MPC] is the value of the global of that name;
    the result is the value that the procedure stores in the static
    [use_internal_write_timing].  The [do ... while] loop starts with the
    eye not [INSIDE] and [wica = 0], so its guard holds before the first
    round as well. *)
Definition wltm_align_internal_cycle (single_cycle_MPC channel rank module width : Z) : M Z :=
  printf "DQS internal cycle alignment" [];;
  let use_internal_write_timing := Z.shiftl 1 7 in
  call_ env "send_mrw"
    [channel; rank; module; 2; Z.lor (Z.lor 2 use_internal_write_timing) single_cycle_MPC];;
  for_while 7 0
    (fun eye => negb (bool_decide (eye_state eye = INSIDE)))
    (fun wica eye =>
       call_ env "send_mrw" [channel; rank; module; 3; wica];;
       works ← for_while 16 0 truthy (fun _ works =>
         c ← call env "wr_dqs_check_if_works" [channel; rank; module; width];
         mret (Z.land works c)) 1;
       printf "WICA:%d,%d|" [wica; works];;
       mret (wltm_step eye works (eye_start eye))) DEFAULT_EYE;;
  mret use_internal_write_timing.

End WriteLeveling.

(** ** Write leveling: [ddr5_training.c], lines 1220-1247 and 1320-1416 *)

Section WriteLevelingFlow.

Variable env : env_t.
Variable SDRAM_PHY_CWL : Z.
Variable SDRAM_PHY_MIN_WR_LATENCY : Z.
Variable MAX_WRITE_CYCLE_DELAY : Z.

(** The value of the global [single_cycle_MPC], which write leveling reads
    and does not write. *)
Variable single_cycle_MPC : Z.

(** [wleveling_scan] is in a file that is not at hand.  It is given the
    address of the eye; what it leaves there is taken from
    [wleveling_scan_eye], a function of the trace so far, of its other
    arguments and of the eye that it finds there. *)
Variable wleveling_scan_eye : trace -> list Z -> eye_t -> eye_t.

Definition wleveling_scan (channel rank module width max_delay_taps : Z) (eye : eye_t)
    : M eye_t :=
  let args := [channel; rank; module; width; max_delay_taps] in
  s ← get;
  call_ env "wleveling_scan" args;;
  mret (wleveling_scan_eye (st_hw s) args eye).

(** [wltm_align_to_eye_edge]; the result is the pair of the value left in
    [*transition_cycle] and of the value returned.  The loop carries the
    pair of [*transition_cycle] and [eye]; its counter is
    [*transition_cycle] before the round. *)
Definition wltm_align_to_eye_edge (channel rank module width max_delay_taps
    transition_cycle : Z) : M (Z * Z) :=
  let transition_cycle := transition_cycle - 1 in
  call_ env "wr_dqs_rst" [channel; module; width];;
  for_range 0 transition_cycle (fun _ => call_ env "wr_dqs_inc" [channel; module; width]);;
  printf "DQS edge scan:" [];;
  printf "%2d|" [transition_cycle];;
  eye ← wleveling_scan channel rank module width max_delay_taps DEFAULT_EYE;
  printf "|" [];;
  acc ← for_while (Z.to_nat (MAX_WRITE_CYCLE_DELAY - transition_cycle)) transition_cycle
    (fun acc : Z * eye_t => negb (bool_decide (eye_state (snd acc) = INSIDE)))
    (fun cycle acc =>
       call_ env "wr_dqs_inc" [channel; module; width];;
       let transition_cycle := cycle + 1 in
       printf "%2d|" [transition_cycle];;
       eye ← wleveling_scan channel rank module width max_delay_taps (snd acc);
       printf "|" [];;
       mret (transition_cycle, eye))
    (transition_cycle, eye);
  mret (fst acc, eye_start (snd acc)).

(** [write_leveling], built without [WRITE_INFO_DDR5].  [enter_wltm] is
    left to the environment. *)
Definition write_leveling (channel rank module : Z) : M Z :=
  ctx ← get_ctx;
  call_ env "enter_wltm" [channel; rank];;
  printf "WL m:%2d" [module];;
  call_ env "odly_dqs_rst" [channel; module; die_width ctx];;
  transition_cycle ←
    wltm_align_external_cycle env SDRAM_PHY_CWL SDRAM_PHY_MIN_WR_LATENCY MAX_WRITE_CYCLE_DELAY
      channel rank module (die_width ctx);
  if transition_cycle =? -1 then
    printf "Failed to find a transition cycle for module %2d" [module];;
    mret transition_cycle
  else
    printf "DQS write leveling response transition starts in cycle:%2d (adjusted %2d)"
      [transition_cycle; transition_cycle + SDRAM_PHY_MIN_WR_LATENCY];;
    cd ← wltm_align_to_eye_edge channel rank module (die_width ctx)
           (max_delay_taps ctx) transition_cycle;
    let cd := WL_ADJ_start (max_delay_taps ctx) cd in
    set_wr_dqs env channel module (die_width ctx) cd;;
    wltm_align_internal_cycle env single_cycle_MPC channel rank module (die_width ctx);;
    cd ← wltm_align_to_eye_edge channel rank module (die_width ctx)
           (max_delay_taps ctx) (fst cd);
    let cd := WL_ADJ_end (max_delay_taps ctx) cd in
    printf "Final timing values: cycles:%2d(adjusted %2d) delay:%2d"
      [fst cd; fst cd + SDRAM_PHY_MIN_WR_LATENCY; snd cd];;
    set_wr_dqs env channel module (die_width ctx) cd;;
    mret (fst cd).

End WriteLevelingFlow.

(** ** Write training, the reference voltage: [ddr5_training.c], lines 1685-1886 *)

(** [arr[i] = v] *)
Definition arr_set (arr : list Z) (i v : Z) : option (list Z) :=
  if (0 <=? i) && (i <? Z.of_nat (length arr)) then Some (<[Z.to_nat i := v]> arr) else None.

(** Lines 1719-1723 of [moduel_dq_vref_scan], with [n] rounds left:
    [for (; _width < eye.center; ++_width) {
       if (eye_width_range[0][_width] == -1) eye_width_range[0][_width] = vref;
       eye_width_range[1][_width] = vref + 1; }].
    The pair holds the two rows of [eye_width_range]. *)
Fixpoint mark_widths (n : nat) (_width vref : Z) (range : list Z * list Z)
    : option (list Z * list Z) :=
  match n with
  | O => Some range
  | S n' =>
      match Eye.arr_get (fst range) _width with
      | None => None
      | Some first =>
          match (if first =? -1 then arr_set (fst range) _width vref else Some (fst range)),
                arr_set (snd range) _width (vref + 1) with
          | Some row0, Some row1 => mark_widths n' (_width + 1) vref (row0, row1)
          | _, _ => None
          end
      end
  end.

(** Lines 1726-1729, with [n] rounds left:
    [for (; _width < SDRAM_PHY_DELAYS; ++_width)
       if (eye_width_range[0][_width] != -1)
         best_vref = (eye_width_range[0][_width] + eye_width_range[1][_width]) / 2;] *)
Fixpoint best_vref_loop (n : nat) (_width : Z) (range : list Z * list Z) (best_vref : Z)
    : option Z :=
  match n with
  | O => Some best_vref
  | S n' =>
      match Eye.arr_get (fst range) _width with
      | None => None
      | Some first =>
          if negb (first =? -1) then
            match Eye.arr_get (snd range) _width with
            | None => None
            | Some last => best_vref_loop n' (_width + 1) range (Z.quot (first + last) 2)
            end
          else best_vref_loop n' (_width + 1) range best_vref
      end
  end.

Section Vref.

Variable env : env_t.

(** [SDRAM_PHY_DELAYS] is defined in a header that is not at hand. *)
Variable SDRAM_PHY_DELAYS : Z.

(** The build flag [KEEP_GOING_ON_DRAM_ERROR]: [true] when it is defined. *)
Variable KEEP_GOING_ON_DRAM_ERROR : bool.

(** Lines 1689-1696: both rows of [eye_width_range] set to -1. *)
Definition eye_width_range_init : list Z * list Z :=
  (replicate (Z.to_nat SDRAM_PHY_DELAYS) (-1), replicate (Z.to_nat SDRAM_PHY_DELAYS) (-1)).

(** [moduel_dq_vref_scan] with [_write_verbosity == 0], built without
    [DDR5_TRAINING_SIM]. *)
Definition moduel_dq_vref_scan (channel rank module wl_cycle : Z) : M Z :=
  range ← for_acc 0x32 0x46 (fun vref range =>
    call_ env "send_mrw" [channel; rank; module; 10; vref];;
    call_ env "busy_wait_us" [1];;
    eye ← write_data_scan env channel rank module wl_cycle 0;
    let center := eye_end eye - eye_start eye in
    lift_option (mark_widths (Z.to_nat center) 0 vref range)) eye_width_range_init;
  best_vref ← lift_option (best_vref_loop (Z.to_nat SDRAM_PHY_DELAYS) 0 range (-1));
  printf "m%2d|Best Vref:%2x" [module; best_vref];;
  (if best_vref >? -1 then
     call_ env "send_mrw" [channel; rank; module; 10; best_vref];;
     call_ env "busy_wait_us" [1]
   else mret tt);;
  call_ env "send_mrr" [channel; rank; 10];;
  mret best_vref.

(** [module_vref_scan] with [_write_verbosity == 0]; [mr5] is a
    [uint8_t].  The divisions by [ctx->max_delay_taps] have no result when
    that is 0. *)
Definition module_vref_scan (channel rank module wl_cycle : Z) : M Z :=
  ctx ← get_ctx;
  let width := die_width ctx in
  call_ env "send_mrr" [channel; rank; 5];;
  mr5 ← call env "recover_mrr_value" [channel; module; width];
  let mr5 := wrap_u8 mr5 in
  call_ env "send_mrw" [channel; rank; module; 5; Z.land mr5 0xDF];;
  call_ env "wr_dq_rst" [channel; module; width];;
  call_ env "odly_dq_rst" [channel; module; width];;
  best_vref ← moduel_dq_vref_scan channel rank module wl_cycle;
  if negb KEEP_GOING_ON_DRAM_ERROR && (best_vref =? -1) then mret best_vref
  else
    call_ env "wr_dq_rst" [channel; module; width];;
    call_ env "odly_dq_rst" [channel; module; width];;
    eye ← write_data_scan env channel rank module wl_cycle 1;
    lift_option (if max_delay_taps ctx =? 0 then None else Some tt);;
    let middle := Z.quot (eye_start eye + eye_end eye) 2 in
    let middle_cycle := Z.quot middle (max_delay_taps ctx) in
    let middle_delay := Z.rem middle (max_delay_taps ctx) in
    printf "m%2d|start cycle:%2d, delay:%2d; end cycle:%2d, delay:%2d|"
      [module;
       Z.quot (eye_start eye) (max_delay_taps ctx); Z.rem (eye_start eye) (max_delay_taps ctx);
       Z.quot (eye_end eye) (max_delay_taps ctx); Z.rem (eye_end eye) (max_delay_taps ctx)];;
    printf "eye_width:%2d; eye center: cycle:%2d,delay:%2d"
      [eye_end eye - eye_start eye; middle_cycle; middle_delay];;
    call_ env "wr_dq_rst" [channel; module; width];;
    call_ env "odly_dq_rst" [channel; module; width];;
    (if bool_decide (eye_state eye = AFTER) then
       for_range 0 middle_cycle (fun _ => call_ env "wr_dq_inc" [channel; module; width])
     else mret tt);;
    (if bool_decide (eye_state eye = AFTER) then
       for_range 0 middle_delay (fun _ => call_ env "odly_dq_inc" [channel; module; width])
     else mret tt);;
    if truthy (Z.land mr5 0x20) && (width >? 4) then
      good ← moduel_dm_scan env channel rank module mr5;
      if negb good then mret (-1) else mret best_vref
    else mret best_vref.

End Vref.

(** ** Write training: [ddr5_training.c], lines 1842-1886 *)

Section WriteTraining.

Variable env : env_t.
Variable SDRAM_PHY_CWL : Z.
Variable SDRAM_PHY_MIN_WR_LATENCY : Z.
Variable MAX_WRITE_CYCLE_DELAY : Z.
Variable single_cycle_MPC : Z.
Variable wleveling_scan_eye : trace -> list Z -> eye_t -> eye_t.
Variable SDRAM_PHY_DELAYS : Z.
Variable KEEP_GOING_ON_DRAM_ERROR : bool.

(** The body of the rank loop of [sdram_ddr5_write_training] with
    [_write_verbosity == 0].  [enter_wltm] and [exit_wltm] are left to the
    environment, as in [write_leveling].  The result is the pair of [good]
    and of whether the procedure has returned; the module loops carry
    [good] and whether the loop has been left; [write_strobe_cycle] is the
    local array of 16 entries, which the rank sets before it reads it. *)
Definition write_training_rank (channel rank : Z) (good : bool) : M (bool * bool) :=
  ctx ← get_ctx;
  call_ env "enter_wltm" [channel; rank];;
  '(good, write_strobe_cycle, _) ←
    for_while (Z.to_nat (modules ctx)) 0
      (fun acc : bool * list Z * bool => negb (snd acc))
      (fun module acc =>
         cycle ← write_leveling env SDRAM_PHY_CWL SDRAM_PHY_MIN_WR_LATENCY
                    MAX_WRITE_CYCLE_DELAY single_cycle_MPC wleveling_scan_eye
                    channel rank module;
         write_strobe_cycle ← lift_option (arr_set (snd (fst acc)) module cycle);
         let good := fst (fst acc) && negb (cycle =? -1) in
         mret (good, write_strobe_cycle, negb KEEP_GOING_ON_DRAM_ERROR && negb good))
      (good, replicate 16 0, false);
  call_ env "exit_wltm" [channel; rank];;
  if negb KEEP_GOING_ON_DRAM_ERROR && negb good then mret (good, true)
  else
    printf "DQ write training" [];;
    for_while (Z.to_nat (modules ctx)) 0
      (fun acc : bool * bool => negb (snd acc))
      (fun module acc =>
         cycle ← lift_option (Eye.arr_get write_strobe_cycle module);
         best_vref ← module_vref_scan env SDRAM_PHY_DELAYS KEEP_GOING_ON_DRAM_ERROR
                        channel rank module cycle;
         let good := fst acc && negb (best_vref =? -1) in
         mret (good, negb KEEP_GOING_ON_DRAM_ERROR && negb good))
      (good, false).

Definition sdram_ddr5_write_training : M bool :=
  ctx ← get_ctx;
  '(good, _) ←
    for_while (Z.to_nat (channels ctx)) 0 (fun acc : bool * bool => negb (snd acc))
      (fun channel acc =>
         printf "Subchannel:%c Write leveling" [65 + channel];;
         for_while (Z.to_nat (ranks ctx)) 0 (fun acc : bool * bool => negb (snd acc))
           (fun rank acc => write_training_rank channel rank (fst acc)) acc)
      (true, false);
  mret (if KEEP_GOING_ON_DRAM_ERROR then true else good).

End WriteTraining.

(** ** CS training: [ddr5_training.c], lines 166-236 *)

Definition set_cs_delays (f : gmap (Z * Z * Z) Z -> gmap (Z * Z * Z) Z) (c : training_ctx_t)
    : training_ctx_t :=
  mk_ctx (channels c) (ranks c) (modules c) (die_width c) (max_delay_taps c)
         (training_type c) (RDIMM c) (ca_line_count c)
         (cs_invert c) (f (cs_delays c)) (cs_final_delays c) (ca_delays c) (ca_final_delays c).

Section CSTraining.

Variable env : env_t.

(** Lines 198-212, and again lines 221-235: the coarse delay of a rank is
    set from the two sides of its eye, programmed, and the sides are
    stored.  [ctx->cs.coarse_delays], which the context above leaves out, is
    passed along. *)
Definition CS_set_coarse (channel _rank right_side left_side : Z)
    (coarse_delays : gmap (Z * Z) Z) : M (gmap (Z * Z) Z) :=
  printf "Rank delays: %2d:%2d" [right_side; left_side];;
  let coarse := Z.quot (right_side + left_side) 2 in
  let coarse := MAX 0 coarse in
  printf "Coarse adjustment:%d" [coarse];;
  call_ env "cs.rst_dly" [channel; _rank; 0];;
  for_range 0 coarse (fun _ => call_ env "cs.inc_dly" [channel; _rank; 0]);;
  modify (set_ctx (set_cs_delays (fun d =>
    <[(channel, _rank, 1) := left_side]> (<[(channel, _rank, 0) := right_side]> d))));;
  mret (<[(channel, _rank) := coarse]> coarse_delays).

(** The body of the loop of [CS_training].  The result is [None] when the
    procedure stored 0 in [*success] and returned. *)
Definition CS_training_rank (channel _rank : Z) (coarse_delays : gmap (Z * Z) Z)
    : M (option (gmap (Z * Z) Z)) :=
  ctx ← get_ctx;
  sides ←
    (if bool_decide (training_type ctx ≠ HOST_RCD) || (Z.land _rank 1 =? 0) then
       subtract ← CS_scan env channel _rank;
       '(left_side, right_side) ←
         find_eye_in_helper_arr Eye.UNSET_DELAY Eye.UNSET_DELAY (max_delay_taps ctx);
       if (left_side =? Eye.UNSET_DELAY) || (right_side =? Eye.UNSET_DELAY) then
         printf "CS:%2d Eye width:0 Failed" [_rank];;
         mret None
       else if subtract : bool then
         mret (Some (right_side - max_delay_taps ctx, left_side - max_delay_taps ctx))
       else mret (Some (right_side, left_side))
     else
       c ← get_ctx;
       mret (Some (rd (cs_delays c) (channel, Z.lxor _rank 1, 0),
                   rd (cs_delays c) (channel, Z.lxor _rank 1, 1))));
  match sides with
  | None => mret None
  | Some (right_side, left_side) =>
      coarse_delays ← CS_set_coarse channel _rank right_side left_side coarse_delays;
      CA_scan env channel _rank 0;;
      '(left_side, right_side) ←
        find_eye_in_helper_arr Eye.UNSET_DELAY Eye.UNSET_DELAY (max_delay_taps ctx);
      let right_side := right_side - max_delay_taps ctx in
      let left_side := left_side - max_delay_taps ctx in
      if left_side <? 0 then
        c ← get_ctx;
        let right_side := rd (cs_delays c) (channel, _rank, 0) + max_delay_taps ctx in
        let left_side := rd (cs_delays c) (channel, _rank, 1) + max_delay_taps ctx in
        printf "CS eye captures previous CLK, move CS to the right" [];;
        coarse_delays ← CS_set_coarse channel _rank right_side left_side coarse_delays;
        mret (Some coarse_delays)
      else mret (Some coarse_delays)
  end.

(** [CS_training]; the arguments are the value of [*success] on entry and
    [ctx->cs.coarse_delays], the result their values on return. *)
Definition CS_training (channel success : Z) (coarse_delays : gmap (Z * Z) Z)
    : M (Z * gmap (Z * Z) Z) :=
  ctx ← get_ctx;
  acc ← for_while (Z.to_nat (ranks ctx)) 0 (fun acc : bool * gmap (Z * Z) Z => fst acc)
    (fun _rank acc =>
       r ← CS_training_rank channel _rank (snd acc);
       mret (match r with
             | None => (false, snd acc)
             | Some coarse_delays => (true, coarse_delays)
             end))
    (true, coarse_delays);
  mret (if fst acc : bool then success else 0, snd acc).

End CSTraining.

(** ** Enumeration of the modules: [ddr5_training.c], lines 618-678 *)

Section Enumerate.

Variable env : env_t.

(** [MODULE_BROADCAST] is defined in a header that is not at hand. *)
Variable MODULE_BROADCAST : Z.

(** The build flag [KEEP_GOING_ON_DRAM_ERROR]: [true] when it is defined. *)
Variable KEEP_GOING_ON_DRAM_ERROR : bool.

(** [sdram_ddr5_module_enumerate], built without [CA_INFO_DDR5]; the result
    is the value that it stores in the global [enumerated]. *)
Definition sdram_ddr5_module_enumerate (rank width channels modules : Z) : M Z :=
  if modules >? 15 then
    printf "Too many modules on single rank to enumerate, maximum is 15 but this design has %2d"
           [modules];;
    mret 0
  else
    printf "Enumerating rank:%2d" [rank];;
    for_range 0 channels (fun channel =>
      printf "Enumerating subchannel:%c" [65 + channel];;
      for_range 0 modules (fun module =>
        printf "module:%2d" [module];;
        call_ env "setup_enumerate" [channel; rank; module; width; 0]));;
    mret 1.

(** [ok &= check_enumerate(...)]: [check_enumerate] is not at hand; of an
    int result the conjunction keeps bit 0, which for a result of type
    [bool] is its truth value. *)
Definition ok_and (ok : bool) (c : Z) : bool := truthy (Z.land (bool_to_int ok) c).

(** [sdram_ddr5_check_enumerate], built without [CA_INFO_DDR5]; the first
    three arguments are the values of the globals [enumerated],
    [use_internal_write_timing] and [single_cycle_MPC]. *)
Definition sdram_ddr5_check_enumerate
    (enumerated use_internal_write_timing single_cycle_MPC rank width channels modules : Z)
    : M bool :=
  if negb (truthy enumerated) then mret false
  else
    printf "Checking rank:%2d" [rank];;
    ok ← for_acc 0 channels (fun channel ok =>
      printf "Checking subchannel:%c" [65 + channel];;
      call_ env "send_mrw"
        [channel; rank; MODULE_BROADCAST; 2;
         Z.lor (Z.lor 1 use_internal_write_timing) single_cycle_MPC];;
      printf "Base line:" [];;
      c ← call env "check_enumerate" [channel; rank; -1; width; 0];
      ok ← for_acc 0 modules (fun module ok =>
        printf "module:%2d" [module];;
        c ← call env "check_enumerate" [channel; rank; module; width; 0];
        mret (ok_and ok c)) (ok_and ok c);
      call_ env "send_mrw"
        [channel; rank; MODULE_BROADCAST; 2;
         Z.lor (Z.lor 0 use_internal_write_timing) single_cycle_MPC];;
      call_ env "busy_wait_us" [1];;
      mret ok) true;
    mret (if KEEP_GOING_ON_DRAM_ERROR then true else ok).

(** [dram_enumerate]; the result is the pair of what it returns and of the
    value it leaves in [enumerated]. *)
Definition dram_enumerate (use_internal_write_timing single_cycle_MPC rank : Z) : M (bool * Z) :=
  ctx ← get_ctx;
  enumerated ← sdram_ddr5_module_enumerate rank (die_width ctx) (channels ctx) (modules ctx);
  ok ← sdram_ddr5_check_enumerate enumerated use_internal_write_timing single_cycle_MPC
         rank (die_width ctx) (channels ctx) (modules ctx);
  mret (ok, enumerated).

End Enumerate.

(** ** CS/CA training of a channel: [ddr5_training.c], lines 260-270 and 553-590 *)

Definition set_ca_line_count (n : Z) (c : training_ctx_t) : training_ctx_t :=
  mk_ctx (channels c) (ranks c) (modules c) (die_width c) (max_delay_taps c)
         (training_type c) (RDIMM c) n
         (cs_invert c) (cs_delays c) (cs_final_delays c) (ca_delays c) (ca_final_delays c).

Section ChannelTraining.

Variable env : env_t.

(** The build flag [KEEP_GOING_ON_DRAM_ERROR]: [true] when it is defined. *)
Variable KEEP_GOING_ON_DRAM_ERROR : bool.

Definition CA_check_lines (channel rank : Z) : M unit :=
  ctx ← get_ctx;
  (if bool_decide (training_type ctx = HOST_DRAM) then
     call_ env "ca.enter_training_mode" [channel; 0];;
     has_line13 ← call env "ca.has_line13" [channel; rank];
     modify (set_ctx (set_ca_line_count (if truthy has_line13 then 14 else 13)));;
     call_ env "ca.exit_training_mode" [channel; 0]
   else mret tt);;
  c ← get_ctx;
  printf "DDR5 module has %d address lines" [ca_line_count c].

(** [sdram_ddr5_cs_ca_channel_training], built without [SKIP_NO_DELAYS]
    and with [SDRAM_PHY_ADDRESS_DELAY_CAPABLE]; [ctx->cs.coarse_delays] is
    passed along as in [CS_training]. *)
Definition sdram_ddr5_cs_ca_channel_training (channel : Z) (coarse_delays : gmap (Z * Z) Z)
    : M (bool * gmap (Z * Z) Z) :=
  call_ env "ck.rst_dly" [channel; 0; 0];;
  printf "Subchannel:%c CS training" [65 + channel];;
  '(CS_success, coarse_delays) ← CS_training env channel 1 coarse_delays;
  if negb KEEP_GOING_ON_DRAM_ERROR && negb (truthy CS_success) then mret (false, coarse_delays)
  else
    printf "CA training" [];;
    CA_check_lines channel 0;;
    CA_success ← CA_training env channel 1;
    if negb KEEP_GOING_ON_DRAM_ERROR && negb (truthy CA_success)
    then mret (false, coarse_delays)
    else mret (if KEEP_GOING_ON_DRAM_ERROR then true
               else truthy (Z.land CS_success CA_success), coarse_delays).

End ChannelTraining.

(** ** Small test benches *)

(** A two-tap buffer holding one window. *)
Definition bench_helper : Eye.helper_t := Eye.mk_helper [0; 1; 1; 0] 0.

(** A buffer for [max = 30721] whose first non-zero sample is at index
    61439. *)
Definition sentinel_helper : Eye.helper_t :=
  Eye.mk_helper (replicate (Z.to_nat 61439) 0 ++ [1; 1; 0]) 0.

(** One channel, one rank, one module, four taps; no delays stored. *)
Definition bench_ctx : training_ctx_t :=
  mk_ctx 1 1 1 8 4 HOST_DRAM false 13 ∅ ∅ ∅ ∅ ∅.

Definition bench_state : state :=
  mk_state [] (Eye.helper_init 4) 0 0 false bench_ctx.

(** Every query answers 1: every check passes. *)
Definition env_all_pass : env_t := fun _ _ _ => 1.

(** Every query answers 0: every check fails. *)
Definition env_all_fail : env_t := fun _ _ _ => 0.

(** ** Vocabulary of the statements *)

(** A call to one of the procedures [names]. *)
Definition call_of (names : list string) (e : event) : Prop :=
  match e with
  | Call name _ _ => name ∈ names
  | Print _ _ => False
  end.

Definition cs_names : list string :=
  ["cs.check"; "cs.inc_dly"; "cs.rst_dly"; "cs.enter_training_mode"; "cs.exit_training_mode"].

Definition ca_names : list string :=
  ["ca.check"; "ca.inc_dly"; "ca.rst_dly"; "ca.enter_training_mode"; "ca.exit_training_mode"].

(** [m] run from [s] returns, with a result and a final state in [Q]. *)
Definition runs {A : Type} (m : M A) (s : state) (Q : A -> state -> Prop) : Prop :=
  exists a s', m s = Some (a, s') /\ Q a s'.

(** The recording cursor of the eye scanner and the capacity of its buffer. *)
Definition cursor (s : state) : Z := Eye.helper_arr_it (st_helper s).
Definition buffer_size (s : state) : Z := Z.of_nat (length (Eye.helper_arr (st_helper s))).

(** The DM eye after [d] taps that all work, out of [max]. *)
Definition dm_eye_after (max d : Z) : eye_t :=
  if d =? 0 then DEFAULT_EYE
  else if d <? max then mk_eye INSIDE 0 (-1) (-1)
  else mk_eye AFTER 0 (-1) max.

(** Any event but a [printf] with format [fmt]. *)
Definition not_print (fmt : string) (e : event) : Prop :=
  match e with
  | Call _ _ _ => True
  | Print f _ => f <> fmt
  end.

(** One channel, two ranks, one module, direct attach. *)
Definition two_rank_ctx : training_ctx_t :=
  mk_ctx 1 2 1 8 4 HOST_DRAM false 13 ∅ ∅ ∅ ∅ ∅.

Definition two_rank_state : state :=
  mk_state [] (Eye.helper_init 4) 0 0 false two_rank_ctx.

(** The preamble is found in cycle 3 and the data scan succeeds, but every
    mode-register read returns 0: the scratch pad does not read back. *)
Definition env_readback_fails : env_t := fun _ name _ =>
  if bool_decide (name = "find_read_preamble_cycle") then 3
  else if bool_decide (name = "read_training_data_scan") then 1
  else 0.

(** The fields of the context that training never writes. *)
Definition config (c : training_ctx_t) : Z * Z * Z * Z * Z * training_type_t * bool * Z :=
  (channels c, ranks c, modules c, die_width c, max_delay_taps c,
   training_type c, RDIMM c, ca_line_count c).

(** The windows printed by [CA_training] as "CA[address] right:left". *)
Definition CA_window_fmt : string := "CA[%d] %d:%d".
Definition CA_failed_fmt : string := "CA line:%2d Eye width:0 Failed".

(** The envelope of an address line over a list of printed windows, oldest
    first: the largest right edge and the smallest left edge, starting from
    [init]. *)
Definition envelope_step (address : Z) (acc : Z * Z) (e : list Z) : Z * Z :=
  match e with
  | [a; right_side; left_side] =>
      if a =? address then (Z.max (fst acc) right_side, Z.min (snd acc) left_side) else acc
  | _ => acc
  end.

Definition envelope (address : Z) (windows : list (list Z)) (init : Z * Z) : Z * Z :=
  fold_left (envelope_step address) windows init.

(** How many of the printed windows belong to an address line. *)
Definition windows_of (address : Z) (windows : list (list Z)) : Z :=
  Z.of_nat (length (List.filter (fun e => bool_decide (head e = Some address)) windows)).

(** The stored envelope of an address line: [ca.delays[channel][address]]. *)
Definition ca_envelope (s : state) (channel address : Z) : Z * Z :=
  (rd (ca_delays (st_ctx s)) (channel, address, 0),
   rd (ca_delays (st_ctx s)) (channel, address, 1)).

(** What holds between the state [s] on entry of [CA_training] and the state
    [s1] before the address line [j] of the rank [r]. *)
Definition CA_inv (channel : Z) (s : state) (r j : Z) (ok : bool) (s1 : state) : Prop :=
  config (st_ctx s1) = config (st_ctx s) /\ buffer_size s1 = buffer_size s /\
  exists new,
    printed CA_window_fmt (st_hw s1) = printed CA_window_fmt (st_hw s) ++ new /\
    (forall a, ca_envelope s1 channel a = envelope a new (ca_envelope s channel a)) /\
    (ok = true ->
       printed CA_failed_fmt (st_hw s1) = printed CA_failed_fmt (st_hw s) /\
       forall a, 0 <= a < ca_line_count (st_ctx s) ->
         windows_of a new = r + (if a <? j then 1 else 0)) /\
    (ok = false ->
       exists a, printed CA_failed_fmt (st_hw s1) = printed CA_failed_fmt (st_hw s) ++ [[a]]).


(** The stored envelopes of a channel are those of eyes found by a scan:
    no right edge at or beyond [max_delay_taps], no left edge beyond it. *)
Definition ca_bounded (channel : Z) (s : state) : Prop :=
  forall a, 0 <= a < 14 ->
    fst (ca_envelope s channel a) < max_delay_taps (st_ctx s) /\
    snd (ca_envelope s channel a) <= max_delay_taps (st_ctx s).

(** The procedures of the CS and CA signal channels. *)
Definition scan_names : list string := cs_names ++ ca_names.

(** The CS ranks [(c, r)] handled when the loops over the channels from
    [lo] are at channel [c] and rank [r], and the CA lines likewise. *)
Definition done_upto (lo count c i : Z) (c' i' : Z) : Prop :=
  (lo <= c' < c /\ 0 <= i' < count) \/ (c' = c /\ 0 <= i' < i).

(** [CS_CA_calculate_midpoints], from the state [s] with [*min = min0], when
    its loops are at channel [c], rank [r] and address line [a]: the
    midpoints stored so far and the running minimum [mn]. *)
Definition midpoints_inv (s : state) (lo min0 c r a mn : Z) (s1 : state) : Prop :=
  st_hw s1 = st_hw s /\ st_helper s1 = st_helper s /\
  config (st_ctx s1) = config (st_ctx s) /\
  cs_delays (st_ctx s1) = cs_delays (st_ctx s) /\
  ca_delays (st_ctx s1) = ca_delays (st_ctx s) /\
  (forall c' r', done_upto lo (ranks (st_ctx s)) c r c' r' ->
     rd (cs_final_delays (st_ctx s1)) (c', r') = cs_midpoint (st_ctx s) c' r' /\
     mn <= cs_midpoint (st_ctx s) c' r') /\
  (forall c' a', done_upto lo (ca_line_count (st_ctx s)) c a c' a' ->
     rd (ca_final_delays (st_ctx s1)) (c', a') = ca_midpoint (st_ctx s) c' a' /\
     mn <= ca_midpoint (st_ctx s) c' a') /\
  mn <= min0 /\
  (mn = min0 \/
   (exists c' r', done_upto lo (ranks (st_ctx s)) c r c' r' /\
                  mn = cs_midpoint (st_ctx s) c' r') \/
   (exists c' a', done_upto lo (ca_line_count (st_ctx s)) c a c' a' /\
                  mn = ca_midpoint (st_ctx s) c' a')).

(** [CS_CA_set_adjusted_delays] likewise: the final delays handled so far
    are reduced by [ck_offset], the others are as they were, and only the
    CS and CA delay lines were touched. *)
Definition adjusted_inv (s : state) (lo ck_offset c r a : Z) (s1 : state) : Prop :=
  (exists evs, st_hw s1 = evs ++ st_hw s /\ Forall (call_of scan_names) evs) /\
  buffer_size s1 = buffer_size s /\
  config (st_ctx s1) = config (st_ctx s) /\
  (forall c' r',
     (done_upto lo (ranks (st_ctx s)) c r c' r' ->
        rd (cs_final_delays (st_ctx s1)) (c', r')
          = rd (cs_final_delays (st_ctx s)) (c', r') - ck_offset) /\
     (~ done_upto lo (ranks (st_ctx s)) c r c' r' ->
        rd (cs_final_delays (st_ctx s1)) (c', r') = rd (cs_final_delays (st_ctx s)) (c', r'))) /\
  (forall c' a',
     (done_upto lo (ca_line_count (st_ctx s)) c a c' a' ->
        rd (ca_final_delays (st_ctx s1)) (c', a')
          = rd (ca_final_delays (st_ctx s)) (c', a') - ck_offset) /\
     (~ done_upto lo (ca_line_count (st_ctx s)) c a c' a' ->
        rd (ca_final_delays (st_ctx s1)) (c', a') = rd (ca_final_delays (st_ctx s)) (c', a'))).

(** One channel, one rank and two address lines with trained eyes: the CS
    eye is [1, 5], the CA eyes are [-3, 1] and [0, 2]. *)
Definition trained_ctx : training_ctx_t :=
  mk_ctx 1 1 1 8 4 HOST_DRAM false 2 ∅
    (<[(0, 0, 0) := 1]> (<[(0, 0, 1) := 5]> ∅)) ∅
    (<[(0, 0, 0) := -3]> (<[(0, 0, 1) := 1]> (<[(0, 1, 0) := 0]> (<[(0, 1, 1) := 2]> ∅)))) ∅.

Definition trained_state : state :=
  mk_state [] (Eye.helper_init 4) 0 0 false trained_ctx.

(** ** The frame of a procedure: what it leaves alone *)

(** [s'] differs from [s] in the polarity table [cs.invert], in the content
    of the scan buffer and in the CS statics at most, and the events that
    came on top satisfy [ok]. *)
Record frame (ok : event -> Prop) (s s' : state) : Prop := mk_frame {
  fr_len : length (Eye.helper_arr (st_helper s')) = length (Eye.helper_arr (st_helper s));
  fr_ctx : exists f, st_ctx s' = set_cs_invert f (st_ctx s);
  fr_hw : exists evs, st_hw s' = evs ++ st_hw s /\ Forall ok evs;
}.

(** ** Recording a list of samples *)

(** [set_helper_arr_value_and_advance] called on each value in turn. *)
Fixpoint record_samples (vs : list Z) (h : Eye.helper_t) : option Eye.helper_t :=
  match vs with
  | [] => Some h
  | v :: vs' =>
      match Eye.set_helper_arr_value_and_advance v h with
      | None => None
      | Some h' => record_samples vs' h'
      end
  end.

(** A buffer of eight samples with a run of three working taps. *)
Definition run_helper : Eye.helper_t := Eye.mk_helper [1; 1; 1; 0; 0; 0; 0; 0] 0.

(** ** Reading the answers of the environment *)

(** What the calls to [name] returned, oldest first. *)
Definition answers (name : string) (tr : trace) : list Z :=
  omap (fun e => match e with
                 | Call n _ r => if bool_decide (n = name) then Some r else None
                 | Print _ _ => None
                 end) (reverse tr).

(** The arguments of the calls to [name], oldest first. *)
Definition calls (name : string) (tr : trace) : list (list Z) :=
  omap (fun e => match e with
                 | Call n args _ => if bool_decide (n = name) then Some args else None
                 | Print _ _ => None
                 end) (reverse tr).

(** ** A data path without faults *)

(** The word that the last [set_data_module_phase(channel, module, width,
    phase, word)] stored for the selector [[channel; module; width; phase]]. *)
Fixpoint last_set (sel : list Z) (tr : trace) : Z :=
  match tr with
  | [] => 0
  | Call name [c; m; w; p; v] _ :: tr' =>
      if bool_decide (name = "set_data_module_phase" /\ [c; m; w; p] = sel) then v
      else last_set sel tr'
  | _ :: tr' => last_set sel tr'
  end.

(** The memory returns what was written: [get_data_module_phase] reads the
    word last set for its phase; every other call returns 0. *)
Definition loopback : env_t := fun tr name args =>
  if bool_decide (name = "get_data_module_phase") then last_set args tr else 0.

(** The word read in a phase carries the serial pattern [cnt_seed] on the
    data bits that [compare_serial_write_data] looks at. *)
Definition serial_match (die_width cnt_seed phase rd : Z) : Prop :=
  serial_wrdata die_width cnt_seed phase = Some (rd mod 2 ^ (2 * die_width)).

(** A context with x8 devices. *)
Definition x8_state : state :=
  mk_state [] (Eye.helper_init 4) 0 0 false (mk_ctx 1 1 1 8 4 HOST_DRAM false 13 ∅ ∅ ∅ ∅ ∅).

(** The state of the [uint8_t lfsr] of [setup_lfsr_write_data] after [n]
    phases, and the word written in phase [n]. *)
Definition lfsr_state (lfsr_next : Z -> Z) (die_width : Z) (n : nat) (seed : Z) : Z :=
  Nat.iter n (fun l => snd (lfsr_wrdata lfsr_next die_width l)) (wrap_u8 seed).

Definition lfsr_word (lfsr_next : Z -> Z) (die_width : Z) (n : nat) (seed : Z) : Z :=
  fst (lfsr_wrdata lfsr_next die_width (lfsr_state lfsr_next die_width n seed)).

(** The word read in a phase carries the word [wr] on the bytes that
    [compare_lfsr_write_data] looks at: two bytes for devices wider than
    x4, one byte otherwise. *)
Definition lfsr_match (die_width rd wr : Z) : Prop :=
  rd mod 2 ^ (if die_width >? 4 then 16 else 8) = wr.

(** The [uint8_t lfsr] after [k] steps of [lfsr_next]. *)
Definition lfsr_byte (lfsr_next : Z -> Z) (k : nat) (seed : Z) : Z :=
  Nat.iter k (fun l => wrap_u8 (lfsr_next l)) (wrap_u8 seed).

(** A stand-in for the generator of the header that is not at hand. *)
Definition lfsr_demo (l : Z) : Z := Z.lxor (Z.shiftl l 1) (Z.shiftr l 7).

(** ** Checks that stop at the first failure *)

(** Every answer but the last is odd, and the last is odd exactly when
    [pass] holds: the answers of a run of checks combined by
    [works &= check()] that stops as soon as [works] is 0. *)
Definition all_odd_but_last (xs : list Z) (pass : Prop) : Prop :=
  forall i x, xs !! i = Some x -> (Z.odd x = true <-> (S i < length xs)%nat \/ pass).

(** The answers [xs] of up to [m] checks and the value [w] of [works] after
    them. *)
Definition block (m : nat) (xs : list Z) (w : Z) : Prop :=
  (w = 0 \/ w = 1) /\
  all_odd_but_last xs (w = 1) /\
  (w = 1 -> length xs = m) /\
  (w = 0 -> (1 <= length xs <= m)%nat).

(** The names of the procedures that the two halves of
    [rd_cycle_dly_idly_check_if_works] call. *)
Definition serial_check_names : list string := ["send_mrw"; "send_mrr"; "compare_serial"].
Definition lfsr_check_names : list string := ["send_mrw"; "send_mrr"; "compare"].
Definition read_check_names : list string :=
  ["send_mrw"; "send_mrr"; "compare_serial"; "compare"].

(** ** The preamble search *)

(** What [find_read_preamble_cycle] knows after [taps] taps: either no tap
    captured the preamble 4 (0b0100), or the eye starts in the cycle of the
    first tap that did. *)
Definition preamble_inv (max_delay_taps : Z) (eye : eye_t) (ps : list Z) (taps : Z) : Prop :=
  Z.of_nat (length ps) = taps /\
  if bool_decide (eye_state eye = BEFORE)
  then eye_start eye = -1 /\ Forall (fun p => p <> 4) ps
  else exists k : nat,
         ps !! k = Some 4 /\ (forall i, (i < k)%nat -> ps !! i <> Some 4) /\
         eye_start eye = Z.of_nat k / max_delay_taps.

(** An environment in which the preamble is captured from the third call
    on. *)
Definition env_preamble_late : env_t := fun tr name _ =>
  if bool_decide (name = "captured_preamble")
  then (if (2 <=? Z.of_nat (length (answers "captured_preamble" tr))) then 4 else 0)
  else 0.

(** ** The data scan *)

(** Tap [k] is the first one that passed both pattern checks. *)
Definition first_pass (ws : list Z) (k : nat) : Prop :=
  ws !! k = Some 3 /\ forall j, (j < k)%nat -> ws !! j <> Some 3.

(** What [read_training_data_scan] knows of the taps checked so far, whose
    results are [ws]; the first tap has the number [base]. *)
Definition data_inv (base : Z) (eye : eye_t) (ws : list Z) : Prop :=
  match eye_state eye with
  | BEFORE => Forall (fun w => w <> 3) ws
  | INSIDE =>
      exists k : nat,
        eye_start eye = base + Z.of_nat k /\ first_pass ws k /\
        forall j, (k <= j < length ws)%nat -> ws !! j = Some 3
  | AFTER =>
      exists k e : nat,
        eye_start eye = base + Z.of_nat k /\ eye_end eye = base + Z.of_nat e /\
        (k < e)%nat /\ first_pass ws k /\
        (forall j, (k <= j < e)%nat -> ws !! j = Some 3) /\
        exists w, ws !! e = Some w /\ w <> 3
  end.

(** An environment in which the comparisons fail from the third tap of a
    scan on: the sixth [send_mrr] follows the sixteenth. *)
Definition env_two_taps : env_t := fun tr name _ =>
  if bool_decide (name = "compare_serial") || bool_decide (name = "compare")
  then (if Z.of_nat (length (answers "compare" tr)) <? 256 then 1 else 0)
  else 0.

(** The context is kept and only the procedures [names] are called. *)
Definition kept (names : list string) (s1 s2 : state) : Prop :=
  st_ctx s2 = st_ctx s1 /\ frame (call_of names) s1 s2.

(** ** Delay lines during the scans *)

(** A call to one of [names] that, when it resets or increments a delay
    line, does so on the line [line]. *)
Definition on_line (names : list string) (rst inc : string) (line : list Z)
    (e : event) : Prop :=
  call_of names e /\
  match e with
  | Call name args _ => name = rst \/ name = inc -> args = line
  | Print _ _ => True
  end.

Definition cs_line (channel rank : Z) : event -> Prop :=
  on_line cs_names "cs.rst_dly" "cs.inc_dly" [channel; rank; 0].

Definition ca_line (channel rank address : Z) : event -> Prop :=
  on_line ca_names "ca.rst_dly" "ca.inc_dly" [channel; rank; address].

(** From [s] to [s'], [n] calls [name(args)] were made and their answers
    stored, as C ints, in the [n] entries of the buffer from the cursor on. *)
Definition recorded (name : string) (args : list Z) (n : Z) (s s' : state) : Prop :=
  cursor s' = cursor s + n /\
  exists xs,
    Z.of_nat (length xs) = n /\
    answers name (st_hw s') = answers name (st_hw s) ++ xs /\
    calls name (st_hw s') = calls name (st_hw s) ++ replicate (Z.to_nat n) args /\
    forall i, Eye.sample (st_helper s') i =
      if (cursor s <=? i) && (i <? cursor s + n)
      then wrap_i32 (xs !!! Z.to_nat (i - cursor s))
      else Eye.sample (st_helper s) i.

(** ** The delays that the rescan programs *)

(** [CS_CA_rescan] leaves out rank 1 of the CA lines behind an RCD. *)
Definition ca_rank_skipped (ctx : training_ctx_t) (rank : Z) : Prop :=
  training_type ctx = HOST_RCD /\ rank = 1.

(** [CS_CA_rescan], started in [s] on the channels from [lo], has come to
    channel [c], to rank [r_cs] of the CS loop and to rank [r_ca] and line
    [a] of the CA loops: every delay line handled so far carries the final
    delay stored for it, or no delay when that is negative. *)
Definition rescan_inv (s : state) (lo c r_cs r_ca a : Z) (s1 : state) : Prop :=
  let ctx := st_ctx s in
  frame (call_of scan_names) s s1 /\
  (forall c' r', 0 <= r' < ranks ctx -> lo <= c' ->
     c' < c \/ c' = c /\ r' < r_cs ->
     programmed_delay "cs.rst_dly" "cs.inc_dly" [c'; r'; 0] (st_hw s1)
       = Z.max 0 (rd (cs_final_delays ctx) (c', r'))) /\
  (forall c' r' a', 0 <= r' < ranks ctx -> 0 <= a' < ca_line_count ctx ->
     ~ ca_rank_skipped ctx r' -> lo <= c' ->
     c' < c \/ c' = c /\ (r' < r_ca \/ r' = r_ca /\ a' < a) ->
     programmed_delay "ca.rst_dly" "ca.inc_dly" [c'; r'; a'] (st_hw s1)
       = Z.max 0 (rd (ca_final_delays ctx) (c', a'))).

(** ** The cycle alignments of write leveling *)

(** Every check of a round answered with bit 0 set. *)
Definition passes (xs : list Z) : bool := forallb Z.odd xs.

(** The procedures that program the write strobe. *)
Definition wr_dqs_names : list string :=
  ["wr_dqs_rst"; "wr_dqs_inc"; "odly_dqs_rst"; "odly_dqs_inc"].

(** [m] always returns, and all that it does is to add events that satisfy
    [ok] to the trace. *)
Definition emits {A} (ok : event -> Prop) (m : M A) : Prop :=
  forall s, exists a evs, m s = Some (a, set_hw (app evs) s) /\ Forall ok evs.

(** What [write_leveling] prints when it fails and when it is done. *)
Definition WL_failed_fmt : string := "Failed to find a transition cycle for module %2d".
Definition WL_final_fmt : string := "Final timing values: cycles:%2d(adjusted %2d) delay:%2d".

(** A [wleveling_scan] that finds the edge at the output delay [start] in
    every scan. *)
Definition eye_at (start : Z) : trace -> list Z -> eye_t -> eye_t :=
  fun _ _ eye => mk_eye INSIDE start (eye_center eye) (eye_end eye).

(** ** The choice of the reference voltage *)

(** The rows of [eye_width_range] after the scans at [vref], [vref + 1],
    ... have given eyes of the widths [widths], in this order. *)
Fixpoint vref_marks (widths : list Z) (vref : Z) (range : list Z * list Z)
    : option (list Z * list Z) :=
  match widths with
  | [] => Some range
  | w :: widths' =>
      match mark_widths (Z.to_nat w) 0 vref range with
      | None => None
      | Some range' => vref_marks widths' (vref + 1) range'
      end
  end.

(** [arr[i]], 0 outside the array. *)
Definition at_index (arr : list Z) (i : Z) : Z := default 0 (Eye.arr_get arr i).

(** The entry [p] of the two rows after one scan at [vref] gave the width
    [w]. *)
Definition mark_at (p : Z) (acc : Z * Z) (vref w : Z) : Z * Z :=
  if p <? w then ((if fst acc =? -1 then vref else fst acc), vref + 1) else acc.

Fixpoint marks_at (p : Z) (widths : list Z) (vref : Z) (acc : Z * Z) : Z * Z :=
  match widths with
  | [] => acc
  | w :: widths' => marks_at p widths' (vref + 1) (mark_at p acc vref w)
  end.

(** The scan number [k] gave an eye wider than [p]. *)
Definition above (p : Z) (widths : list Z) (k : nat) : Prop :=
  exists w, widths !! k = Some w /\ p < w.

(** ** Write training without a data eye *)

(** A call to one of [names], or a [printf] with one of the formats
    [fmts]. *)
Definition event_in (names fmts : list string) (e : event) : Prop :=
  match e with
  | Call name _ _ => name ∈ names
  | Print fmt _ => fmt ∈ fmts
  end.

(** The formats that a write data scan prints with. *)
Definition data_scan_fmts : list string := ["%2d|"; "%d"].

(** The formats of write leveling and of a rank of write training that
    fails. *)
Definition training_fmts : list string :=
  ["%2d|"; "%d"; "m%2d|Best Vref:%2x"; "DQ write training"; "Subchannel:%c Write leveling";
   "WL m:%2d"; "Failed to find a transition cycle for module %2d";
   "DQS write leveling response transition starts in cycle:%2d (adjusted %2d)";
   "Final timing values: cycles:%2d(adjusted %2d) delay:%2d";
   "DQS edge scan:"; "|"; "|%d"; "DQS internal cycle alignment"; "WICA:%d,%d|"].

Definition call_in (names : list string) : event -> Prop := event_in names training_fmts.

(** The procedures that a write data scan calls when no serial check
    passes. *)
Definition data_scan_names : list string :=
  ["wr_dq_rst"; "wr_dq_inc"; "odly_dq_rst"; "odly_dq_inc"; "write_serial_check"].

(** The procedures that [module_vref_scan] calls before the centre scan,
    likewise. *)
Definition vref_scan_names : list string :=
  ["send_mrw"; "busy_wait_us"; "send_mrr"; "recover_mrr_value";
   "wr_dq_rst"; "wr_dq_inc"; "odly_dq_rst"; "odly_dq_inc"; "write_serial_check"].

(** The procedures that [write_leveling] calls. *)
Definition leveling_names : list string :=
  ["enter_wltm"; "wr_dqs_check_if_works"; "wleveling_scan"; "send_mrw";
   "wr_dqs_rst"; "wr_dqs_inc"; "odly_dqs_rst"; "odly_dqs_inc"].

(** The procedures that a rank of write training calls. *)
Definition training_names : list string :=
  ["exit_wltm";
   "enter_wltm"; "wr_dqs_check_if_works"; "wleveling_scan";
   "wr_dqs_rst"; "wr_dqs_inc"; "odly_dqs_rst"; "odly_dqs_inc";
   "send_mrw"; "busy_wait_us"; "send_mrr"; "recover_mrr_value";
   "wr_dq_rst"; "wr_dq_inc"; "odly_dq_rst"; "odly_dq_inc"; "write_serial_check"].

(** No word that is written reads back: every serial check fails. *)
Definition serial_checks_fail (env : env_t) : Prop :=
  forall tr args, Z.odd (env tr "write_serial_check" args) = false.

(** The mode register writes that try the voltages [0x32 .. 0x45]. *)
Definition vref_writes (channel rank module : Z) : list (list Z) :=
  (fun vref => [channel; rank; module; 10; vref]) <$> seqZ 0x32 20.

(** The events of the three parts of write leveling. *)
Definition external_cycle_event : event -> Prop :=
  event_in ["wr_dqs_rst"; "wr_dqs_inc"; "wr_dqs_check_if_works"] ["%2d|"; "%d"; "|%d"].

Definition internal_cycle_event : event -> Prop :=
  event_in ["send_mrw"; "wr_dqs_check_if_works"] ["DQS internal cycle alignment"; "WICA:%d,%d|"].

Definition eye_edge_event : event -> Prop :=
  event_in ["wr_dqs_rst"; "wr_dqs_inc"; "wleveling_scan"] ["DQS edge scan:"; "%2d|"; "|"].

(** ** The coarse CS delays *)

Definition CS_failed_fmt : string := "CS:%2d Eye width:0 Failed".

(** The CS line of the rank carries the coarse delay stored for the rank:
    the midpoint of the eye stored for it, or no delay when the midpoint is
    negative. *)
Definition cs_coarse_set (channel : Z) (coarse_delays : gmap (Z * Z) Z) (s' : state)
    (rank : Z) : Prop :=
  programmed_delay "cs.rst_dly" "cs.inc_dly" [channel; rank; 0] (st_hw s')
    = rd coarse_delays (channel, rank) /\
  rd coarse_delays (channel, rank) = Z.max 0 (cs_midpoint (st_ctx s') channel rank).

(** The formats that [CS_training] prints with. *)
Definition cs_fmts : list string :=
  ["Rank delays: %2d:%2d"; "Coarse adjustment:%d"; "CS:%2d Eye width:0 Failed";
   "CS eye captures previous CLK, move CS to the right"].

(** From [s] to [s'] the CS and CA scan procedures were called and the
    messages of [CS_training] printed, nothing else. *)
Definition cs_events (s s' : state) : Prop :=
  exists evs, st_hw s' = evs ++ st_hw s /\ Forall (event_in scan_names cs_fmts) evs.

(** What a step of [CS_training] on the rank [rank] keeps: the
    configuration, the size of the scan buffer, and the delay lines, the
    eyes and the coarse delays of the other ranks. *)
Definition cs_rank_kept (channel rank : Z) (coarse coarse' : gmap (Z * Z) Z)
    (s s' : state) : Prop :=
  config (st_ctx s') = config (st_ctx s) /\
  buffer_size s' = buffer_size s /\
  (forall sel, sel <> [channel; rank; 0] ->
     programmed_delay "cs.rst_dly" "cs.inc_dly" sel (st_hw s')
       = programmed_delay "cs.rst_dly" "cs.inc_dly" sel (st_hw s)) /\
  (forall r e, r <> rank ->
     rd (cs_delays (st_ctx s')) (channel, r, e) = rd (cs_delays (st_ctx s)) (channel, r, e)) /\
  (forall r, r <> rank -> rd coarse' (channel, r) = rd coarse (channel, r)) /\
  cs_events s s'.

(** ** Enumeration *)

(** The arguments of the calls that set up, or check, the modules
    [modules] of every channel below [channels], channel by channel. *)
Definition enumerate_calls (rank width channels : Z) (modules : list Z) : list (list Z) :=
  c ← seqZ 0 channels; (fun m => [c; rank; m; width; 0]) <$> modules.

(** ** What a procedure adds to the trace *)

(** From [s] to [s'] events that satisfy [ok] came on top of the trace. *)
Definition adds (ok : event -> Prop) (s s' : state) : Prop :=
  exists evs, st_hw s' = evs ++ st_hw s /\ Forall ok evs.

(** [s'] is a later state of a run that has been in [s]. *)
Definition later (s s' : state) : Prop := exists evs, st_hw s' = evs ++ st_hw s.

(** Whenever [m] returns, it has added such events only. *)
Definition only_adds {A} (ok : event -> Prop) (m : M A) : Prop :=
  forall s a s', m s = Some (a, s') -> adds ok s s'.

(** The events of CA training. *)
Definition ca_training_event : event -> Prop :=
  event_in ca_names [CA_window_fmt; CA_failed_fmt].

(** Whenever [m] run from [s] returns, its result and final state are in
    [Q]. *)
Definition returning {A} (m : M A) (s : state) (Q : A -> state -> Prop) : Prop :=
  forall a s', m s = Some (a, s') -> Q a s'.

(** The events of a write data scan. *)
Definition data_scan_event : event -> Prop :=
  event_in ["wr_dq_rst"; "wr_dq_inc"; "odly_dq_rst"; "odly_dq_inc";
            "write_serial_check"; "write_lfsr_check"] ["%2d|"; "%d"].

(** The events of the voltage scan and of the data mask scan. *)
Definition vref_scan_event : event -> Prop :=
  event_in ["send_mrw"; "busy_wait_us"; "send_mrr";
            "wr_dq_rst"; "wr_dq_inc"; "odly_dq_rst"; "odly_dq_inc";
            "write_serial_check"; "write_lfsr_check"]
           ["%2d|"; "%d"; "m%2d|Best Vref:%2x"].

Definition dm_scan_event : event -> Prop :=
  event_in ["odly_dm_rst"; "odly_dm_inc"; "write_dm_lfsr_check"]
           ["%d"; "eye_width:%2d; eye center: delay:%2d"].

Definition eye_centre_fmt : string := "eye_width:%2d; eye center: cycle:%2d,delay:%2d".

(** What [module_vref_scan] prints of the eye of its last scan: the width
    and the cycle and the delay of the middle. *)
Definition eye_centre (max_delay_taps : Z) (eye : eye_t) : list Z :=
  let middle := Z.quot (eye_start eye + eye_end eye) 2 in
  [eye_end eye - eye_start eye; Z.quot middle max_delay_taps; Z.rem middle max_delay_taps].

(** An environment with an eye in every write scan: the write checks pass
    when the output delay of the DQ lines of module 0 of the bench is at 1
    or 2 taps. *)
Definition env_write_eye : env_t := fun tr name _ =>
  if bool_decide (name = "write_serial_check") || bool_decide (name = "write_lfsr_check")
  then (let d := programmed_delay "odly_dq_rst" "odly_dq_inc" [0; 0; 8] tr in
        if (1 <=? d) && (d <=? 2) then 1 else 0)
  else 0.

(** ** The sweep of a write data scan *)








(** The state after a line that the scan prints when [print] is set. *)
Definition printed_if (print : Z) (fmt : string) (args : list Z) (s : state) : state :=
  if truthy print then set_hw (cons (Print fmt args)) s else s.

(** ** The verification step of read training *)

(** The four reads of a scratch-pad self-test return, in their low eight
    bits, the four bytes written. *)
Definition read_back_ok (rds : list Z) : bool :=
  bool_decide ((fun rd => rd mod 256) <$> rds = test_data).

Section ReadUntil.

Variable env : env_t.
Variable DRAM_SCRATCH_PAD : Z.
Variable KEEP_GOING_ON_DRAM_ERROR : bool.

(** The loops of [sdram_ddr5_read_training] up to the rank [rank] of the
    channel [channel], which is not started: the result is the state of the
    loops, the pair of [good] and of whether the procedure has returned. *)
Definition read_training_until (channel rank : Z) : M (bool * bool) :=
  ctx ← get_ctx;
  acc ← for_while (Z.to_nat channel) 0 (fun acc : bool * bool => negb (snd acc))
    (fun channel acc =>
       call_ env "get_dimm_dq_remapping" [channel; modules ctx; die_width ctx];;
       printf "Subchannel:%c Read training" [65 + channel];;
       for_while (Z.to_nat (ranks ctx)) 0 (fun acc : bool * bool => negb (snd acc))
         (fun rank acc =>
            read_training_rank env DRAM_SCRATCH_PAD KEEP_GOING_ON_DRAM_ERROR channel rank acc)
         acc)
    (true, false);
  call_ env "get_dimm_dq_remapping" [channel; modules ctx; die_width ctx];;
  printf "Subchannel:%c Read training" [65 + channel];;
  for_while (Z.to_nat rank) 0 (fun acc : bool * bool => negb (snd acc))
    (fun rank acc =>
       read_training_rank env DRAM_SCRATCH_PAD KEEP_GOING_ON_DRAM_ERROR channel rank acc)
    acc.

End ReadUntil.

(** The ranks [0 .. ranks - 1] of each of the channels [0 .. channels - 1],
    as "Training rank" prints them. *)
Definition all_ranks (channels ranks : Z) : list (list Z) :=
  concat (replicate (Z.to_nat channels) ((fun r => [r]) <$> seqZ 0 ranks)).

(** The events of the steps of a rank of read training: of the preamble
    search and the data scan, and of the verification. *)
Definition read_rank_event : event -> Prop :=
  event_in ["enter_rptm"; "find_read_preamble_cycle"; "read_training_data_scan"; "exit_rptm";
            "send_mrr"; "recover_mrr_value"; "send_mrw"; "get_dimm_dq_remapping"]
           ["Channel:%c rank:%2d module:%2d serial number: 0x%010X"; "Simple read check: ";
            "Training rank%2d"; "Subchannel:%c Read training"].

Definition read_check_event : event -> Prop :=
  event_in ["send_mrr"; "recover_mrr_value"; "send_mrw"]
           ["Channel:%c rank:%2d module:%2d serial number: 0x%010X"; "Simple read check: "].

Definition read_scan_event : event -> Prop :=
  event_in ["enter_rptm"; "find_read_preamble_cycle"; "read_training_data_scan"; "exit_rptm"]
           [].
(** ** The eyes of the CS scans *)

(** [CS_training] scans every rank, except the odd ranks behind an RCD,
    which take the eye of the even rank next to them. *)
Definition cs_scanned (ctx : training_ctx_t) (rank : Z) : Prop :=
  training_type ctx <> HOST_RCD \/ Z.land rank 1 = 0.

(** Between [s] and [s'] the CS scan of the rank [rank] ran, from a state
    [s0] to a state [s1], and the samples it left in the scan buffer show
    the eye [(left, right)] when searched with both sides unset. *)
Definition cs_scan_sides (env : env_t) (channel rank : Z) (s s' : state)
    (left right : Z) : Prop :=
  exists s0 subtract s1,
    later s s0 /\ CS_scan env channel rank s0 = Some (subtract, s1) /\ later s1 s' /\
    Eye.find_eye_in_helper_arr (st_helper s1) Eye.UNSET_DELAY Eye.UNSET_DELAY
      (max_delay_taps (st_ctx s)) = Some (left, right).

(** The scan of the rank showed an eye: both sides were found. *)
Definition cs_eye_found (env : env_t) (channel rank : Z) (s s' : state) : Prop :=
  exists left right,
    cs_scan_sides env channel rank s s' left right /\
    left <> Eye.UNSET_DELAY /\ right <> Eye.UNSET_DELAY.

(** The scan of the rank showed no eye: a side is missing. *)
Definition cs_no_eye (env : env_t) (channel rank : Z) (s s' : state) : Prop :=
  exists left right,
    cs_scan_sides env channel rank s s' left right /\
    (left = Eye.UNSET_DELAY \/ right = Eye.UNSET_DELAY).

(** * Running the monad *)

Section Run.

Context {A B : Type}.

Lemma run_bind (m : M A) (f : A -> M B) (s : state) :
  (m ≫= f) s = match m s with None => None | Some (a, s') => f a s' end.
Proof. reflexivity. Qed.

Lemma bind_Some (m : M A) (f : A -> M B) (s s1 : state) (a : A) :
  m s = Some (a, s1) -> (m ≫= f) s = f a s1.
Proof. intros H. rewrite run_bind, H. reflexivity. Qed.

Lemma run_ret (a : A) (s : state) : (mret a : M A) s = Some (a, s).
Proof. reflexivity. Qed.

End Run.

Lemma run_call_ env name args s :
  call_ env name args s =
  Some (tt, set_hw (cons (Call name args (env (st_hw s) name args))) s).
Proof. reflexivity. Qed.

Lemma for_loop_S n i body s :
  for_loop (S n) i body s =
  match body i s with None => None | Some (_, s') => for_loop n (i + 1) body s' end.
Proof. reflexivity. Qed.

(** A loop that keeps an invariant runs to its end. *)
Lemma for_loop_inv (I : Z -> state -> Prop) n lo body s :
  I lo s ->
  (forall i s, lo <= i < lo + Z.of_nat n -> I i s ->
     exists s', body i s = Some (tt, s') /\ I (i + 1) s') ->
  exists s', for_loop n lo body s = Some (tt, s') /\ I (lo + Z.of_nat n) s'.
Proof.
  revert lo s. induction n as [|n IH]; intros lo s H0 Hstep.
  - exists s. split; [reflexivity|]. replace (lo + Z.of_nat 0) with lo by lia. exact H0.
  - destruct (Hstep lo s) as (s1 & Hrun & H1); [lia|exact H0|].
    destruct (IH (lo + 1) s1 H1) as (s2 & Hrun2 & H2).
    { intros i s' Hi. apply Hstep. lia. }
    exists s2. rewrite for_loop_S, Hrun. split; [exact Hrun2|].
    replace (lo + Z.of_nat (S n)) with (lo + 1 + Z.of_nat n) by lia. exact H2.
Qed.

Lemma for_range_inv (I : Z -> state -> Prop) lo hi body s :
  lo <= hi -> I lo s ->
  (forall i s, lo <= i < hi -> I i s ->
     exists s', body i s = Some (tt, s') /\ I (i + 1) s') ->
  exists s', for_range lo hi body s = Some (tt, s') /\ I hi s'.
Proof.
  intros Hle H0 Hstep. unfold for_range.
  destruct (for_loop_inv I (Z.to_nat (hi - lo)) lo body s H0) as (s' & Hrun & H1).
  { intros i s1 Hi. apply Hstep. lia. }
  exists s'. split; [exact Hrun|].
  replace (lo + Z.of_nat (Z.to_nat (hi - lo))) with hi in H1 by lia. exact H1.
Qed.

(** An empty range does nothing. *)
Lemma for_range_empty lo hi body s : hi <= lo -> for_range lo hi body s = Some (tt, s).
Proof. intros H. unfold for_range. replace (Z.to_nat (hi - lo)) with 0%nat by lia. reflexivity. Qed.

Lemma for_while_S {S : Type} n i (cond : S -> bool) body (acc : S) s :
  for_while (Datatypes.S n) i cond body acc s =
  if cond acc then
    match body i acc s with
    | None => None
    | Some (acc', s') => for_while n (i + 1) cond body acc' s'
    end
  else Some (acc, s).
Proof. cbn [for_while]. destruct (cond acc); reflexivity. Qed.

(** A guarded loop that keeps an invariant stops at some index [k], either
    at the end of the range or where the guard fails. *)
Lemma for_while_inv {S : Type} (I : Z -> S -> state -> Prop) n lo
    (cond : S -> bool) body (acc : S) s :
  I lo acc s ->
  (forall i acc s, lo <= i < lo + Z.of_nat n -> cond acc = true -> I i acc s ->
     exists acc' s', body i acc s = Some (acc', s') /\ I (i + 1) acc' s') ->
  exists k acc' s',
    for_while n lo cond body acc s = Some (acc', s') /\
    lo <= k <= lo + Z.of_nat n /\ I k acc' s' /\
    (k < lo + Z.of_nat n -> cond acc' = false).
Proof.
  revert lo acc s. induction n as [|n IH]; intros lo acc s H0 Hstep.
  - exists lo, acc, s. split; [reflexivity|]. split; [lia|]. split; [exact H0|lia].
  - rewrite for_while_S. destruct (cond acc) eqn:Hc.
    + destruct (Hstep lo acc s) as (acc1 & s1 & Hrun & H1); [lia|exact Hc|exact H0|].
      destruct (IH (lo + 1) acc1 s1 H1) as (k & acc2 & s2 & Hrun2 & Hk & H2 & Hstop).
      { intros i a' s' Hi. apply Hstep. lia. }
      exists k, acc2, s2. rewrite Hrun. split; [exact Hrun2|].
      split; [lia|]. split; [exact H2|]. intros Hlt. apply Hstop. lia.
    + exists lo, acc, s. split; [reflexivity|]. split; [lia|]. split; [exact H0|].
      intros _. exact Hc.
Qed.

(** Without a guard the loop runs through the whole range. *)
Lemma for_acc_inv {S : Type} (I : Z -> S -> state -> Prop) lo hi body (acc : S) s :
  lo <= hi -> I lo acc s ->
  (forall i acc s, lo <= i < hi -> I i acc s ->
     exists acc' s', body i acc s = Some (acc', s') /\ I (i + 1) acc' s') ->
  exists acc' s', for_acc lo hi body acc s = Some (acc', s') /\ I hi acc' s'.
Proof.
  intros Hle H0 Hstep. unfold for_acc.
  destruct (for_while_inv I (Z.to_nat (hi - lo)) lo (fun _ => true) body acc s H0)
    as (k & acc' & s' & Hrun & Hk & H1 & Hstop).
  { intros i a' s1 Hi _. apply Hstep. lia. }
  exists acc', s'. split; [exact Hrun|].
  destruct (Z.eq_dec k hi) as [->|Hne]; [exact H1|].
  assert (Hlt : k < lo + Z.of_nat (Z.to_nat (hi - lo))) by lia.
  specialize (Hstop Hlt). discriminate.
Qed.

(** ** Laws of the frame *)

Lemma set_cs_invert_id c : set_cs_invert (fun m => m) c = c.
Proof. destruct c. reflexivity. Qed.

Lemma frame_refl ok s : frame ok s s.
Proof.
  split; [reflexivity| |].
  - exists (fun m => m). symmetry. apply set_cs_invert_id.
  - exists []. split; [reflexivity|constructor].
Qed.

Lemma frame_trans ok s1 s2 s3 : frame ok s1 s2 -> frame ok s2 s3 -> frame ok s1 s3.
Proof.
  intros [L1 [f1 C1] (e1 & H1 & F1)] [L2 [f2 C2] (e2 & H2 & F2)].
  split; [congruence| |].
  - exists (fun m => f2 (f1 m)). rewrite C2, C1. reflexivity.
  - exists (e2 ++ e1). rewrite H2, H1, app_assoc. split; [reflexivity|].
    apply Forall_app. auto.
Qed.

Lemma frame_weaken (ok ok' : event -> Prop) s s' :
  (forall e, ok e -> ok' e) -> frame ok s s' -> frame ok' s s'.
Proof.
  intros Himp [L C (e & H & F)]. split; [exact L|exact C|].
  exists e. split; [exact H|]. eapply Forall_impl; eauto.
Qed.

(** Recording an event. *)
Lemma frame_event (ok : event -> Prop) e s : ok e -> frame ok s (set_hw (cons e) s).
Proof.
  intros He. split; [reflexivity| |].
  - exists (fun m => m). symmetry. apply set_cs_invert_id.
  - exists [e]. split; [reflexivity|]. repeat constructor. exact He.
Qed.

Lemma frame_statics ok a b c s : frame ok s (set_cs_statics a b c s).
Proof.
  split; [reflexivity| |].
  - exists (fun m => m). symmetry. apply set_cs_invert_id.
  - exists []. split; [reflexivity|constructor].
Qed.

Lemma frame_helper ok h s :
  length (Eye.helper_arr h) = length (Eye.helper_arr (st_helper s)) ->
  frame ok s (set_helper h s).
Proof.
  intros Hl. split; [exact Hl| |].
  - exists (fun m => m). symmetry. apply set_cs_invert_id.
  - exists []. split; [reflexivity|constructor].
Qed.

Lemma frame_invert ok f s : frame ok s (set_ctx (set_cs_invert f) s).
Proof.
  split; [reflexivity| |].
  - exists f. reflexivity.
  - exists []. split; [reflexivity|constructor].
Qed.

(** What the frame keeps of the context. *)
Lemma frame_config ok s s' :
  frame ok s s' ->
  channels (st_ctx s') = channels (st_ctx s) /\
  ranks (st_ctx s') = ranks (st_ctx s) /\
  modules (st_ctx s') = modules (st_ctx s) /\
  die_width (st_ctx s') = die_width (st_ctx s) /\
  max_delay_taps (st_ctx s') = max_delay_taps (st_ctx s) /\
  training_type (st_ctx s') = training_type (st_ctx s) /\
  ca_line_count (st_ctx s') = ca_line_count (st_ctx s).
Proof. intros [_ [f ->] _]. repeat split. Qed.

Lemma frame_delays ok s s' :
  frame ok s s' ->
  cs_delays (st_ctx s') = cs_delays (st_ctx s) /\
  cs_final_delays (st_ctx s') = cs_final_delays (st_ctx s) /\
  ca_delays (st_ctx s') = ca_delays (st_ctx s) /\
  ca_final_delays (st_ctx s') = ca_final_delays (st_ctx s).
Proof. intros [_ [f ->] _]. repeat split. Qed.

(** ** Rules for [runs] *)

Section Runs.

Context {A B : Type}.

Lemma runs_ret (a : A) s (Q : A -> state -> Prop) : Q a s -> runs (mret a) s Q.
Proof. intros H. exists a, s. split; [reflexivity|exact H]. Qed.

Lemma runs_bind (m : M A) (f : A -> M B) s (Q : B -> state -> Prop) :
  runs m s (fun a s1 => runs (f a) s1 Q) -> runs (m ≫= f) s Q.
Proof.
  intros (a & s1 & Hm & b & s2 & Hf & HQ). exists b, s2.
  rewrite (bind_Some _ _ _ _ _ Hm). split; [exact Hf|exact HQ].
Qed.

Lemma runs_conseq (m : M A) s (Q Q' : A -> state -> Prop) :
  runs m s Q -> (forall a s', Q a s' -> Q' a s') -> runs m s Q'.
Proof. intros (a & s' & Hm & HQ) Himp. exists a, s'. split; [exact Hm|auto]. Qed.

Lemma runs_inv (m : M A) s (Q : A -> state -> Prop) a s' :
  runs m s Q -> m s = Some (a, s') -> Q a s'.
Proof. intros (a0 & s0 & Hm & HQ) Hrun. rewrite Hm in Hrun. congruence. Qed.

End Runs.

Section RunsPrim.

Variable env : env_t.

Lemma runs_call name args s (Q : Z -> state -> Prop) :
  Q (env (st_hw s) name args)
    (set_hw (cons (Call name args (env (st_hw s) name args))) s) ->
  runs (call env name args) s Q.
Proof. intros H. eexists _, _. split; [reflexivity|exact H]. Qed.

Lemma runs_call_ name args s (Q : unit -> state -> Prop) :
  Q tt (set_hw (cons (Call name args (env (st_hw s) name args))) s) ->
  runs (call_ env name args) s Q.
Proof. intros H. eexists _, _. split; [reflexivity|exact H]. Qed.

Lemma runs_printf fmt args s (Q : unit -> state -> Prop) :
  Q tt (set_hw (cons (Print fmt args)) s) -> runs (printf fmt args) s Q.
Proof. intros H. eexists _, _. split; [reflexivity|exact H]. Qed.

Lemma runs_get_ctx s (Q : training_ctx_t -> state -> Prop) :
  Q (st_ctx s) s -> runs get_ctx s Q.
Proof. intros H. eexists _, _. split; [reflexivity|exact H]. Qed.

Lemma runs_get s (Q : state -> state -> Prop) : Q s s -> runs get s Q.
Proof. intros H. eexists _, _. split; [reflexivity|exact H]. Qed.

Lemma runs_modify f s (Q : unit -> state -> Prop) : Q tt (f s) -> runs (modify f) s Q.
Proof. intros H. eexists _, _. split; [reflexivity|exact H]. Qed.

Lemma runs_clear_helper_arr s (Q : unit -> state -> Prop) :
  Q tt (set_helper (Eye.clear_helper_arr (st_helper s)) s) -> runs clear_helper_arr s Q.
Proof. intros H. eexists _, _. split; [reflexivity|exact H]. Qed.

Lemma runs_read_helper {A} (f : Eye.helper_t -> option A) s a (Q : A -> state -> Prop) :
  f (st_helper s) = Some a -> Q a s -> runs (read_helper f) s Q.
Proof.
  intros Hf H. exists a, s. split; [|exact H]. unfold read_helper. rewrite Hf. reflexivity.
Qed.

Lemma runs_lift_helper f s h (Q : unit -> state -> Prop) :
  f (st_helper s) = Some h -> Q tt (set_helper h s) -> runs (lift_helper f) s Q.
Proof.
  intros Hf H. exists tt, (set_helper h s). split; [|exact H].
  unfold lift_helper. rewrite Hf. reflexivity.
Qed.

Lemma runs_for_range (I : Z -> state -> Prop) lo hi body s (Q : unit -> state -> Prop) :
  lo <= hi -> I lo s ->
  (forall i s1, lo <= i < hi -> I i s1 -> runs (body i) s1 (fun _ s2 => I (i + 1) s2)) ->
  (forall s', I hi s' -> Q tt s') ->
  runs (for_range lo hi body) s Q.
Proof.
  intros Hle H0 Hstep HQ.
  destruct (for_range_inv I lo hi body s Hle H0) as (s' & Hrun & H1).
  { intros i s1 Hi HI. destruct (Hstep i s1 Hi HI) as ([] & s2 & Hb & H2). eauto. }
  exists tt, s'. split; [exact Hrun|auto].
Qed.

Lemma runs_for_range_empty lo hi body s (Q : unit -> state -> Prop) :
  hi <= lo -> Q tt s -> runs (for_range lo hi body) s Q.
Proof. intros Hle H. exists tt, s. split; [apply for_range_empty; exact Hle|exact H]. Qed.

Lemma runs_for_acc {S : Type} (I : Z -> S -> state -> Prop) lo hi body (acc : S) s
    (Q : S -> state -> Prop) :
  lo <= hi -> I lo acc s ->
  (forall i acc s1, lo <= i < hi -> I i acc s1 ->
     runs (body i acc) s1 (fun acc' s2 => I (i + 1) acc' s2)) ->
  (forall acc' s', I hi acc' s' -> Q acc' s') ->
  runs (for_acc lo hi body acc) s Q.
Proof.
  intros Hle H0 Hstep HQ.
  destruct (for_acc_inv I lo hi body acc s Hle H0) as (acc' & s' & Hrun & H1).
  { intros i a1 s1 Hi HI. exact (Hstep i a1 s1 Hi HI). }
  exists acc', s'. split; [exact Hrun|auto].
Qed.

Lemma runs_for_while {S : Type} (I : Z -> S -> state -> Prop) n lo (cond : S -> bool)
    body (acc : S) s (Q : S -> state -> Prop) :
  I lo acc s ->
  (forall i acc s1, lo <= i < lo + Z.of_nat n -> cond acc = true -> I i acc s1 ->
     runs (body i acc) s1 (fun acc' s2 => I (i + 1) acc' s2)) ->
  (forall k acc' s', lo <= k <= lo + Z.of_nat n -> I k acc' s' ->
     (k < lo + Z.of_nat n -> cond acc' = false) -> Q acc' s') ->
  runs (for_while n lo cond body acc) s Q.
Proof.
  intros H0 Hstep HQ.
  destruct (for_while_inv I n lo cond body acc s H0) as (k & acc' & s' & Hrun & Hk & H1 & Hstop).
  { intros i a1 s1 Hi Hc HI. exact (Hstep i a1 s1 Hi Hc HI). }
  exists acc', s'. split; [exact Hrun|eauto].
Qed.

End RunsPrim.

(** Unfolds the monad and the state accessors, nothing else. *)
Ltac run_monad :=
  cbv beta iota zeta delta
    [mbind M_bind mret M_ret call call_ printf get get_ctx modify lift_helper read_helper
     set_hw set_helper set_cs_statics set_ctx
     clear_helper_arr clear_cs_sets set_helper_arr_value_and_advance
     one_in_helper_arr one_stride_helper_arr find_eye_in_helper_arr
     st_hw st_helper helper_modules_without_shift helper_modules_seen seen_working st_ctx
     fst snd].

(** ** Reading the trace *)

Lemma printed_Print fmt f args tr :
  printed fmt (Print f args :: tr) =
  printed fmt tr ++ (if bool_decide (f = fmt) then [args] else []).
Proof.
  unfold printed. rewrite reverse_cons, omap_app. cbn.
  destruct (bool_decide (f = fmt)); reflexivity.
Qed.

Lemma printed_Call fmt name args r tr :
  printed fmt (Call name args r :: tr) = printed fmt tr.
Proof. unfold printed. rewrite reverse_cons, omap_app. cbn. apply app_nil_r. Qed.

Lemma printed_calls fmt names evs tr :
  Forall (call_of names) evs -> printed fmt (evs ++ tr) = printed fmt tr.
Proof.
  induction 1 as [|e evs He _ IH]; [reflexivity|].
  destruct e as [name args r|f args]; [|destruct He].
  cbn [app]. rewrite printed_Call. exact IH.
Qed.

(** Calls keep what was printed. *)
Lemma frame_printed fmt names s s' :
  frame (call_of names) s s' -> printed fmt (st_hw s') = printed fmt (st_hw s).
Proof. intros [_ _ (evs & -> & F)]. eapply printed_calls; eauto. Qed.

Lemma programmed_delay_other rst inc sel e tr :
  (forall args r, e <> Call rst args r) -> (forall args r, e <> Call inc args r) ->
  programmed_delay rst inc sel (e :: tr) = programmed_delay rst inc sel tr.
Proof.
  intros Hr Hi. destruct e as [name args r|f args]; [|reflexivity].
  cbn [programmed_delay].
  rewrite bool_decide_eq_false_2 by (intros [-> _]; eapply Hr; reflexivity).
  rewrite bool_decide_eq_false_2 by (intros [-> _]; eapply Hi; reflexivity).
  reflexivity.
Qed.

(** Calls to other procedures keep the delay programmed on a line. *)
Lemma programmed_delay_calls rst inc sel names evs tr :
  rst ∉ names -> inc ∉ names -> Forall (call_of names) evs ->
  programmed_delay rst inc sel (evs ++ tr) = programmed_delay rst inc sel tr.
Proof.
  intros Hr Hi. induction 1 as [|e evs He _ IH]; [reflexivity|].
  cbn [app]. rewrite programmed_delay_other; [exact IH| |].
  - intros args r ->. apply Hr. exact He.
  - intros args r ->. apply Hi. exact He.
Qed.

Lemma frame_programmed rst inc sel names s s' :
  rst ∉ names -> inc ∉ names -> frame (call_of names) s s' ->
  programmed_delay rst inc sel (st_hw s') = programmed_delay rst inc sel (st_hw s).
Proof. intros Hr Hi [_ _ (evs & -> & F)]. eapply programmed_delay_calls; eauto. Qed.

Lemma programmed_delay_rst rst inc sel r tr :
  programmed_delay rst inc sel (Call rst sel r :: tr) = 0.
Proof. cbn [programmed_delay]. rewrite bool_decide_eq_true_2 by auto. reflexivity. Qed.

Lemma programmed_delay_inc rst inc sel r tr :
  rst <> inc ->
  programmed_delay rst inc sel (Call inc sel r :: tr) = 1 + programmed_delay rst inc sel tr.
Proof.
  intros Hne. cbn [programmed_delay].
  rewrite bool_decide_eq_false_2 by (intros [-> _]; congruence).
  rewrite bool_decide_eq_true_2 by auto. reflexivity.
Qed.

Section Delays.

Variable env : env_t.

(** [n] increments of a delay line. *)
Lemma runs_incs rst inc sel names n s (Q : unit -> state -> Prop) :
  rst <> inc -> inc ∈ names ->
  (forall s', programmed_delay rst inc sel (st_hw s')
                = programmed_delay rst inc sel (st_hw s) + Z.max 0 n ->
              st_ctx s' = st_ctx s ->
              frame (call_of names) s s' -> Q tt s') ->
  runs (for_range 0 n (fun _ => call_ env inc sel)) s Q.
Proof.
  intros Hne Hin HQ. destruct (Z.le_gt_cases 0 n) as [Hn|Hn].
  - apply (runs_for_range
      (fun i s1 => programmed_delay rst inc sel (st_hw s1)
                     = programmed_delay rst inc sel (st_hw s) + i /\
                   st_ctx s1 = st_ctx s /\
                   frame (call_of names) s s1)); [exact Hn| | |].
    + split; [lia|]. split; [reflexivity|apply frame_refl].
    + intros i s1 Hi (Hp & Hc & Hf). apply runs_call_. split; [|split].
      * cbn [st_hw set_hw]. rewrite programmed_delay_inc by exact Hne. lia.
      * exact Hc.
      * eapply frame_trans; [exact Hf|]. apply frame_event. exact Hin.
    + intros s' (Hp & Hc & Hf). apply HQ; [lia|exact Hc|exact Hf].
  - apply runs_for_range_empty; [lia|]. apply HQ; [lia|reflexivity|apply frame_refl].
Qed.

End Delays.

(** Steps through binds, returns and the primitive operations. *)
Ltac wp_step :=
  lazymatch goal with
  | |- runs (mbind _ _) _ _ => apply runs_bind
  | |- runs (mret _) _ _ => apply runs_ret
  | |- runs get_ctx _ _ => apply runs_get_ctx
  | |- runs get _ _ => apply runs_get
  | |- runs (call_ _ _ _) _ _ => apply runs_call_
  | |- runs (call _ _ _) _ _ => apply runs_call
  | |- runs (modify _) _ _ => apply runs_modify
  | |- runs (printf _ _) _ _ => apply runs_printf
  | |- runs clear_helper_arr _ _ => apply runs_clear_helper_arr
  | |- runs clear_cs_sets _ _ => apply runs_modify
  end; cbv beta.

Ltac wp := repeat wp_step.

(** Membership of a name in a list of names. *)
Ltac name_in :=
  unfold cs_names, ca_names;
  repeat first [apply list_elem_of_here | apply list_elem_of_further].

(** * Properties *)

(** ** Eye scanner *)

Section EyeFacts.

Import Eye.

Implicit Types (arr : list Z) (h : helper_t).

Lemma truthy_true v : truthy v = true <-> v <> 0.
Proof. unfold truthy. destruct (Z.eqb_spec v 0); simpl; split; congruence. Qed.

Lemma truthy_false v : truthy v = false <-> v = 0.
Proof. unfold truthy. destruct (Z.eqb_spec v 0); simpl; split; congruence. Qed.

Lemma arr_get_in arr i :
  0 <= i < Z.of_nat (length arr) -> exists v, arr_get arr i = Some v.
Proof.
  intros [Hlo Hhi]. unfold arr_get.
  destruct (Z.leb_spec 0 i); [|lia].
  destruct (lookup_lt_is_Some_2 arr (Z.to_nat i)) as [v Hv]; [lia|].
  eauto.
Qed.

Lemma sample_get h i v : arr_get (helper_arr h) i = Some v -> sample h i = v.
Proof. unfold sample. intros ->. reflexivity. Qed.

(** The loop of [one_in_helper_arr] over a range that lies in the buffer. *)
Lemma one_in_loop_spec h n it :
  0 <= it -> it + Z.of_nat n <= Z.of_nat (length (helper_arr h)) ->
  exists r, one_in_loop (helper_arr h) n it = Some r /\
    ((r = 0 /\ forall j, it <= j < it + Z.of_nat n -> sample h j = 0) \/
     (r = 1 /\ exists j, it <= j < it + Z.of_nat n /\ sample h j <> 0)).
Proof.
  revert it. induction n as [|n IH]; intros it Hit Hlen.
  - exists 0. split; [reflexivity|]. left. split; [reflexivity|]. intros j Hj. lia.
  - destruct (arr_get_in (helper_arr h) it) as [v Hv]; [lia|].
    destruct (IH (it + 1)) as (r & Hr & Hcase); [lia|lia|].
    cbn [one_in_loop]. rewrite Hv. pose proof (sample_get _ _ _ Hv) as Hs.
    destruct (truthy v) eqn:Ht.
    + apply truthy_true in Ht. exists 1. split; [reflexivity|]. right.
      split; [reflexivity|]. exists it. split; [lia|congruence].
    + apply truthy_false in Ht. exists r. split; [exact Hr|].
      destruct Hcase as [[-> Hall]|[-> (j & Hj & Hne)]].
      * left. split; [reflexivity|]. intros j Hj.
        destruct (Z.eq_dec j it) as [->|]; [congruence|apply Hall; lia].
      * right. split; [reflexivity|]. exists j. split; [lia|exact Hne].
Qed.

(** C4: for every buffer holding at least [max >= 1] samples,
    [one_in_helper_arr] returns -1 when sample 0 is non-zero (whatever the
    other samples are), 1 when sample 0 is zero and some sample at an index
    in [1, max) is non-zero, and 0 otherwise: a three-way result. *)
Theorem one_in_helper_arr_three_way h (max : Z) :
  1 <= max -> max <= Z.of_nat (length (helper_arr h)) ->
  exists r, one_in_helper_arr h max = Some r /\
    (sample h 0 <> 0 -> r = -1) /\
    (sample h 0 = 0 -> (exists i, 1 <= i < max /\ sample h i <> 0) -> r = 1) /\
    (sample h 0 = 0 -> (forall i, 1 <= i < max -> sample h i = 0) -> r = 0) /\
    (r = -1 \/ r = 0 \/ r = 1).
Proof.
  intros Hmax Hlen.
  destruct (arr_get_in (helper_arr h) 0) as [v Hv]; [lia|].
  pose proof (sample_get _ _ _ Hv) as Hs.
  destruct (one_in_loop_spec h (Z.to_nat (max - 1)) 1) as (r & Hr & Hcase); [lia|lia|].
  unfold one_in_helper_arr. rewrite Hv.
  destruct (truthy v) eqn:Ht.
  - apply truthy_true in Ht. exists (-1). repeat split; auto; intros; congruence.
  - apply truthy_false in Ht. exists r. split; [exact Hr|].
    split; [intros; congruence|].
    destruct Hcase as [[-> Hall]|[-> (j & Hj & Hne)]].
    + split; [|split; [reflexivity|lia]].
      intros _ (i & Hi & Hne). exfalso. apply Hne, Hall. lia.
    + split; [reflexivity|split; [|lia]].
      intros _ Hall. exfalso. apply Hne, Hall. lia.
Qed.

Lemma one_in_helper_arr_three_way_witness :
  1 <= 4 /\ 4 <= Z.of_nat (length (helper_arr bench_helper)) /\
  exists r, one_in_helper_arr bench_helper 4 = Some r /\ r = 1.
Proof.
  split; [lia|]. split; [simpl; lia|].
  destruct (one_in_helper_arr_three_way bench_helper 4) as (r & Hr & _ & H1 & _);
    [lia|simpl; lia|].
  exists r. split; [exact Hr|].
  apply H1; [reflexivity|]. exists 1. split; [lia|]. vm_compute. discriminate.
Defined.

(** *** The window *)

(** While [*right] is unset, samples that are zero are skipped. *)
Lemma find_eye_loop_skip_zero h k n it max left :
  0 <= it -> it + Z.of_nat k <= Z.of_nat (length (helper_arr h)) ->
  (forall j, it <= j < it + Z.of_nat k -> sample h j = 0) ->
  find_eye_loop (helper_arr h) (k + n) it max left UNSET_DELAY =
  find_eye_loop (helper_arr h) n (it + Z.of_nat k) max left UNSET_DELAY.
Proof.
  revert it. induction k as [|k IH]; intros it Hit Hlen Hall.
  - simpl. f_equal. lia.
  - destruct (arr_get_in (helper_arr h) it) as [v Hv]; [lia|].
    pose proof (sample_get _ _ _ Hv) as Hs.
    assert (v = 0) as -> by (rewrite <- Hs; apply Hall; lia).
    change (S k + n)%nat with (S (k + n)). cbn [find_eye_loop]. rewrite Hv.
    cbn. rewrite IH; [f_equal; lia|lia|lia|].
    intros j Hj. apply Hall. lia.
Qed.

(** Once [*right] is set, samples that are non-zero are skipped. *)
Lemma find_eye_loop_skip_nonzero h k n it max left right :
  0 <= it -> it + Z.of_nat k <= Z.of_nat (length (helper_arr h)) ->
  right <> UNSET_DELAY ->
  (forall j, it <= j < it + Z.of_nat k -> sample h j <> 0) ->
  find_eye_loop (helper_arr h) (k + n) it max left right =
  find_eye_loop (helper_arr h) n (it + Z.of_nat k) max left right.
Proof.
  revert it. induction k as [|k IH]; intros it Hit Hlen Hr Hall.
  - simpl. f_equal. lia.
  - destruct (arr_get_in (helper_arr h) it) as [v Hv]; [lia|].
    pose proof (sample_get _ _ _ Hv) as Hs.
    assert (Hv0 : truthy v = true) by (apply truthy_true; rewrite <- Hs; apply Hall; lia).
    change (S k + n)%nat with (S (k + n)). cbn [find_eye_loop]. rewrite Hv, Hv0.
    destruct (Z.eqb_spec right UNSET_DELAY) as [|_]; [contradiction|].
    cbn [andb negb]. rewrite IH; [f_equal; lia|lia|lia|exact Hr|].
    intros j Hj. apply Hall. lia.
Qed.

(** The first non-zero sample sets [*right]. *)
Lemma find_eye_loop_hit h n it max left :
  0 <= it < Z.of_nat (length (helper_arr h)) -> it <> UNSET_DELAY ->
  sample h it <> 0 ->
  find_eye_loop (helper_arr h) (S n) it max left UNSET_DELAY =
  find_eye_loop (helper_arr h) n (it + 1) max left it.
Proof.
  intros Hit Hne Hs.
  destruct (arr_get_in (helper_arr h) it) as [v Hv]; [lia|].
  rewrite (sample_get _ _ _ Hv) in Hs. apply truthy_true in Hs.
  cbn [find_eye_loop]. rewrite Hv, Hs, Z.eqb_refl. cbn [andb negb]. reflexivity.
Qed.

(** A zero sample after that sets [*left] and ends the search. *)
Lemma find_eye_loop_close h n it max left right :
  0 <= it < Z.of_nat (length (helper_arr h)) -> right <> UNSET_DELAY ->
  sample h it = 0 ->
  find_eye_loop (helper_arr h) (S n) it max left right = Some (it, right).
Proof.
  intros Hit Hne Hs.
  destruct (arr_get_in (helper_arr h) it) as [v Hv]; [lia|].
  rewrite (sample_get _ _ _ Hv) in Hs. subst v.
  cbn [find_eye_loop]. rewrite Hv. cbn.
  destruct (Z.eqb_spec right UNSET_DELAY) as [|_]; [contradiction|]. reflexivity.
Qed.

(** After the loop, [*left] depends on the last sample. *)
Lemma find_eye_loop_end h it max left right :
  1 <= max -> 2 * max <= Z.of_nat (length (helper_arr h)) ->
  find_eye_loop (helper_arr h) 0 it max left right =
  Some (if truthy (sample h (2 * max - 1)) then 2 * max else left, right).
Proof.
  intros Hmax Hlen.
  destruct (arr_get_in (helper_arr h) (2 * max - 1)) as [v Hv]; [lia|].
  cbn [find_eye_loop]. rewrite Hv, (sample_get _ _ _ Hv). reflexivity.
Qed.

(** What [find_eye_in_helper_arr] returns when the first non-zero sample is
    at [r]. *)
Lemma find_eye_from_first h max r :
  1 <= max -> 2 * max <= Z.of_nat (length (helper_arr h)) ->
  0 <= r < 2 * max -> r <> UNSET_DELAY ->
  sample h r <> 0 -> (forall i, 0 <= i < r -> sample h i = 0) ->
  (forall l, r < l < 2 * max -> sample h l = 0 ->
     (forall j, r < j < l -> sample h j <> 0) ->
     find_eye_in_helper_arr h UNSET_DELAY UNSET_DELAY max = Some (l, r)) /\
  ((forall j, r < j < 2 * max -> sample h j <> 0) ->
     find_eye_in_helper_arr h UNSET_DELAY UNSET_DELAY max = Some (2 * max, r)).
Proof.
  intros Hmax Hlen Hr Hne Hsr Hbefore. unfold find_eye_in_helper_arr.
  split.
  - intros l Hl Hsl Hrun.
    replace (Z.to_nat (2 * max)) with
      (Z.to_nat r + S (Z.to_nat (l - r - 1) + S (Z.to_nat (2 * max - l - 1))))%nat by lia.
    rewrite find_eye_loop_skip_zero; [|lia|lia|intros j Hj; apply Hbefore; lia].
    rewrite Z.add_0_l, Z2Nat.id by lia.
    rewrite find_eye_loop_hit; [|lia|exact Hne|exact Hsr].
    rewrite find_eye_loop_skip_nonzero; [|lia|lia|exact Hne|intros j Hj; apply Hrun; lia].
    rewrite Z2Nat.id by lia.
    replace (r + 1 + (l - r - 1)) with l by lia.
    apply find_eye_loop_close; [lia|exact Hne|exact Hsl].
  - intros Hrun.
    replace (Z.to_nat (2 * max)) with
      (Z.to_nat r + S (Z.to_nat (2 * max - r - 1) + 0))%nat by lia.
    rewrite find_eye_loop_skip_zero; [|lia|lia|intros j Hj; apply Hbefore; lia].
    rewrite Z.add_0_l, Z2Nat.id by lia.
    rewrite find_eye_loop_hit; [|lia|exact Hne|exact Hsr].
    rewrite find_eye_loop_skip_nonzero; [|lia|lia|exact Hne|intros j Hj; apply Hrun; lia].
    rewrite find_eye_loop_end by lia.
    assert (Hlast : truthy (sample h (2 * max - 1)) = true).
    { apply truthy_true. destruct (Z.eq_dec (2 * max - 1) r) as [->|]; [exact Hsr|].
      apply Hrun. lia. }
    rewrite Hlast. reflexivity.
Qed.

(** A buffer without a non-zero sample leaves both outputs as they were. *)
Lemma find_eye_all_zero h max left :
  1 <= max -> 2 * max <= Z.of_nat (length (helper_arr h)) ->
  (forall i, 0 <= i < 2 * max -> sample h i = 0) ->
  find_eye_in_helper_arr h left UNSET_DELAY max = Some (left, UNSET_DELAY).
Proof.
  intros Hmax Hlen Hall. unfold find_eye_in_helper_arr.
  replace (Z.to_nat (2 * max)) with (Z.to_nat (2 * max) + 0)%nat by lia.
  rewrite find_eye_loop_skip_zero; [|lia|lia|intros j Hj; apply Hall; lia].
  rewrite find_eye_loop_end by lia. rewrite Hall by lia. reflexivity.
Qed.

(** [find_eye_in_helper_arr] always returns on a buffer that holds the
    scanned range. *)
Lemma find_eye_loop_total arr n it max left right :
  1 <= max -> 2 * max <= Z.of_nat (length arr) ->
  0 <= it -> it + Z.of_nat n <= Z.of_nat (length arr) ->
  is_Some (find_eye_loop arr n it max left right).
Proof.
  intros Hmax Hlen. revert it right. induction n as [|n IH]; intros it right Hit Hn.
  - cbn [find_eye_loop]. destruct (arr_get_in arr (2 * max - 1)) as [v ->]; [lia|]. eauto.
  - cbn [find_eye_loop]. destruct (arr_get_in arr it) as [v ->]; [lia|].
    cbv zeta. match goal with |- is_Some (if ?c then _ else _) => destruct c end; [eauto|].
    apply IH; lia.
Qed.

(** X29: for every buffer holding the scanned range and every [max >= 1],
    [find_eye_in_helper_arr] started with both outputs unset returns; both
    outputs stay unset on an all-zero buffer; an all-non-zero buffer gives
    right = 0 and left = 2*max; and when the first non-zero sample is at an
    index other than [UNSET_DELAY], that index is returned in [*right] and
    the index of the first zero sample after it in [*left] ([2*max] when the
    run reaches the end of the range), so that one run of length [L >= 1]
    that starts at [S] with [0 < S], [S + L < max] and [S] not
    [UNSET_DELAY] gives right = S and left = S + L. *)
Theorem find_eye_in_helper_arr_window h (max : Z) :
  1 <= max -> 2 * max <= Z.of_nat (length (helper_arr h)) ->
  exists left right,
    find_eye_in_helper_arr h UNSET_DELAY UNSET_DELAY max = Some (left, right) /\
    ((forall i, 0 <= i < 2 * max -> sample h i = 0) ->
       left = UNSET_DELAY /\ right = UNSET_DELAY) /\
    (forall r, 0 <= r < 2 * max -> r <> UNSET_DELAY -> sample h r <> 0 ->
       (forall i, 0 <= i < r -> sample h i = 0) ->
       right = r /\
       (forall l, r < l < 2 * max -> sample h l = 0 ->
          (forall j, r < j < l -> sample h j <> 0) -> left = l) /\
       ((forall j, r < j < 2 * max -> sample h j <> 0) -> left = 2 * max)) /\
    ((forall i, 0 <= i < 2 * max -> sample h i <> 0) -> right = 0 /\ left = 2 * max) /\
    (forall S L, 0 < S -> 1 <= L -> S + L < max -> S <> UNSET_DELAY ->
       (forall i, 0 <= i < 2 * max -> sample h i <> 0 <-> S <= i < S + L) ->
       right = S /\ left = S + L).
Proof.
  intros Hmax Hlen.
  destruct (find_eye_loop_total (helper_arr h) (Z.to_nat (2 * max)) 0 max
              UNSET_DELAY UNSET_DELAY) as [[left right] Hres]; [lia..|].
  fold (find_eye_in_helper_arr h UNSET_DELAY UNSET_DELAY max) in Hres.
  exists left, right. split; [exact Hres|].
  assert (Hgen : forall r, 0 <= r < 2 * max -> r <> UNSET_DELAY -> sample h r <> 0 ->
       (forall i, 0 <= i < r -> sample h i = 0) ->
       right = r /\
       (forall l, r < l < 2 * max -> sample h l = 0 ->
          (forall j, r < j < l -> sample h j <> 0) -> left = l) /\
       ((forall j, r < j < 2 * max -> sample h j <> 0) -> left = 2 * max)).
  { intros r Hr Hne Hsr Hbefore.
    destruct (find_eye_from_first h max r) as [Hclose Hopen];
      [lia|lia|lia|exact Hne|exact Hsr|exact Hbefore|].
    assert (Hright : right = r).
    { (* the run that starts at [r] either ends inside the range or not *)
      assert (Hcase : (exists l, r < l < 2 * max /\ sample h l = 0 /\
                                 forall j, r < j < l -> sample h j <> 0) \/
                      (forall j, r < j < 2 * max -> sample h j <> 0)).
      { clear - Hr. assert (Hind : forall k : nat,
          (exists l, r < l < r + 1 + Z.of_nat k /\ sample h l = 0 /\
                     forall j, r < j < l -> sample h j <> 0) \/
          (forall j, r < j < r + 1 + Z.of_nat k -> sample h j <> 0)).
        { induction k as [|k [IH|IH]].
          - right. intros j Hj. lia.
          - left. destruct IH as (l & Hl & H0 & Hrun). exists l. split; [lia|auto].
          - destruct (Z.eq_dec (sample h (r + 1 + Z.of_nat k)) 0) as [Hz|Hnz].
            + left. exists (r + 1 + Z.of_nat k). split; [lia|]. split; [exact Hz|exact IH].
            + right. intros j Hj.
              destruct (Z.eq_dec j (r + 1 + Z.of_nat k)) as [->|]; [exact Hnz|apply IH; lia]. }
        destruct (Hind (Z.to_nat (2 * max - r - 1))) as [(l & Hl & H0 & Hrun)|Hall].
        - left. exists l. split; [lia|auto].
        - right. intros j Hj. apply Hall. lia. }
      destruct Hcase as [(l & Hl & H0 & Hrun)|Hall].
      - rewrite (Hclose l Hl H0 Hrun) in Hres. congruence.
      - rewrite (Hopen Hall) in Hres. congruence. }
    split; [exact Hright|]. split.
    - intros l Hl H0 Hrun. rewrite (Hclose l Hl H0 Hrun) in Hres. congruence.
    - intros Hall. rewrite (Hopen Hall) in Hres. congruence. }
  split; [|split; [exact Hgen|split]].
  - intros Hall. rewrite find_eye_all_zero in Hres by assumption.
    split; congruence.
  - intros Hall.
    destruct (Hgen 0) as (Hr & _ & Hopen);
      [lia|unfold UNSET_DELAY; lia|apply Hall; lia|intros; lia|].
    split; [exact Hr|]. apply Hopen. intros j Hj. apply Hall. lia.
  - intros S L HS HL HSL HSne Hrun.
    destruct (Hgen S) as (Hr & Hclose & _); [lia|exact HSne|apply Hrun; lia| |].
    { intros i Hi. destruct (Z.eq_dec (sample h i) 0) as [|Hnz]; [assumption|].
      apply Hrun in Hnz; lia. }
    split; [exact Hr|]. apply Hclose; [lia| |].
    + destruct (Z.eq_dec (sample h (S + L)) 0) as [|Hnz]; [assumption|].
      apply Hrun in Hnz; lia.
    + intros j Hj. apply Hrun; lia.
Qed.

Lemma find_eye_in_helper_arr_window_witness :
  1 <= 2 /\ 2 * 2 <= Z.of_nat (length (helper_arr bench_helper)) /\
  exists left right,
    find_eye_in_helper_arr bench_helper UNSET_DELAY UNSET_DELAY 2 = Some (left, right) /\
    right = 1 /\ left = 3.
Proof.
  assert (H1 : 1 <= 2) by lia.
  assert (H2 : 2 * 2 <= Z.of_nat (length (helper_arr bench_helper))) by (simpl; lia).
  split; [exact H1|]. split; [exact H2|].
  destruct (find_eye_in_helper_arr_window bench_helper 2 H1 H2)
    as (left & right & Hres & _ & Hgen & _).
  exists left, right. split; [exact Hres|].
  destruct (Hgen 1) as (Hr & Hl & _).
  - lia.
  - unfold UNSET_DELAY. lia.
  - vm_compute. discriminate.
  - intros i Hi. assert (i = 0) as -> by lia. reflexivity.
  - split; [exact Hr|]. apply Hl.
    + lia.
    + reflexivity.
    + intros j Hj. assert (j = 2) as -> by lia. vm_compute. discriminate.
Defined.

Lemma find_eye_loop_S arr n it max left right :
  find_eye_loop arr (S n) it max left right =
  match arr_get arr it with
  | None => None
  | Some v =>
      let right' := if truthy v && (right =? UNSET_DELAY) then it else right in
      if negb (truthy v) && negb (right' =? UNSET_DELAY) then Some (it, right')
      else find_eye_loop arr n (it + 1) max left right'
  end.
Proof. reflexivity. Qed.

(** When the first non-zero sample sits at index [UNSET_DELAY], storing that
    index leaves [*right] "unset", and the next non-zero sample overwrites
    it. *)
Lemma find_eye_loop_sentinel h n max left :
  UNSET_DELAY + 3 <= Z.of_nat (length (helper_arr h)) ->
  sample h UNSET_DELAY <> 0 -> sample h (UNSET_DELAY + 1) <> 0 ->
  sample h (UNSET_DELAY + 2) = 0 ->
  find_eye_loop (helper_arr h) (S (S (S n))) UNSET_DELAY max left UNSET_DELAY =
  Some (UNSET_DELAY + 2, UNSET_DELAY + 1).
Proof.
  intros Hlen H0 H1 H2.
  assert (Hpos : 0 <= UNSET_DELAY) by (unfold UNSET_DELAY; lia).
  destruct (arr_get_in (helper_arr h) UNSET_DELAY) as [v0 Hv0]; [lia|].
  rewrite (sample_get _ _ _ Hv0) in H0. apply truthy_true in H0.
  rewrite find_eye_loop_S, Hv0. cbv zeta. rewrite H0, Z.eqb_refl. cbn [andb negb].
  rewrite find_eye_loop_hit; [|lia|lia|exact H1].
  replace (UNSET_DELAY + 1 + 1) with (UNSET_DELAY + 2) by lia.
  apply find_eye_loop_close; [lia|lia|exact H2].
Qed.

(** C1, at the failing input: with [max = 30721] the first non-zero sample
    of the buffer below is at index 61439 = [UNSET_DELAY], the run of
    non-zero samples is [61439, 61441), and [find_eye_in_helper_arr]
    returns 61440 in [*right], not the index of the first non-zero sample
    that its header documents. *)
Lemma find_eye_in_helper_arr_sentinel_collision :
  let h := sentinel_helper in
  let max := 30721 in
  let first := 61439 in
  1 <= max /\ 2 * max <= Z.of_nat (length (helper_arr h)) /\
  0 <= first < 2 * max /\ sample h first <> 0 /\
  (forall i, 0 <= i < first -> sample h i = 0) /\
  find_eye_in_helper_arr h UNSET_DELAY UNSET_DELAY max = Some (61441, 61440) /\
  61440 <> first.
Proof.
  cbv zeta.
  assert (Hlen : length (helper_arr sentinel_helper) = (Z.to_nat 61439 + 3)%nat).
  { unfold sentinel_helper, helper_arr. rewrite length_app, length_replicate. reflexivity. }
  assert (Hzero : forall i, 0 <= i < 61439 -> sample sentinel_helper i = 0).
  { intros i Hi. unfold sample, arr_get, sentinel_helper, helper_arr.
    destruct (Z.leb_spec 0 i); [|lia].
    rewrite lookup_app_l by (rewrite length_replicate; lia).
    rewrite lookup_replicate_2 by lia. reflexivity. }
  assert (Htail : forall k : nat, (k < 3)%nat ->
            sample sentinel_helper (61439 + Z.of_nat k) = default 0 ([1; 1; 0] !! k)).
  { intros k Hk. unfold sample, arr_get, sentinel_helper, helper_arr.
    destruct (Z.leb_spec 0 (61439 + Z.of_nat k)); [|lia].
    rewrite lookup_app_r by (rewrite length_replicate; lia).
    rewrite length_replicate.
    replace (Z.to_nat (61439 + Z.of_nat k) - Z.to_nat 61439)%nat with k by lia.
    reflexivity. }
  pose proof (Htail 0%nat ltac:(lia)) as T0.
  pose proof (Htail 1%nat ltac:(lia)) as T1.
  pose proof (Htail 2%nat ltac:(lia)) as T2.
  change (61439 + Z.of_nat 0) with 61439 in T0.
  change (61439 + Z.of_nat 1) with 61440 in T1.
  change (61439 + Z.of_nat 2) with 61441 in T2.
  cbn [lookup list_lookup default] in T0, T1, T2.
  split; [lia|]. split; [rewrite Hlen; lia|]. split; [lia|].
  split; [rewrite T0; discriminate|]. split; [exact Hzero|].
  split; [|discriminate].
  unfold find_eye_in_helper_arr.
  replace (Z.to_nat (2 * 30721)) with (Z.to_nat 61439 + 3)%nat by lia.
  rewrite find_eye_loop_skip_zero;
    [|lia|rewrite Hlen; lia|intros j Hj; apply Hzero; lia].
  rewrite Z2Nat.id by lia.
  apply (find_eye_loop_sentinel sentinel_helper 0 30721 UNSET_DELAY).
  - rewrite Hlen. unfold UNSET_DELAY. lia.
  - change (sample sentinel_helper 61439 <> 0). rewrite T0. discriminate.
  - change (sample sentinel_helper 61440 <> 0). rewrite T1. discriminate.
  - change (sample sentinel_helper 61441 = 0). exact T2.
Qed.

(** The right edge that [find_eye_in_helper_arr] reports is an index of the
    scanned range. *)
Lemma find_eye_loop_right arr n it max left right l r :
  find_eye_loop arr n it max left right = Some (l, r) ->
  r = right \/ it <= r < it + Z.of_nat n.
Proof.
  revert it right. induction n as [|n IH]; intros it right H.
  - cbn [find_eye_loop] in H. destruct (arr_get arr (2 * max - 1)); [|discriminate].
    injection H as _ <-. left; reflexivity.
  - rewrite find_eye_loop_S in H. destruct (arr_get arr it) as [v|]; [|discriminate].
    cbv zeta in H. destruct (truthy v && (right =? UNSET_DELAY)).
    + destruct (negb (truthy v) && negb (it =? UNSET_DELAY)).
      * injection H as _ <-. right. lia.
      * apply IH in H. destruct H as [->|H]; right; lia.
    + destruct (negb (truthy v) && negb (right =? UNSET_DELAY)).
      * injection H as _ <-. left; reflexivity.
      * apply IH in H. destruct H as [->|H]; [left; reflexivity|right; lia].
Qed.

Lemma find_eye_right_bound h max l r :
  find_eye_in_helper_arr h UNSET_DELAY UNSET_DELAY max = Some (l, r) ->
  r = UNSET_DELAY \/ 0 <= r < 2 * max.
Proof.
  unfold find_eye_in_helper_arr. intros H. apply find_eye_loop_right in H.
  destruct H as [->|H]; [left; reflexivity|right; lia].
Qed.

End EyeFacts.

(** ** CS and CA scans *)

Section ScanFacts.

Variable env : env_t.

(** *** The masks of one tap *)

Lemma not_u32_bit x n :
  Z.testbit (not_u32 x) n = true -> Z.testbit x n = false.
Proof.
  unfold not_u32, wrap_u32. intros H.
  destruct (Z.ltb_spec n 0) as [Hneg|Hpos].
  { rewrite Z.testbit_neg_r in H by lia. discriminate. }
  destruct (Z.ltb_spec n 32) as [Hlt|Hge].
  - rewrite Z.mod_pow2_bits_low in H by lia.
    rewrite Z.lnot_spec in H by lia. destruct (Z.testbit x n); [discriminate|reflexivity].
  - rewrite Z.mod_pow2_bits_high in H by lia. discriminate.
Qed.

Lemma cs_primary_cases p ws sn : cs_primary p ws sn = p \/ cs_primary p ws sn = 0.
Proof.
  unfold cs_primary.
  destruct (Z.land p ws =? ws); cbv zeta;
    match goal with |- context [if ?c then _ else _] => destruct c end; auto.
Qed.

(** The opposite-shift mask is kept only when it shares no module with the
    set it is tested against. *)
Lemma cs_opposite_disjoint o w n :
  Z.testbit (cs_opposite o w) n = true -> Z.testbit w n = false.
Proof.
  unfold cs_opposite. cbv zeta.
  destruct (Z.eqb_spec (Z.land o (not_u32 w)) o) as [Heq|_].
  - intros Hn. rewrite <- Heq, Z.land_spec in Hn.
    apply andb_true_iff in Hn as [_ Hn]. apply not_u32_bit. exact Hn.
  - rewrite Z.bits_0. discriminate.
Qed.

(** The two masks that reach line 98 never share a module. *)
Lemma cs_masks_disjoint p o ws sn :
  Z.land (cs_primary p ws sn) (cs_opposite o (Z.lor ws (cs_primary p ws sn))) = 0.
Proof.
  apply Z.bits_inj'. intros n Hn. rewrite Z.land_spec, Z.bits_0.
  destruct (Z.testbit (cs_opposite o (Z.lor ws (cs_primary p ws sn))) n) eqn:Ho.
  - apply cs_opposite_disjoint in Ho. rewrite Z.lor_spec in Ho.
    apply orb_false_iff in Ho as [_ ->]. reflexivity.
  - apply andb_false_r.
Qed.

Lemma cs_combine_disjoint a b : Z.land a b = 0 -> cs_combine a b = Z.lor a b.
Proof. unfold cs_combine. intros ->. reflexivity. Qed.

(** *** [reduce_cs] *)

Lemma land_shiftr_1 cs m : 0 <= m -> Z.land (Z.shiftr cs m) 1 = Z.b2z (Z.testbit cs m).
Proof.
  intros Hm. change 1 with (Z.ones 1) at 1. rewrite Z.land_ones by lia.
  change (2 ^ 1) with 2. rewrite <- Z.bit0_mod, Z.shiftr_spec by lia.
  reflexivity.
Qed.

Lemma reduce_cs_loop_spec cs n m ok :
  0 <= m -> ok = 0 \/ ok = 1 ->
  (reduce_cs_loop cs n m ok = 0 \/ reduce_cs_loop cs n m ok = 1) /\
  (reduce_cs_loop cs n m ok = 1 <->
     ok = 1 /\ forall j, m <= j < m + Z.of_nat n -> Z.testbit cs j = true).
Proof.
  revert m ok. induction n as [|n IH]; intros m ok Hm Hok.
  - cbn [reduce_cs_loop]. split; [exact Hok|]. split.
    + intros ->. split; [reflexivity|]. intros j Hj. lia.
    + intros [-> _]. reflexivity.
  - cbn [reduce_cs_loop]. rewrite land_shiftr_1 by lia.
    assert (Hok' : Z.land ok (Z.b2z (Z.testbit cs m)) = 0 \/
                   Z.land ok (Z.b2z (Z.testbit cs m)) = 1).
    { destruct Hok as [->| ->]; destruct (Z.testbit cs m); auto. }
    destruct (IH (m + 1) _ ltac:(lia) Hok') as [IH1 IH2].
    split; [exact IH1|]. rewrite IH2. split.
    + intros [Hand Hall].
      assert (ok = 1 /\ Z.testbit cs m = true) as [-> Hb].
      { destruct Hok as [->| ->]; destruct (Z.testbit cs m); try discriminate; auto. }
      split; [reflexivity|]. intros j Hj.
      destruct (Z.eq_dec j m) as [->|]; [exact Hb|apply Hall; lia].
    + intros [-> Hall]. split.
      * rewrite (Hall m) by lia. reflexivity.
      * intros j Hj. apply Hall. lia.
Qed.

(** [reduce_cs] is the AND of the bits of the modules. *)
Lemma reduce_cs_spec cs modules :
  (reduce_cs cs modules = 0 \/ reduce_cs cs modules = 1) /\
  (reduce_cs cs modules = 1 <->
     forall j, 0 <= j < Z.of_nat (Z.to_nat modules) -> Z.testbit cs j = true).
Proof.
  unfold reduce_cs.
  destruct (reduce_cs_loop_spec cs (Z.to_nat modules) 0 1) as [[H0|H1] Hiff]; [lia|auto|..].
  - rewrite H0. cbn. split; [auto|]. split; [discriminate|].
    intros Hall. exfalso. assert (reduce_cs_loop cs (Z.to_nat modules) 0 1 = 1) by (apply Hiff; auto).
    congruence.
  - rewrite H1. cbn. split; [auto|]. split; [|reflexivity].
    intros _. apply Hiff in H1 as [_ Hall]. exact Hall.
Qed.

Lemma wrap_i32_small v : v = 0 \/ v = 1 -> wrap_i32 v = v.
Proof. intros [->| ->]; reflexivity. Qed.

(** *** One tap of the CS scan *)

Lemma CS_scan_single_tap_run channel rank shift s :
  let ctx := st_ctx s in
  let a1 := [channel; rank; 0; shift; modules ctx; die_width ctx] in
  let a2 := [channel; rank; 0; lnot_int shift; modules ctx; die_width ctx] in
  let r := env (st_hw s) "cs.check" a1 in
  let tr1 := Call "cs.check" a1 r :: st_hw s in
  let ws := if seen_working s then helper_modules_without_shift s else 0 in
  let sn := if seen_working s then helper_modules_seen s else 0 in
  let works := cs_primary (wrap_u32 r) ws sn in
  let both := bool_decide (training_type ctx ≠ HOST_RCD) in
  let r_ := env tr1 "cs.check" a2 in
  let works_ := if both then cs_opposite (wrap_u32 r_) (Z.lor ws works) else 0 in
  let tr2 := if both then Call "cs.check" a2 r_ :: tr1 else tr1 in
  let v := reduce_cs (cs_combine works works_) (modules ctx) in
  CS_scan_single_tap env channel rank shift s =
  match Eye.set_helper_arr_value_and_advance v (st_helper s) with
  | None => None
  | Some h' =>
      Some (tt, mk_state
        (Call "cs.inc_dly" [channel; rank; 0] (env tr2 "cs.inc_dly" [channel; rank; 0]) :: tr2)
        h' (Z.lor ws works)
        (if both then Z.lor (Z.lor sn works) works_ else Z.lor sn works)
        (seen_working s || truthy v) ctx)
  end.
Proof.
  destruct s as [hw h ws0 sn0 sw ctx]. unfold CS_scan_single_tap. run_monad.
  destruct (bool_decide (training_type ctx ≠ HOST_RCD)); run_monad;
    match goal with |- context [Eye.set_helper_arr_value_and_advance ?v h] =>
      destruct (Eye.set_helper_arr_value_and_advance v h) end; reflexivity.
Qed.

Lemma advance_Some v h :
  0 <= Eye.helper_arr_it h < Z.of_nat (length (Eye.helper_arr h)) ->
  Eye.set_helper_arr_value_and_advance v h =
  Some (Eye.mk_helper (<[Z.to_nat (Eye.helper_arr_it h) := wrap_i32 v]> (Eye.helper_arr h))
                      (Eye.helper_arr_it h + 1)).
Proof.
  intros [Hlo Hhi]. unfold Eye.set_helper_arr_value_and_advance. cbv zeta.
  destruct (Z.leb_spec 0 (Eye.helper_arr_it h)); [|lia].
  destruct (Z.ltb_spec (Eye.helper_arr_it h) (Z.of_nat (length (Eye.helper_arr h)))); [|lia].
  reflexivity.
Qed.

Lemma sample_insert arr it i v :
  0 <= i < Z.of_nat (length arr) ->
  Eye.sample (Eye.mk_helper (<[Z.to_nat i := v]> arr) it) i = v.
Proof.
  intros [Hlo Hhi]. unfold Eye.sample, Eye.arr_get. cbn [Eye.helper_arr].
  destruct (Z.leb_spec 0 i); [|lia].
  rewrite list_lookup_insert_eq by lia. reflexivity.
Qed.

(** What one tap of a CS scan pass records, as the code computes it: the
    AND across all module bits of [works | works_], a single boolean, where
    [works] is the primary-shift mask kept by the two set tests and [works_]
    the opposite-shift mask kept by the test against
    [helper_modules_without_shift].  That set already holds [works] when
    [works_] is tested (line 88 comes before lines 93-95), so the two kept
    masks never share a module and the test [works & works_] of line 98,
    which would record 0, never fires. *)
Theorem CS_scan_single_tap_recorded channel rank shift s :
  let it := Eye.helper_arr_it (st_helper s) in
  0 <= it < Z.of_nat (length (Eye.helper_arr (st_helper s))) ->
  let ctx := st_ctx s in
  let a1 := [channel; rank; 0; shift; modules ctx; die_width ctx] in
  let a2 := [channel; rank; 0; lnot_int shift; modules ctx; die_width ctx] in
  let r := env (st_hw s) "cs.check" a1 in
  let ws := if seen_working s then helper_modules_without_shift s else 0 in
  let sn := if seen_working s then helper_modules_seen s else 0 in
  let works := cs_primary (wrap_u32 r) ws sn in
  let r_ := env (Call "cs.check" a1 r :: st_hw s) "cs.check" a2 in
  let works_ := if bool_decide (training_type ctx ≠ HOST_RCD)
                then cs_opposite (wrap_u32 r_) (Z.lor ws works) else 0 in
  exists s',
    CS_scan_single_tap env channel rank shift s = Some (tt, s') /\
    Z.land works works_ = 0 /\
    Eye.sample (st_helper s') it = reduce_cs (Z.lor works works_) (modules ctx) /\
    (Eye.sample (st_helper s') it = 0 \/ Eye.sample (st_helper s') it = 1) /\
    (Eye.sample (st_helper s') it = 1 <->
       forall m, 0 <= m < modules ctx -> Z.testbit (Z.lor works works_) m = true).
Proof.
  intros it Hit ctx a1 a2 r ws sn works r_ works_.
  assert (Hdis : Z.land works works_ = 0).
  { subst works_. destruct (bool_decide (training_type ctx ≠ HOST_RCD)).
    - apply cs_masks_disjoint.
    - apply Z.land_0_r. }
  destruct (reduce_cs_spec (Z.lor works works_) (modules ctx)) as [Hbool Hall].
  rewrite CS_scan_single_tap_run. fold ctx a1 a2 r ws sn works r_ works_.
  rewrite (cs_combine_disjoint _ _ Hdis).
  rewrite advance_Some by exact Hit. fold it.
  eexists. split; [reflexivity|]. cbn [st_helper].
  rewrite sample_insert by exact Hit. rewrite (wrap_i32_small _ Hbool).
  split; [exact Hdis|]. split; [reflexivity|]. split; [exact Hbool|].
  rewrite Hall. split; intros H m Hm; apply H; lia.
Qed.

(** *** The cursor along the scans *)

Lemma frame_size ok s s' : frame ok s s' -> buffer_size s' = buffer_size s.
Proof. intros [L _ _]. unfold buffer_size. rewrite L. reflexivity. Qed.

Lemma frame_call (names : list string) name args r s :
  name ∈ names -> frame (call_of names) s (set_hw (cons (Call name args r)) s).
Proof. intros H. apply frame_event. exact H. Qed.

Lemma frame_then ok s s1 s2 : frame ok s s1 -> frame ok s1 s2 -> frame ok s s2.
Proof. apply frame_trans. Qed.

Lemma frame_push_call (names : list string) name args r s s1 :
  name ∈ names -> frame (call_of names) s s1 ->
  frame (call_of names) s (set_hw (cons (Call name args r)) s1).
Proof. intros H F. eapply frame_trans; [exact F|]. apply frame_call. exact H. Qed.

Lemma frame_push_helper ok h s s1 :
  length (Eye.helper_arr h) = length (Eye.helper_arr (st_helper s1)) ->
  frame ok s s1 -> frame ok s (set_helper h s1).
Proof. intros H F. eapply frame_trans; [exact F|]. apply frame_helper. exact H. Qed.

Lemma frame_push_statics ok a b c s s1 :
  frame ok s s1 -> frame ok s (set_cs_statics a b c s1).
Proof. intros F. eapply frame_trans; [exact F|]. apply frame_statics. Qed.

Lemma frame_push_invert ok f s s1 :
  frame ok s s1 -> frame ok s (set_ctx (set_cs_invert f) s1).
Proof. intros F. eapply frame_trans; [exact F|]. apply frame_invert. Qed.


Lemma CS_scan_single_tap_runs channel rank shift s :
  0 <= cursor s < buffer_size s ->
  runs (CS_scan_single_tap env channel rank shift) s
    (fun _ s' => cursor s' = cursor s + 1 /\ frame (call_of cs_names) s s').
Proof.
  intros Hit. unfold runs. rewrite CS_scan_single_tap_run, advance_Some by exact Hit.
  eexists tt, _. split; [reflexivity|]. split; [reflexivity|].
  split; cbn [st_helper st_ctx st_hw Eye.helper_arr].
  - apply length_insert.
  - exists (fun m => m). symmetry. apply set_cs_invert_id.
  - destruct (bool_decide (training_type (st_ctx s) ≠ HOST_RCD)).
    + eexists [_; _; _]. split; [reflexivity|].
      repeat constructor.
    + eexists [_; _]. split; [reflexivity|].
      repeat constructor.
Qed.

Lemma CS_scan_single_runs channel rank shift s :
  0 <= cursor s -> 0 <= max_delay_taps (st_ctx s) ->
  cursor s + max_delay_taps (st_ctx s) <= buffer_size s ->
  runs (CS_scan_single env channel rank shift) s
    (fun _ s' => cursor s' = cursor s + max_delay_taps (st_ctx s) /\
                 frame (call_of cs_names) s s').
Proof.
  intros Hit Hmax Hcap. unfold CS_scan_single.
  apply runs_bind, runs_get_ctx. apply runs_bind.
  apply (runs_for_range (fun i s1 => cursor s1 = cursor s + i /\ frame (call_of cs_names) s s1));
    [exact Hmax|split; [lia|apply frame_refl]| |].
  - intros i s1 Hi [Hc Hf]. eapply runs_conseq.
    + apply CS_scan_single_tap_runs. rewrite (frame_size _ _ _ Hf). lia.
    + intros _ s2 [Hc2 Hf2]. split; [lia|]. eapply frame_then; eassumption.
  - intros s1 [Hc Hf]. apply runs_call_. split; [exact Hc|].
    eapply frame_then; [exact Hf|]. apply frame_call. name_in.
Qed.

Lemma CA_scan_single_runs channel rank address shift_back s :
  0 <= cursor s -> 0 <= max_delay_taps (st_ctx s) ->
  cursor s + max_delay_taps (st_ctx s) <= buffer_size s ->
  runs (CA_scan_single env channel rank address shift_back) s
    (fun _ s' => cursor s' = cursor s + max_delay_taps (st_ctx s) /\
                 st_ctx s' = st_ctx s /\
                 frame (call_of ca_names) s s').
Proof.
  intros Hit Hmax Hcap. unfold CA_scan_single.
  apply runs_bind, runs_get_ctx. apply runs_bind, runs_call_. apply runs_bind.
  match goal with |- runs _ ?s0 _ => set (s0' := s0) end.
  assert (F0 : frame (call_of ca_names) s s0').
  { apply frame_call. name_in. }
  apply (runs_for_range (fun i s1 => cursor s1 = cursor s + i /\ st_ctx s1 = st_ctx s /\
                                     frame (call_of ca_names) s s1));
    [exact Hmax|split; [subst s0'; cbn; unfold cursor; cbn; lia|split; [reflexivity|exact F0]]| |].
  - intros i s1 Hi (Hc & Hx & Hf). apply runs_bind, runs_call.
    unfold set_helper_arr_value_and_advance.
    apply runs_bind. eapply runs_lift_helper.
    + apply advance_Some. cbn [st_helper set_hw]. fold (cursor s1) (buffer_size s1).
      rewrite (frame_size _ _ _ Hf). lia.
    + apply runs_call_. split; [unfold cursor in *; cbn; lia|]. split; [exact Hx|].
      apply frame_push_call; [name_in|].
      apply frame_push_helper; [cbn; apply length_insert|].
      apply frame_push_call; [name_in|]. exact Hf.
  - intros s1 (Hc & Hx & Hf). apply runs_call_. split; [exact Hc|]. split; [exact Hx|].
    eapply frame_then; [exact Hf|]. apply frame_call. name_in.
Qed.

Lemma frame_clear ok s : frame ok s (set_helper (Eye.clear_helper_arr (st_helper s)) s).
Proof. apply frame_helper. cbn. apply length_replicate. Qed.

(** [CA_scan] records exactly two sweeps after its clear. *)
Lemma CA_scan_runs channel rank address s :
  0 <= max_delay_taps (st_ctx s) ->
  2 * max_delay_taps (st_ctx s) <= buffer_size s ->
  runs (CA_scan env channel rank address) s
    (fun _ s' => cursor s' = 2 * max_delay_taps (st_ctx s) /\
                 st_ctx s' = st_ctx s /\
                 frame (call_of ca_names) s s').
Proof.
  intros Hmax Hcap. unfold CA_scan.
  apply runs_bind, runs_clear_helper_arr.
  apply runs_bind, runs_call_. apply runs_bind, runs_call_.
  match goal with |- runs _ ?s0 _ => set (s0' := s0) end.
  assert (F0 : frame (call_of ca_names) s s0').
  { subst s0'. apply frame_push_call; [name_in|]. apply frame_push_call; [name_in|].
    apply frame_clear. }
  assert (C0 : cursor s0' = 0) by reflexivity.
  assert (X0 : st_ctx s0' = st_ctx s) by reflexivity.
  clearbody s0'.
  apply runs_bind. eapply runs_conseq.
  { apply CA_scan_single_runs; rewrite ?X0, ?C0, ?(frame_size _ _ _ F0); lia. }
  intros _ s1 (C1 & X1 & F1). rewrite X0, C0 in C1.
  apply runs_bind. eapply runs_conseq.
  { apply CA_scan_single_runs;
      rewrite ?X1, ?X0, ?C1, ?(frame_size _ _ _ F1), ?(frame_size _ _ _ F0); lia. }
  intros _ s2 (C2 & X2 & F2). rewrite X1, X0, C1 in C2.
  apply runs_call_. split; [unfold cursor in *; cbn; lia|].
  split; [cbn; congruence|].
  eapply frame_then; [exact F0|]. eapply frame_then; [exact F1|].
  eapply frame_then; [exact F2|]. apply frame_call. name_in.
Qed.

Lemma one_in_total h max :
  1 <= max -> max <= Z.of_nat (length (Eye.helper_arr h)) ->
  exists r, Eye.one_in_helper_arr h max = Some r /\ (r = -1 \/ r = 0 \/ r = 1).
Proof.
  intros Hmax Hlen.
  destruct (arr_get_in (Eye.helper_arr h) 0) as [v Hv]; [lia|].
  destruct (one_in_loop_spec h (Z.to_nat (max - 1)) 1) as (r & Hr & Hcase); [lia|lia|].
  unfold Eye.one_in_helper_arr. rewrite Hv. destruct (truthy v).
  - exists (-1). auto.
  - exists r. split; [exact Hr|]. destruct Hcase as [[-> _]|[-> _]]; auto.
Qed.

Lemma one_stride_loop_total arr n it max :
  0 <= it -> it + Z.of_nat n <= Z.of_nat (length arr) ->
  is_Some (Eye.one_stride_loop arr n it max).
Proof.
  revert it. induction n as [|n IH]; intros it Hit Hlen; cbn [Eye.one_stride_loop].
  - eauto.
  - destruct (arr_get_in arr it) as [v ->]; [lia|].
    destruct (truthy v); [apply IH; lia|eauto].
Qed.

Lemma one_stride_total h max :
  0 <= max -> max <= Z.of_nat (length (Eye.helper_arr h)) ->
  exists r, Eye.one_stride_helper_arr h max = Some r.
Proof.
  intros Hmax Hlen. unfold Eye.one_stride_helper_arr.
  destruct (one_stride_loop_total (Eye.helper_arr h) (Z.to_nat max) 0 max) as [r Hr]; [lia..|].
  eauto.
Qed.

Lemma runs_one_in max s (Q : Z -> state -> Prop) :
  1 <= max -> max <= buffer_size s ->
  (forall r, r = -1 \/ r = 0 \/ r = 1 -> Q r s) ->
  runs (one_in_helper_arr max) s Q.
Proof.
  intros Hmax Hlen HQ. destruct (one_in_total (st_helper s) max Hmax Hlen) as (r & Hr & Hc).
  eapply runs_read_helper; [exact Hr|auto].
Qed.

Lemma runs_one_stride max s (Q : Z -> state -> Prop) :
  0 <= max -> max <= buffer_size s ->
  (forall r, Q r s) ->
  runs (one_stride_helper_arr max) s Q.
Proof.
  intros Hmax Hlen HQ. destruct (one_stride_total (st_helper s) max Hmax Hlen) as (r & Hr).
  eapply runs_read_helper; [exact Hr|auto].
Qed.

(** Two sweeps in a row, from an empty buffer. *)
Lemma CS_two_sweeps channel rank shift1 shift2 s0 s (b : bool) (Q : bool -> state -> Prop) :
  1 <= max_delay_taps (st_ctx s0) ->
  2 * max_delay_taps (st_ctx s0) <= buffer_size s0 ->
  frame (call_of cs_names) s0 s -> cursor s = 0 ->
  (forall s', cursor s' = 2 * max_delay_taps (st_ctx s0) ->
              frame (call_of cs_names) s0 s' -> Q b s') ->
  runs (CS_scan_single env channel rank shift1 ;;
        CS_scan_single env channel rank shift2 ;; mret b) s Q.
Proof.
  intros Hmax Hcap F C HQ.
  destruct (frame_config _ _ _ F) as (_ & _ & _ & _ & Hm & _).
  apply runs_bind. eapply runs_conseq.
  { apply CS_scan_single_runs; rewrite ?Hm, ?C, ?(frame_size _ _ _ F); lia. }
  intros _ s1 [C1 F1]. cbv beta.
  destruct (frame_config _ _ _ F1) as (_ & _ & _ & _ & Hm1 & _).
  apply runs_bind. eapply runs_conseq.
  { apply CS_scan_single_runs;
      rewrite ?Hm1, ?Hm, ?C1, ?C, ?(frame_size _ _ _ F1), ?(frame_size _ _ _ F); lia. }
  intros _ s2 [C2 F2]. cbv beta. apply runs_ret. apply HQ.
  - rewrite C2, C1, C, Hm1, Hm. lia.
  - eapply frame_then; [exact F|]. eapply frame_then; eassumption.
Qed.

(** [CS_scan] returns, and whatever the checks answer the cursor ends at
    two sweeps. *)
Lemma CS_scan_runs channel rank s :
  1 <= max_delay_taps (st_ctx s) ->
  2 * max_delay_taps (st_ctx s) <= buffer_size s ->
  runs (CS_scan env channel rank) s
    (fun _ s' => cursor s' = 2 * max_delay_taps (st_ctx s) /\
                 frame (call_of cs_names) s s').
Proof.
  intros Hmax Hcap. unfold CS_scan. wp.
  match goal with |- runs _ ?s0 _ => set (s0' := s0) end.
  assert (F0 : frame (call_of cs_names) s s0').
  { subst s0'. apply frame_push_call; [name_in|]. apply frame_push_call; [name_in|].
    apply frame_push_statics. apply frame_clear. }
  assert (C0 : cursor s0' = 0) by reflexivity.
  assert (X0 : max_delay_taps (st_ctx s0') = max_delay_taps (st_ctx s)) by reflexivity.
  clearbody s0'.
  eapply runs_conseq.
  { apply CS_scan_single_runs; rewrite ?X0, ?C0, ?(frame_size _ _ _ F0); lia. }
  intros _ s1 [C1 F1]. cbv beta. rewrite C0, X0 in C1.
  assert (F01 : frame (call_of cs_names) s s1) by (eapply frame_then; eassumption).
  clear F0 F1 C0 X0 s0'.
  (* the polarity change *)
  apply runs_bind.
  apply (runs_conseq _ _ (fun _ s2 => cursor s2 = max_delay_taps (st_ctx s) /\
                                      frame (call_of cs_names) s s2)).
  { destruct (bool_decide (training_type (st_ctx s) = HOST_RCD)); [|wp; auto].
    apply runs_bind. apply runs_one_in; [lia|rewrite (frame_size _ _ _ F01); lia|].
    intros one _. destruct (one =? -1); [|wp; auto].
    apply runs_bind. apply runs_one_stride; [lia|rewrite (frame_size _ _ _ F01); lia|].
    intros stride. destruct (stride <? _); [|wp; auto].
    unfold clear_cs_sets. wp.
    match goal with |- runs _ ?s0 _ => set (s0' := s0) end.
    assert (F0 : frame (call_of cs_names) s s0').
    { subst s0'. apply frame_push_statics. apply frame_push_helper; [cbn; apply length_replicate|].
      apply frame_push_invert. exact F01. }
    assert (C0 : cursor s0' = 0) by reflexivity.
    destruct (frame_config _ _ _ F0) as (_ & _ & _ & _ & Hm & _).
    clearbody s0'. eapply runs_conseq.
    { apply CS_scan_single_runs; rewrite ?Hm, ?C0, ?(frame_size _ _ _ F0); lia. }
    intros _ s2 [C2 F2]. cbv beta. wp. split; [lia|]. eapply frame_then; eassumption. }
  intros shift s2 [C2 F2]. cbv beta.
  destruct (frame_config _ _ _ F2) as (_ & _ & _ & _ & Hm2 & _).
  apply runs_bind. apply runs_one_in; [lia|rewrite (frame_size _ _ _ F2); lia|].
  intros one Hone. apply runs_bind.
  apply (runs_conseq _ _ (fun _ s3 => cursor s3 = 2 * max_delay_taps (st_ctx s) /\
                                      frame (call_of cs_names) s s3)).
  { destruct (Z.eqb_spec one (-1)) as [_|Hn1].
    { apply runs_bind, runs_clear_helper_arr.
      eapply CS_two_sweeps; [exact Hmax|exact Hcap| |reflexivity|auto].
      apply frame_push_helper; [cbn; apply length_replicate|exact F2]. }
    destruct (Z.eqb_spec one 1) as [_|Hn2].
    { apply runs_bind. eapply runs_conseq.
      { apply CS_scan_single_runs; rewrite ?Hm2, ?C2, ?(frame_size _ _ _ F2); lia. }
      intros _ s3 [C3 F3]. cbv beta. wp. split; [lia|]. eapply frame_then; eassumption. }
    destruct (Z.eqb_spec one 0) as [_|Hn3]; [|lia].
    unfold clear_cs_sets. apply runs_bind, runs_clear_helper_arr.
    apply runs_bind, runs_modify.
    eapply CS_two_sweeps; [exact Hmax|exact Hcap| |reflexivity|auto].
    apply frame_push_statics. apply frame_push_helper; [cbn; apply length_replicate|exact F2]. }
  intros subtract s3 [C3 F3]. cbv beta. wp. split; [exact C3|].
  apply frame_push_call; [name_in|exact F3].
Qed.

(** C9: for every environment (any check results) and every
    [max_delay_taps >= 1], with the buffer declared for that tap count
    (capacity [2*max(64, max_delay_taps)]), one pass of [CS_scan] and one
    pass of [CA_scan] return without a write outside the buffer (such a
    write has no result in the model), the buffer keeps its size, and the
    cursor, which counts the samples recorded since the last clear, ends at
    [2*max_delay_taps], which does not exceed the capacity. *)
Theorem scan_pass_within_buffer channel rank address s :
  1 <= max_delay_taps (st_ctx s) ->
  buffer_size s = Eye.capacity (max_delay_taps (st_ctx s)) ->
  let within (_ : unit + bool) s' :=
    cursor s' = 2 * max_delay_taps (st_ctx s) /\
    cursor s' <= 2 * Z.max 64 (max_delay_taps (st_ctx s)) /\
    buffer_size s' = buffer_size s /\
    cursor s' <= buffer_size s' in
  runs (CS_scan env channel rank) s (fun b => within (inr b)) /\
  runs (CA_scan env channel rank address) s (fun u => within (inl u)).
Proof.
  intros Hmax Hsize within. unfold Eye.capacity in Hsize. split.
  - eapply runs_conseq; [apply CS_scan_runs; lia|].
    intros b s' [C F]. unfold within. rewrite (frame_size _ _ _ F). lia.
  - eapply runs_conseq; [apply CA_scan_runs; lia|].
    intros u s' (C & _ & F). unfold within. rewrite (frame_size _ _ _ F). lia.
Qed.

End ScanFacts.

Lemma scan_pass_within_buffer_witness :
  1 <= max_delay_taps (st_ctx bench_state) /\
  buffer_size bench_state = Eye.capacity (max_delay_taps (st_ctx bench_state)) /\
  runs (CS_scan env_all_pass 0 0) bench_state (fun _ s' => cursor s' = 8) /\
  runs (CA_scan env_all_pass 0 0 0) bench_state (fun _ s' => cursor s' = 8).
Proof.
  assert (H1 : 1 <= max_delay_taps (st_ctx bench_state)) by (cbn; lia).
  assert (H2 : buffer_size bench_state = Eye.capacity (max_delay_taps (st_ctx bench_state)))
    by reflexivity.
  split; [exact H1|]. split; [exact H2|].
  destruct (scan_pass_within_buffer env_all_pass 0 0 0 bench_state H1 H2) as [Hcs Hca].
  split.
  - eapply runs_conseq; [exact Hcs|]. intros b s' (C & _). exact C.
  - eapply runs_conseq; [exact Hca|]. intros u s' (C & _). exact C.
Defined.

Lemma CS_scan_single_tap_recorded_witness :
  0 <= Eye.helper_arr_it (st_helper bench_state)
    < Z.of_nat (length (Eye.helper_arr (st_helper bench_state))) /\
  exists s', CS_scan_single_tap env_all_pass 0 0 0 bench_state = Some (tt, s') /\
    Eye.sample (st_helper s') 0 = 1.
Proof.
  assert (H : 0 <= Eye.helper_arr_it (st_helper bench_state)
              < Z.of_nat (length (Eye.helper_arr (st_helper bench_state))))
    by (vm_compute; split; [discriminate|reflexivity]).
  split; [exact H|].
  destruct (CS_scan_single_tap_recorded env_all_pass 0 0 0 bench_state H)
    as (s' & Hrun & _ & Hval & _).
  exists s'. split; [exact Hrun|]. exact Hval.
Defined.

(** C3, at the failing input: a single module that reports "works" under
    both shifts at the first tap of a pass.  The tap is recorded as 1, where
    a tap on which a module works under both shifts is to be recorded as
    0. *)
Lemma CS_scan_single_tap_both_shifts_recorded :
  let env := env_all_pass in
  let s := bench_state in
  let ctx := st_ctx s in
  let a1 := [0; 0; 0; 0; modules ctx; die_width ctx] in
  let a2 := [0; 0; 0; lnot_int 0; modules ctx; die_width ctx] in
  let primary := wrap_u32 (env (st_hw s) "cs.check" a1) in
  let opposite :=
    wrap_u32 (env (Call "cs.check" a1 (env (st_hw s) "cs.check" a1) :: st_hw s)
                  "cs.check" a2) in
  training_type ctx <> HOST_RCD /\
  Z.land primary opposite <> 0 /\
  exists s',
    CS_scan_single_tap env 0 0 0 s = Some (tt, s') /\
    Eye.sample (st_helper s') (Eye.helper_arr_it (st_helper s)) = 1.
Proof.
  cbv zeta. split; [discriminate|]. split; [vm_compute; discriminate|].
  eexists. split; [vm_compute; reflexivity|]. vm_compute. reflexivity.
Qed.

(** ** CA training *)

Lemma frame_same_config ok s s' : frame ok s s' -> config (st_ctx s') = config (st_ctx s).
Proof. intros [_ [f ->] _]. reflexivity. Qed.

Lemma rd_insert {K} `{Countable K} (m : gmap K Z) k v : rd (<[k := v]> m) k = v.
Proof. unfold rd. rewrite lookup_insert_eq. reflexivity. Qed.

Lemma rd_insert_ne {K} `{Countable K} (m : gmap K Z) k k' v :
  k <> k' -> rd (<[k := v]> m) k' = rd m k'.
Proof. intros Hne. unfold rd. rewrite lookup_insert_ne by exact Hne. reflexivity. Qed.

(** [ca_widen] keeps the larger right edge and the smaller left edge of its
    line, and nothing else changes. *)
Lemma ca_widen_spec channel address right_side left_side d :
  rd (ca_widen channel address right_side left_side d) (channel, address, 0)
    = Z.max (rd d (channel, address, 0)) right_side /\
  rd (ca_widen channel address right_side left_side d) (channel, address, 1)
    = Z.min (rd d (channel, address, 1)) left_side /\
  (forall k, k <> (channel, address, 0) -> k <> (channel, address, 1) ->
     rd (ca_widen channel address right_side left_side d) k = rd d k).
Proof.
  unfold ca_widen.
  destruct (Z.gtb_spec right_side (rd d (channel, address, 0))) as [Hr|Hr].
  - rewrite rd_insert_ne by congruence.
    destruct (Z.ltb_spec left_side (rd d (channel, address, 1))) as [Hl|Hl].
    + split; [|split].
      * rewrite rd_insert_ne by congruence. rewrite rd_insert. lia.
      * rewrite rd_insert. lia.
      * intros k H0 H1. rewrite !rd_insert_ne by congruence. reflexivity.
    + split; [|split].
      * rewrite rd_insert. lia.
      * rewrite rd_insert_ne by congruence. lia.
      * intros k H0 H1. rewrite !rd_insert_ne by congruence. reflexivity.
  - destruct (Z.ltb_spec left_side (rd d (channel, address, 1))) as [Hl|Hl].
    + split; [|split].
      * rewrite rd_insert_ne by congruence. lia.
      * rewrite rd_insert. lia.
      * intros k H0 H1. rewrite !rd_insert_ne by congruence. reflexivity.
    + split; [lia|]. split; [lia|]. reflexivity.
Qed.

Lemma envelope_snoc a windows e init :
  envelope a (windows ++ [e]) init = envelope_step a (envelope a windows init) e.
Proof. unfold envelope. rewrite fold_left_app. reflexivity. Qed.

Lemma windows_of_snoc a windows address r l :
  windows_of a (windows ++ [[address; r; l]]) =
  windows_of a windows + (if address =? a then 1 else 0).
Proof.
  unfold windows_of. rewrite List.filter_app, length_app. cbn [List.filter head].
  destruct (Z.eqb_spec address a) as [->|Hne].
  - rewrite bool_decide_eq_true_2 by reflexivity. cbn. lia.
  - rewrite bool_decide_eq_false_2 by congruence. cbn. lia.
Qed.

Lemma config_max c c' : config c' = config c -> max_delay_taps c' = max_delay_taps c.
Proof. unfold config. intros H. congruence. Qed.

Section CAFacts.

Variable env : env_t.

Lemma runs_find_eye left right max s (Q : Z * Z -> state -> Prop) :
  1 <= max -> 2 * max <= buffer_size s ->
  (forall l r, Eye.find_eye_in_helper_arr (st_helper s) left right max = Some (l, r) ->
               Q (l, r) s) ->
  runs (find_eye_in_helper_arr left right max) s Q.
Proof.
  intros Hmax Hlen HQ.
  destruct (find_eye_loop_total (Eye.helper_arr (st_helper s)) (Z.to_nat (2 * max)) 0 max
              left right) as [[l r] Hres]; [unfold buffer_size in Hlen; lia..|].
  eapply runs_read_helper; [exact Hres|]. apply HQ. exact Hres.
Qed.

(** One address line of one rank: scan, window, envelope. *)
Lemma CA_training_line_runs channel rank address s :
  1 <= max_delay_taps (st_ctx s) ->
  2 * max_delay_taps (st_ctx s) <= buffer_size s ->
  let max := max_delay_taps (st_ctx s) in
  runs (CA_training_line env channel rank address) s
    (fun ok s' =>
       config (st_ctx s') = config (st_ctx s) /\ buffer_size s' = buffer_size s /\
       exists left right,
         Eye.find_eye_in_helper_arr (st_helper s') Eye.UNSET_DELAY Eye.UNSET_DELAY max
           = Some (left, right) /\
         ((left = Eye.UNSET_DELAY \/ right = Eye.UNSET_DELAY) ->
            ok = false /\
            ca_delays (st_ctx s') = ca_delays (st_ctx s) /\
            printed CA_window_fmt (st_hw s') = printed CA_window_fmt (st_hw s) /\
            printed CA_failed_fmt (st_hw s') = printed CA_failed_fmt (st_hw s) ++ [[address]]) /\
         (left <> Eye.UNSET_DELAY -> right <> Eye.UNSET_DELAY ->
            ok = true /\
            ca_delays (st_ctx s') =
              ca_widen channel address (right - max) (left - max) (ca_delays (st_ctx s)) /\
            printed CA_window_fmt (st_hw s') =
              printed CA_window_fmt (st_hw s) ++ [[address; right - max; left - max]] /\
            printed CA_failed_fmt (st_hw s') = printed CA_failed_fmt (st_hw s))).
Proof.
  intros Hmax Hcap max. unfold CA_training_line. wp.
  eapply runs_conseq; [apply CA_scan_runs; lia|].
  intros _ s1 (C1 & X1 & F1). cbv beta. apply runs_bind. fold max.
  apply runs_find_eye; [exact Hmax|rewrite (frame_size _ _ _ F1); exact Hcap|].
  intros left right Hres.
  destruct (Z.eqb_spec left Eye.UNSET_DELAY) as [Hl|Hl];
    [|destruct (Z.eqb_spec right Eye.UNSET_DELAY) as [Hr|Hr]]; cbn [orb]; wp.
  1,2: split; [cbn [st_ctx set_hw]; rewrite X1; reflexivity|];
       split; [apply (frame_size _ _ _ F1)|];
       exists left, right; split; [exact Hres|]; split; [|intros; contradiction];
       intros _; split; [reflexivity|]; cbn [st_ctx st_hw set_hw];
       split; [rewrite X1; reflexivity|];
       rewrite !printed_Print, !(frame_printed _ _ _ _ F1);
       rewrite bool_decide_eq_false_2 by discriminate;
       rewrite bool_decide_eq_true_2 by reflexivity;
       rewrite app_nil_r; split; reflexivity.
  split; [cbn [st_ctx set_hw set_ctx]; rewrite X1; reflexivity|].
  split; [apply (frame_size _ _ _ F1)|].
  exists left, right. split; [exact Hres|]. split; [intros [?|?]; contradiction|].
  intros _ _. split; [reflexivity|]. cbn [st_ctx st_hw set_hw set_ctx].
  split; [cbn; rewrite X1; reflexivity|].
  rewrite !printed_Print, !(frame_printed _ _ _ _ F1).
  rewrite bool_decide_eq_true_2 by reflexivity.
  rewrite bool_decide_eq_false_2 by discriminate.
  rewrite app_nil_r. split; reflexivity.
Qed.

Lemma CA_inv_line channel s r j s1 :
  1 <= max_delay_taps (st_ctx s) ->
  2 * max_delay_taps (st_ctx s) <= buffer_size s ->
  CA_inv channel s r j true s1 ->
  runs (CA_training_line env channel r j) s1
    (fun ok s2 => CA_inv channel s r (j + 1) ok s2).
Proof.
  intros Hmax Hcap (Hcfg & Hsize & new & Hnew & Henv & Hok & _).
  destruct (Hok eq_refl) as [Hfail Hcount].
  pose proof (config_max _ _ Hcfg) as Hm.
  eapply runs_conseq.
  { apply CA_training_line_runs; rewrite ?Hm, ?Hsize; assumption. }
  intros ok s2 (Hcfg2 & Hsize2 & left & right & _ & Hno & Hyes). rewrite Hm in *.
  set (max := max_delay_taps (st_ctx s)) in *.
  split; [congruence|]. split; [congruence|].
  destruct (Z.eq_dec left Eye.UNSET_DELAY) as [Hl|Hl];
    [|destruct (Z.eq_dec right Eye.UNSET_DELAY) as [Hr|Hr]].
  1,2: destruct Hno as (-> & Hd & Hw & Hf); [tauto|];
       exists new; split; [congruence|]; split;
         [intros a; unfold ca_envelope; rewrite Hd; apply Henv|];
       split; [discriminate|]; intros _; exists j; congruence.
  destruct (Hyes Hl Hr) as (-> & Hd & Hw & Hf).
  destruct (ca_widen_spec channel j (right - max) (left - max) (ca_delays (st_ctx s1)))
    as (W0 & W1 & Wother).
  exists (new ++ [[j; right - max; left - max]]).
  split; [rewrite Hw, Hnew, app_assoc; reflexivity|]. split; [|split; [|discriminate]].
  - intros a. rewrite envelope_snoc, <- Henv. unfold ca_envelope, envelope_step.
    rewrite Hd. cbn [fst snd]. destruct (Z.eqb_spec j a) as [->|Hne].
    + rewrite W0, W1. reflexivity.
    + rewrite !Wother by congruence. reflexivity.
  - intros _. split; [congruence|]. intros a Ha.
    rewrite windows_of_snoc, (Hcount a Ha).
    destruct (Z.eqb_spec j a), (Z.ltb_spec a j), (Z.ltb_spec a (j + 1)); lia.
Qed.

Lemma CA_training_runs channel success s :
  1 <= max_delay_taps (st_ctx s) ->
  2 * max_delay_taps (st_ctx s) <= buffer_size s ->
  0 <= ranks (st_ctx s) -> 0 <= ca_line_count (st_ctx s) ->
  let max_rank :=
    if bool_decide (training_type (st_ctx s) = HOST_RCD) then 1 else ranks (st_ctx s) in
  runs (CA_training env channel success) s
    (fun success' s' =>
       exists ok, success' = (if ok : bool then success else 0) /\
                  CA_inv channel s (if ok then max_rank else 0) 0 ok s').
Proof.
  intros Hmax Hcap Hranks Hlines max_rank. unfold CA_training. wp. fold max_rank.
  assert (Hmr : 0 <= max_rank).
  { unfold max_rank. destruct (bool_decide _); lia. }
  set (L := ca_line_count (st_ctx s)) in *.
  apply (runs_for_while (fun r ok s1 => CA_inv channel s (if ok : bool then r else 0) 0 ok s1)).
  - split; [reflexivity|]. split; [reflexivity|]. exists []. split; [symmetry; apply app_nil_r|].
    split; [reflexivity|]. split; [|discriminate]. intros _. split; [reflexivity|].
    intros a Ha. unfold windows_of. cbn. destruct (Z.ltb_spec a 0); lia.
  - intros r ok s1 Hr Hok Hinv. subst ok.
    apply (runs_for_while (fun j ok s2 => CA_inv channel s (if ok : bool then r else 0)
                                             (if ok then j else 0) ok s2)).
    + exact Hinv.
    + intros j ok s2 Hj Hok Hinv2. subst ok. eapply runs_conseq.
      { apply CA_inv_line; [exact Hmax|exact Hcap|exact Hinv2]. }
      intros ok s3 Hinv3. cbv beta. destruct ok; [exact Hinv3|].
      destruct Hinv3 as (H1 & H2 & new & H3 & H4 & _ & H6).
      split; [exact H1|]. split; [exact H2|]. exists new. split; [exact H3|].
      split; [exact H4|]. split; [discriminate|exact H6].
    + intros k ok s2 Hk Hinv2 Hstop. cbv beta. destruct ok.
      * assert (k = L) as ->.
        { destruct (Z.eq_dec k L) as [|Hne]; [assumption|].
          rewrite Z2Nat.id in Hk, Hstop by lia. specialize (Hstop ltac:(lia)). discriminate. }
        destruct Hinv2 as (H1 & H2 & new & H3 & H4 & H5 & H6).
        split; [exact H1|]. split; [exact H2|]. exists new. split; [exact H3|].
        split; [exact H4|]. split; [|discriminate]. intros _.
        destruct (H5 eq_refl) as [Hf Hc]. split; [exact Hf|]. intros a Ha.
        rewrite (Hc a Ha). fold L in Ha.
        destruct (Z.ltb_spec a L), (Z.ltb_spec a 0); lia.
      * exact Hinv2.
  - intros k ok s' Hk Hinv Hstop. wp. exists ok. split; [reflexivity|].
    destruct ok; [|exact Hinv].
    assert (k = max_rank) as ->; [|exact Hinv].
    destruct (Z.eq_dec k max_rank) as [|Hne]; [assumption|].
    rewrite Z2Nat.id in Hk, Hstop by lia. specialize (Hstop ltac:(lia)). discriminate.
Qed.

Lemma CA_setup_array_runs s :
  0 <= channels (st_ctx s) ->
  runs CA_setup_array s
    (fun _ s' =>
       config (st_ctx s') = config (st_ctx s) /\ buffer_size s' = buffer_size s /\
       forall c a, 0 <= c < channels (st_ctx s) -> 0 <= a < 14 ->
         ca_envelope s' c a = (- max_delay_taps (st_ctx s), max_delay_taps (st_ctx s))).
Proof.
  intros Hch. unfold CA_setup_array. wp.
  set (max := max_delay_taps (st_ctx s)).
  apply (runs_for_range (fun i s1 =>
           config (st_ctx s1) = config (st_ctx s) /\ buffer_size s1 = buffer_size s /\
           forall c a, 0 <= c < i -> 0 <= a < 14 -> ca_envelope s1 c a = (- max, max)));
    [exact Hch|split; [reflexivity|split; [reflexivity|intros; lia]]| |auto].
  intros i s1 Hi (Hcfg & Hsize & Hdone).
  apply (runs_for_range (fun j s2 =>
           config (st_ctx s2) = config (st_ctx s) /\ buffer_size s2 = buffer_size s /\
           forall c a, (0 <= c < i /\ 0 <= a < 14) \/ (c = i /\ 0 <= a < j) ->
                       ca_envelope s2 c a = (- max, max))); [lia| | |].
  - split; [exact Hcfg|]. split; [exact Hsize|].
    intros c a [[Hc Ha]|[_ Ha]]; [auto|lia].
  - intros j s2 Hj (Hcfg2 & Hsize2 & Hdone2). wp. split; [exact Hcfg2|].
    split; [exact Hsize2|].
    intros c a Hca. unfold ca_envelope. cbn [st_ctx set_ctx set_ca_delays ca_delays].
    destruct (decide ((c, a) = (i, j))) as [Heq|Hne].
    + injection Heq as -> ->. rewrite rd_insert_ne by congruence.
      rewrite !rd_insert. reflexivity.
    + rewrite !rd_insert_ne by congruence. apply Hdone2.
      destruct Hca as [?|[-> Ha]]; [auto|]. right. split; [reflexivity|].
      assert (a <> j) by congruence. lia.
  - intros s2 (Hcfg2 & Hsize2 & Hdone2). split; [exact Hcfg2|]. split; [exact Hsize2|].
    intros c a Hc Ha. apply Hdone2.
    destruct (Z.eq_dec c i) as [->|]; [right; auto|left; split; [lia|exact Ha]].
Qed.

(** *** What CA training leaves for the CK finalization

    A trained address line has its midpoint at or below [max_delay_taps]:
    the right edge of a window is an index of the scanned range, and the
    left edge of the envelope never grows. *)

Lemma CA_line_bounded channel r j s1 :
  1 <= max_delay_taps (st_ctx s1) ->
  2 * max_delay_taps (st_ctx s1) <= buffer_size s1 ->
  ca_bounded channel s1 ->
  runs (CA_training_line env channel r j) s1
    (fun _ s2 => config (st_ctx s2) = config (st_ctx s1) /\
                 buffer_size s2 = buffer_size s1 /\ ca_bounded channel s2).
Proof.
  intros Hmax Hcap Hb.
  eapply runs_conseq; [apply CA_training_line_runs; assumption|].
  intros ok s2 (Hcfg & Hsize & left & right & Hres & Hno & Hyes).
  split; [exact Hcfg|]. split; [exact Hsize|].
  unfold ca_bounded. rewrite (config_max _ _ Hcfg).
  set (max := max_delay_taps (st_ctx s1)) in *. intros a Ha.
  destruct (Hb a Ha) as [B0 B1]. fold max in B0, B1.
  destruct (Z.eq_dec left Eye.UNSET_DELAY) as [Hl|Hl];
    [|destruct (Z.eq_dec right Eye.UNSET_DELAY) as [Hr|Hr]].
  1,2: destruct Hno as (_ & Hd & _); [tauto|];
       unfold ca_envelope in *; rewrite Hd; split; assumption.
  destruct (Hyes Hl Hr) as (_ & Hd & _).
  destruct (find_eye_right_bound _ _ _ _ Hres) as [|Hright]; [contradiction|].
  destruct (ca_widen_spec channel j (right - max) (left - max) (ca_delays (st_ctx s1)))
    as (W0 & W1 & Wother).
  unfold ca_envelope in *. rewrite Hd. cbn [fst snd] in *.
  destruct (Z.eq_dec j a) as [->|Hne].
  - rewrite W0, W1. lia.
  - rewrite !Wother by congruence. split; assumption.
Qed.

Lemma CA_training_bounded channel success s :
  1 <= max_delay_taps (st_ctx s) ->
  2 * max_delay_taps (st_ctx s) <= buffer_size s ->
  ca_bounded channel s ->
  runs (CA_training env channel success) s
    (fun _ s' => config (st_ctx s') = config (st_ctx s) /\ ca_bounded channel s').
Proof.
  intros Hmax Hcap Hb. unfold CA_training. wp.
  set (I := fun (_ : Z) (_ : bool) s1 =>
              config (st_ctx s1) = config (st_ctx s) /\ buffer_size s1 = buffer_size s /\
              ca_bounded channel s1).
  apply (runs_for_while I).
  - split; [reflexivity|]. split; [reflexivity|exact Hb].
  - intros r ok s1 _ _ Hinv. apply (runs_for_while I).
    + exact Hinv.
    + intros j ok2 s2 _ _ (Hcfg & Hsize & Hb2).
      pose proof (config_max _ _ Hcfg) as Hm. eapply runs_conseq.
      { apply CA_line_bounded; rewrite ?Hm, ?Hsize; assumption. }
      intros ok3 s3 (Hcfg3 & Hsize3 & Hb3). split; [congruence|]. split; [congruence|].
      exact Hb3.
    + intros k ok2 s2 _ Hinv2 _. exact Hinv2.
  - intros k ok s' _ (Hcfg & _ & Hb') _. wp. split; [exact Hcfg|exact Hb'].
Qed.

Lemma ca_bounded_midpoint channel s a :
  1 <= max_delay_taps (st_ctx s) -> ca_bounded channel s -> 0 <= a < 14 ->
  ca_midpoint (st_ctx s) channel a <= max_delay_taps (st_ctx s).
Proof.
  intros Hmax Hb Ha. destruct (Hb a Ha) as [B0 B1]. unfold ca_envelope in *.
  cbn [fst snd] in *. unfold ca_midpoint.
  set (max := max_delay_taps (st_ctx s)) in *.
  transitivity (Z.quot (max * 2) 2).
  - apply Z.quot_le_mono; lia.
  - rewrite Z.quot_mul by lia. lia.
Qed.

(** After [CA_setup_array] and [CA_training], whatever the checks answer,
    every address line of the channel has its midpoint at or below
    [max_delay_taps]. *)
Lemma CA_trained_midpoints channel success s :
  1 <= max_delay_taps (st_ctx s) ->
  2 * max_delay_taps (st_ctx s) <= buffer_size s ->
  0 <= channel < channels (st_ctx s) ->
  runs (CA_setup_array ;; CA_training env channel success) s
    (fun _ s' =>
       max_delay_taps (st_ctx s') = max_delay_taps (st_ctx s) /\
       forall a, 0 <= a < 14 ->
         ca_midpoint (st_ctx s') channel a <= max_delay_taps (st_ctx s')).
Proof.
  intros Hmax Hcap Hch. apply runs_bind.
  eapply runs_conseq; [apply CA_setup_array_runs; lia|].
  intros _ s1 (Hcfg & Hsize & Henv). pose proof (config_max _ _ Hcfg) as Hm.
  eapply runs_conseq.
  { apply CA_training_bounded; rewrite ?Hm, ?Hsize; [assumption..|].
    intros a Ha. rewrite Hm, (Henv channel a Hch Ha). cbn [fst snd]. lia. }
  intros success' s' [Hcfg' Hb']. pose proof (config_max _ _ Hcfg') as Hm'.
  split; [congruence|]. intros a Ha.
  apply ca_bounded_midpoint; [rewrite Hm', Hm; exact Hmax|exact Hb'|exact Ha].
Qed.


End CAFacts.


(** ** Read training *)

Lemma printed_other fmt evs tr :
  Forall (not_print fmt) evs -> printed fmt (evs ++ tr) = printed fmt tr.
Proof.
  induction 1 as [|e evs He _ IH]; [reflexivity|]. cbn [app].
  destruct e as [name args r|f args].
  - rewrite printed_Call. exact IH.
  - rewrite printed_Print, IH. cbn in He.
    rewrite bool_decide_eq_false_2 by exact He. apply app_nil_r.
Qed.

Lemma frame_printed_other fmt s s' :
  frame (not_print fmt) s s' -> printed fmt (st_hw s') = printed fmt (st_hw s).
Proof. intros [_ _ (evs & -> & F)]. apply printed_other. exact F. Qed.

Lemma frame_push_event (ok : event -> Prop) e s s1 :
  ok e -> frame ok s s1 -> frame ok s (set_hw (cons e) s1).
Proof. intros H F. eapply frame_trans; [exact F|]. apply frame_event. exact H. Qed.

Lemma for_while_stop {S : Type} n i (cond : S -> bool) body (acc : S) s :
  cond acc = false -> for_while n i cond body acc s = Some (acc, s).
Proof. intros Hc. destruct n; [reflexivity|]. rewrite for_while_S, Hc. reflexivity. Qed.


(** ** Write leveling and write data scans *)

Section WriteFacts.

Variable env : env_t.

(** The byte loop never reads what [write_dm_lfsr_check] returns. *)
Lemma dm_tap_runs channel rank module mr5 s :
  runs (dm_tap env channel rank module mr5) s
    (fun works s' => works = 1 /\ st_ctx s' = st_ctx s /\
                     frame (call_of ["write_dm_lfsr_check"]) s s').
Proof.
  unfold dm_tap.
  apply (runs_for_while
    (fun _ works s1 => works = 1 /\ st_ctx s1 = st_ctx s /\
                       frame (call_of ["write_dm_lfsr_check"]) s s1)).
  - split; [reflexivity|]. split; [reflexivity|apply frame_refl].
  - intros i works s1 _ _ (-> & Hc & Hf). wp. split; [reflexivity|]. split; [exact Hc|].
    eapply frame_trans; [exact Hf|]. apply frame_event. apply list_elem_of_here.
  - intros k works s' _ H _. exact H.
Qed.

Lemma dm_eye_step_after max d :
  0 <= d < max -> dm_eye_step max (dm_eye_after max d) 1 d = dm_eye_after max (d + 1).
Proof.
  intros Hd. unfold dm_eye_step, dm_eye_after.
  destruct (Z.eqb_spec d (max - 1)), (Z.eqb_spec (d + 1) 0), (Z.eqb_spec d 0),
    (Z.ltb_spec d max), (Z.ltb_spec (d + 1) max); try lia; cbn;
    repeat (first [rewrite bool_decide_eq_true_2 by reflexivity
                  |rewrite bool_decide_eq_false_2 by discriminate]; cbn);
    try reflexivity; f_equal; lia.
Qed.

Lemma dm_eye_after_open max d : 0 <= d < max -> eye_state (dm_eye_after max d) <> AFTER.
Proof.
  intros Hd. unfold dm_eye_after.
  destruct (d =? 0); [discriminate|]. destruct (Z.ltb_spec d max); [discriminate|lia].
Qed.

Lemma moduel_dm_scan_eye_runs channel rank module mr5 s :
  1 <= max_delay_taps (st_ctx s) ->
  runs (moduel_dm_scan_eye env channel rank module mr5) s
    (fun eye s' =>
       eye = mk_eye AFTER 0 (-1) (max_delay_taps (st_ctx s)) /\
       st_ctx s' = st_ctx s /\
       printed "%d" (st_hw s') =
         printed "%d" (st_hw s) ++ replicate (Z.to_nat (max_delay_taps (st_ctx s))) [1]).
Proof.
  intros Hmax. unfold moduel_dm_scan_eye. wp.
  set (max := max_delay_taps (st_ctx s)) in *.
  apply (runs_for_while (fun d eye s1 =>
           eye = dm_eye_after max d /\ st_ctx s1 = st_ctx s /\
           printed "%d" (st_hw s1) = printed "%d" (st_hw s) ++ replicate (Z.to_nat d) [1])).
  - split; [reflexivity|]. split; [reflexivity|].
    cbn [st_hw set_hw]. rewrite printed_Call. cbn. symmetry. apply app_nil_r.
  - intros d eye s1 Hd _ (-> & Hc & Hp). rewrite Z2Nat.id in Hd by lia.
    apply runs_bind. eapply runs_conseq; [apply dm_tap_runs|].
    intros works s2 (-> & Hc2 & Hf). cbv beta. wp. split; [|split].
    + apply dm_eye_step_after. lia.
    + cbn [st_ctx set_hw]. congruence.
    + cbn [st_hw set_hw]. rewrite printed_Call, printed_Print.
      rewrite (frame_printed _ _ _ _ Hf), Hp. cbn [bool_decide decide_rel].
      rewrite bool_decide_eq_true_2 by reflexivity.
      rewrite <- app_assoc. f_equal.
      replace (Z.to_nat (d + 1)) with (Z.to_nat d + 1)%nat by lia.
      rewrite replicate_add. reflexivity.
  - intros k eye s' Hk (-> & Hc & Hp) Hstop. rewrite Z2Nat.id in Hk, Hstop by lia.
    assert (k = max) as ->.
    { destruct (Z.eq_dec k max) as [|Hne]; [assumption|].
      specialize (Hstop ltac:(lia)).
      pose proof (dm_eye_after_open max k ltac:(lia)) as Hopen.
      rewrite bool_decide_eq_false_2 in Hstop by exact Hopen. discriminate. }
    split; [|split; [exact Hc|exact Hp]].
    unfold dm_eye_after. destruct (Z.eqb_spec max 0); [lia|].
    destruct (Z.ltb_spec max max); [lia|reflexivity].
Qed.

(** C10: in the DM-only eye scan the verdict of a tap never reads what
    [write_dm_lfsr_check] returns: whatever the environment answers, for
    [max_delay_taps >= 1] every tap is printed as working, the DM eye spans
    [[0, max_delay_taps)], the DM delay is programmed to
    [max_delay_taps / 2], and the scan returns success. *)
Theorem moduel_dm_scan_always_succeeds channel rank module mr5 s :
  1 <= max_delay_taps (st_ctx s) ->
  let max := max_delay_taps (st_ctx s) in
  runs (moduel_dm_scan_eye env channel rank module mr5) s
    (fun eye s' =>
       eye_state eye = AFTER /\ eye_start eye = 0 /\ eye_end eye = max /\
       printed "%d" (st_hw s') = printed "%d" (st_hw s) ++ replicate (Z.to_nat max) [1]) /\
  runs (moduel_dm_scan env channel rank module mr5) s
    (fun good s' =>
       good = true /\
       programmed_delay "odly_dm_rst" "odly_dm_inc" [channel; module; die_width (st_ctx s)]
         (st_hw s') = max / 2).
Proof.
  intros Hmax max. split.
  - eapply runs_conseq; [apply moduel_dm_scan_eye_runs; exact Hmax|].
    intros eye s' (-> & _ & Hp). auto.
  - unfold moduel_dm_scan. wp.
    eapply runs_conseq; [apply moduel_dm_scan_eye_runs; exact Hmax|].
    intros eye s1 (-> & Hc & _). cbv beta. cbn [eye_state eye_start eye_end]. wp.
    apply (runs_incs env "odly_dm_rst" "odly_dm_inc" _ ["odly_dm_inc"]);
      [discriminate|apply list_elem_of_here|].
    intros s' Hp _ _. wp. split; [reflexivity|].
    rewrite Hp. cbn [st_hw set_hw]. rewrite programmed_delay_rst.
    replace (0 + max_delay_taps (st_ctx s)) with max by (unfold max; lia).
    rewrite Z.quot_div_nonneg by lia.
    assert (0 <= max / 2) by (apply Z.div_pos; lia). lia.
Qed.

Lemma seqZ_snoc m k : 0 <= k -> seqZ m (k + 1) = seqZ m k ++ [m + k].
Proof. intros Hk. rewrite seqZ_app by lia. reflexivity. Qed.

End WriteFacts.

Lemma moduel_dm_scan_always_succeeds_witness :
  1 <= max_delay_taps (st_ctx bench_state) /\
  runs (moduel_dm_scan env_all_fail 0 0 0 0x20) bench_state
    (fun good s' =>
       good = true /\
       programmed_delay "odly_dm_rst" "odly_dm_inc" [0; 0; 8] (st_hw s') = 2).
Proof.
  assert (H : 1 <= max_delay_taps (st_ctx bench_state)) by (cbn; lia).
  split; [exact H|].
  exact (proj2 (moduel_dm_scan_always_succeeds env_all_fail 0 0 0 0x20 bench_state H)).
Defined.


(** ** CK finalization *)

Lemma call_of_cs_scan e : call_of cs_names e -> call_of scan_names e.
Proof.
  destruct e as [name args r|]; [|auto]. unfold call_of, scan_names.
  intros H. apply elem_of_app. left. exact H.
Qed.

Lemma call_of_ca_scan e : call_of ca_names e -> call_of scan_names e.
Proof.
  destruct e as [name args r|]; [|auto]. unfold call_of, scan_names.
  intros H. apply elem_of_app. right. exact H.
Qed.

Ltac scan_name :=
  unfold scan_names, cs_names, ca_names; cbn [app];
  repeat first [apply list_elem_of_here | apply list_elem_of_further].

Lemma MIN_min a b : MIN a b = Z.min a b.
Proof. unfold MIN. destruct (Z.ltb_spec a b); lia. Qed.

Lemma config_fields c c' :
  config c' = config c ->
  channels c' = channels c /\ ranks c' = ranks c /\ max_delay_taps c' = max_delay_taps c /\
  training_type c' = training_type c /\ ca_line_count c' = ca_line_count c.
Proof. unfold config. intros H. injection H. auto. Qed.

(** The end of a channel is the start of the next one. *)
Lemma done_upto_next lo count c c' i' :
  lo <= c -> (done_upto lo count c count c' i' <-> done_upto lo count (c + 1) 0 c' i').
Proof. unfold done_upto. lia. Qed.

Lemma done_upto_step lo count c i c' i' :
  done_upto lo count c (i + 1) c' i' <->
  done_upto lo count c i c' i' \/ (c' = c /\ i' = i /\ 0 <= i).
Proof. unfold done_upto. lia. Qed.

Lemma done_upto_fresh lo count c i : lo <= c -> ~ done_upto lo count c i c i.
Proof. unfold done_upto. lia. Qed.

(** The midpoints and their minimum. *)
Lemma CS_CA_calculate_midpoints_runs min0 max0 channel s :
  0 <= ranks (st_ctx s) -> 0 <= ca_line_count (st_ctx s) ->
  fst (channel_span (st_ctx s) channel) <= snd (channel_span (st_ctx s) channel) ->
  runs (CS_CA_calculate_midpoints min0 max0 channel) s
    (fun acc s1 =>
       midpoints_inv s (fst (channel_span (st_ctx s) channel)) min0
         (snd (channel_span (st_ctx s) channel)) 0 0 (fst acc) s1).
Proof.
  intros Hranks Hlines Hspan. unfold CS_CA_calculate_midpoints. wp.
  destruct (channel_span (st_ctx s) channel) as [lo hi]. cbn [fst snd] in *.
  set (R := ranks (st_ctx s)) in *. set (L := ca_line_count (st_ctx s)) in *.
  apply (runs_for_acc (fun c acc s1 => midpoints_inv s lo min0 c 0 0 (fst acc) s1));
    [exact Hspan| | |auto].
  { cbn [fst]. repeat (split; [reflexivity|]).
    split; [intros c' r' Hd; unfold done_upto in Hd; lia|].
    split; [intros c' a' Hd; unfold done_upto in Hd; lia|].
    split; [lia|auto]. }
  intros c acc s1 Hc Hinv. apply runs_bind.
  (* the ranks of channel [c] *)
  apply (runs_for_acc (fun r acc s2 => midpoints_inv s lo min0 c r 0 (fst acc) s2));
    [exact Hranks|exact Hinv| |].
  { intros r [mn mx] s2 Hr (Hhw & Hhe & Hcfg & Hcs & Hca & Hdcs & Hdca & Hle & Hatt).
    cbn [fst] in *. wp. cbn [fst]. rewrite MIN_min.
    assert (Hmid : cs_midpoint (st_ctx s2) c r = cs_midpoint (st_ctx s) c r).
    { unfold cs_midpoint. rewrite Hcs. reflexivity. }
    rewrite Hmid. set (temp := cs_midpoint (st_ctx s) c r) in *.
    split; [exact Hhw|]. split; [exact Hhe|]. split; [exact Hcfg|].
    split; [exact Hcs|]. split; [exact Hca|].
    cbn [st_ctx set_ctx set_cs_final_delays cs_final_delays ca_final_delays].
    split; [|split; [|split]].
    - intros c' r' Hd. apply done_upto_step in Hd as [Hd|(-> & -> & _)].
      + rewrite rd_insert_ne.
        * destruct (Hdcs c' r' Hd) as [H1 H2]. split; [exact H1|lia].
        * intros [= <- <-]. eapply done_upto_fresh; [|exact Hd]. lia.
      + rewrite rd_insert. split; [reflexivity|lia].
    - intros c' a' Hd. destruct (Hdca c' a' Hd) as [H1 H2]. split; [exact H1|lia].
    - lia.
    - destruct (Z.min_spec mn temp) as [[_ Hm]|[_ Hm]]; rewrite Hm.
      + destruct Hatt as [?|[(c' & r' & Hd & ?)|?]]; [auto| |auto].
        right. left. exists c', r'. split; [|assumption].
        apply done_upto_step. auto.
      + right. left. exists c, r. split; [|reflexivity].
        apply done_upto_step. right. repeat split; lia. }
  intros acc2 s2 Hinv2.
  (* the address lines of channel [c] *)
  apply (runs_for_acc (fun a acc s3 =>
           midpoints_inv s lo min0 c R a (fst acc) s3));
    [exact Hlines|exact Hinv2| |].
  { intros a [mn mx] s3 Ha (Hhw & Hhe & Hcfg & Hcs & Hca & Hdcs & Hdca & Hle & Hatt).
    cbn [fst] in *. wp. cbn [fst]. rewrite MIN_min.
    assert (Hmid : ca_midpoint (st_ctx s3) c a = ca_midpoint (st_ctx s) c a).
    { unfold ca_midpoint. rewrite Hca. reflexivity. }
    rewrite Hmid. set (temp := ca_midpoint (st_ctx s) c a) in *.
    split; [exact Hhw|]. split; [exact Hhe|]. split; [exact Hcfg|].
    split; [exact Hcs|]. split; [exact Hca|].
    cbn [st_ctx set_ctx set_ca_final_delays cs_final_delays ca_final_delays].
    split; [|split; [|split]].
    - intros c' r' Hd. destruct (Hdcs c' r' Hd) as [H1 H2]. split; [exact H1|lia].
    - intros c' a' Hd. apply done_upto_step in Hd as [Hd|(-> & -> & _)].
      + rewrite rd_insert_ne.
        * destruct (Hdca c' a' Hd) as [H1 H2]. split; [exact H1|lia].
        * intros [= <- <-]. eapply done_upto_fresh; [|exact Hd]. lia.
      + rewrite rd_insert. split; [reflexivity|lia].
    - lia.
    - destruct (Z.min_spec mn temp) as [[_ Hm]|[_ Hm]]; rewrite Hm.
      + destruct Hatt as [?|[?|(c' & a' & Hd & ?)]]; [auto|auto|].
        right. right. exists c', a'. split; [|assumption].
        apply done_upto_step. auto.
      + right. right. exists c, a. split; [|reflexivity].
        apply done_upto_step. right. repeat split; lia. }
  intros acc3 s3 (Hhw & Hhe & Hcfg & Hcs & Hca & Hdcs & Hdca & Hle & Hatt).
  repeat (split; [assumption|]).
  split; [|split; [|split; [exact Hle|]]].
  - intros c' r' Hd. apply Hdcs. apply done_upto_next; [lia|exact Hd].
  - intros c' a' Hd. apply Hdca. apply done_upto_next; [lia|exact Hd].
  - destruct Hatt as [?|[(c' & r' & Hd & ?)|(c' & a' & Hd & ?)]]; [auto| |].
    + right. left. exists c', r'. split; [|assumption]. apply done_upto_next; [lia|exact Hd].
    + right. right. exists c', a'. split; [|assumption]. apply done_upto_next; [lia|exact Hd].
Qed.

Section CKFacts.

Variable env : env_t.

(** The verification pass scans and restores; it leaves the delays stored
    in the context and the clock alone. *)
Lemma CS_CA_rescan_runs ckdly channel s :
  1 <= max_delay_taps (st_ctx s) ->
  2 * max_delay_taps (st_ctx s) <= buffer_size s ->
  0 <= ranks (st_ctx s) -> 0 <= ca_line_count (st_ctx s) ->
  fst (channel_span (st_ctx s) channel) <= snd (channel_span (st_ctx s) channel) ->
  runs (CS_CA_rescan env ckdly channel) s
    (fun _ s' => frame (call_of scan_names) s s').
Proof.
  intros Hmax Hcap Hranks Hlines Hspan. unfold CS_CA_rescan. wp.
  destruct (channel_span (st_ctx s) channel) as [lo hi]. cbn [fst snd] in Hspan.
  assert (Hkeep : forall s1, frame (call_of scan_names) s s1 ->
            1 <= max_delay_taps (st_ctx s1) /\
            2 * max_delay_taps (st_ctx s1) <= buffer_size s1).
  { intros s1 F. destruct (frame_config _ _ _ F) as (_ & _ & _ & _ & Hm & _).
    rewrite Hm, (frame_size _ _ _ F). auto. }
  apply (runs_for_range (fun _ s1 => frame (call_of scan_names) s s1));
    [exact Hspan|apply frame_refl| |auto].
  intros c s1 Hc F1. apply runs_bind.
  apply (runs_for_range (fun _ s2 => frame (call_of scan_names) s s2));
    [exact Hranks|exact F1| |].
  { intros r s2 Hr F2. destruct (Hkeep s2 F2) as [Hm2 Hc2].
    apply runs_bind. eapply runs_conseq; [apply CS_scan_runs; assumption|].
    intros b s3 [_ F3]. cbv beta. wp.
    apply (runs_incs env "cs.rst_dly" "cs.inc_dly" _ scan_names); [discriminate|scan_name|].
    intros s4 _ _ F4. eapply frame_trans; [|exact F4].
    apply frame_push_call; [scan_name|].
    eapply frame_trans; [exact F2|]. eapply frame_weaken; [apply call_of_cs_scan|exact F3]. }
  intros s2 F2.
  apply (runs_for_range (fun _ s3 => frame (call_of scan_names) s s3));
    [exact Hranks|exact F2| |auto].
  intros r s3 Hr F3.
  destruct (bool_decide (training_type (st_ctx s) = HOST_RCD) && (r =? 1)); [wp; exact F3|].
  apply (runs_for_range (fun _ s4 => frame (call_of scan_names) s s4));
    [exact Hlines|exact F3| |auto].
  intros a s4 Ha F4. destruct (Hkeep s4 F4) as [Hm4 Hc4].
  apply runs_bind. eapply runs_conseq; [apply CA_scan_runs; lia|].
  intros _ s5 (_ & _ & F5). cbv beta. wp.
  apply (runs_incs env "ca.rst_dly" "ca.inc_dly" _ scan_names); [discriminate|scan_name|].
  intros s6 _ _ F6. eapply frame_trans; [|exact F6].
  apply frame_push_call; [scan_name|].
  eapply frame_trans; [exact F4|]. eapply frame_weaken; [apply call_of_ca_scan|exact F5].
Qed.

(** A frame on top of a trace that extends [tr0]. *)
Lemma hw_ext_frame (ok : event -> Prop) s2 s3 tr0 evs :
  st_hw s2 = evs ++ tr0 -> Forall ok evs -> frame ok s2 s3 ->
  exists evs', st_hw s3 = evs' ++ tr0 /\ Forall ok evs'.
Proof.
  intros Hhw Hall [_ _ (evs2 & H2 & F2)].
  exists (evs2 ++ evs). split.
  - rewrite H2, Hhw, <- app_assoc. reflexivity.
  - apply Forall_app. split; [exact F2|exact Hall].
Qed.

Lemma CS_CA_set_adjusted_delays_runs ck_offset channel s :
  0 <= ranks (st_ctx s) -> 0 <= ca_line_count (st_ctx s) ->
  fst (channel_span (st_ctx s) channel) <= snd (channel_span (st_ctx s) channel) ->
  runs (CS_CA_set_adjusted_delays env ck_offset channel) s
    (fun _ s1 =>
       adjusted_inv s (fst (channel_span (st_ctx s) channel)) ck_offset
         (snd (channel_span (st_ctx s) channel)) 0 0 s1).
Proof.
  intros Hranks Hlines Hspan. unfold CS_CA_set_adjusted_delays. wp.
  destruct (channel_span (st_ctx s) channel) as [lo hi]. cbn [fst snd] in *.
  set (R := ranks (st_ctx s)) in *. set (L := ca_line_count (st_ctx s)) in *.
  apply (runs_for_range (fun c s1 => adjusted_inv s lo ck_offset c 0 0 s1));
    [exact Hspan| | |auto].
  { split; [exists []; split; [reflexivity|constructor]|].
    split; [reflexivity|]. split; [reflexivity|].
    split; intros c' i'; (split; [intros Hd; unfold done_upto in Hd; lia|reflexivity]). }
  intros c s1 Hc Hinv. apply runs_bind.
  apply (runs_for_range (fun r s2 => adjusted_inv s lo ck_offset c r 0 s2));
    [exact Hranks|exact Hinv| |].
  { intros r s2 Hr ((evs & Hhw & Hall) & Hsz & Hcfg & Hcs & Hca). wp.
    apply (runs_incs env "cs.rst_dly" "cs.inc_dly" _ scan_names); [discriminate|scan_name|].
    intros s3 _ Hctx F3. cbn [st_ctx set_hw set_ctx] in Hctx.
    split.
    { eapply (hw_ext_frame _ _ _ _ (_ :: evs)); [|  |exact F3].
      - cbn [st_hw set_hw set_ctx]. rewrite Hhw. reflexivity.
      - constructor; [scan_name|exact Hall]. }
    split; [rewrite (frame_size _ _ _ F3); exact Hsz|].
    rewrite Hctx. cbn [cs_final_delays ca_final_delays set_cs_final_delays].
    split; [exact Hcfg|]. split; [|exact Hca].
    intros c' r'. split.
    - intros Hd. apply done_upto_step in Hd as [Hd|(-> & -> & _)].
      + rewrite rd_insert_ne.
        * apply Hcs. exact Hd.
        * intros [= <- <-]. eapply done_upto_fresh; [|exact Hd]. lia.
      + rewrite rd_insert. f_equal. apply Hcs. apply done_upto_fresh. lia.
    - intros Hnd. rewrite rd_insert_ne.
      + apply Hcs. intros Hd. apply Hnd. apply done_upto_step. auto.
      + intros [= <- <-]. apply Hnd. apply done_upto_step. right. repeat split; lia. }
  intros s2 Hinv2.
  apply (runs_for_range (fun a s3 => adjusted_inv s lo ck_offset c R a s3));
    [exact Hlines|exact Hinv2| |].
  { intros a s3 Ha ((evs & Hhw & Hall) & Hsz & Hcfg & Hcs & Hca). wp.
    apply (runs_incs env "ca.rst_dly" "ca.inc_dly" _ scan_names); [discriminate|scan_name|].
    intros s4 _ Hctx F4. cbn [st_ctx set_hw set_ctx] in Hctx.
    split.
    { eapply (hw_ext_frame _ _ _ _ (_ :: evs)); [|  |exact F4].
      - cbn [st_hw set_hw set_ctx]. rewrite Hhw. reflexivity.
      - constructor; [scan_name|exact Hall]. }
    split; [rewrite (frame_size _ _ _ F4); exact Hsz|].
    rewrite Hctx. cbn [cs_final_delays ca_final_delays set_ca_final_delays].
    split; [exact Hcfg|]. split; [exact Hcs|].
    intros c' a'. split.
    - intros Hd. apply done_upto_step in Hd as [Hd|(-> & -> & _)].
      + rewrite rd_insert_ne.
        * apply Hca. exact Hd.
        * intros [= <- <-]. eapply done_upto_fresh; [|exact Hd]. lia.
      + rewrite rd_insert. f_equal. apply Hca. apply done_upto_fresh. lia.
    - intros Hnd. rewrite rd_insert_ne.
      + apply Hca. intros Hd. apply Hnd. apply done_upto_step. auto.
      + intros [= <- <-]. apply Hnd. apply done_upto_step. right. repeat split; lia. }
  intros s3 (Hev & Hsz & Hcfg & Hcs & Hca).
  split; [exact Hev|]. split; [exact Hsz|]. split; [exact Hcfg|]. split.
  - intros c' r'. destruct (Hcs c' r') as [H1 H2]. split.
    + intros Hd. apply H1. apply done_upto_next; [lia|exact Hd].
    + intros Hnd. apply H2. intros Hd. apply Hnd. apply done_upto_next; [lia|exact Hd].
  - intros c' a'. destruct (Hca c' a') as [H1 H2]. split.
    + intros Hd. apply H1. apply done_upto_next; [lia|exact Hd].
    + intros Hnd. apply H2. intros Hd. apply Hnd. apply done_upto_next; [lia|exact Hd].
Qed.

Lemma ck_not_scan name :
  name = "ck.rst_dly" \/ name = "ck.inc_dly" -> name ∉ scan_names.
Proof.
  intros Hn H. apply list_elem_of_In in H. unfold scan_names, cs_names, ca_names in H.
  cbn in H. destruct Hn as [-> | ->]; intuition discriminate.
Qed.

(** C2: when [CK_CS_CA_finalize_timings] completes on trained CS/CA eyes
    (some CS rank or CA line at hand has its midpoint at or below
    [max_delay_taps], as every CA line has after CA training, see
    [CA_trained_midpoints]), the clock
    delay programmed is [(max_delay_taps - min) mod max_delay_taps], where
    [min] is the least midpoint [(right + left) / 2] over the CS ranks and CA
    lines; every CS and CA final delay is its midpoint reduced by [min]; no
    adjusted final delay is negative and one of them is 0. *)
Theorem CK_CS_CA_finalize_timings_shift channel s :
  let ctx := st_ctx s in
  let lo := fst (channel_span ctx channel) in
  let hi := snd (channel_span ctx channel) in
  1 <= max_delay_taps ctx -> 2 * max_delay_taps ctx <= buffer_size s ->
  0 <= ranks ctx -> 0 <= ca_line_count ctx -> lo <= hi ->
  ((exists c r, lo <= c < hi /\ 0 <= r < ranks ctx /\
                cs_midpoint ctx c r <= max_delay_taps ctx) \/
   (exists c a, lo <= c < hi /\ 0 <= a < ca_line_count ctx /\
                ca_midpoint ctx c a <= max_delay_taps ctx)) ->
  runs (CK_CS_CA_finalize_timings env channel) s
    (fun _ s' =>
       exists min,
         (* [min] is the least midpoint *)
         (forall c r, lo <= c < hi -> 0 <= r < ranks ctx -> min <= cs_midpoint ctx c r) /\
         (forall c a, lo <= c < hi -> 0 <= a < ca_line_count ctx ->
                      min <= ca_midpoint ctx c a) /\
         ((exists c r, lo <= c < hi /\ 0 <= r < ranks ctx /\ cs_midpoint ctx c r = min /\
                       rd (cs_final_delays (st_ctx s')) (c, r) = 0) \/
          (exists c a, lo <= c < hi /\ 0 <= a < ca_line_count ctx /\
                       ca_midpoint ctx c a = min /\
                       rd (ca_final_delays (st_ctx s')) (c, a) = 0)) /\
         (* the clock *)
         programmed_delay "ck.rst_dly" "ck.inc_dly" [channel; 0; 0] (st_hw s')
           = (max_delay_taps ctx - min) mod max_delay_taps ctx /\
         (* the final delays *)
         (forall c r, lo <= c < hi -> 0 <= r < ranks ctx ->
            rd (cs_final_delays (st_ctx s')) (c, r) = cs_midpoint ctx c r - min /\
            0 <= rd (cs_final_delays (st_ctx s')) (c, r)) /\
         (forall c a, lo <= c < hi -> 0 <= a < ca_line_count ctx ->
            rd (ca_final_delays (st_ctx s')) (c, a) = ca_midpoint ctx c a - min /\
            0 <= rd (ca_final_delays (st_ctx s')) (c, a))).
Proof.
  intros ctx lo hi Hmax Hcap Hranks Hlines Hspan Htrained.
  unfold CK_CS_CA_finalize_timings. wp. fold ctx.
  eapply runs_conseq; [apply CS_CA_calculate_midpoints_runs; assumption|].
  intros [mn mx] s1 (Hhw1 & Hhe1 & Hcfg1 & _ & _ & Hdcs & Hdca & Hle & Hatt).
  cbv beta. cbn [fst] in *. fold ctx lo hi in Hdcs, Hdca, Hatt.
  assert (Hin : forall count c i, done_upto lo count hi 0 c i <-> lo <= c < hi /\ 0 <= i < count).
  { intros. unfold done_upto. lia. }
  (* [mn] is attained *)
  assert (Hatt' : (exists c r, lo <= c < hi /\ 0 <= r < ranks ctx /\ cs_midpoint ctx c r = mn) \/
                  (exists c a, lo <= c < hi /\ 0 <= a < ca_line_count ctx /\
                               ca_midpoint ctx c a = mn)).
  { destruct Hatt as [Heq|[(c & r & Hd & Heq)|(c & a & Hd & Heq)]].
    - destruct Htrained as [(c & r & Hc & Hr & Hmid)|(c & a & Hc & Ha & Hmid)].
      + left. exists c, r. split; [exact Hc|]. split; [exact Hr|].
        destruct (Hdcs c r) as [_ Hlow]; [apply Hin; auto|]. lia.
      + right. exists c, a. split; [exact Hc|]. split; [exact Ha|].
        destruct (Hdca c a) as [_ Hlow]; [apply Hin; auto|]. lia.
    - left. exists c, r. apply Hin in Hd. destruct Hd. auto.
    - right. exists c, a. apply Hin in Hd. destruct Hd. auto. }
  set (new_ckdly := Z.rem (max_delay_taps ctx - mn) (max_delay_taps ctx)).
  assert (Hck : new_ckdly = (max_delay_taps ctx - mn) mod max_delay_taps ctx).
  { unfold new_ckdly. apply Z.rem_mod_nonneg; lia. }
  assert (Hck0 : 0 <= new_ckdly).
  { rewrite Hck. apply Z.mod_pos_bound. lia. }
  wp.
  apply (runs_incs env "ck.rst_dly" "ck.inc_dly" _ ["ck.inc_dly"]);
    [discriminate|apply list_elem_of_here|].
  intros s2 Hp2 Hctx2 F2. cbn [st_hw st_ctx set_hw] in Hp2, Hctx2.
  rewrite programmed_delay_rst in Hp2. wp.
  match goal with |- runs _ ?st _ => set (s2' := st) end.
  assert (Hctx2' : st_ctx s2' = st_ctx s1) by exact Hctx2.
  assert (Hsz2 : buffer_size s2' = buffer_size s).
  { unfold s2', buffer_size. cbn [st_helper set_hw].
    destruct F2 as [Hl _ _]. cbn [st_helper set_hw] in Hl. rewrite Hl, Hhe1. reflexivity. }
  assert (Hp2' : programmed_delay "ck.rst_dly" "ck.inc_dly" [channel; 0; 0] (st_hw s2')
                 = new_ckdly).
  { unfold s2'. cbn [st_hw set_hw].
    rewrite programmed_delay_other by (intros; discriminate). lia. }
  destruct (config_fields _ _ Hcfg1) as (Hch & Hrk & Hmx & Htt & Hlc).
  assert (Hspan2 : channel_span (st_ctx s2') channel = channel_span ctx channel).
  { unfold channel_span. rewrite Hctx2', Hch. reflexivity. }
  clearbody s2'.
  eapply runs_conseq.
  { apply CS_CA_set_adjusted_delays_runs; rewrite ?Hspan2, ?Hctx2', ?Hrk, ?Hlc; assumption. }
  intros _ s3 ((evs3 & Hhw3 & Hall3) & Hsz3 & Hcfg3 & Hacs & Haca). cbv beta.
  assert (Hspan1 : channel_span (st_ctx s1) channel = channel_span ctx channel).
  { unfold channel_span. rewrite Hch. reflexivity. }
  assert (Hacs' : forall c r, lo <= c < hi -> 0 <= r < ranks ctx ->
            rd (cs_final_delays (st_ctx s3)) (c, r)
              = rd (cs_final_delays (st_ctx s1)) (c, r) - mn).
  { intros c r Hc Hr. destruct (Hacs c r) as [Hd _]. rewrite Hctx2' in Hd.
    apply Hd. rewrite Hspan1, Hrk. apply Hin. auto. }
  assert (Haca' : forall c a, lo <= c < hi -> 0 <= a < ca_line_count ctx ->
            rd (ca_final_delays (st_ctx s3)) (c, a)
              = rd (ca_final_delays (st_ctx s1)) (c, a) - mn).
  { intros c a Hc Ha. destruct (Haca c a) as [Hd _]. rewrite Hctx2' in Hd.
    apply Hd. rewrite Hspan1, Hlc. apply Hin. auto. }
  clear Hacs Haca.
  destruct (config_fields _ _ Hcfg3) as (Hch3 & Hrk3 & Hmx3 & Htt3 & Hlc3).
  assert (E3 : channels (st_ctx s3) = channels (st_ctx s) /\
               ranks (st_ctx s3) = ranks (st_ctx s) /\
               max_delay_taps (st_ctx s3) = max_delay_taps (st_ctx s) /\
               ca_line_count (st_ctx s3) = ca_line_count (st_ctx s) /\
               buffer_size s3 = buffer_size s).
  { repeat split; congruence. }
  destruct E3 as (Ech & Erk & Emx & Elc & Esz).
  eapply runs_conseq.
  { apply CS_CA_rescan_runs; unfold channel_span; rewrite ?Ech, ?Erk, ?Emx, ?Elc, ?Esz;
      assumption. }
  intros u4 s4 F4. cbv beta in F4 |- *.
  destruct (frame_delays _ _ _ F4) as (_ & Hcsf & _ & Hcaf).
  assert (Hfcs : forall c r, lo <= c < hi -> 0 <= r < ranks ctx ->
            rd (cs_final_delays (st_ctx s4)) (c, r) = cs_midpoint ctx c r - mn).
  { intros c r Hc Hr. rewrite Hcsf, Hacs' by assumption.
    destruct (Hdcs c r) as [-> _]; [apply Hin; auto|]. reflexivity. }
  assert (Hfca : forall c a, lo <= c < hi -> 0 <= a < ca_line_count ctx ->
            rd (ca_final_delays (st_ctx s4)) (c, a) = ca_midpoint ctx c a - mn).
  { intros c a Hc Ha. rewrite Hcaf, Haca' by assumption.
    destruct (Hdca c a) as [-> _]; [apply Hin; auto|]. reflexivity. }
  exists mn. split; [|split; [|split; [|split; [|split]]]].
  - intros c r Hc Hr. apply Hdcs, Hin. auto.
  - intros c a Hc Ha. apply Hdca, Hin. auto.
  - destruct Hatt' as [(c & r & Hc & Hr & Hm)|(c & a & Hc & Ha & Hm)].
    + left. exists c, r. repeat (split; [assumption|]). rewrite Hfcs by assumption. lia.
    + right. exists c, a. repeat (split; [assumption|]). rewrite Hfca by assumption. lia.
  - rewrite (frame_programmed _ _ _ scan_names _ _
               (ck_not_scan _ (or_introl eq_refl)) (ck_not_scan _ (or_intror eq_refl)) F4).
    rewrite Hhw3.
    rewrite (programmed_delay_calls _ _ _ scan_names)
      by (first [apply ck_not_scan; auto | exact Hall3]).
    rewrite Hp2'. exact Hck.
  - intros c r Hc Hr. rewrite Hfcs by assumption. split; [reflexivity|].
    destruct (Hdcs c r) as [_ Hlow]; [apply Hin; auto|]. lia.
  - intros c a Hc Ha. rewrite Hfca by assumption. split; [reflexivity|].
    destruct (Hdca c a) as [_ Hlow]; [apply Hin; auto|]. lia.
Qed.

End CKFacts.

Lemma CK_CS_CA_finalize_timings_shift_witness :
  1 <= max_delay_taps (st_ctx trained_state) /\
  2 * max_delay_taps (st_ctx trained_state) <= buffer_size trained_state /\
  ca_midpoint (st_ctx trained_state) 0 0 <= max_delay_taps (st_ctx trained_state) /\
  runs (CK_CS_CA_finalize_timings env_all_pass (-1)) trained_state
    (fun _ s' =>
       exists min,
         programmed_delay "ck.rst_dly" "ck.inc_dly" [-1; 0; 0] (st_hw s') = (4 - min) mod 4 /\
         rd (ca_final_delays (st_ctx s')) (0, 0) = -1 - min /\ min <= -1).
Proof.
  assert (H1 : 1 <= max_delay_taps (st_ctx trained_state)) by (cbn; lia).
  assert (H2 : 2 * max_delay_taps (st_ctx trained_state) <= buffer_size trained_state)
    by (vm_compute; discriminate).
  assert (H3 : ca_midpoint (st_ctx trained_state) 0 0
               <= max_delay_taps (st_ctx trained_state)) by (vm_compute; discriminate).
  split; [exact H1|]. split; [exact H2|]. split; [exact H3|].
  eapply runs_conseq.
  - apply (CK_CS_CA_finalize_timings_shift env_all_pass (-1) trained_state H1 H2).
    + cbn. lia.
    + cbn. lia.
    + cbn. lia.
    + right. exists 0, 0. split; [cbn; lia|]. split; [cbn; lia|exact H3].
  - intros u s' (min & _ & Hlow & _ & Hck & _ & Hca). exists min.
    split; [exact Hck|].
    destruct (Hca 0 0) as [Hfin _]; [cbn; lia|cbn; lia|].
    split; [exact Hfin|]. apply (Hlow 0 0); cbn; lia.
Defined.

(** * More rules for running the monad *)

Lemma runs_lift_option {A} (o : option A) a s (Q : A -> state -> Prop) :
  o = Some a -> Q a s -> runs (lift_option o) s Q.
Proof. intros -> H. exists a, s. split; [reflexivity|exact H]. Qed.

(** Two postconditions of one run hold together. *)
Lemma runs_and {A} (m : M A) s (Q1 Q2 : A -> state -> Prop) :
  runs m s Q1 -> runs m s Q2 -> runs m s (fun a s' => Q1 a s' /\ Q2 a s').
Proof.
  intros (a & s' & Hm & H1) H2. exists a, s'. split; [exact Hm|].
  split; [exact H1|]. exact (runs_inv _ _ _ _ _ H2 Hm).
Qed.

(** ** Answers and calls in the trace *)

Lemma answers_Call name n args r tr :
  answers name (Call n args r :: tr) =
  answers name tr ++ (if bool_decide (n = name) then [r] else []).
Proof.
  unfold answers. rewrite reverse_cons, omap_app. cbn.
  destruct (bool_decide (n = name)); reflexivity.
Qed.

Lemma answers_Print name f args tr : answers name (Print f args :: tr) = answers name tr.
Proof. unfold answers. rewrite reverse_cons, omap_app. cbn. apply app_nil_r. Qed.

Lemma answers_calls name names evs tr :
  name ∉ names -> Forall (call_of names) evs -> answers name (evs ++ tr) = answers name tr.
Proof.
  intros Hn. induction 1 as [|e evs He _ IH]; [reflexivity|].
  destruct e as [n args r|f args]; [|destruct He].
  cbn [app]. rewrite answers_Call, IH.
  rewrite bool_decide_eq_false_2 by (intros ->; apply Hn; exact He). apply app_nil_r.
Qed.

Lemma frame_answers name names s s' :
  name ∉ names -> frame (call_of names) s s' ->
  answers name (st_hw s') = answers name (st_hw s).
Proof. intros Hn [_ _ (evs & -> & F)]. eapply answers_calls; eauto. Qed.

Lemma calls_Call name n args r tr :
  calls name (Call n args r :: tr) =
  calls name tr ++ (if bool_decide (n = name) then [args] else []).
Proof.
  unfold calls. rewrite reverse_cons, omap_app. cbn.
  destruct (bool_decide (n = name)); reflexivity.
Qed.

Lemma calls_Print name f args tr : calls name (Print f args :: tr) = calls name tr.
Proof. unfold calls. rewrite reverse_cons, omap_app. cbn. apply app_nil_r. Qed.

Lemma calls_calls name names evs tr :
  name ∉ names -> Forall (call_of names) evs -> calls name (evs ++ tr) = calls name tr.
Proof.
  intros Hn. induction 1 as [|e evs He _ IH]; [reflexivity|].
  destruct e as [n args r|f args]; [|destruct He].
  cbn [app]. rewrite calls_Call, IH.
  rewrite bool_decide_eq_false_2 by (intros ->; apply Hn; exact He). apply app_nil_r.
Qed.

Lemma frame_calls name names s s' :
  name ∉ names -> frame (call_of names) s s' ->
  calls name (st_hw s') = calls name (st_hw s).
Proof. intros Hn [_ _ (evs & -> & F)]. eapply calls_calls; eauto. Qed.

(** A name that is not in a list of names. *)
Ltac name_out :=
  let H := fresh in
  intros H; repeat (apply elem_of_cons in H; destruct H as [H|H]; [discriminate H|]);
  apply elem_of_nil in H; exact H.

(** The frames of two lists of names, joined. *)
Lemma call_of_app_l names names' e : call_of names e -> call_of (names ++ names') e.
Proof.
  destruct e as [n args r|f args]; [|intros []]. cbn. intros H.
  apply elem_of_app. left. exact H.
Qed.

Lemma call_of_app_r names names' e : call_of names' e -> call_of (names ++ names') e.
Proof.
  destruct e as [n args r|f args]; [|intros []]. cbn. intros H.
  apply elem_of_app. right. exact H.
Qed.

Lemma call_of_incl names names' e :
  (forall n, n ∈ names -> n ∈ names') -> call_of names e -> call_of names' e.
Proof. intros Hincl. destruct e as [n args r|f args]; [|intros []]. cbn. apply Hincl. Qed.

Lemma frame_incl names names' s s' :
  (forall n, n ∈ names -> n ∈ names') ->
  frame (call_of names) s s' -> frame (call_of names') s s'.
Proof. intros Hincl. apply frame_weaken. intros e. apply call_of_incl. exact Hincl. Qed.

(** Membership by computation, for lists of literal names. *)
Ltac names_incl :=
  let n := fresh in let H := fresh in
  intros n H;
  repeat (apply elem_of_cons in H; destruct H as [->|H];
          [repeat first [apply list_elem_of_here | apply list_elem_of_further]|]);
  apply elem_of_nil in H; destruct H.

Ltac wp_more_step :=
  lazymatch goal with
  | |- runs (mbind _ _) _ _ => apply runs_bind
  | |- runs (mret _) _ _ => apply runs_ret
  | |- runs get_ctx _ _ => apply runs_get_ctx
  | |- runs get _ _ => apply runs_get
  | |- runs (call_ _ _ _) _ _ => apply runs_call_
  | |- runs (call _ _ _) _ _ => apply runs_call
  | |- runs (modify _) _ _ => apply runs_modify
  | |- runs (printf _ _) _ _ => apply runs_printf
  | |- runs (if truthy 0 then _ else _) _ _ => change (truthy 0) with false; cbv iota
  | |- runs (if truthy 1 then _ else _) _ _ => change (truthy 1) with true; cbv iota
  end; cbv beta.

Ltac wp_more := repeat wp_more_step.

(** Reads what a step added to the trace. *)
Ltac trace_simpl :=
  cbn [st_hw set_hw st_ctx];
  repeat first [rewrite answers_Call | rewrite answers_Print
               | rewrite calls_Call | rewrite calls_Print
               | rewrite printed_Call | rewrite printed_Print];
  repeat first [rewrite bool_decide_eq_true_2 by reflexivity
               | rewrite bool_decide_eq_false_2 by discriminate];
  rewrite ?app_nil_r.

(** The run itself may be kept next to what it establishes. *)
Lemma runs_with_eq {A} (m : M A) s (Q : A -> state -> Prop) :
  runs m s Q -> runs m s (fun a s' => m s = Some (a, s') /\ Q a s').
Proof. intros (a & s' & E & HQ). exists a, s'. auto. Qed.

(** ** Later states *)

Lemma later_refl s : later s s.
Proof. exists []. reflexivity. Qed.

Lemma later_trans s1 s2 s3 : later s1 s2 -> later s2 s3 -> later s1 s3.
Proof. intros (e1 & H1) (e2 & H2). exists (e2 ++ e1). rewrite H2, H1, app_assoc. reflexivity. Qed.

Lemma later_event e s : later s (set_hw (cons e) s).
Proof. exists [e]. reflexivity. Qed.


(** * More on the eye scanner *)

Section EyeMore.

Import Eye.

Lemma one_stride_loop_spec h n it max :
  0 <= it -> it + Z.of_nat n <= Z.of_nat (length (helper_arr h)) ->
  exists r, one_stride_loop (helper_arr h) n it max = Some r /\
    ((r = max /\ forall j, it <= j < it + Z.of_nat n -> sample h j <> 0) \/
     (it <= r < it + Z.of_nat n /\ sample h r = 0 /\
      forall j, it <= j < r -> sample h j <> 0)).
Proof.
  revert it. induction n as [|n IH]; intros it Hit Hn.
  - exists max. split; [reflexivity|]. left. split; [reflexivity|]. intros j Hj. lia.
  - cbn [one_stride_loop]. destruct (arr_get_in (helper_arr h) it) as [v Hv]; [lia|].
    rewrite Hv. pose proof (sample_get _ _ _ Hv) as Hs. destruct (truthy v) eqn:Ht.
    + apply truthy_true in Ht. destruct (IH (it + 1)) as (r & Hr & Hcase); [lia..|].
      exists r. split; [exact Hr|]. destruct Hcase as [[-> Hall]|(Hrange & Hz & Hall)].
      * left. split; [reflexivity|]. intros j Hj.
        destruct (Z.eq_dec j it) as [->|]; [congruence|apply Hall; lia].
      * right. split; [lia|]. split; [exact Hz|]. intros j Hj.
        destruct (Z.eq_dec j it) as [->|]; [congruence|apply Hall; lia].
    + apply truthy_false in Ht. exists it. split; [reflexivity|]. right.
      split; [lia|]. split; [congruence|]. intros j Hj. lia.
Qed.

(** X1: [one_stride_helper_arr] measures the run of non-zero samples that
    starts at index 0: for a buffer that holds [max >= 0] samples it returns
    the index of the first zero sample below [max], all samples before it
    being non-zero, and [max] when there is none. *)
Theorem one_stride_helper_arr_leading_run h (max : Z) :
  0 <= max -> max <= Z.of_nat (length (helper_arr h)) ->
  exists r, one_stride_helper_arr h max = Some r /\
    0 <= r <= max /\
    (forall i, 0 <= i < r -> sample h i <> 0) /\
    (r < max -> sample h r = 0).
Proof.
  intros Hmax Hlen. unfold one_stride_helper_arr.
  destruct (one_stride_loop_spec h (Z.to_nat max) 0 max) as (r & Hr & Hcase); [lia..|].
  exists r. split; [exact Hr|]. destruct Hcase as [[-> Hall]|(Hrange & Hz & Hall)].
  - split; [lia|]. split; [|lia]. intros i Hi. apply Hall. lia.
  - split; [lia|]. split; [exact Hall|]. intros _. exact Hz.
Qed.

(** ** Recording and reading back *)

Lemma sample_insert_eq arr it i v :
  0 <= i < Z.of_nat (length arr) ->
  default 0 (arr_get (<[Z.to_nat i := v]> arr) it) =
  if it =? i then v else default 0 (arr_get arr it).
Proof.
  intros Hi. unfold arr_get. destruct (Z.leb_spec 0 it) as [H0|H0].
  - destruct (Z.eqb_spec it i) as [->|Hne].
    + rewrite list_lookup_insert_eq by lia. reflexivity.
    + rewrite list_lookup_insert_ne by lia. reflexivity.
  - destruct (Z.eqb_spec it i); [lia|reflexivity].
Qed.

Lemma record_samples_spec vs h :
  0 <= helper_arr_it h ->
  helper_arr_it h + Z.of_nat (length vs) <= Z.of_nat (length (helper_arr h)) ->
  exists h', record_samples vs h = Some h' /\
    helper_arr_it h' = helper_arr_it h + Z.of_nat (length vs) /\
    length (helper_arr h') = length (helper_arr h) /\
    (forall i, sample h' i =
       if (helper_arr_it h <=? i) && (i <? helper_arr_it h + Z.of_nat (length vs))
       then wrap_i32 (vs !!! Z.to_nat (i - helper_arr_it h))
       else sample h i).
Proof.
  revert h. induction vs as [|v vs IH]; intros h Hit Hlen.
  - exists h. split; [reflexivity|]. split; [cbn; lia|]. split; [reflexivity|].
    intros i. cbn [length]. destruct (Z.leb_spec (helper_arr_it h) i), (Z.ltb_spec i (helper_arr_it h + Z.of_nat 0));
      cbn [andb]; try reflexivity; lia.
  - cbn [length] in Hlen. cbn [record_samples]. unfold set_helper_arr_value_and_advance.
    destruct (Z.leb_spec 0 (helper_arr_it h)); [|lia].
    destruct (Z.ltb_spec (helper_arr_it h) (Z.of_nat (length (helper_arr h)))); [|lia].
    cbn [andb].
    set (h1 := {| helper_arr := <[Z.to_nat (helper_arr_it h) := wrap_i32 v]> (helper_arr h);
                  helper_arr_it := helper_arr_it h + 1 |}).
    destruct (IH h1) as (h' & Hrun & Hcur & Hsize & Hsamples).
    { cbn. lia. }
    { cbn [h1 helper_arr helper_arr_it]. rewrite length_insert. lia. }
    exists h'. split; [exact Hrun|]. split; [rewrite Hcur; cbn [h1 helper_arr_it length]; lia|].
    split; [rewrite Hsize; cbn [h1 helper_arr]; apply length_insert|].
    intros i. rewrite Hsamples. cbn [h1 helper_arr_it length].
    unfold sample at 1. cbn [h1 helper_arr]. rewrite sample_insert_eq by lia.
    fold (sample h i).
    destruct (Z.leb_spec (helper_arr_it h + 1) i),
             (Z.ltb_spec i (helper_arr_it h + 1 + Z.of_nat (length vs))),
             (Z.leb_spec (helper_arr_it h) i),
             (Z.ltb_spec i (helper_arr_it h + Z.of_nat (S (length vs))));
      cbn [andb]; try lia;
      destruct (Z.eqb_spec i (helper_arr_it h)) as [Heq|Hne]; try lia; try reflexivity.
    + replace (Z.to_nat (i - helper_arr_it h)) with (S (Z.to_nat (i - (helper_arr_it h + 1))))
        by lia. reflexivity.
    + rewrite Heq, Z.sub_diag. reflexivity.
Qed.

Lemma record_samples_overflow vs h :
  0 <= helper_arr_it h <= Z.of_nat (length (helper_arr h)) ->
  Z.of_nat (length (helper_arr h)) < helper_arr_it h + Z.of_nat (length vs) ->
  record_samples vs h = None.
Proof.
  revert h. induction vs as [|v vs IH]; intros h Hit Hlen.
  - cbn [length] in Hlen. lia.
  - cbn [length] in Hlen. cbn [record_samples]. unfold set_helper_arr_value_and_advance.
    destruct ((0 <=? helper_arr_it h) && (helper_arr_it h <? Z.of_nat (length (helper_arr h))))
      eqn:E; [|reflexivity].
    apply andb_prop in E. destruct E as [E1 E2].
    apply Z.leb_le in E1. apply Z.ltb_lt in E2.
    apply IH; cbn [helper_arr helper_arr_it]; rewrite length_insert; lia.
Qed.

(** X2: after [clear_helper_arr], recording the values [vs] with
    [set_helper_arr_value_and_advance] succeeds exactly when [vs] fits in
    the buffer; then the cursor is the number of values recorded, sample
    [i] reads back as the [i]-th value (converted to [int32_t]), and the
    samples beyond the cursor still read 0.  One value more than the buffer
    holds is a write outside the array. *)
Theorem record_samples_read_back vs h :
  (Z.of_nat (length vs) <= Z.of_nat (length (helper_arr h)) ->
   exists h', record_samples vs (clear_helper_arr h) = Some h' /\
     helper_arr_it h' = Z.of_nat (length vs) /\
     length (helper_arr h') = length (helper_arr h) /\
     (forall i v, vs !! i = Some v -> sample h' (Z.of_nat i) = wrap_i32 v) /\
     (forall i, Z.of_nat (length vs) <= i -> sample h' i = 0)) /\
  (Z.of_nat (length (helper_arr h)) < Z.of_nat (length vs) ->
   record_samples vs (clear_helper_arr h) = None).
Proof.
  assert (Hclear : forall i, sample (clear_helper_arr h) i = 0).
  { intros i. unfold sample, arr_get. cbn [clear_helper_arr helper_arr].
    destruct (0 <=? i); [|reflexivity].
    match goal with |- default 0 ?o = 0 => destruct o as [v|] eqn:E end; [|reflexivity].
    apply lookup_replicate in E. destruct E as [-> _]. reflexivity. }
  split.
  - intros Hfit. destruct (record_samples_spec vs (clear_helper_arr h))
      as (h' & Hrun & Hcur & Hsize & Hsamples).
    { cbn. lia. }
    { cbn [clear_helper_arr helper_arr helper_arr_it]. rewrite length_replicate. lia. }
    exists h'. split; [exact Hrun|]. cbn [clear_helper_arr helper_arr_it] in Hcur, Hsamples.
    split; [lia|]. split.
    { rewrite Hsize. cbn [clear_helper_arr helper_arr]. apply length_replicate. }
    split.
    + intros i v Hv. rewrite Hsamples. pose proof (lookup_lt_Some _ _ _ Hv) as Hlt.
      destruct (Z.leb_spec 0 (Z.of_nat i)); [|lia].
      destruct (Z.ltb_spec (Z.of_nat i) (0 + Z.of_nat (length vs))); [|lia].
      cbn [andb]. replace (Z.to_nat (Z.of_nat i - 0)) with i by lia.
      rewrite (list_lookup_total_correct _ _ _ Hv). reflexivity.
    + intros i Hi. rewrite Hsamples.
      destruct (Z.ltb_spec i (0 + Z.of_nat (length vs))); [lia|].
      rewrite andb_false_r. apply Hclear.
  - intros Hover. apply record_samples_overflow;
      cbn [clear_helper_arr helper_arr helper_arr_it]; rewrite length_replicate; lia.
Qed.

(** ** The window that the callers test *)

(** The first index of a range at which a decidable property holds. *)
Lemma first_index (P : Z -> Prop) (Pdec : forall i, {P i} + {~ P i}) lo (n : nat) :
  (forall i, lo <= i < lo + Z.of_nat n -> ~ P i) \/
  (exists r, lo <= r < lo + Z.of_nat n /\ P r /\ forall i, lo <= i < r -> ~ P i).
Proof.
  revert lo. induction n as [|n IH]; intros lo.
  - left. intros i Hi. lia.
  - destruct (Pdec lo) as [Hlo|Hlo].
    + right. exists lo. split; [lia|]. split; [exact Hlo|]. intros i Hi. lia.
    + destruct (IH (lo + 1)) as [Hall|(r & Hr & HP & Hbefore)].
      * left. intros i Hi. destruct (Z.eq_dec i lo) as [->|]; [exact Hlo|apply Hall; lia].
      * right. exists r. split; [lia|]. split; [exact HP|]. intros i Hi.
        destruct (Z.eq_dec i lo) as [->|]; [exact Hlo|apply Hbefore; lia].
Qed.

(** X3: the test [left == UNSET_DELAY || right == UNSET_DELAY] that the
    callers of [find_eye_in_helper_arr] make is exact: for [max >= 1] with
    [2*max <= UNSET_DELAY] and both outputs unset on entry, an output is
    left unset if and only if all [2*max] samples are zero; otherwise the
    window has a positive width, [0 <= right < left <= 2*max], and every
    sample of [[right, left)] is non-zero. *)
Theorem find_eye_in_helper_arr_found h (max : Z) :
  1 <= max -> 2 * max <= Z.of_nat (length (helper_arr h)) ->
  2 * max <= UNSET_DELAY ->
  exists left right,
    find_eye_in_helper_arr h UNSET_DELAY UNSET_DELAY max = Some (left, right) /\
    ((left = UNSET_DELAY \/ right = UNSET_DELAY) <->
       forall i, 0 <= i < 2 * max -> sample h i = 0) /\
    (right <> UNSET_DELAY ->
       0 <= right < left /\ left <= 2 * max /\
       forall i, right <= i < left -> sample h i <> 0).
Proof.
  intros Hmax Hlen Hsent.
  assert (Hodd : 2 * max <> UNSET_DELAY) by (unfold UNSET_DELAY; lia).
  destruct (first_index (fun i => sample h i <> 0)
              (fun i => match Z.eq_dec (sample h i) 0 with
                        | left e => right (fun H => H e)
                        | right ne => left ne
                        end) 0 (Z.to_nat (2 * max)))
    as [Hzero|(r & Hr & Hnz & Hbefore)].
  - assert (Hall : forall i, 0 <= i < 2 * max -> sample h i = 0).
    { intros i Hi. destruct (Z.eq_dec (sample h i) 0) as [|Hne]; [assumption|].
      exfalso. apply (Hzero i); [lia|exact Hne]. }
    exists UNSET_DELAY, UNSET_DELAY.
    split; [apply find_eye_all_zero; assumption|].
    split; [split; [intros _; exact Hall|intros _; left; reflexivity]|].
    intros Hne. congruence.
  - assert (Hr' : 0 <= r < 2 * max) by lia.
    assert (Hb : forall i, 0 <= i < r -> sample h i = 0).
    { intros i Hi. destruct (Z.eq_dec (sample h i) 0) as [|Hne]; [assumption|].
      exfalso. apply (Hbefore i); [lia|exact Hne]. }
    assert (HrU : r <> UNSET_DELAY) by lia.
    destruct (find_eye_from_first h max r Hmax Hlen Hr' HrU Hnz Hb) as [Hclose Hopen].
    destruct (first_index (fun i => sample h i = 0) (fun i => Z.eq_dec (sample h i) 0)
                (r + 1) (Z.to_nat (2 * max - r - 1)))
      as [Hnone|(l & Hl & Hlz & Hlb)].
    + exists (2 * max), r. split; [apply Hopen; intros j Hj; apply Hnone; lia|].
      split.
      * split; [intros [?|?]; congruence|].
        intros Hall. exfalso. apply Hnz. apply Hall. exact Hr'.
      * intros _. split; [lia|]. split; [lia|]. intros i Hi.
        destruct (Z.eq_dec i r) as [->|]; [exact Hnz|apply Hnone; lia].
    + exists l, r. split; [apply Hclose; [lia|exact Hlz|intros j Hj; apply Hlb; lia]|].
      split.
      * split; [intros [?|?]; [lia|congruence]|].
        intros Hall. exfalso. apply Hnz. apply Hall. exact Hr'.
      * intros _. split; [lia|]. split; [lia|]. intros i Hi.
        destruct (Z.eq_dec i r) as [->|]; [exact Hnz|apply Hlb; lia].
Qed.

End EyeMore.

Lemma one_stride_helper_arr_leading_run_witness :
  0 <= 8 /\ 8 <= Z.of_nat (length (Eye.helper_arr run_helper)) /\
  exists r, Eye.one_stride_helper_arr run_helper 8 = Some r /\ r = 3.
Proof.
  assert (H1 : 0 <= 8) by lia.
  assert (H2 : 8 <= Z.of_nat (length (Eye.helper_arr run_helper))) by (cbn; lia).
  split; [exact H1|]. split; [exact H2|].
  destruct (one_stride_helper_arr_leading_run run_helper 8 H1 H2)
    as (r & Hr & Hrange & Hnz & Hz).
  exists r. split; [exact Hr|].
  vm_compute in Hr. congruence.
Defined.

Lemma find_eye_in_helper_arr_found_witness :
  1 <= 4 /\ 2 * 4 <= Z.of_nat (length (Eye.helper_arr run_helper)) /\
  2 * 4 <= Eye.UNSET_DELAY /\
  exists left right,
    Eye.find_eye_in_helper_arr run_helper Eye.UNSET_DELAY Eye.UNSET_DELAY 4
      = Some (left, right) /\
    0 <= right < left.
Proof.
  assert (H1 : 1 <= 4) by lia.
  assert (H2 : 2 * 4 <= Z.of_nat (length (Eye.helper_arr run_helper))) by (cbn; lia).
  assert (H3 : 2 * 4 <= Eye.UNSET_DELAY) by (unfold Eye.UNSET_DELAY; lia).
  split; [exact H1|]. split; [exact H2|]. split; [exact H3|].
  destruct (find_eye_in_helper_arr_found run_helper 4 H1 H2 H3)
    as (left & right & Hrun & _ & Hwin).
  exists left, right. split; [exact Hrun|].
  assert (Hne : right <> Eye.UNSET_DELAY) by (vm_compute in Hrun; injection Hrun as _ <-; discriminate).
  apply Hwin. exact Hne.
Defined.

(** * Write patterns *)

(** ** Bits *)

Lemma land1_b2z x : Z.land x 1 = Z.b2z (Z.testbit x 0).
Proof. change 1 with (Z.ones 1). rewrite Z.land_ones by lia. symmetry. apply Z.bit0_mod. Qed.

Lemma bit_b2z x k : 0 <= k -> Z.land (Z.shiftr x k) 1 = Z.b2z (Z.testbit x k).
Proof. intros Hk. rewrite land1_b2z, Z.shiftr_spec by lia. reflexivity. Qed.

Lemma testbit_b2z_pos (b : bool) i : i <> 0 -> Z.testbit (Z.b2z b) i = false.
Proof.
  intros Hi. destruct (Z.lt_ge_cases i 0) as [Hneg|Hpos].
  - apply Z.testbit_neg_r. exact Hneg.
  - destruct b; cbn [Z.b2z]; [|apply Z.bits_0].
    apply Z.bits_above_log2; [lia|]. cbn. lia.
Qed.

Lemma testbit_shiftl_b2z (b : bool) k j :
  0 <= j -> Z.testbit (Z.shiftl (Z.b2z b) k) j = b && (j =? k).
Proof.
  intros Hj. rewrite Z.shiftl_spec by exact Hj. destruct (Z.eqb_spec j k) as [->|Hne].
  - rewrite Z.sub_diag, Z.b2z_bit0, andb_true_r. reflexivity.
  - rewrite testbit_b2z_pos by lia. rewrite andb_false_r. reflexivity.
Qed.

Lemma b2z_eqb (a b : bool) : (Z.b2z a =? Z.b2z b) = eqb a b.
Proof. destruct a, b; reflexivity. Qed.

Lemma wrap_u16_range z : 0 <= wrap_u16 z < 2 ^ 16.
Proof. unfold wrap_u16. apply Z.mod_pos_bound. lia. Qed.

Lemma wrap_u8_range z : 0 <= wrap_u8 z < 2 ^ 8.
Proof. unfold wrap_u8. apply Z.mod_pos_bound. lia. Qed.

(** ** The serial pattern *)

Lemma or_bits_spec n : forall temp (b : bool) off w0,
  0 <= temp -> 0 <= off -> 0 <= w0 < 2 ^ 16 ->
  exists r, or_bits n temp (Some (Z.b2z b)) off w0 = Some r /\ 0 <= r < 2 ^ 16 /\
    forall j, 0 <= j ->
      Z.testbit r j =
      (Z.testbit w0 j || (b && (temp + off <=? j) && (j <? temp + off + Z.of_nat n)))
      && (j <? 16).
Proof.
  induction n as [|n IH]; intros temp b off w0 Htemp Hoff Hw.
  - exists w0. split; [reflexivity|]. split; [exact Hw|]. intros j Hj.
    destruct (Z.ltb_spec j 16) as [H16|H16].
    + destruct (Z.leb_spec (temp + off) j), (Z.ltb_spec j (temp + off + Z.of_nat 0));
        try lia; rewrite ?andb_false_r, ?orb_false_r, ?andb_true_r; reflexivity.
    + rewrite andb_false_r. apply Z.bits_above_log2; [lia|].
      destruct (Z.eq_dec w0 0) as [->|]; [cbn; lia|].
      apply Z.log2_lt_pow2; [lia|].
      assert (2 ^ 16 <= 2 ^ j) by (apply Z.pow_le_mono_r; lia). lia.
  - cbn [or_bits].
    destruct (IH (temp + 1) b off (wrap_u16 (Z.lor w0 (Z.shiftl (Z.b2z b) (temp + off)))))
      as (r & Hr & Hrange & Hbits); [lia|lia|apply wrap_u16_range|].
    exists r. split; [exact Hr|]. split; [exact Hrange|]. intros j Hj.
    rewrite (Hbits j Hj). unfold wrap_u16. rewrite Z.testbit_mod_pow2 by lia.
    rewrite Z.lor_spec, testbit_shiftl_b2z by exact Hj.
    destruct (Z.ltb_spec j 16), (Z.testbit w0 j), b, (Z.eqb_spec j (temp + off)),
             (Z.leb_spec (temp + 1 + off) j), (Z.ltb_spec j (temp + 1 + off + Z.of_nat n)),
             (Z.leb_spec (temp + off) j), (Z.ltb_spec j (temp + off + Z.of_nat (S n)));
      cbn [andb orb]; try reflexivity; lia.
Qed.

Lemma serial_bit_in cnt_seed k :
  0 <= cnt_seed < serial_count -> 0 <= k ->
  exists v, Eye.arr_get serial cnt_seed = Some v /\
            serial_bit cnt_seed k = Some (Z.b2z (Z.testbit v k)).
Proof.
  intros Hc Hk. destruct (arr_get_in serial cnt_seed) as [v Hv]; [exact Hc|].
  exists v. split; [exact Hv|]. unfold serial_bit. rewrite Hv, bit_b2z by exact Hk.
  reflexivity.
Qed.

(** The word of a phase repeats bit [2*it] of the pattern on the first
    [die_width] data lines and bit [2*it+1] on the next [die_width]. *)
Lemma serial_wrdata_spec w cnt_seed it :
  0 <= w <= 8 -> 0 <= cnt_seed < serial_count -> 0 <= it ->
  exists v r, Eye.arr_get serial cnt_seed = Some v /\
    serial_wrdata w cnt_seed it = Some r /\
    forall j, 0 <= j ->
      Z.testbit r j = (Z.testbit v (2 * it) && (j <? w))
                      || (Z.testbit v (2 * it + 1) && (w <=? j) && (j <? 2 * w)).
Proof.
  intros Hw Hc Hit.
  destruct (serial_bit_in cnt_seed (2 * it) Hc) as (v & Hv & Hb0); [lia|].
  destruct (serial_bit_in cnt_seed (2 * it + 1) Hc) as (v' & Hv' & Hb1); [lia|].
  assert (v' = v) as -> by congruence.
  unfold serial_wrdata. rewrite Hb0, Hb1.
  destruct (or_bits_spec (Z.to_nat w) 0 (Z.testbit v (2 * it)) 0 0)
    as (r0 & Hr0 & Hrange0 & Hbits0); [lia..|].
  rewrite Hr0.
  destruct (or_bits_spec (Z.to_nat w) 0 (Z.testbit v (2 * it + 1)) w r0)
    as (r & Hr & Hrange & Hbits); [lia|lia|exact Hrange0|].
  exists v, r. split; [exact Hv|]. split; [exact Hr|]. intros j Hj.
  rewrite (Hbits j Hj), (Hbits0 j Hj), Z.bits_0. rewrite Z2Nat.id by lia.
  destruct (Z.testbit v (2 * it)), (Z.testbit v (2 * it + 1)),
           (Z.ltb_spec j 16), (Z.leb_spec (0 + 0) j), (Z.ltb_spec j (0 + 0 + w)),
           (Z.leb_spec (0 + w) j), (Z.ltb_spec j (0 + w + w)),
           (Z.ltb_spec j w), (Z.leb_spec w j), (Z.ltb_spec j (2 * w));
    cbn [andb orb]; try reflexivity; lia.
Qed.

Lemma and_bits_spec n : forall temp rd (b : bool) off works,
  0 <= temp -> 0 <= off -> works = 0 \/ works = 1 ->
  exists r, and_bits n temp rd (Some (Z.b2z b)) off works = Some r /\
    (r = 0 \/ r = 1) /\
    (r = 1 <-> works = 1 /\
               forall j, temp + off <= j < temp + off + Z.of_nat n -> Z.testbit rd j = b).
Proof.
  induction n as [|n IH]; intros temp rd b off works Htemp Hoff Hworks.
  - exists works. split; [reflexivity|]. split; [exact Hworks|].
    split; [intros ->; split; [reflexivity|intros j Hj; lia]|intros [-> _]; reflexivity].
  - cbn [and_bits]. rewrite bit_b2z by lia. rewrite b2z_eqb.
    set (works1 := Z.land works (bool_to_int (eqb (Z.testbit rd (temp + off)) b))).
    assert (H1 : (works1 = 0 \/ works1 = 1) /\
                 (works1 = 1 <-> works = 1 /\ Z.testbit rd (temp + off) = b)).
    { unfold works1. destruct (Z.testbit rd (temp + off)), b, Hworks as [->| ->];
        cbn; intuition (try discriminate; try lia). }
    destruct H1 as [H01 H1].
    destruct (IH (temp + 1) rd b off works1) as (r & Hr & Hr01 & Hiff); [lia|lia|exact H01|].
    exists r. split; [exact Hr|]. split; [exact Hr01|]. rewrite Hiff, H1. split.
    + intros [[Hw Hb] Hall]. split; [exact Hw|]. intros j Hj.
      destruct (Z.eq_dec j (temp + off)) as [->|]; [exact Hb|apply Hall; lia].
    + intros [Hw Hall]. split; [split; [exact Hw|apply Hall; lia]|].
      intros j Hj. apply Hall. lia.
Qed.

(** The comparison of one phase accepts the words that agree with the
    pattern on the [2*die_width] data bits, and no others. *)
Lemma serial_compare_spec w cnt_seed phase rd works :
  0 <= w <= 8 -> 0 <= cnt_seed < serial_count -> 0 <= phase ->
  works = 0 \/ works = 1 ->
  exists r, serial_compare w cnt_seed phase (wrap_u16 rd) works = Some r /\
    (r = 0 \/ r = 1) /\
    (r = 1 <-> works = 1 /\ serial_match w cnt_seed phase rd).
Proof.
  intros Hw Hc Hp Hworks.
  destruct (serial_wrdata_spec w cnt_seed phase Hw Hc Hp) as (v & wr & Hv & Hwr & Hbits).
  destruct (serial_bit_in cnt_seed (2 * phase) Hc) as (v0 & Hv0 & Hb0); [lia|].
  destruct (serial_bit_in cnt_seed (2 * phase + 1) Hc) as (v1 & Hv1 & Hb1); [lia|].
  assert (v0 = v) as -> by congruence. assert (v1 = v) as -> by congruence.
  unfold serial_compare. rewrite Hb0, Hb1.
  destruct (and_bits_spec (Z.to_nat w) 0 (wrap_u16 rd) (Z.testbit v (2 * phase)) 0 works)
    as (r0 & Hr0 & Hr001 & Hiff0); [lia|lia|exact Hworks|].
  rewrite Hr0.
  destruct (and_bits_spec (Z.to_nat w) 0 (wrap_u16 rd) (Z.testbit v (2 * phase + 1)) w r0)
    as (r & Hr & Hr01 & Hiff); [lia|lia|exact Hr001|].
  exists r. split; [exact Hr|]. split; [exact Hr01|].
  rewrite Hiff, Hiff0. rewrite Z2Nat.id by lia. unfold serial_match. rewrite Hwr.
  assert (Hlow : forall j, 0 <= j < 2 * w ->
            Z.testbit (wrap_u16 rd) j = Z.testbit (rd mod 2 ^ (2 * w)) j).
  { intros j Hj. unfold wrap_u16. rewrite !Z.testbit_mod_pow2 by lia.
    destruct (Z.ltb_spec j 16), (Z.ltb_spec j (2 * w)); try lia. reflexivity. }
  split.
  - intros [[Hw1 H0] H1]. split; [exact Hw1|]. f_equal. apply Z.bits_inj'. intros j Hj.
    rewrite (Hbits j Hj). destruct (Z.ltb_spec j w) as [Hjw|Hjw].
    + rewrite <- Hlow by lia. rewrite H0 by lia.
      destruct (Z.leb_spec w j); [lia|]. cbn [andb].
      rewrite andb_true_r, andb_false_r, orb_false_r. reflexivity.
    + destruct (Z.ltb_spec j (2 * w)) as [Hj2|Hj2].
      * rewrite <- Hlow by lia. rewrite H1 by lia.
        destruct (Z.leb_spec w j); [|lia].
        rewrite andb_false_r, !andb_true_r. reflexivity.
      * rewrite Z.testbit_mod_pow2 by lia.
        destruct (Z.ltb_spec j (2 * w)); [lia|]. rewrite !andb_false_r. reflexivity.
  - intros [Hw1 Heq]. injection Heq as Heq.
    assert (Hb : forall j, 0 <= j < 2 * w -> Z.testbit (wrap_u16 rd) j = Z.testbit wr j).
    { intros j Hj. rewrite Hlow by lia. rewrite <- Heq. reflexivity. }
    split; [split; [exact Hw1|]|].
    + intros j Hj. rewrite Hb by lia. rewrite Hbits by lia.
      destruct (Z.ltb_spec j w), (Z.leb_spec w j); try lia.
      rewrite andb_true_r, andb_false_r, orb_false_r. reflexivity.
    + intros j Hj. rewrite Hb by lia. rewrite Hbits by lia.
      destruct (Z.ltb_spec j w), (Z.leb_spec w j), (Z.ltb_spec j (2 * w)); try lia.
      rewrite andb_false_r, !andb_true_r. reflexivity.
Qed.

Lemma serial_wrdata_small w cnt_seed it r :
  0 <= w <= 8 -> 0 <= cnt_seed < serial_count -> 0 <= it ->
  serial_wrdata w cnt_seed it = Some r -> r mod 2 ^ (2 * w) = r.
Proof.
  intros Hw Hc Hit Hr.
  destruct (serial_wrdata_spec w cnt_seed it Hw Hc Hit) as (v & r' & _ & Hr' & Hbits).
  assert (r' = r) as -> by congruence.
  apply Z.bits_inj'. intros j Hj. rewrite Z.testbit_mod_pow2 by lia.
  destruct (Z.ltb_spec j (2 * w)) as [|Hhigh]; [reflexivity|].
  rewrite (Hbits j Hj). destruct (Z.ltb_spec j w), (Z.ltb_spec j (2 * w)); lia.
Qed.

(** ** The data words in the trace *)

Lemma last_set_other sel name args r tr :
  name <> "set_data_module_phase" ->
  last_set sel (Call name args r :: tr) = last_set sel tr.
Proof.
  intros Hne. cbn [last_set].
  destruct args as [|c [|m [|w [|p [|v [|]]]]]]; try reflexivity.
  rewrite bool_decide_eq_false_2 by (intros [? _]; contradiction). reflexivity.
Qed.

Lemma last_set_calls sel names evs tr :
  "set_data_module_phase" ∉ names -> Forall (call_of names) evs ->
  last_set sel (evs ++ tr) = last_set sel tr.
Proof.
  intros Hn. induction 1 as [|e evs He _ IH]; [reflexivity|].
  destruct e as [n args r|f args]; [|destruct He].
  cbn [app]. rewrite last_set_other; [exact IH|].
  intros ->. apply Hn. exact He.
Qed.

Lemma frame_last_set sel names s s' :
  "set_data_module_phase" ∉ names -> frame (call_of names) s s' ->
  last_set sel (st_hw s') = last_set sel (st_hw s).
Proof. intros Hn [_ _ (evs & -> & F)]. eapply last_set_calls; eauto. Qed.

Lemma last_set_set c m w p v r tr c' m' w' p' :
  last_set [c'; m'; w'; p'] (Call "set_data_module_phase" [c; m; w; p; v] r :: tr) =
  if bool_decide ([c; m; w; p] = [c'; m'; w'; p']) then v
  else last_set [c'; m'; w'; p'] tr.
Proof.
  cbn [last_set]. destruct (decide ([c; m; w; p] = [c'; m'; w'; p'])) as [Heq|Hne].
  - rewrite !bool_decide_eq_true_2 by auto. reflexivity.
  - rewrite !bool_decide_eq_false_2 by (try intros [_ ?]; auto). reflexivity.
Qed.

Section PatternFacts.

Variable env : env_t.
Variable lfsr_next : Z -> Z.

(** [setup_serial_write_data] stores the eight words of the pattern. *)
Lemma setup_serial_write_data_runs cnt_seed channel module s :
  0 <= die_width (st_ctx s) <= 8 -> 0 <= cnt_seed < serial_count ->
  let w := die_width (st_ctx s) in
  runs (setup_serial_write_data env cnt_seed channel module 0) s
    (fun _ s' =>
       st_ctx s' = st_ctx s /\
       frame (call_of ["set_data_module_phase"]) s s' /\
       forall p, 0 <= p < 8 ->
         serial_wrdata w cnt_seed p = Some (last_set [channel; module; w; p] (st_hw s'))).
Proof.
  intros Hw Hc w. unfold setup_serial_write_data. wp_more. fold w.
  apply (runs_for_range (fun i s1 =>
           st_ctx s1 = st_ctx s /\
           frame (call_of ["set_data_module_phase"]) s s1 /\
           forall p, 0 <= p < i ->
             serial_wrdata w cnt_seed p = Some (last_set [channel; module; w; p] (st_hw s1))));
    [lia|split; [reflexivity|split; [apply frame_refl|intros; lia]]| |auto].
  intros i s1 Hi (Hctx & Hf & Hdone).
  destruct (serial_wrdata_spec w cnt_seed i Hw Hc) as (v & wr & _ & Hwr & _); [lia|].
  apply runs_bind. eapply runs_lift_option; [exact Hwr|]. wp_more.
  split; [exact Hctx|]. split.
  { apply frame_push_call; [apply list_elem_of_here|exact Hf]. }
  intros p Hp. cbn [st_hw set_hw]. rewrite last_set_set.
  destruct (decide ([channel; module; w; i] = [channel; module; w; p])) as [Heq|Hne].
  - rewrite bool_decide_eq_true_2 by exact Heq. injection Heq as <-. exact Hwr.
  - rewrite bool_decide_eq_false_2 by exact Hne. apply Hdone.
    assert (p <> i) by congruence. lia.
Qed.

(** The phases are read in order up to the first one that does not carry
    the pattern. *)
Lemma compare_serial_write_data_runs cnt_seed channel module s :
  0 <= die_width (st_ctx s) <= 8 -> 0 <= cnt_seed < serial_count ->
  let w := die_width (st_ctx s) in
  runs (compare_serial_write_data env cnt_seed channel module 0) s
    (fun works s' =>
       st_ctx s' = st_ctx s /\
       frame (call_of ["get_data_module_phase"]) s s' /\
       exists rds,
         answers "get_data_module_phase" (st_hw s') =
           answers "get_data_module_phase" (st_hw s) ++ rds /\
         (works = 0 \/ works = 1) /\
         (1 <= length rds <= 8)%nat /\
         (works = 1 -> length rds = 8%nat) /\
         forall p rd, rds !! p = Some rd ->
           (serial_match w cnt_seed (Z.of_nat p) rd <-> (S p < length rds)%nat \/ works = 1)).
Proof.
  intros Hw Hc w. unfold compare_serial_write_data. wp_more. fold w.
  apply (runs_for_while (fun k works s1 =>
           st_ctx s1 = st_ctx s /\
           frame (call_of ["get_data_module_phase"]) s s1 /\
           exists rds,
             answers "get_data_module_phase" (st_hw s1) =
               answers "get_data_module_phase" (st_hw s) ++ rds /\
             (works = 0 \/ works = 1) /\ (k = 0 -> works = 1) /\
             length rds = Z.to_nat k /\
             forall p rd, rds !! p = Some rd ->
               (serial_match w cnt_seed (Z.of_nat p) rd <->
                (S p < length rds)%nat \/ works = 1))).
  - split; [reflexivity|]. split; [apply frame_refl|]. exists [].
    split; [symmetry; apply app_nil_r|]. split; [right; reflexivity|].
    split; [reflexivity|]. split; [reflexivity|]. intros p rd Hp. discriminate.
  - intros k works s1 Hk Hcond (Hctx & Hf & rds & Hans & H01 & _ & Hlen & Hm).
    assert (works = 1) as ->.
    { destruct H01 as [->| ->]; [discriminate|reflexivity]. }
    wp_more.
    set (rd := env (st_hw s1) "get_data_module_phase" [channel; module; w; k]).
    destruct (serial_compare_spec w cnt_seed k rd 1 Hw Hc) as (r & Hr & Hr01 & Hiff);
      [lia|right; reflexivity|].
    eapply runs_lift_option; [exact Hr|].
    split; [exact Hctx|]. split.
    { apply frame_push_call; [apply list_elem_of_here|exact Hf]. }
    exists (rds ++ [rd]). cbn [st_hw set_hw]. rewrite answers_Call.
    rewrite bool_decide_eq_true_2 by reflexivity. rewrite Hans, app_assoc.
    split; [reflexivity|]. split; [exact Hr01|]. split; [lia|].
    split; [rewrite length_app; cbn [length]; lia|].
    intros p x Hp. rewrite length_app. cbn [length].
    destruct (decide (p < length rds)%nat) as [Hlt|Hge].
    + rewrite lookup_app_l in Hp by exact Hlt. split; [intros _; left; lia|].
      intros _. apply (Hm p x Hp). right. reflexivity.
    + rewrite lookup_app_r in Hp by lia.
      destruct (p - length rds)%nat as [|q] eqn:E; [|discriminate].
      injection Hp as <-. assert (Z.of_nat p = k) as -> by lia.
      split.
      * intros Hmatch. right. apply Hiff. split; [reflexivity|exact Hmatch].
      * intros [Hlt| ->]; [lia|]. apply Hiff. reflexivity.
  - intros k works s' Hk (Hctx & Hf & rds & Hans & H01 & H0 & Hlen & Hm) Hstop.
    split; [exact Hctx|]. split; [exact Hf|]. exists rds. split; [exact Hans|].
    split; [exact H01|].
    assert (Hw1 : works = 1 -> k = 8).
    { intros ->. destruct (Z.eq_dec k 8) as [|Hne]; [assumption|].
      specialize (Hstop ltac:(cbn; lia)). discriminate. }
    assert (Hk0 : k <> 0).
    { intros ->. specialize (Hstop ltac:(cbn; lia)). rewrite (H0 eq_refl) in Hstop.
      discriminate. }
    split; [cbn in Hk; lia|]. split; [intros H1; specialize (Hw1 H1); lia|exact Hm].
Qed.

End PatternFacts.

(** ** The LFSR pattern *)

Lemma testbit_high a n j : 0 <= a < 2 ^ n -> n <= j -> Z.testbit a j = false.
Proof.
  intros Ha Hj. destruct (Z.lt_ge_cases n 0) as [Hn|Hn].
  - rewrite Z.pow_neg_r in Ha by exact Hn. lia.
  - rewrite <- (Z.mod_small a (2 ^ n)) by exact Ha. apply Z.mod_pow2_bits_high. lia.
Qed.

Lemma testbit_0xff j : 0 <= j -> Z.testbit 0xff j = (j <? 8).
Proof. intros Hj. change 0xff with (Z.ones 8). apply Z.testbit_ones_nonneg; lia. Qed.

Lemma land_0xff x : Z.land x 0xff = x mod 2 ^ 8.
Proof. change 0xff with (Z.ones 8). apply Z.land_ones. lia. Qed.

Lemma lxor_0x55_range l : 0 <= l < 2 ^ 8 -> 0 <= Z.lxor l 0x55 < 2 ^ 8.
Proof.
  intros Hl.
  assert (H : Z.lxor l 0x55 mod 2 ^ 8 = Z.lxor l 0x55).
  { apply Z.bits_inj'. intros j Hj. rewrite Z.testbit_mod_pow2 by lia.
    destruct (Z.ltb_spec j 8) as [|Hhigh]; [reflexivity|].
    rewrite Z.lxor_spec, (testbit_high l 8), (testbit_high 0x55 8) by lia. reflexivity. }
  rewrite <- H. apply Z.mod_pos_bound. lia.
Qed.

Lemma lxor_0x55_ne l : Z.lxor l 0x55 <> l.
Proof.
  intros H. assert (Hb : Z.testbit (Z.lxor l 0x55) 0 = Z.testbit l 0) by (rewrite H; reflexivity).
  rewrite Z.lxor_spec in Hb. change (Z.testbit 0x55 0) with true in Hb.
  destruct (Z.testbit l 0); discriminate.
Qed.

(** A 16-bit word is its two bytes. *)
Lemma word_bytes rd lo hi :
  0 <= rd < 2 ^ 16 -> 0 <= lo < 2 ^ 8 -> 0 <= hi < 2 ^ 8 ->
  (rd = Z.lor lo (Z.shiftl hi 8) <->
   Z.land rd 0xff = lo /\ Z.land (Z.shiftr rd 8) 0xff = hi).
Proof.
  intros Hrd Hlo Hhi. split.
  - intros ->. split; apply Z.bits_inj'; intros j Hj;
      rewrite Z.land_spec, testbit_0xff by lia;
      rewrite ?Z.shiftr_spec by lia; rewrite Z.lor_spec, Z.shiftl_spec by lia.
    + destruct (Z.ltb_spec j 8) as [Hj8|Hj8].
      * rewrite (Z.testbit_neg_r hi) by lia. rewrite orb_false_r, andb_true_r. reflexivity.
      * rewrite andb_false_r. symmetry. apply (testbit_high lo 8); lia.
    + replace (j + 8 - 8) with j by lia. rewrite (testbit_high lo 8) by lia.
      destruct (Z.ltb_spec j 8) as [Hj8|Hj8].
      * rewrite andb_true_r. reflexivity.
      * rewrite andb_false_r. symmetry. apply (testbit_high hi 8); lia.
  - intros [<- <-]. apply Z.bits_inj'. intros j Hj.
    rewrite Z.lor_spec, Z.shiftl_spec, !Z.land_spec by lia.
    destruct (Z.ltb_spec j 8) as [Hj8|Hj8].
    + rewrite testbit_0xff, (Z.testbit_neg_r (Z.shiftr rd 8)) by lia.
      destruct (Z.ltb_spec j 8); [|lia]. cbn [andb]. rewrite andb_true_r, orb_false_r.
      reflexivity.
    + rewrite (testbit_0xff j), Z.shiftr_spec, testbit_0xff by lia.
      replace (j - 8 + 8) with j by lia.
      destruct (Z.ltb_spec j 8); [lia|]. rewrite andb_false_r. cbn [orb].
      destruct (Z.ltb_spec (j - 8) 8) as [|Hj16]; [rewrite andb_true_r; reflexivity|].
      rewrite andb_false_r. apply (testbit_high rd 16); lia.
Qed.

Lemma lfsr_wrdata_range lfsr_next w l :
  0 <= l < 2 ^ 8 ->
  0 <= snd (lfsr_wrdata lfsr_next w l) < 2 ^ 8 /\
  0 <= fst (lfsr_wrdata lfsr_next w l) < 2 ^ (if w >? 4 then 16 else 8).
Proof.
  intros Hl. unfold lfsr_wrdata. pose proof (lxor_0x55_range l Hl) as Hx.
  destruct (w >? 4); cbn [fst snd].
  - split; [apply wrap_u8_range|apply wrap_u16_range].
  - split; [apply wrap_u8_range|]. unfold wrap_u16. rewrite Z.mod_small by lia. exact Hx.
Qed.

Lemma lfsr_state_range lfsr_next w n seed : 0 <= lfsr_state lfsr_next w n seed < 2 ^ 8.
Proof.
  unfold lfsr_state. induction n as [|n IH]; cbn [Nat.iter].
  - apply wrap_u8_range.
  - apply lfsr_wrdata_range. exact IH.
Qed.

(** One phase of the comparison accepts the word of that phase on the bytes
    it looks at, and no other; the [lfsr] advances as in the setup. *)
Lemma lfsr_compare_spec lfsr_next w rd works l :
  0 <= l < 2 ^ 8 -> works = 0 \/ works = 1 ->
  let r := lfsr_compare lfsr_next w (wrap_u16 rd) (works, l) in
  snd r = snd (lfsr_wrdata lfsr_next w l) /\
  (fst r = 0 \/ fst r = 1) /\
  (fst r = 1 <-> works = 1 /\ lfsr_match w rd (fst (lfsr_wrdata lfsr_next w l))).
Proof.
  intros Hl Hworks. unfold lfsr_compare, lfsr_wrdata, lfsr_match.
  pose proof (lxor_0x55_range l Hl) as Hx.
  pose proof (wrap_u8_range (lfsr_next l)) as Hl1.
  pose proof (lxor_0x55_range _ Hl1) as Hx1.
  pose proof (wrap_u16_range rd) as Hrd.
  set (l1 := wrap_u8 (lfsr_next l)) in *.
  assert (Hw16 : wrap_u16 (Z.lxor l 0x55) = Z.lxor l 0x55).
  { unfold wrap_u16. apply Z.mod_small. lia. }
  rewrite Hw16.
  destruct (w >? 4); cbn [fst snd].
  - split; [reflexivity|].
    assert (Hwr : wrap_u16 (Z.lor (Z.lxor l 0x55) (Z.shiftl (Z.lxor l1 0x55) 8)) =
                  Z.lor (Z.lxor l 0x55) (Z.shiftl (Z.lxor l1 0x55) 8)).
    { unfold wrap_u16. apply Z.mod_small.
      assert (H : Z.lor (Z.lxor l 0x55) (Z.shiftl (Z.lxor l1 0x55) 8) mod 2 ^ 16 =
                  Z.lor (Z.lxor l 0x55) (Z.shiftl (Z.lxor l1 0x55) 8)).
      { apply Z.bits_inj'. intros j Hj. rewrite Z.testbit_mod_pow2 by lia.
        destruct (Z.ltb_spec j 16) as [|Hhigh]; [reflexivity|].
        rewrite Z.lor_spec, Z.shiftl_spec by lia.
        rewrite (testbit_high _ 8 j Hx), (testbit_high _ 8 (j - 8) Hx1) by lia.
        reflexivity. }
      rewrite <- H. apply Z.mod_pos_bound. lia. }
    rewrite Hwr. fold (wrap_u16 rd).
    pose proof (word_bytes (wrap_u16 rd) _ _ Hrd Hx Hx1) as Hbytes.
    destruct (Z.eqb_spec (Z.land (wrap_u16 rd) 0xff) (Z.lxor l 0x55)) as [E0|E0],
             (Z.eqb_spec (Z.land (Z.shiftr (wrap_u16 rd) 8) 0xff) (Z.lxor l1 0x55)) as [E1|E1],
             Hworks as [->| ->]; cbn; intuition (try discriminate; try lia; try congruence).
  - split; [reflexivity|].
    rewrite land_0xff. unfold wrap_u16.
    replace ((rd mod 2 ^ 16) mod 2 ^ 8) with (rd mod 2 ^ 8).
    2:{ apply Z.bits_inj'. intros j Hj. rewrite !Z.testbit_mod_pow2 by lia.
        destruct (Z.ltb_spec j 8), (Z.ltb_spec j 16); try lia; reflexivity. }
    destruct (Z.eqb_spec (rd mod 2 ^ 8) (Z.lxor l 0x55)) as [E0|E0], Hworks as [->| ->];
      cbn; intuition (try discriminate; try lia; try congruence).
Qed.

Section LfsrFacts.

Variable env : env_t.
Variable lfsr_next : Z -> Z.

Lemma lfsr_state_S w n seed :
  lfsr_state lfsr_next w (S n) seed =
  snd (lfsr_wrdata lfsr_next w (lfsr_state lfsr_next w n seed)).
Proof. reflexivity. Qed.

(** [setup_lfsr_write_data] stores the eight words of the sequence. *)
Lemma setup_lfsr_write_data_runs seed channel module s :
  let w := die_width (st_ctx s) in
  runs (setup_lfsr_write_data env lfsr_next seed channel module 0) s
    (fun _ s' =>
       st_ctx s' = st_ctx s /\
       frame (call_of ["set_data_module_phase"]) s s' /\
       forall p : nat, (p < 8)%nat ->
         last_set [channel; module; w; Z.of_nat p] (st_hw s') = lfsr_word lfsr_next w p seed).
Proof.
  intros w. unfold setup_lfsr_write_data. wp_more. fold w.
  apply (runs_for_acc (fun i lfsr s1 =>
           lfsr = lfsr_state lfsr_next w (Z.to_nat i) seed /\
           st_ctx s1 = st_ctx s /\
           frame (call_of ["set_data_module_phase"]) s s1 /\
           forall p : nat, Z.of_nat p < i ->
             last_set [channel; module; w; Z.of_nat p] (st_hw s1)
               = lfsr_word lfsr_next w p seed)); [lia| | |].
  - split; [reflexivity|]. split; [reflexivity|]. split; [apply frame_refl|]. intros; lia.
  - intros i lfsr s1 Hi (-> & Hctx & Hf & Hdone).
    destruct (lfsr_wrdata lfsr_next w (lfsr_state lfsr_next w (Z.to_nat i) seed))
      as [wrdata lfsr'] eqn:E.
    wp_more. split.
    { replace (Z.to_nat (i + 1)) with (S (Z.to_nat i)) by lia.
      rewrite lfsr_state_S, E. reflexivity. }
    split; [exact Hctx|]. split.
    { apply frame_push_call; [apply list_elem_of_here|exact Hf]. }
    intros p Hp. cbn [st_hw set_hw]. rewrite last_set_set.
    destruct (decide ([channel; module; w; i] = [channel; module; w; Z.of_nat p]))
      as [Heq|Hne].
    + rewrite bool_decide_eq_true_2 by exact Heq. injection Heq as Heq.
      unfold lfsr_word. replace p with (Z.to_nat i) by lia. rewrite E. reflexivity.
    + rewrite bool_decide_eq_false_2 by exact Hne. apply Hdone.
      assert (Z.of_nat p <> i) by congruence. lia.
  - intros lfsr s' (_ & Hctx & Hf & Hdone). wp_more.
    split; [exact Hctx|]. split; [exact Hf|]. intros p Hp. apply Hdone. lia.
Qed.

(** The phases are read in order up to the first one that does not carry
    the word of the sequence. *)
Lemma compare_lfsr_write_data_runs seed channel module s :
  let w := die_width (st_ctx s) in
  runs (compare_lfsr_write_data env lfsr_next seed channel module 0) s
    (fun works s' =>
       st_ctx s' = st_ctx s /\
       frame (call_of ["get_data_module_phase"]) s s' /\
       exists rds,
         answers "get_data_module_phase" (st_hw s') =
           answers "get_data_module_phase" (st_hw s) ++ rds /\
         (works = 0 \/ works = 1) /\
         (1 <= length rds <= 8)%nat /\
         (works = 1 -> length rds = 8%nat) /\
         forall p rd, rds !! p = Some rd ->
           (lfsr_match w rd (lfsr_word lfsr_next w p seed) <->
            (S p < length rds)%nat \/ works = 1)).
Proof.
  intros w. unfold compare_lfsr_write_data. wp_more. fold w.
  apply (runs_for_while (fun k (acc : Z * Z) s1 =>
           snd acc = lfsr_state lfsr_next w (Z.to_nat k) seed /\
           st_ctx s1 = st_ctx s /\
           frame (call_of ["get_data_module_phase"]) s s1 /\
           exists rds,
             answers "get_data_module_phase" (st_hw s1) =
               answers "get_data_module_phase" (st_hw s) ++ rds /\
             (fst acc = 0 \/ fst acc = 1) /\ (k = 0 -> fst acc = 1) /\
             length rds = Z.to_nat k /\
             forall p rd, rds !! p = Some rd ->
               (lfsr_match w rd (lfsr_word lfsr_next w p seed) <->
                (S p < length rds)%nat \/ fst acc = 1))).
  - split; [reflexivity|]. split; [reflexivity|]. split; [apply frame_refl|]. exists [].
    split; [symmetry; apply app_nil_r|]. split; [right; reflexivity|].
    split; [reflexivity|]. split; [reflexivity|]. intros p rd Hp. discriminate.
  - intros k [works l] s1 Hk Hcond (Hl & Hctx & Hf & rds & Hans & H01 & _ & Hlen & Hm).
    cbn [fst snd] in *. subst l.
    assert (works = 1) as ->.
    { destruct H01 as [->| ->]; [discriminate|reflexivity]. }
    wp_more.
    set (rd := env (st_hw s1) "get_data_module_phase" [channel; module; w; k]).
    destruct (lfsr_compare_spec lfsr_next w rd 1 (lfsr_state lfsr_next w (Z.to_nat k) seed))
      as (Hsnd & Hr01 & Hiff); [apply lfsr_state_range|right; reflexivity|].
    split.
    { replace (Z.to_nat (k + 1)) with (S (Z.to_nat k)) by lia.
      rewrite lfsr_state_S. exact Hsnd. }
    split; [exact Hctx|]. split.
    { apply frame_push_call; [apply list_elem_of_here|exact Hf]. }
    exists (rds ++ [rd]). cbn [st_hw set_hw]. rewrite answers_Call.
    rewrite bool_decide_eq_true_2 by reflexivity. rewrite Hans, app_assoc.
    split; [reflexivity|]. split; [exact Hr01|]. split; [lia|].
    split; [rewrite length_app; cbn [length]; lia|].
    intros p x Hp. rewrite length_app. cbn [length].
    destruct (decide (p < length rds)%nat) as [Hlt|Hge].
    + rewrite lookup_app_l in Hp by exact Hlt. split; [intros _; left; lia|].
      intros _. apply (Hm p x Hp). right. reflexivity.
    + rewrite lookup_app_r in Hp by lia.
      destruct (p - length rds)%nat as [|q] eqn:E; [|discriminate].
      injection Hp as <-. assert (p = Z.to_nat k) as -> by lia.
      unfold lfsr_word. split.
      * intros Hmatch. right. apply Hiff. split; [reflexivity|exact Hmatch].
      * intros [Hlt|H1]; [lia|]. apply Hiff. exact H1.
  - intros k [works l] s' Hk (_ & Hctx & Hf & rds & Hans & H01 & H0 & Hlen & Hm) Hstop.
    cbn [fst snd] in *. wp_more.
    split; [exact Hctx|]. split; [exact Hf|]. exists rds. split; [exact Hans|].
    split; [exact H01|].
    assert (Hw1 : works = 1 -> k = 8).
    { intros ->. destruct (Z.eq_dec k 8) as [|Hne]; [assumption|].
      specialize (Hstop ltac:(cbn; lia)). discriminate. }
    assert (Hk0 : k <> 0).
    { intros ->. specialize (Hstop ltac:(cbn; lia)). rewrite (H0 eq_refl) in Hstop.
      discriminate. }
    split; [cbn in Hk; lia|]. split; [intros H1; specialize (Hw1 H1); lia|exact Hm].
Qed.

Lemma clear_write_data_runs channel module s :
  runs (clear_write_data env channel module) s
    (fun _ s' => st_ctx s' = st_ctx s /\ frame (call_of ["set_data_module_phase"]) s s').
Proof.
  unfold clear_write_data. wp_more.
  apply (runs_for_range (fun _ s1 =>
           st_ctx s1 = st_ctx s /\ frame (call_of ["set_data_module_phase"]) s s1));
    [lia|split; [reflexivity|apply frame_refl]| |auto].
  intros i s1 _ [Hctx Hf]. wp_more. split; [exact Hctx|].
  apply frame_push_call; [apply list_elem_of_here|exact Hf].
Qed.

End LfsrFacts.

(** ** A data path without faults *)

Section Loopback.

Variable lfsr_next : Z -> Z.

Lemma loopback_get tr c m w p :
  loopback tr "get_data_module_phase" [c; m; w; p] = last_set [c; m; w; p] tr.
Proof. reflexivity. Qed.

Lemma get_not_set : "set_data_module_phase" ∉ ["get_data_module_phase"].
Proof. name_out. Qed.

Lemma io_not_set :
  "set_data_module_phase" ∉ ["send_write"; "send_read"; "get_data_module_phase"].
Proof. name_out. Qed.

Lemma compare_serial_loopback cnt_seed channel module s :
  0 <= die_width (st_ctx s) <= 8 -> 0 <= cnt_seed < serial_count ->
  let w := die_width (st_ctx s) in
  (forall p, 0 <= p < 8 ->
     serial_wrdata w cnt_seed p = Some (last_set [channel; module; w; p] (st_hw s))) ->
  runs (compare_serial_write_data loopback cnt_seed channel module 0) s
    (fun works s' => works = 1 /\ st_ctx s' = st_ctx s /\
                     frame (call_of ["get_data_module_phase"]) s s').
Proof.
  intros Hw Hc w Hset. unfold compare_serial_write_data. wp_more. fold w.
  apply (runs_for_while (fun _ works s1 =>
           works = 1 /\ st_ctx s1 = st_ctx s /\
           frame (call_of ["get_data_module_phase"]) s s1)).
  - split; [reflexivity|]. split; [reflexivity|apply frame_refl].
  - intros k works s1 Hk _ (-> & Hctx & Hf). wp_more. rewrite loopback_get.
    rewrite (frame_last_set _ _ _ _ get_not_set Hf).
    set (rd := last_set [channel; module; w; k] (st_hw s)).
    destruct (serial_compare_spec w cnt_seed k rd 1 Hw Hc) as (r & Hr & _ & Hiff);
      [lia|right; reflexivity|].
    eapply runs_lift_option; [exact Hr|]. split.
    { apply Hiff. split; [reflexivity|]. unfold serial_match.
      cbn in Hk. rewrite (Hset k) by lia. fold rd. f_equal. symmetry.
      apply (serial_wrdata_small w cnt_seed k); [exact Hw|exact Hc|lia|].
      apply Hset. lia. }
    split; [exact Hctx|]. apply frame_push_call; [apply list_elem_of_here|exact Hf].
  - intros k works s' _ H _. exact H.
Qed.

Lemma compare_lfsr_loopback seed channel module s :
  let w := die_width (st_ctx s) in
  (forall p : nat, (p < 8)%nat ->
     last_set [channel; module; w; Z.of_nat p] (st_hw s) = lfsr_word lfsr_next w p seed) ->
  runs (compare_lfsr_write_data loopback lfsr_next seed channel module 0) s
    (fun works s' => works = 1 /\ st_ctx s' = st_ctx s /\
                     frame (call_of ["get_data_module_phase"]) s s').
Proof.
  intros w Hset. unfold compare_lfsr_write_data. wp_more. fold w.
  apply (runs_for_while (fun k (acc : Z * Z) s1 =>
           acc = (1, lfsr_state lfsr_next w (Z.to_nat k) seed) /\
           st_ctx s1 = st_ctx s /\
           frame (call_of ["get_data_module_phase"]) s s1)).
  - split; [reflexivity|]. split; [reflexivity|apply frame_refl].
  - intros k acc s1 Hk _ (-> & Hctx & Hf). wp_more. rewrite loopback_get.
    rewrite (frame_last_set _ _ _ _ get_not_set Hf).
    cbn in Hk. replace k with (Z.of_nat (Z.to_nat k)) at 1 by lia.
    rewrite Hset by lia.
    destruct (lfsr_compare_spec lfsr_next w (lfsr_word lfsr_next w (Z.to_nat k) seed) 1
                (lfsr_state lfsr_next w (Z.to_nat k) seed))
      as (Hsnd & _ & Hiff); [apply lfsr_state_range|right; reflexivity|].
    split.
    { replace (Z.to_nat (k + 1)) with (S (Z.to_nat k)) by lia. rewrite lfsr_state_S.
      destruct (lfsr_compare lfsr_next w
                  (wrap_u16 (lfsr_word lfsr_next w (Z.to_nat k) seed))
                  (1, lfsr_state lfsr_next w (Z.to_nat k) seed)) as [a b].
      cbn [fst snd] in Hsnd, Hiff. f_equal; [|exact Hsnd].
      apply Hiff. split; [reflexivity|].
      unfold lfsr_match, lfsr_word. apply Z.mod_small.
      apply lfsr_wrdata_range. apply lfsr_state_range. }
    split; [exact Hctx|]. apply frame_push_call; [apply list_elem_of_here|exact Hf].
  - intros k acc s' _ (-> & Hctx & Hf) _. wp_more. auto.
Qed.

End Loopback.

Section LoopbackChecks.

Variable lfsr_next : Z -> Z.

Lemma serial_count_eq : serial_count = 34.
Proof. reflexivity. Qed.

Lemma seeds_count_eq : seeds_count = 8.
Proof. reflexivity. Qed.

Lemma lfsr_seed_in cnt_seed : 0 <= cnt_seed < 16 -> exists seed, lfsr_seed cnt_seed = Some seed.
Proof.
  intros Hc. unfold lfsr_seed. rewrite seeds_count_eq.
  destruct (Z.ltb_spec cnt_seed 8).
  - apply arr_get_in. cbn. lia.
  - apply arr_get_in. cbn. lia.
Qed.

(** The rounds of a check on a data path without faults. *)
Lemma serial_rounds_loopback cnt_seed channel rank module s0 s :
  0 <= die_width (st_ctx s0) <= 8 -> 0 <= cnt_seed < serial_count ->
  st_ctx s = st_ctx s0 ->
  (forall p, 0 <= p < 8 ->
     serial_wrdata (die_width (st_ctx s0)) cnt_seed p =
       Some (last_set [channel; module; die_width (st_ctx s0); p] (st_hw s))) ->
  runs (for_while 8 0 truthy (fun _ works =>
          call_ loopback "send_write" [channel; rank];;
          call_ loopback "send_read" [channel; rank];;
          c ← compare_serial_write_data loopback cnt_seed channel module 0;
          mret (Z.land works c)) 1) s
    (fun works s' => works = 1 /\ st_ctx s' = st_ctx s0).
Proof.
  intros Hw Hc Hctx Hset.
  apply (runs_for_while (fun _ works s1 =>
           works = 1 /\ st_ctx s1 = st_ctx s0 /\
           frame (call_of ["send_write"; "send_read"; "get_data_module_phase"]) s s1)).
  - split; [reflexivity|]. split; [exact Hctx|apply frame_refl].
  - intros i works s1 _ _ (-> & Hctx1 & Hf1). wp_more.
    eapply runs_conseq.
    { apply compare_serial_loopback; cbn [st_ctx st_hw set_hw]; rewrite ?Hctx1;
        [exact Hw|exact Hc|].
      intros p Hp. rewrite !last_set_other by discriminate.
      rewrite (frame_last_set _ _ _ _ io_not_set Hf1). apply Hset. exact Hp. }
    intros c s2 (-> & Hctx2 & Hf2). wp_more. split; [reflexivity|].
    split; [rewrite Hctx2; exact Hctx1|].
    eapply frame_trans; [exact Hf1|]. eapply frame_trans;
      [|eapply frame_incl; [|exact Hf2]; names_incl].
    apply frame_push_call; [name_in|]. apply frame_push_call; [name_in|]. apply frame_refl.
  - intros k works s' _ (Hw1 & Hc1 & _) _. auto.
Qed.

Lemma write_serial_check_loopback channel rank module s :
  0 <= die_width (st_ctx s) <= 8 ->
  runs (write_serial_check loopback channel rank module) s
    (fun works s' => works = 1 /\ st_ctx s' = st_ctx s).
Proof.
  intros Hw. unfold write_serial_check.
  apply (runs_for_while (fun _ works s1 => works = 1 /\ st_ctx s1 = st_ctx s)).
  - auto.
  - intros cnt works s1 Hk _ (-> & Hctx). rewrite serial_count_eq in Hk.
    change (Z.of_nat (Z.to_nat 34)) with 34 in Hk. apply runs_bind.
    eapply runs_conseq.
    { apply setup_serial_write_data_runs; rewrite ?Hctx; [exact Hw|].
      rewrite serial_count_eq. lia. }
    intros _ s2 (Hctx2 & _ & Hset). cbv beta. apply runs_bind.
    eapply runs_conseq.
    { apply (serial_rounds_loopback cnt channel rank module s);
        [exact Hw|rewrite serial_count_eq; lia|congruence|].
      intros p Hp. rewrite <- Hctx. apply Hset. exact Hp. }
    intros works s3 (-> & Hctx3). cbv beta. change (truthy 1) with true. cbv iota.
    apply runs_bind. eapply runs_conseq; [apply clear_write_data_runs|].
    intros _ s4 (Hctx4 & _). wp_more. split; [reflexivity|]. cbn [st_ctx set_hw]. congruence.
  - intros k works s' _ H _. exact H.
Qed.

Lemma lfsr_rounds_loopback seed channel rank module s0 s :
  st_ctx s = st_ctx s0 ->
  runs (for_while 16 0 truthy (fun _ works =>
          setup_lfsr_write_data loopback lfsr_next seed channel module 0;;
          call_ loopback "send_write" [channel; rank];;
          call_ loopback "send_read" [channel; rank];;
          c ← compare_lfsr_write_data loopback lfsr_next seed channel module 0;
          mret (Z.land works c)) 1) s
    (fun works s' => works = 1 /\ st_ctx s' = st_ctx s0).
Proof.
  intros Hctx.
  apply (runs_for_while (fun _ works s1 => works = 1 /\ st_ctx s1 = st_ctx s0)).
  - auto.
  - intros i works s1 _ _ (-> & Hctx1). apply runs_bind.
    eapply runs_conseq; [apply setup_lfsr_write_data_runs|].
    intros _ s2 (Hctx2 & _ & Hset). wp_more.
    eapply runs_conseq.
    { apply compare_lfsr_loopback. cbn [st_ctx st_hw set_hw].
      intros p Hp. rewrite !last_set_other by discriminate.
      rewrite Hctx2. apply Hset. exact Hp. }
    intros c s3 (-> & Hctx3 & _). wp_more. split; [reflexivity|].
    rewrite Hctx3. cbn [st_ctx set_hw]. congruence.
  - intros k works s' _ H _. exact H.
Qed.

Lemma write_lfsr_check_loopback channel rank module s :
  runs (write_lfsr_check loopback lfsr_next channel rank module) s
    (fun works s' => works = 1 /\ st_ctx s' = st_ctx s).
Proof.
  unfold write_lfsr_check.
  apply (runs_for_while (fun _ works s1 => works = 1 /\ st_ctx s1 = st_ctx s)).
  - auto.
  - intros cnt works s1 Hk _ (-> & Hctx). rewrite seeds_count_eq in Hk.
    change (Z.of_nat (Z.to_nat (8 * 2))) with 16 in Hk.
    destruct (lfsr_seed_in cnt) as [seed Hseed]; [lia|].
    apply runs_bind. eapply runs_lift_option; [exact Hseed|]. apply runs_bind.
    eapply runs_conseq; [apply (lfsr_rounds_loopback seed channel rank module s); exact Hctx|].
    intros works s3 (-> & Hctx3). cbv beta. change (truthy 1) with true. cbv iota.
    apply runs_bind. eapply runs_conseq; [apply clear_write_data_runs|].
    intros _ s4 (Hctx4 & _). wp_more. split; [reflexivity|]. cbn [st_ctx set_hw]. congruence.
  - intros k works s' _ H _. exact H.
Qed.

End LoopbackChecks.

(** ** The comparison of the data-mask check *)

Section DataMask.

Variable lfsr_next : Z -> Z.

Lemma lfsr_byte_range k seed : 0 <= lfsr_byte lfsr_next k seed < 2 ^ 8.
Proof. unfold lfsr_byte. destruct k; cbn [Nat.iter]; apply wrap_u8_range. Qed.

Lemma lfsr_byte_S k seed :
  lfsr_byte lfsr_next (S k) seed = wrap_u8 (lfsr_next (lfsr_byte lfsr_next k seed)).
Proof. reflexivity. Qed.

Lemma lfsr_wrdata_wide w l :
  4 < w -> 0 <= l < 2 ^ 8 ->
  lfsr_wrdata lfsr_next w l =
  (Z.lor (Z.lxor l 0x55) (Z.shiftl (Z.lxor (wrap_u8 (lfsr_next l)) 0x55) 8),
   wrap_u8 (lfsr_next (wrap_u8 (lfsr_next l)))).
Proof.
  intros Hw Hl. unfold lfsr_wrdata. destruct (Z.gtb_spec w 4); [|lia].
  pose proof (lxor_0x55_range l Hl) as Hx.
  pose proof (lxor_0x55_range _ (wrap_u8_range (lfsr_next l))) as Hx1.
  set (l1 := wrap_u8 (lfsr_next l)) in *. f_equal.
  unfold wrap_u16 at 2. rewrite (Z.mod_small (Z.lxor l 0x55)) by lia.
  unfold wrap_u16. apply Z.bits_inj'. intros j Hj. rewrite Z.testbit_mod_pow2 by lia.
  destruct (Z.ltb_spec j 16) as [|Hhigh]; [reflexivity|].
  rewrite Z.lor_spec, Z.shiftl_spec by lia.
  rewrite (testbit_high _ 8 j Hx), (testbit_high _ 8 (j - 8) Hx1) by lia. reflexivity.
Qed.

Lemma lfsr_state_byte w n seed :
  4 < w -> lfsr_state lfsr_next w n seed = lfsr_byte lfsr_next (2 * n) seed.
Proof.
  intros Hw. induction n as [|n IH]; [reflexivity|].
  rewrite lfsr_state_S, IH, lfsr_wrdata_wide by (try apply lfsr_byte_range; exact Hw).
  replace (2 * S n)%nat with (S (S (2 * n))) by lia. reflexivity.
Qed.

(** Byte [it] of the burst that [setup_lfsr_write_data] writes is the
    [it]-th value of the generator, xor 0x55. *)
Lemma dm_byte w seed it :
  4 < w -> 0 <= it ->
  let word := lfsr_word lfsr_next w (Z.to_nat (Z.quot it 2)) seed in
  Z.land (if truthy (Z.land it 1) then Z.shiftr (wrap_u16 word) 8 else wrap_u16 word) 0xff
  = Z.lxor (lfsr_byte lfsr_next (Z.to_nat it) seed) 0x55.
Proof.
  intros Hw Hit word. subst word. unfold lfsr_word.
  rewrite lfsr_state_byte by exact Hw.
  set (n := Z.to_nat (Z.quot it 2)).
  rewrite lfsr_wrdata_wide by (try apply lfsr_byte_range; exact Hw). cbn [fst].
  set (l := lfsr_byte lfsr_next (2 * n) seed).
  pose proof (lxor_0x55_range l (lfsr_byte_range _ _)) as Hx.
  pose proof (lxor_0x55_range _ (wrap_u8_range (lfsr_next l))) as Hx1.
  set (word := Z.lor (Z.lxor l 0x55) (Z.shiftl (Z.lxor (wrap_u8 (lfsr_next l)) 0x55) 8)).
  assert (Hword : 0 <= word < 2 ^ 16).
  { assert (H : word mod 2 ^ 16 = word).
    { apply Z.bits_inj'. intros j Hj. rewrite Z.testbit_mod_pow2 by lia.
      destruct (Z.ltb_spec j 16) as [|Hhigh]; [reflexivity|]. unfold word.
      rewrite Z.lor_spec, Z.shiftl_spec by lia.
      rewrite (testbit_high _ 8 j Hx), (testbit_high _ 8 (j - 8) Hx1) by lia. reflexivity. }
    rewrite <- H. apply Z.mod_pos_bound. lia. }
  unfold wrap_u16. rewrite (Z.mod_small word) by exact Hword.
  destruct (proj1 (word_bytes word _ _ Hword Hx Hx1) eq_refl) as [Hlo Hhi].
  assert (Hq : Z.quot it 2 = it / 2) by (apply Z.quot_div_nonneg; lia).
  assert (Hparity : Z.land it 1 = it mod 2).
  { change 1 with (Z.ones 1). rewrite Z.land_ones by lia. reflexivity. }
  rewrite Hparity. pose proof (Z.div_mod it 2 ltac:(lia)) as Hdm.
  pose proof (Z.mod_pos_bound it 2 ltac:(lia)) as Hmod.
  destruct (Z.eq_dec (it mod 2) 0) as [E|E].
  - rewrite E. change (truthy 0) with false. cbv iota. rewrite Hlo.
    replace (Z.to_nat it) with (2 * n)%nat by (unfold n; lia). reflexivity.
  - assert (E1 : it mod 2 = 1) by lia. rewrite E1. change (truthy 1) with true. cbv iota.
    rewrite Hhi. replace (Z.to_nat it) with (S (2 * n)) by (unfold n; lia).
    rewrite lfsr_byte_S. reflexivity.
Qed.

Lemma compare_dm_loopback seed channel module byte s :
  4 < die_width (st_ctx s) ->
  let w := die_width (st_ctx s) in
  (forall p : nat, (p < 8)%nat ->
     last_set [channel; module; w; Z.of_nat p] (st_hw s) = lfsr_word lfsr_next w p seed) ->
  runs (compare_dm_lfsr_write_data loopback lfsr_next seed channel module byte) s
    (fun works _ => works = if (0 <=? byte) && (byte <? 16) then 0 else 1).
Proof.
  intros Hw w Hset. unfold compare_dm_lfsr_write_data. wp_more. fold w.
  apply (runs_for_acc (fun it (acc : Z * Z) s1 =>
           acc = (if (0 <=? byte) && (byte <? it) then 0 else 1,
                  lfsr_byte lfsr_next (Z.to_nat it) seed) /\
           frame (call_of ["get_data_module_phase"]) s s1)); [lia| | |].
  - split; [|apply frame_refl]. f_equal.
    destruct (Z.leb_spec 0 byte), (Z.ltb_spec byte 0); try reflexivity; lia.
  - intros it acc s1 Hit (-> & Hf). wp_more. rewrite loopback_get.
    rewrite (frame_last_set _ _ _ _ get_not_set Hf).
    assert (Hq : Z.quot it 2 = Z.of_nat (Z.to_nat (Z.quot it 2))).
    { rewrite Z2Nat.id; [reflexivity|]. apply Z.quot_pos; lia. }
    rewrite Hq, Hset by (apply Nat2Z.inj_lt; rewrite <- Hq;
                         rewrite Z.quot_div_nonneg by lia;
                         change (Z.of_nat 8) with 8;
                         apply Z.div_lt_upper_bound; lia).
    split; [|apply frame_push_call; [apply list_elem_of_here|exact Hf]].
    replace (Z.to_nat (it + 1)) with (S (Z.to_nat it)) by lia. rewrite lfsr_byte_S.
    f_equal. destruct (Z.eqb_spec byte it) as [->|Hne].
    + rewrite (dm_byte w seed it Hw) by lia.
      rewrite (proj2 (Z.eqb_neq _ _) (lxor_0x55_ne _)).
      destruct (Z.leb_spec 0 it), (Z.ltb_spec it it), (Z.ltb_spec it (it + 1));
        try reflexivity; lia.
    + destruct (Z.leb_spec 0 byte), (Z.ltb_spec byte it), (Z.ltb_spec byte (it + 1));
        try reflexivity; lia.
  - intros acc s' (-> & _). wp_more. reflexivity.
Qed.

End DataMask.

(** ** What the comparisons accept *)

Section PatternTheorems.

Variable env : env_t.
Variable lfsr_next : Z -> Z.

(** X4: for devices of width [0 <= die_width <= 8] and a pattern index
    below [serial_count], [compare_serial_write_data] reads the phases in
    order and stops at the first phase whose word differs, on the
    [2*die_width] data bits, from the word that [setup_serial_write_data]
    writes for that phase; it returns 1 exactly when all eight phases carry
    the pattern, and 0 otherwise. *)
Theorem compare_serial_write_data_accepts cnt_seed channel module s :
  0 <= die_width (st_ctx s) <= 8 -> 0 <= cnt_seed < serial_count ->
  runs (compare_serial_write_data env cnt_seed channel module 0) s
    (fun works s' =>
       exists rds,
         answers "get_data_module_phase" (st_hw s') =
           answers "get_data_module_phase" (st_hw s) ++ rds /\
         (works = 0 \/ works = 1) /\
         (1 <= length rds <= 8)%nat /\
         (works = 1 -> length rds = 8%nat) /\
         forall p rd, rds !! p = Some rd ->
           (serial_match (die_width (st_ctx s)) cnt_seed (Z.of_nat p) rd <->
            (S p < length rds)%nat \/ works = 1)).
Proof.
  intros Hw Hc. eapply runs_conseq; [apply compare_serial_write_data_runs; assumption|].
  intros works s' (_ & _ & H). exact H.
Qed.

(** X5: [compare_lfsr_write_data] reads the phases in order and stops at
    the first phase whose word differs from the word that
    [setup_lfsr_write_data] writes for the same seed, on both bytes for
    devices wider than x4 and on the low byte otherwise; it returns 1
    exactly when all eight phases carry the sequence. *)
Theorem compare_lfsr_write_data_accepts seed channel module s :
  runs (compare_lfsr_write_data env lfsr_next seed channel module 0) s
    (fun works s' =>
       exists rds,
         answers "get_data_module_phase" (st_hw s') =
           answers "get_data_module_phase" (st_hw s) ++ rds /\
         (works = 0 \/ works = 1) /\
         (1 <= length rds <= 8)%nat /\
         (works = 1 -> length rds = 8%nat) /\
         forall p rd, rds !! p = Some rd ->
           (lfsr_match (die_width (st_ctx s)) rd
              (lfsr_word lfsr_next (die_width (st_ctx s)) p seed) <->
            (S p < length rds)%nat \/ works = 1)).
Proof.
  eapply runs_conseq; [apply compare_lfsr_write_data_runs|].
  intros works s' (_ & _ & H). exact H.
Qed.

(** X6: on a data path without faults, where [get_data_module_phase]
    returns the word last stored by [set_data_module_phase] for that phase,
    [write_serial_check] and [write_lfsr_check] run through all their
    patterns and return 1, for every device width in [[0, 8]] and every
    generator [lfsr_next]. *)
Theorem write_checks_pass_without_faults channel rank module s :
  0 <= die_width (st_ctx s) <= 8 ->
  runs (write_serial_check loopback channel rank module) s (fun works _ => works = 1) /\
  runs (write_lfsr_check loopback lfsr_next channel rank module) s (fun works _ => works = 1).
Proof.
  intros Hw. split.
  - eapply runs_conseq; [apply write_serial_check_loopback; exact Hw|].
    intros works s' [H _]. exact H.
  - eapply runs_conseq; [apply write_lfsr_check_loopback|].
    intros works s' [H _]. exact H.
Qed.

(** X7: for devices wider than x4, when the data read back are the very
    words that [setup_lfsr_write_data] wrote, [compare_lfsr_write_data]
    accepts them and [compare_dm_lfsr_write_data] rejects them for every
    byte index in [[0, 16)]: it compares the byte with the value of the
    generator, while the setup writes that value xor 0x55.  For a byte index
    outside [[0, 16)] nothing is compared and the result is 1. *)
Theorem compare_dm_lfsr_rejects_written_data seed channel module byte s :
  4 < die_width (st_ctx s) ->
  runs (setup_lfsr_write_data loopback lfsr_next seed channel module 0 ;;
        compare_lfsr_write_data loopback lfsr_next seed channel module 0) s
    (fun works _ => works = 1) /\
  runs (setup_lfsr_write_data loopback lfsr_next seed channel module 0 ;;
        compare_dm_lfsr_write_data loopback lfsr_next seed channel module byte) s
    (fun works _ => works = if (0 <=? byte) && (byte <? 16) then 0 else 1).
Proof.
  intros Hw. split; apply runs_bind;
    (eapply runs_conseq; [apply setup_lfsr_write_data_runs|]);
    intros _ s1 (Hctx & _ & Hset); cbv beta.
  - eapply runs_conseq.
    { apply compare_lfsr_loopback. rewrite Hctx. exact Hset. }
    intros works s' [H _]. exact H.
  - apply compare_dm_loopback; rewrite Hctx; [exact Hw|exact Hset].
Qed.

End PatternTheorems.

Lemma compare_serial_write_data_accepts_witness :
  0 <= die_width (st_ctx x8_state) <= 8 /\ 0 <= 2 < serial_count /\
  runs (compare_serial_write_data env_all_fail 2 0 0 0) x8_state
    (fun works s' =>
       exists rds,
         answers "get_data_module_phase" (st_hw s') = [] ++ rds /\
         (works = 0 \/ works = 1) /\
         (1 <= length rds <= 8)%nat /\
         (works = 1 -> length rds = 8%nat) /\
         forall p rd, rds !! p = Some rd ->
           (serial_match 8 2 (Z.of_nat p) rd <-> (S p < length rds)%nat \/ works = 1)).
Proof.
  assert (H1 : 0 <= die_width (st_ctx x8_state) <= 8) by (cbn; lia).
  assert (H2 : 0 <= 2 < serial_count) by (rewrite serial_count_eq; lia).
  split; [exact H1|]. split; [exact H2|].
  exact (compare_serial_write_data_accepts env_all_fail 2 0 0 x8_state H1 H2).
Defined.

Lemma write_checks_pass_without_faults_witness :
  0 <= die_width (st_ctx x8_state) <= 8 /\
  runs (write_serial_check loopback 0 0 0) x8_state (fun works _ => works = 1) /\
  runs (write_lfsr_check loopback lfsr_demo 0 0 0) x8_state (fun works _ => works = 1).
Proof.
  assert (H1 : 0 <= die_width (st_ctx x8_state) <= 8) by (cbn; lia).
  split; [exact H1|].
  exact (write_checks_pass_without_faults lfsr_demo 0 0 0 x8_state H1).
Defined.

Lemma compare_dm_lfsr_rejects_written_data_witness :
  4 < die_width (st_ctx x8_state) /\
  runs (setup_lfsr_write_data loopback lfsr_demo 0x1c 0 0 0 ;;
        compare_dm_lfsr_write_data loopback lfsr_demo 0x1c 0 0 3) x8_state
    (fun works _ => works = 0).
Proof.
  assert (H1 : 4 < die_width (st_ctx x8_state)) by (cbn; lia).
  split; [exact H1|].
  exact (proj2 (compare_dm_lfsr_rejects_written_data lfsr_demo 0x1c 0 0 3 x8_state H1)).
Defined.

(** ** Loops of checks that stop at the first failure *)

Lemma land_1_odd c : Z.land 1 c = Z.b2z (Z.odd c).
Proof. rewrite Z.land_comm, land1_b2z, Z.bit0_odd. reflexivity. Qed.

Lemma block_one c : block 1 [c] (Z.b2z (Z.odd c)).
Proof.
  split; [destruct (Z.odd c); cbn; auto|]. split.
  - intros i x Hx. destruct i as [|i]; [|discriminate]. injection Hx as <-.
    cbn [length]. destruct (Z.odd c); cbn; split; intros H; auto; try lia;
      try (destruct H as [H|H]; [lia|discriminate]).
  - split; [reflexivity|]. intros _. cbn. lia.
Qed.

Lemma block_app k m xs ys w :
  block k xs 1 -> block m ys w -> block (k + m) (xs ++ ys) w.
Proof.
  intros (_ & Hxs & Hlx & _) (H01 & Hys & Hly1 & Hly0).
  specialize (Hlx eq_refl).
  split; [exact H01|]. split; [|split].
  - intros i x Hx. rewrite length_app.
    destruct (decide (i < length xs)%nat) as [Hlt|Hge].
    + rewrite lookup_app_l in Hx by exact Hlt. split.
      * intros _. destruct H01 as [->| ->]; [left|right; reflexivity].
        specialize (Hly0 eq_refl). lia.
      * intros _. apply (Hxs i x Hx). right. reflexivity.
    + rewrite lookup_app_r in Hx by lia. rewrite (Hys _ x Hx). split.
      * intros [H|H]; [left; lia|right; exact H].
      * intros [H|H]; [left; lia|right; exact H].
  - intros H1. rewrite length_app, Hlx, (Hly1 H1). reflexivity.
  - intros H0. rewrite length_app, Hlx. specialize (Hly0 H0). lia.
Qed.

(** [n] rounds, each of up to [m] checks, run while [works] is not 0. *)
Lemma block_loop (R : state -> state -> Prop) name (m n : nat) lo
    (body : Z -> Z -> M Z) s :
  (forall s1, R s1 s1) -> (forall s1 s2 s3, R s1 s2 -> R s2 s3 -> R s1 s3) ->
  (forall i s1, lo <= i < lo + Z.of_nat n ->
     runs (body i 1) s1
       (fun w s2 => R s1 s2 /\
          exists xs, answers name (st_hw s2) = answers name (st_hw s1) ++ xs /\
                     block m xs w)) ->
  runs (for_while n lo truthy body 1) s
    (fun w s' => R s s' /\
       exists xs, answers name (st_hw s') = answers name (st_hw s) ++ xs /\
                  block (n * m) xs w).
Proof.
  intros Hrefl Htrans Hbody.
  apply (runs_for_while (fun k w s1 =>
           R s s1 /\
           exists xs, answers name (st_hw s1) = answers name (st_hw s) ++ xs /\
             (w = 1 -> block (Z.to_nat (k - lo) * m) xs 1) /\
             (w <> 1 -> block (n * m) xs w))).
  - split; [apply Hrefl|]. exists []. split; [symmetry; apply app_nil_r|].
    split; [|intros H; contradiction]. intros _.
    replace (Z.to_nat (lo - lo)) with 0%nat by lia.
    split; [right; reflexivity|]. split; [intros i x Hx; discriminate|].
    split; [reflexivity|discriminate].
  - intros k w s1 Hk Hcond (HR & xs & Hans & H1 & H0).
    assert (w = 1) as ->.
    { destruct (Z.eq_dec w 1) as [|Hne]; [assumption|].
      destruct (H0 Hne) as ([->| ->] & _); [discriminate|reflexivity]. }
    specialize (H1 eq_refl). eapply runs_conseq; [apply Hbody; exact Hk|].
    intros w s2 (HR2 & ys & Hans2 & Hblock). cbv beta.
    split; [eapply Htrans; eassumption|]. exists (xs ++ ys).
    split; [rewrite Hans2, Hans, app_assoc; reflexivity|].
    pose proof (block_app _ _ _ _ _ H1 Hblock) as Happ.
    split.
    + intros ->. replace (Z.to_nat (k + 1 - lo) * m)%nat
        with (Z.to_nat (k - lo) * m + m)%nat by nia. exact Happ.
    + intros Hne. destruct Happ as (H01 & Habl & Hl1 & Hl0).
      assert (w = 0) as -> by (destruct H01; [assumption|contradiction]).
      split; [left; reflexivity|]. split; [exact Habl|]. split; [discriminate|].
      intros _. specialize (Hl0 eq_refl). nia.
  - intros k w s' Hk (HR & xs & Hans & H1 & H0) Hstop. split; [exact HR|].
    exists xs. split; [exact Hans|].
    destruct (Z.eq_dec w 1) as [->|Hne]; [|exact (H0 Hne)].
    assert (k = lo + Z.of_nat n) as ->.
    { destruct (Z.eq_dec k (lo + Z.of_nat n)) as [|Hk']; [assumption|].
      specialize (Hstop ltac:(lia)). discriminate. }
    replace (n * m)%nat with (Z.to_nat (lo + Z.of_nat n - lo) * m)%nat by nia.
    exact (H1 eq_refl).
Qed.

(** * More on read training *)

Section ReadMore.

Variable env : env_t.
Variable DRAM_SCRATCH_PAD : Z.

Lemma simple_read_check_loop_spec channel rank module width data : forall works s,
  works = 0 \/ works = 1 ->
  runs (simple_read_check_loop env DRAM_SCRATCH_PAD channel rank module width data works) s
    (fun works' s' =>
       printed "Simple read check: " (st_hw s') = printed "Simple read check: " (st_hw s) /\
       exists rds,
         answers "recover_mrr_value" (st_hw s') =
           answers "recover_mrr_value" (st_hw s) ++ rds /\
         length rds = length data /\
         calls "send_mrw" (st_hw s') =
           calls "send_mrw" (st_hw s)
             ++ ((fun d => [channel; rank; module; DRAM_SCRATCH_PAD; d]) <$> data) /\
         (works' = 0 \/ works' = 1) /\
         (works' = 1 <-> works = 1 /\ (fun rd => rd mod 256) <$> rds = data)).
Proof.
  induction data as [|d data IH]; intros works s Hworks.
  - cbn [simple_read_check_loop]. wp_more. split; [reflexivity|]. exists [].
    rewrite !app_nil_r. split; [reflexivity|]. split; [reflexivity|].
    split; [reflexivity|]. split; [exact Hworks|]. intuition.
  - cbn [simple_read_check_loop]. wp_more.
    set (v := env _ "recover_mrr_value" _).
    eapply runs_conseq.
    { apply (IH (Z.land works (bool_to_int (v mod 256 =? d)))).
      destruct (v mod 256 =? d), Hworks as [->| ->]; cbn; auto. }
    intros works' s' (Hpr & rds & Hans & Hlen & Hcalls & H01 & Hiff).
    split; [rewrite Hpr; trace_simpl; reflexivity|].
    exists (v :: rds). revert Hans Hcalls. trace_simpl. intros Hans Hcalls.
    split; [rewrite Hans, <- app_assoc; reflexivity|].
    split; [cbn [length]; lia|].
    split; [rewrite Hcalls, <- app_assoc; reflexivity|].
    split; [exact H01|]. rewrite Hiff. cbn [fmap list_fmap].
    destruct (Z.eqb_spec (v mod 256) d) as [E|E], Hworks as [->| ->]; cbn;
      intuition (try discriminate; try congruence).
Qed.

(** X8: [simple_read_check] writes the four bytes 0xDE, 0xAD, 0xBE, 0xEF to
    the scratch pad and reads each one back; it always makes all four
    writes and reads, whatever the earlier bytes gave, and returns 1
    exactly when every read returns, in its low eight bits, the byte just
    written, and 0 otherwise. *)
Theorem simple_read_check_reads_back channel rank module width s :
  runs (simple_read_check env DRAM_SCRATCH_PAD channel rank module width) s
    (fun works s' =>
       exists rds,
         answers "recover_mrr_value" (st_hw s') =
           answers "recover_mrr_value" (st_hw s) ++ rds /\
         length rds = 4%nat /\
         calls "send_mrw" (st_hw s') =
           calls "send_mrw" (st_hw s)
             ++ ((fun d => [channel; rank; module; DRAM_SCRATCH_PAD; d]) <$> test_data) /\
         (works = 0 \/ works = 1) /\
         (works = 1 <-> (fun rd => rd mod 256) <$> rds = test_data)).
Proof.
  unfold simple_read_check. wp_more.
  eapply runs_conseq; [apply simple_read_check_loop_spec; right; reflexivity|].
  intros works s' (_ & rds & Hans & Hlen & Hcalls & H01 & Hiff).
  exists rds. revert Hans Hcalls. trace_simpl. intros Hans Hcalls.
  split; [exact Hans|]. split; [exact Hlen|]. split; [exact Hcalls|].
  split; [exact H01|]. rewrite Hiff. intuition.
Qed.

(** X9: [rank_read_training] attempts every module of the rank, in order,
    also after a module has failed; a module whose preamble search returns
    -1 gets no data scan; Read Preamble Training Mode is entered once and
    always exited, the exit being the last thing done; and the result is
    true exactly when no preamble search returned -1 and no data scan
    returned false. *)
Theorem rank_read_training_every_module channel rank modules die_width max_taps s :
  0 <= modules ->
  runs (rank_read_training env channel rank modules die_width max_taps) s
    (fun good s' =>
       (exists r tr, st_hw s' = Call "exit_rptm" [channel; rank] r :: tr) /\
       calls "enter_rptm" (st_hw s') = calls "enter_rptm" (st_hw s) ++ [[channel; rank]] /\
       calls "exit_rptm" (st_hw s') = calls "exit_rptm" (st_hw s) ++ [[channel; rank]] /\
       calls "find_read_preamble_cycle" (st_hw s') =
         calls "find_read_preamble_cycle" (st_hw s)
           ++ ((fun m => [channel; rank; m; die_width; max_taps]) <$> seqZ 0 modules) /\
       exists ps ds,
         answers "find_read_preamble_cycle" (st_hw s') =
           answers "find_read_preamble_cycle" (st_hw s) ++ ps /\
         answers "read_training_data_scan" (st_hw s') =
           answers "read_training_data_scan" (st_hw s) ++ ds /\
         length ds = length (List.filter (fun p => negb (p =? -1)) ps) /\
         (good = true <-> Forall (fun p => p <> -1) ps /\ Forall (fun d => d <> 0) ds)).
Proof.
  intros Hm. unfold rank_read_training. wp_more.
  set (s0 := set_hw _ s).
  apply (runs_for_acc (fun i (good : bool) s1 =>
           calls "enter_rptm" (st_hw s1) = calls "enter_rptm" (st_hw s0) /\
           calls "exit_rptm" (st_hw s1) = calls "exit_rptm" (st_hw s0) /\
           calls "find_read_preamble_cycle" (st_hw s1) =
             calls "find_read_preamble_cycle" (st_hw s0)
               ++ ((fun m => [channel; rank; m; die_width; max_taps]) <$> seqZ 0 i) /\
           exists ps ds,
             answers "find_read_preamble_cycle" (st_hw s1) =
               answers "find_read_preamble_cycle" (st_hw s0) ++ ps /\
             answers "read_training_data_scan" (st_hw s1) =
               answers "read_training_data_scan" (st_hw s0) ++ ds /\
             length ds = length (List.filter (fun p => negb (p =? -1)) ps) /\
             (good = true <->
              Forall (fun p => p <> -1) ps /\ Forall (fun d => d <> 0) ds))); [exact Hm| | |].
  - split; [reflexivity|]. split; [reflexivity|]. split; [rewrite app_nil_r; reflexivity|].
    exists [], []. rewrite !app_nil_r. split; [reflexivity|]. split; [reflexivity|].
    split; [reflexivity|]. split; [intros _; split; constructor|reflexivity].
  - intros i good s1 Hi (Hen & Hex & Hcalls & ps & ds & Hps & Hds & Hlen & Hgood).
    wp_more. set (p := env (st_hw s1) "find_read_preamble_cycle" _).
    destruct (Z.eqb_spec p (-1)) as [Hp|Hp]; wp_more; trace_simpl.
    + split; [exact Hen|]. split; [exact Hex|].
      split; [rewrite Hcalls, seqZ_snoc, fmap_app, app_assoc by lia; reflexivity|].
      exists (ps ++ [p]), ds. split; [rewrite Hps, app_assoc; reflexivity|].
      split; [exact Hds|]. split.
      { rewrite List.filter_app, length_app. cbn [List.filter].
        destruct (Z.eqb_spec p (-1)); [|contradiction]. cbn. lia. }
      split; [discriminate|]. intros [Hall _]. apply Forall_app in Hall.
      destruct Hall as [_ Hlast]. rewrite Forall_singleton in Hlast. destruct (Hlast Hp).
    + set (d := env _ "read_training_data_scan" _).
      split; [exact Hen|]. split; [exact Hex|].
      split; [rewrite Hcalls, seqZ_snoc, fmap_app, app_assoc by lia; reflexivity|].
      exists (ps ++ [p]), (ds ++ [d]). split; [rewrite Hps, app_assoc; reflexivity|].
      split; [rewrite Hds, app_assoc; reflexivity|]. split.
      { rewrite List.filter_app, !length_app. cbn [List.filter].
        destruct (Z.eqb_spec p (-1)); [contradiction|]. cbn. lia. }
      rewrite !Forall_app, !Forall_singleton.
      destruct (truthy d) eqn:Ed.
      * apply truthy_true in Ed. rewrite Hgood. tauto.
      * apply truthy_false in Ed. split; [discriminate|]. intros [_ [_ Hd]]. destruct (Hd Ed).
  - intros good s' (Hen & Hex & Hcalls & ps & ds & Hps & Hds & Hlen & Hgood). wp_more.
    split; [cbn [st_hw set_hw]; eauto|]. revert Hen Hex Hcalls Hps Hds.
    unfold s0. trace_simpl. intros Hen Hex Hcalls Hps Hds.
    split; [exact Hen|]. split; [rewrite Hex; reflexivity|]. split; [exact Hcalls|].
    exists ps, ds. auto.
Qed.

End ReadMore.

(** ** The check of one read delay *)

Section ReadScanFacts.

Variable env : env_t.
Variable MAX_READ_CYCLE_DELAY : Z.
Variable KEEP_GOING_ON_DRAM_ERROR : bool.

Lemma kept_refl names s : kept names s s.
Proof. split; [reflexivity|apply frame_refl]. Qed.

Lemma kept_trans names s1 s2 s3 : kept names s1 s2 -> kept names s2 s3 -> kept names s1 s3.
Proof. intros [C1 F1] [C2 F2]. split; [congruence|eapply frame_trans; eassumption]. Qed.

Lemma kept_call names name args r s1 s2 :
  name ∈ names -> kept names s1 s2 -> kept names s1 (set_hw (cons (Call name args r)) s2).
Proof. intros Hin [C F]. split; [exact C|apply frame_push_call; assumption]. Qed.

Lemma rd_check_runs channel rank module width s :
  runs (rd_cycle_dly_idly_check_if_works env channel rank module width) s
    (fun res s' =>
       st_ctx s' = st_ctx s /\ frame (call_of read_check_names) s s' /\
       exists ss ls,
         answers "compare_serial" (st_hw s') = answers "compare_serial" (st_hw s) ++ ss /\
         answers "compare" (st_hw s') = answers "compare" (st_hw s) ++ ls /\
         ((res = 0 /\ block 544 ss 0 /\ ls = []) \/
          (res = 1 /\ block 544 ss 1 /\ block 128 ls 0) \/
          (res = 3 /\ block 544 ss 1 /\ block 128 ls 1))).
Proof.
  unfold rd_cycle_dly_idly_check_if_works. apply runs_bind.
  change (Z.to_nat serial_count) with 34%nat. change (Z.to_nat seeds_count) with 8%nat.
  eapply runs_conseq.
  { apply (block_loop (kept serial_check_names) "compare_serial" 16 34);
      [apply kept_refl|apply kept_trans|].
    intros seed s1 Hseed.
    destruct (arr_get_in serial seed) as [pattern Hpat]; [cbn; cbn in Hseed; lia|].
    apply runs_bind. eapply runs_lift_option; [exact Hpat|]. wp_more.
    set (s2 := set_hw _ (set_hw _ (set_hw _ s1))).
    assert (K2 : kept serial_check_names s1 s2).
    { unfold s2. repeat (apply kept_call; [unfold serial_check_names; name_in|]).
      apply kept_refl. }
    assert (A2 : answers "compare_serial" (st_hw s2) = answers "compare_serial" (st_hw s1)).
    { unfold s2. trace_simpl. reflexivity. }
    eapply runs_conseq.
    { apply (block_loop (kept serial_check_names) "compare_serial" 1 16);
        [apply kept_refl|apply kept_trans|].
      intros i s3 _. wp_more. rewrite land_1_odd.
      set (c := env _ "compare_serial" _). split.
      - repeat (apply kept_call; [unfold serial_check_names; name_in|]). apply kept_refl.
      - exists [c]. split; [trace_simpl; reflexivity|apply block_one]. }
    intros w s3 (K3 & xs & Hans & Hb). cbv beta. split; [eapply kept_trans; eassumption|].
    exists xs. split; [rewrite Hans, A2; reflexivity|exact Hb]. }
  intros w s1 ([C1 F1] & ss & Hss & Hbs). cbv beta.
  assert (Hcmp1 : answers "compare" (st_hw s1) = answers "compare" (st_hw s)).
  { apply (frame_answers "compare" serial_check_names);
      [unfold serial_check_names; name_out|exact F1]. }
  assert (F1' : frame (call_of read_check_names) s s1).
  { eapply frame_incl; [|exact F1]. unfold serial_check_names, read_check_names. names_incl. }
  destruct (proj1 Hbs) as [->| ->].
  - change (negb (truthy 0)) with true. cbv iota. wp_more.
    split; [exact C1|]. split; [exact F1'|]. exists ss, [].
    split; [exact Hss|]. split; [rewrite app_nil_r; exact Hcmp1|]. left. auto.
  - change (negb (truthy 1)) with false. cbv iota. apply runs_bind.
    eapply runs_conseq.
    { apply (block_loop (kept lfsr_check_names) "compare" 16 8);
        [apply kept_refl|apply kept_trans|].
      intros seed s2 Hseed.
      destruct (arr_get_in seeds0 seed) as [seed0 Hs0]; [cbn; cbn in Hseed; lia|].
      destruct (arr_get_in seeds1 seed) as [seed1 Hs1]; [cbn; cbn in Hseed; lia|].
      apply runs_bind. eapply runs_lift_option; [exact Hs0|].
      apply runs_bind. eapply runs_lift_option; [exact Hs1|].
      apply (block_loop (kept lfsr_check_names) "compare" 1 16);
        [apply kept_refl|apply kept_trans|].
      intros i s3 _. wp_more. rewrite land_1_odd.
      set (c := env _ "compare" _). split.
      - repeat (apply kept_call; [unfold lfsr_check_names; name_in|]). apply kept_refl.
      - exists [c]. split; [trace_simpl; reflexivity|apply block_one]. }
    intros w s2 ([C2 F2] & ls & Hls & Hbl). cbv beta.
    assert (Hser2 : answers "compare_serial" (st_hw s2) = answers "compare_serial" (st_hw s1)).
    { apply (frame_answers "compare_serial" lfsr_check_names);
        [unfold lfsr_check_names; name_out|exact F2]. }
    assert (F2' : frame (call_of read_check_names) s s2).
    { eapply frame_trans; [exact F1'|]. eapply frame_incl; [|exact F2].
      unfold lfsr_check_names, read_check_names. names_incl. }
    destruct (proj1 Hbl) as [->| ->].
    + change (negb (truthy 0)) with true. cbv iota. apply runs_ret.
      split; [congruence|]. split; [exact F2'|]. exists ss, ls.
      split; [rewrite Hser2; exact Hss|]. split; [rewrite Hls, Hcmp1; reflexivity|].
      right. left. auto.
    + change (negb (truthy 1)) with false. cbv iota. apply runs_ret.
      split; [congruence|]. split; [exact F2'|]. exists ss, ls.
      split; [rewrite Hser2; exact Hss|]. split; [rewrite Hls, Hcmp1; reflexivity|].
      right. right. auto.
Qed.

End ReadScanFacts.

(** ** The preamble search *)

Section PreambleFacts.

Variable env : env_t.
Variable MAX_READ_CYCLE_DELAY : Z.

Lemma preamble_step_inv max eye ps p c i :
  1 <= max -> 0 <= c -> 0 <= i < max ->
  preamble_inv max eye ps (c * max + i) ->
  preamble_inv max (preamble_step eye p c) (ps ++ [p]) (c * max + (i + 1)).
Proof.
  intros Hmax Hc Hi [Hlen Hinv]. split; [rewrite length_app; cbn [length]; lia|].
  unfold preamble_step.
  destruct (decide (eye_state eye = BEFORE)) as [Hb|Hb].
  - rewrite bool_decide_eq_true_2 in Hinv by exact Hb. destruct Hinv as [Hstart Hall].
    rewrite (bool_decide_eq_true_2 _ Hb), andb_true_r.
    rewrite (bool_decide_eq_false_2 (eye_state eye = INSIDE)) by congruence.
    rewrite andb_false_r.
    destruct (Z.eqb_spec p 4) as [->|Hp].
    + cbn [eye_state eye_start]. rewrite bool_decide_eq_false_2 by discriminate.
      exists (length ps). split; [rewrite lookup_app_r, Nat.sub_diag by lia; reflexivity|].
      split.
      * intros j Hj. rewrite lookup_app_l by exact Hj. intros Hk.
        rewrite Forall_forall in Hall. apply (Hall 4); [|reflexivity].
        eapply list_elem_of_lookup_2. exact Hk.
      * rewrite Hlen. rewrite Z.add_comm, Z.div_add by lia.
        rewrite Z.div_small by lia. reflexivity.
    + rewrite (bool_decide_eq_true_2 _ Hb). split; [exact Hstart|].
      apply Forall_app. split; [exact Hall|]. apply Forall_singleton. exact Hp.
  - rewrite bool_decide_eq_false_2 in Hinv by exact Hb.
    destruct Hinv as (k & Hk & Hfirst & Hstart).
    rewrite (bool_decide_eq_false_2 _ Hb), andb_false_r.
    assert (Hkeep : exists k0 : nat,
              (ps ++ [p]) !! k0 = Some 4 /\
              (forall j, (j < k0)%nat -> (ps ++ [p]) !! j <> Some 4) /\
              eye_start eye = Z.of_nat k0 / max).
    { pose proof (lookup_lt_Some _ _ _ Hk) as Hklt.
      exists k. split; [rewrite lookup_app_l by exact Hklt; exact Hk|].
      split; [|exact Hstart]. intros j Hj. rewrite lookup_app_l by lia. apply Hfirst. exact Hj. }
    destruct (negb (p =? 4) && bool_decide (eye_state eye = INSIDE)).
    + cbn [eye_state eye_start]. rewrite bool_decide_eq_false_2 by discriminate. exact Hkeep.
    + rewrite (bool_decide_eq_false_2 _ Hb). exact Hkeep.
Qed.

(** X11: for [max_delay_taps >= 1] and [MAX_READ_CYCLE_DELAY >= 0],
    [find_read_preamble_cycle] returns the read cycle of the first tap at
    which the captured preamble is 4 (0b0100), a cycle in
    [[0, MAX_READ_CYCLE_DELAY)]; it returns -1 exactly when no tap of the
    whole range, [MAX_READ_CYCLE_DELAY * max_delay_taps] taps, captured
    it. *)
Theorem find_read_preamble_cycle_first channel rank module width max_delay_taps s :
  1 <= max_delay_taps -> 0 <= MAX_READ_CYCLE_DELAY ->
  runs (find_read_preamble_cycle env MAX_READ_CYCLE_DELAY channel rank module width
          max_delay_taps) s
    (fun res s' =>
       exists ps,
         answers "captured_preamble" (st_hw s') =
           answers "captured_preamble" (st_hw s) ++ ps /\
         ((res = -1 /\ Forall (fun p => p <> 4) ps /\
           Z.of_nat (length ps) = MAX_READ_CYCLE_DELAY * max_delay_taps) \/
          (exists k : nat,
             ps !! k = Some 4 /\ (forall i, (i < k)%nat -> ps !! i <> Some 4) /\
             res = Z.of_nat k / max_delay_taps /\ 0 <= res < MAX_READ_CYCLE_DELAY))).
Proof.
  intros Hmax HM. unfold find_read_preamble_cycle. wp_more.
  set (s0 := set_hw _ s).
  apply (runs_for_while (fun c eye s1 =>
           exists ps, answers "captured_preamble" (st_hw s1) =
                        answers "captured_preamble" (st_hw s0) ++ ps /\
                      preamble_inv max_delay_taps eye ps (c * max_delay_taps))).
  - exists []. split; [symmetry; apply app_nil_r|]. split; [reflexivity|].
    cbn. split; [reflexivity|constructor].
  - intros c eye s1 Hc _ (ps & Hans & Hinv). wp_more.
    apply (runs_for_acc (fun i eye1 s2 =>
             exists ps1, answers "captured_preamble" (st_hw s2) =
                           answers "captured_preamble" (st_hw s0) ++ ps1 /\
                         preamble_inv max_delay_taps eye1 ps1 (c * max_delay_taps + i)));
      [lia| | |].
    + exists ps. trace_simpl. split; [exact Hans|]. rewrite Z.add_0_r. exact Hinv.
    + intros i eye1 s2 Hi (ps1 & Hans1 & Hinv1). wp_more.
      set (p := env _ "captured_preamble" _). exists (ps1 ++ [p]).
      split; [trace_simpl; rewrite Hans1, app_assoc; reflexivity|].
      apply preamble_step_inv; [exact Hmax|lia|exact Hi|exact Hinv1].
    + intros eye1 s2 (ps1 & Hans1 & Hinv1). wp_more. exists ps1.
      split; [trace_simpl; exact Hans1|].
      replace ((c + 1) * max_delay_taps) with (c * max_delay_taps + max_delay_taps) by lia.
      exact Hinv1.
  - intros c eye s' Hc (ps & Hans & Hlen & Hinv) Hstop. wp_more. exists ps.
    split; [rewrite Hans; unfold s0; trace_simpl; reflexivity|].
    rewrite Z2Nat.id in Hc, Hstop by lia.
    destruct (decide (eye_state eye = BEFORE)) as [Hb|Hb].
    + rewrite bool_decide_eq_true_2 in Hinv by exact Hb. destruct Hinv as [Hstart Hall].
      left. split; [exact Hstart|]. split; [exact Hall|].
      assert (c = MAX_READ_CYCLE_DELAY) as ->; [|exact Hlen].
      destruct (Z.eq_dec c MAX_READ_CYCLE_DELAY) as [|Hne]; [assumption|].
      specialize (Hstop ltac:(lia)). rewrite Hb in Hstop.
      rewrite bool_decide_eq_false_2 in Hstop by discriminate. discriminate.
    + rewrite bool_decide_eq_false_2 in Hinv by exact Hb.
      destruct Hinv as (k & Hk & Hfirst & Hstart). right. exists k.
      split; [exact Hk|]. split; [exact Hfirst|]. split; [exact Hstart|].
      pose proof (lookup_lt_Some _ _ _ Hk) as Hklt. rewrite Hstart. split.
      * apply Z.div_pos; lia.
      * apply Z.div_lt_upper_bound; [lia|]. nia.
Qed.

End PreambleFacts.

Lemma find_read_preamble_cycle_first_witness :
  1 <= 4 /\ 0 <= 3 /\
  runs (find_read_preamble_cycle env_preamble_late 3 0 0 0 8 4) bench_state
    (fun res s' =>
       exists ps,
         answers "captured_preamble" (st_hw s') =
           answers "captured_preamble" (st_hw bench_state) ++ ps /\
         ((res = -1 /\ Forall (fun p => p <> 4) ps /\ Z.of_nat (length ps) = 3 * 4) \/
          (exists k : nat,
             ps !! k = Some 4 /\ (forall i, (i < k)%nat -> ps !! i <> Some 4) /\
             res = Z.of_nat k / 4 /\ 0 <= res < 3))).
Proof.
  assert (H1 : 1 <= 4) by lia. assert (H2 : 0 <= 3) by lia.
  split; [exact H1|]. split; [exact H2|].
  exact (find_read_preamble_cycle_first env_preamble_late 3 0 0 0 8 4 bench_state H1 H2).
Defined.

(** ** The data scan *)

Lemma data_step_inv base eye ws w :
  data_inv base eye ws ->
  data_inv base (data_step eye w (base + Z.of_nat (length ws))) (ws ++ [w]).
Proof.
  unfold data_inv, data_step. destruct (eye_state eye) eqn:Est.
  - intros Hall. rewrite bool_decide_eq_true_2 by reflexivity.
    rewrite (bool_decide_eq_false_2 (BEFORE = INSIDE)) by discriminate.
    rewrite andb_true_r, andb_false_r. destruct (Z.eqb_spec w 3) as [->|Hw].
    + cbn [eye_state eye_start]. exists (length ws). split; [reflexivity|]. split.
      * split; [rewrite lookup_app_r, Nat.sub_diag by lia; reflexivity|].
        intros j Hj. rewrite lookup_app_l by exact Hj. intros Hk.
        rewrite Forall_forall in Hall. apply (Hall 3); [|reflexivity].
        eapply list_elem_of_lookup_2. exact Hk.
      * intros j Hj. rewrite length_app in Hj. cbn [length] in Hj.
        assert (j = length ws) as -> by lia.
        rewrite lookup_app_r, Nat.sub_diag by lia. reflexivity.
    + rewrite Est. apply Forall_app. split; [exact Hall|]. apply Forall_singleton. exact Hw.
  - intros (k & Hstart & [Hk Hfirst] & Hrun).
    rewrite (bool_decide_eq_false_2 (INSIDE = BEFORE)) by discriminate.
    rewrite bool_decide_eq_true_2 by reflexivity. rewrite andb_false_r, andb_true_r.
    pose proof (lookup_lt_Some _ _ _ Hk) as Hklt.
    assert (Hfp : first_pass (ws ++ [w]) k).
    { split; [rewrite lookup_app_l by exact Hklt; exact Hk|].
      intros j Hj. rewrite lookup_app_l by lia. apply Hfirst. exact Hj. }
    destruct (Z.eqb_spec w 3) as [->|Hw]; cbn [negb].
    + rewrite Est. exists k. split; [exact Hstart|]. split; [exact Hfp|].
      intros j Hj. rewrite length_app in Hj. cbn [length] in Hj.
      destruct (decide (j < length ws)%nat) as [Hlt|Hge].
      * rewrite lookup_app_l by exact Hlt. apply Hrun. lia.
      * assert (j = length ws) as -> by lia.
        rewrite lookup_app_r, Nat.sub_diag by lia. reflexivity.
    + cbn [eye_state eye_start eye_end]. exists k, (length ws).
      split; [exact Hstart|]. split; [reflexivity|]. split; [exact Hklt|].
      split; [exact Hfp|]. split.
      * intros j Hj. rewrite lookup_app_l by lia. apply Hrun. lia.
      * exists w. split; [rewrite lookup_app_r, Nat.sub_diag by lia; reflexivity|exact Hw].
  - intros (k & e & Hstart & Hend & Hke & [Hk Hfirst] & Hrun & w0 & He & Hw0).
    rewrite (bool_decide_eq_false_2 (AFTER = BEFORE)) by discriminate.
    rewrite (bool_decide_eq_false_2 (AFTER = INSIDE)) by discriminate.
    rewrite !andb_false_r. rewrite Est.
    pose proof (lookup_lt_Some _ _ _ Hk) as Hklt.
    pose proof (lookup_lt_Some _ _ _ He) as Helt.
    exists k, e. split; [exact Hstart|]. split; [exact Hend|]. split; [exact Hke|].
    split.
    { split; [rewrite lookup_app_l by exact Hklt; exact Hk|].
      intros j Hj. rewrite lookup_app_l by lia. apply Hfirst. exact Hj. }
    split.
    { intros j Hj. rewrite lookup_app_l by lia. apply Hrun. exact Hj. }
    exists w0. split; [rewrite lookup_app_l by exact Helt; exact He|exact Hw0].
Qed.

Section DataScanFacts.

Variable env : env_t.
Variable MAX_READ_CYCLE_DELAY : Z.
Variable KEEP_GOING_ON_DRAM_ERROR : bool.

Lemma read_data_scan_eye_runs channel rank module width max pc s :
  1 <= max ->
  runs (read_data_scan_eye env MAX_READ_CYCLE_DELAY channel rank module width max pc) s
    (fun eye s' =>
       exists ws,
         printed "%d" (st_hw s') = printed "%d" (st_hw s) ++ ((fun w => [w]) <$> ws) /\
         data_inv (pc * max) eye ws /\
         (eye_state eye <> AFTER ->
          Z.of_nat (length ws) = Z.max 0 (MAX_READ_CYCLE_DELAY - pc) * max)).
Proof.
  intros Hmax. unfold read_data_scan_eye. wp_more.
  set (s0 := set_hw _ s).
  assert (P0 : printed "%d" (st_hw s0) = printed "%d" (st_hw s)) by (unfold s0; trace_simpl; reflexivity).
  assert (Hpre : runs (for_range 0 pc (fun _ => call_ env "rd_inc" [channel; module; width])) s0
                   (fun _ s1 => printed "%d" (st_hw s1) = printed "%d" (st_hw s))).
  { destruct (Z.le_gt_cases 0 pc) as [Hpc|Hpc].
    - apply (runs_for_range (fun _ s1 => printed "%d" (st_hw s1) = printed "%d" (st_hw s)));
        [exact Hpc|exact P0| |auto].
      intros i s1 _ H1. wp_more. trace_simpl. exact H1.
    - apply runs_for_range_empty; [lia|exact P0]. }
  eapply runs_conseq; [exact Hpre|]. clear Hpre. intros u s1 P1. cbv beta in P1 |- *. clear u.
  apply (runs_for_while (fun c eye s2 =>
           exists ws,
             printed "%d" (st_hw s2) = printed "%d" (st_hw s) ++ ((fun w => [w]) <$> ws) /\
             data_inv (pc * max) eye ws /\
             Z.of_nat (length ws) = (c - pc) * max)).
  - exists []. split; [rewrite app_nil_r; exact P1|]. split; [constructor|]. cbn. lia.
  - intros c eye s2 Hc _ (ws & Hpr & Hinv & Hlen). wp_more.
    apply (runs_for_acc (fun i eye1 s3 =>
             exists ws1,
               printed "%d" (st_hw s3) = printed "%d" (st_hw s) ++ ((fun w => [w]) <$> ws1) /\
               data_inv (pc * max) eye1 ws1 /\
               Z.of_nat (length ws1) = (c - pc) * max + i)); [lia| | |].
    + exists ws. trace_simpl. split; [exact Hpr|]. split; [exact Hinv|lia].
    + intros i eye1 s3 Hi (ws1 & Hpr1 & Hinv1 & Hlen1). apply runs_bind.
      eapply runs_conseq; [apply rd_check_runs|].
      intros res s4 (_ & F4 & _). cbv beta. wp_more.
      exists (ws1 ++ [res]). trace_simpl.
      rewrite (frame_printed _ _ _ _ F4), Hpr1, fmap_app, app_assoc.
      split; [reflexivity|]. split.
      * replace (c * max + i) with (pc * max + Z.of_nat (length ws1)) by lia.
        apply data_step_inv. exact Hinv1.
      * rewrite length_app. cbn [length]. lia.
    + intros eye1 s3 (ws1 & Hpr1 & Hinv1 & Hlen1). wp_more. exists ws1. trace_simpl.
      split; [exact Hpr1|]. split; [exact Hinv1|lia].
  - intros c eye s' Hc (ws & Hpr & Hinv & Hlen) Hstop. exists ws.
    split; [exact Hpr|]. split; [exact Hinv|]. intros Hna.
    assert (c = pc + Z.of_nat (Z.to_nat (MAX_READ_CYCLE_DELAY - pc))) as ->.
    { destruct (Z.eq_dec c (pc + Z.of_nat (Z.to_nat (MAX_READ_CYCLE_DELAY - pc))))
        as [|Hne]; [assumption|].
      specialize (Hstop ltac:(lia)). rewrite bool_decide_eq_false_2 in Hstop by exact Hna.
      discriminate. }
    rewrite Hlen. f_equal. lia.
Qed.

(** X12: for [max_delay_taps >= 1] and a preamble cycle of at least 1,
    [read_training_data_scan] checks the taps in order from one cycle before
    the preamble cycle.  It returns true with an eye found: the eye starts
    at the first tap whose check returned 3 and ends at the first later tap
    whose check did not, and the read cycle delay and the input delay are
    programmed to the middle of the eye, a tap whose check returned 3.
    Otherwise no eye was closed (no tap returned 3, or every tap from the
    first 3 on did, up to the last cycle) and it returns false, or true
    when [KEEP_GOING_ON_DRAM_ERROR] is defined. *)
Theorem read_training_data_scan_centre channel rank module width max preamble_cycle s :
  1 <= max -> 1 <= preamble_cycle ->
  let base := (preamble_cycle - 1) * max in
  let sel := [channel; module; width] in
  runs (read_training_data_scan env MAX_READ_CYCLE_DELAY KEEP_GOING_ON_DRAM_ERROR
          channel rank module width max preamble_cycle) s
    (fun ok s' =>
       exists ws,
         printed "%d" (st_hw s') = printed "%d" (st_hw s) ++ ((fun w => [w]) <$> ws) /\
         ((ok = true /\
           exists k e : nat,
             (k < e)%nat /\ first_pass ws k /\
             (forall j, (k <= j < e)%nat -> ws !! j = Some 3) /\
             (exists w, ws !! e = Some w /\ w <> 3) /\
             let middle := (k + (e - k) / 2)%nat in
             ws !! middle = Some 3 /\
             programmed_delay "rd_rst" "rd_inc" sel (st_hw s')
               = (base + Z.of_nat middle) / max /\
             programmed_delay "idly_rst" "idly_inc" sel (st_hw s')
               = (base + Z.of_nat middle) mod max) \/
          (ok = KEEP_GOING_ON_DRAM_ERROR /\
           Z.of_nat (length ws) = Z.max 0 (MAX_READ_CYCLE_DELAY - (preamble_cycle - 1)) * max /\
           (Forall (fun w => w <> 3) ws \/
            exists k : nat, first_pass ws k /\
                            forall j, (k <= j < length ws)%nat -> ws !! j = Some 3)))).
Proof.
  intros Hmax Hpc base sel. unfold read_training_data_scan. apply runs_bind.
  eapply runs_conseq; [apply read_data_scan_eye_runs; exact Hmax|].
  intros eye s1 (ws & Hpr & Hinv & Hlen). cbv beta. fold base in Hinv.
  unfold data_inv in Hinv. destruct (eye_state eye) eqn:Est.
  - rewrite bool_decide_eq_false_2 by discriminate. cbn [negb]. wp_more.
    exists ws. trace_simpl. split; [exact Hpr|]. right. split; [reflexivity|].
    split; [apply Hlen; discriminate|]. left. exact Hinv.
  - rewrite bool_decide_eq_false_2 by discriminate. cbn [negb]. wp_more.
    exists ws. trace_simpl. split; [exact Hpr|]. right. split; [reflexivity|].
    split; [apply Hlen; discriminate|]. right.
    destruct Hinv as (k & _ & Hfp & Hrun). exists k. split; assumption.
  - rewrite bool_decide_eq_true_2 by reflexivity. cbn [negb].
    destruct Hinv as (k & e & Hstart & Hend & Hke & Hfp & Hrun & Hclose).
    set (middle := (k + (e - k) / 2)%nat).
    assert (Hbase : 0 <= base) by (unfold base; nia).
    assert (Hcentre : eye_start eye + Z.quot (eye_end eye - eye_start eye) 2
                      = base + Z.of_nat middle).
    { rewrite Hstart, Hend. rewrite Z.quot_div_nonneg by lia. unfold middle.
      rewrite Nat2Z.inj_add, Nat2Z.inj_div, Nat2Z.inj_sub by lia.
      replace (base + Z.of_nat e - (base + Z.of_nat k)) with (Z.of_nat e - Z.of_nat k) by lia.
      change (Z.of_nat 2) with 2. lia. }
    rewrite Hcentre. set (centre := base + Z.of_nat middle) in *.
    assert (Hc0 : 0 <= centre) by (unfold centre; lia).
    rewrite Z.quot_div_nonneg, Z.rem_mod_nonneg by lia.
    pose proof (Z.div_pos centre max Hc0 ltac:(lia)) as Hq.
    pose proof (Z.mod_pos_bound centre max ltac:(lia)) as Hr.
    wp_more.
    apply (runs_incs env "rd_rst" "rd_inc" sel ["rd_inc"]);
      [discriminate|apply list_elem_of_here|].
    intros s2 Hp2 _ F2. wp_more.
    apply (runs_incs env "idly_rst" "idly_inc" sel ["idly_inc"]);
      [discriminate|apply list_elem_of_here|].
    intros s3 Hp3 _ F3. wp_more.
    exists ws. split.
    { rewrite (frame_printed _ _ _ _ F3). trace_simpl.
      rewrite (frame_printed _ _ _ _ F2). trace_simpl. exact Hpr. }
    left. split; [reflexivity|]. exists k, e. split; [exact Hke|]. split; [exact Hfp|].
    split; [exact Hrun|]. split; [exact Hclose|]. cbv zeta. fold middle. fold centre.
    split.
    { apply Hrun. unfold middle. split; [lia|].
      assert ((e - k) / 2 < e - k)%nat; [|lia].
      apply Nat.Div0.div_lt_upper_bound; lia. }
    split.
    + rewrite (frame_programmed "rd_rst" "rd_inc" sel ["idly_inc"] _ _
                 ltac:(name_out) ltac:(name_out) F3).
      cbn [st_hw set_hw]. rewrite programmed_delay_other by (intros; discriminate).
      rewrite Hp2. cbn [st_hw set_hw]. unfold sel. rewrite programmed_delay_rst. lia.
    + rewrite Hp3. cbn [st_hw set_hw]. unfold sel. rewrite programmed_delay_rst. lia.
Qed.

(** X10: [rd_cycle_dly_idly_check_if_works] returns 0, 1 or 3.  It makes
    the serial comparisons, 34 patterns of 16 reads, until one returns an
    even value, and then returns 0 without any LFSR comparison; after 544
    odd answers it makes the LFSR comparisons, 8 seeds of 16 reads, until
    one returns an even value, and then returns 1; it returns 3 exactly
    when all 544 serial and all 128 LFSR comparisons answered odd. *)
Theorem rd_cycle_dly_idly_check_if_works_result channel rank module width s :
  runs (rd_cycle_dly_idly_check_if_works env channel rank module width) s
    (fun res s' =>
       exists ss ls,
         answers "compare_serial" (st_hw s') = answers "compare_serial" (st_hw s) ++ ss /\
         answers "compare" (st_hw s') = answers "compare" (st_hw s) ++ ls /\
         ((res = 0 /\ block 544 ss 0 /\ ls = []) \/
          (res = 1 /\ block 544 ss 1 /\ block 128 ls 0) \/
          (res = 3 /\ block 544 ss 1 /\ block 128 ls 1))).
Proof.
  eapply runs_conseq; [apply rd_check_runs|].
  intros res s' (_ & _ & H). exact H.
Qed.

End DataScanFacts.

Lemma rank_read_training_every_module_witness :
  0 <= 2 /\
  runs (rank_read_training env_all_pass 0 0 2 8 4) bench_state
    (fun good s' =>
       (exists r tr, st_hw s' = Call "exit_rptm" [0; 0] r :: tr) /\
       calls "find_read_preamble_cycle" (st_hw s') = [[0; 0; 0; 8; 4]; [0; 0; 1; 8; 4]]).
Proof.
  assert (H : 0 <= 2) by lia. split; [exact H|].
  eapply runs_conseq;
    [exact (rank_read_training_every_module env_all_pass 0 0 2 8 4 bench_state H)|].
  intros good s' (Hlast & _ & _ & Hcalls & _). split; [exact Hlast|exact Hcalls].
Defined.

Lemma read_training_data_scan_centre_witness :
  1 <= 4 /\ 1 <= 1 /\
  runs (read_training_data_scan env_two_taps 3 false 0 0 0 8 4 1) bench_state
    (fun ok s' =>
       exists ws,
         printed "%d" (st_hw s') = printed "%d" (st_hw bench_state) ++ ((fun w => [w]) <$> ws) /\
         (ok = true \/ ok = false)).
Proof.
  assert (H1 : 1 <= 4) by lia. assert (H2 : 1 <= 1) by lia.
  split; [exact H1|]. split; [exact H2|].
  eapply runs_conseq;
    [exact (read_training_data_scan_centre env_two_taps 3 false 0 0 0 8 4 1 bench_state H1 H2)|].
  intros ok s' (ws & Hpr & [[Hok _]|[Hok _]]); exists ws; (split; [exact Hpr|]); auto.
Defined.

(** * The delay lines along the CS and CA scans *)

(** Events on one line keep the delay programmed on the others. *)
Lemma programmed_delay_on_line names rst inc line sel evs tr :
  sel <> line -> Forall (on_line names rst inc line) evs ->
  programmed_delay rst inc sel (evs ++ tr) = programmed_delay rst inc sel tr.
Proof.
  intros Hne. induction 1 as [|e evs [_ He] _ IH]; [reflexivity|].
  destruct e as [name args r|f args]; cbn [app programmed_delay]; [|exact IH].
  rewrite bool_decide_eq_false_2 by (intros [-> ->]; apply Hne, He; auto).
  rewrite bool_decide_eq_false_2 by (intros [-> ->]; apply Hne, He; auto).
  exact IH.
Qed.

Lemma frame_on_line names rst inc line sel s s' :
  sel <> line -> frame (on_line names rst inc line) s s' ->
  programmed_delay rst inc sel (st_hw s') = programmed_delay rst inc sel (st_hw s).
Proof. intros Hne [_ _ (evs & -> & F)]. eapply programmed_delay_on_line; eauto. Qed.

Lemma on_line_call_of names rst inc line e : on_line names rst inc line e -> call_of names e.
Proof. intros [H _]. exact H. Qed.

(** A call of a scan is on its line. *)
Ltac line_in :=
  split; [name_in|
          let H := fresh in
          intros [H|H]; first [discriminate H | reflexivity]].

Lemma recorded_refl name args s : recorded name args 0 s s.
Proof.
  split; [lia|]. exists []. split; [reflexivity|].
  split; [symmetry; apply app_nil_r|]. split; [symmetry; apply app_nil_r|].
  intros i. destruct (cursor s <=? i) eqn:E1; cbn [andb]; [|reflexivity].
  destruct (i <? cursor s + 0) eqn:E2; [lia|reflexivity].
Qed.

Lemma recorded_then name args n m s s1 s2 :
  0 <= n -> 0 <= m ->
  recorded name args n s s1 -> recorded name args m s1 s2 ->
  recorded name args (n + m) s s2.
Proof.
  intros Hn Hm (C1 & xs & L1 & A1 & K1 & S1) (C2 & ys & L2 & A2 & K2 & S2).
  split; [lia|]. exists (xs ++ ys). rewrite length_app.
  split; [lia|]. split; [rewrite A2, A1, app_assoc; reflexivity|].
  split.
  { rewrite K2, K1, <- app_assoc, Z2Nat.inj_add, replicate_add by lia. reflexivity. }
  intros i. rewrite S2, S1, C1.
  destruct (Z.leb_spec (cursor s + n) i), (Z.ltb_spec i (cursor s + n + m)),
    (Z.leb_spec (cursor s) i), (Z.ltb_spec i (cursor s + n)),
    (Z.ltb_spec i (cursor s + (n + m))); cbn [andb]; try lia; try reflexivity.
  - f_equal. rewrite lookup_total_app_r by lia. f_equal. lia.
  - f_equal. rewrite lookup_total_app_l by lia. reflexivity.
Qed.

Section ScanLines.

Variable env : env_t.

(** One tap of a CA sweep. *)
Lemma CA_tap_recorded channel rank address shift_back s :
  0 <= cursor s < buffer_size s ->
  runs (works ← call env "ca.check" [channel; rank; address; shift_back];
        set_helper_arr_value_and_advance works;;
        call_ env "ca.inc_dly" [channel; rank; address]) s
    (fun _ s' =>
       recorded "ca.check" [channel; rank; address; shift_back] 1 s s' /\
       st_ctx s' = st_ctx s /\
       frame (ca_line channel rank address) s s' /\
       programmed_delay "ca.rst_dly" "ca.inc_dly" [channel; rank; address] (st_hw s')
         = 1 + programmed_delay "ca.rst_dly" "ca.inc_dly" [channel; rank; address] (st_hw s)).
Proof.
  intros Hit. apply runs_bind, runs_call.
  set (c := env _ _ _). unfold set_helper_arr_value_and_advance.
  apply runs_bind. eapply runs_lift_helper.
  { apply advance_Some. exact Hit. }
  apply runs_call_. split; [|split; [reflexivity|split]].
  - split; [reflexivity|]. exists [c]. split; [reflexivity|].
    cbn [st_hw set_hw set_helper]. trace_simpl.
    split; [reflexivity|]. split; [reflexivity|].
    intros i. unfold Eye.sample. cbn [st_helper set_helper set_hw Eye.helper_arr].
    rewrite sample_insert_eq by exact Hit. fold (cursor s).
    destruct (Z.eqb_spec i (cursor s)) as [->|Hne].
    + rewrite Z.leb_refl. destruct (Z.ltb_spec (cursor s) (cursor s + 1)); [|lia].
      cbn [andb]. rewrite Z.sub_diag. reflexivity.
    + destruct (Z.leb_spec (cursor s) i), (Z.ltb_spec i (cursor s + 1));
        cbn [andb]; try lia; reflexivity.
  - apply frame_push_event; [line_in|].
    apply frame_push_helper; [cbn; apply length_insert|].
    apply frame_event. line_in.
  - cbn [st_hw set_hw set_helper]. rewrite programmed_delay_inc by discriminate.
    reflexivity.
Qed.

Lemma CA_scan_single_line channel rank address shift_back s :
  0 <= cursor s -> 0 <= max_delay_taps (st_ctx s) ->
  cursor s + max_delay_taps (st_ctx s) <= buffer_size s ->
  runs (CA_scan_single env channel rank address shift_back) s
    (fun _ s' =>
       recorded "ca.check" [channel; rank; address; shift_back]
         (max_delay_taps (st_ctx s)) s s' /\
       st_ctx s' = st_ctx s /\
       frame (ca_line channel rank address) s s' /\
       programmed_delay "ca.rst_dly" "ca.inc_dly" [channel; rank; address] (st_hw s') = 0).
Proof.
  intros Hit Hmax Hcap. unfold CA_scan_single.
  set (args := [channel; rank; address; shift_back]).
  apply runs_bind, runs_get_ctx. apply runs_bind, runs_call_. apply runs_bind.
  match goal with |- runs _ ?s0 _ => set (s0' := s0) end.
  assert (F0 : frame (ca_line channel rank address) s s0').
  { apply frame_event. line_in. }
  assert (R0 : recorded "ca.check" args 0 s s0').
  { destruct (recorded_refl "ca.check" args s) as (C & xs & L & A & K & S).
    split; [exact C|]. exists xs. subst s0'. trace_simpl. auto. }
  assert (X0 : st_ctx s0' = st_ctx s) by reflexivity.
  clearbody s0'.
  apply (runs_for_range (fun i s1 => recorded "ca.check" args i s s1 /\
                                     st_ctx s1 = st_ctx s /\
                                     frame (ca_line channel rank address) s s1));
    [exact Hmax|auto| |].
  - intros i s1 Hi (R1 & X1 & F1). eapply runs_conseq.
    + apply CA_tap_recorded. rewrite (frame_size _ _ _ F1). destruct R1 as [C1 _]. lia.
    + intros _ s2 (R2 & X2 & F2 & _). cbv beta.
      split; [eapply recorded_then; [lia|lia|exact R1|exact R2]|].
      split; [congruence|]. eapply frame_trans; eassumption.
  - intros s1 (R1 & X1 & F1). apply runs_call_.
    split; [|split; [exact X1|split]].
    + destruct R1 as (C & xs & L & A & K & S). split; [exact C|]. exists xs.
      trace_simpl. auto.
    + apply frame_push_event; [line_in|exact F1].
    + apply programmed_delay_rst.
Qed.

Lemma CA_scan_line channel rank address s :
  0 <= max_delay_taps (st_ctx s) ->
  2 * max_delay_taps (st_ctx s) <= buffer_size s ->
  runs (CA_scan env channel rank address) s
    (fun _ s' =>
       let max := max_delay_taps (st_ctx s) in
       cursor s' = 2 * max /\
       st_ctx s' = st_ctx s /\
       frame (ca_line channel rank address) s s' /\
       programmed_delay "ca.rst_dly" "ca.inc_dly" [channel; rank; address] (st_hw s') = 0 /\
       exists xs,
         Z.of_nat (length xs) = 2 * max /\
         answers "ca.check" (st_hw s') = answers "ca.check" (st_hw s) ++ xs /\
         calls "ca.check" (st_hw s')
           = calls "ca.check" (st_hw s)
               ++ replicate (Z.to_nat max) [channel; rank; address; 1]
               ++ replicate (Z.to_nat max) [channel; rank; address; 0] /\
         forall i, 0 <= i < 2 * max ->
           Eye.sample (st_helper s') i = wrap_i32 (xs !!! Z.to_nat i)).
Proof.
  intros Hmax Hcap. unfold CA_scan.
  apply runs_bind, runs_clear_helper_arr.
  apply runs_bind, runs_call_. apply runs_bind, runs_call_.
  match goal with |- runs _ ?s0 _ => set (s0' := s0) end.
  assert (F0 : frame (ca_line channel rank address) s s0').
  { subst s0'. apply frame_push_event; [line_in|]. apply frame_push_event; [line_in|].
    apply frame_clear. }
  assert (C0 : cursor s0' = 0) by reflexivity.
  assert (X0 : st_ctx s0' = st_ctx s) by reflexivity.
  assert (A0 : answers "ca.check" (st_hw s0') = answers "ca.check" (st_hw s)).
  { subst s0'. trace_simpl. reflexivity. }
  assert (K0 : calls "ca.check" (st_hw s0') = calls "ca.check" (st_hw s)).
  { subst s0'. trace_simpl. reflexivity. }
  clearbody s0'.
  apply runs_bind. eapply runs_conseq.
  { apply CA_scan_single_line; rewrite ?X0, ?C0, ?(frame_size _ _ _ F0); lia. }
  intros _ s1 (R1 & X1 & F1 & _). rewrite X0 in R1.
  apply runs_bind. eapply runs_conseq.
  { apply CA_scan_single_line; destruct R1 as [C1 _];
      rewrite ?X1, ?X0, ?C1, ?C0, ?(frame_size _ _ _ F1), ?(frame_size _ _ _ F0); lia. }
  intros _ s2 (R2 & X2 & F2 & P2). rewrite X1, X0 in R2.
  apply runs_call_. cbv zeta.
  destruct R1 as (C1 & xs & L1 & A1 & K1 & S1), R2 as (C2 & ys & L2 & A2 & K2 & S2).
  rewrite C0 in *. rewrite C1 in *.
  split; [unfold cursor in *; cbn; lia|]. split; [cbn; congruence|].
  split.
  { apply frame_push_event; [line_in|]. eapply frame_trans; [exact F0|].
    eapply frame_trans; eassumption. }
  split.
  { cbn [st_hw set_hw]. rewrite programmed_delay_other by (intros; discriminate). exact P2. }
  exists (xs ++ ys). rewrite length_app. split; [lia|]. trace_simpl.
  split; [rewrite A2, A1, A0, app_assoc; reflexivity|].
  split; [rewrite K2, K1, K0, <- app_assoc; reflexivity|].
  intros i Hi. cbn [st_helper set_hw]. rewrite S2, S1.
  destruct (Z.leb_spec (0 + max_delay_taps (st_ctx s)) i),
    (Z.ltb_spec i (0 + max_delay_taps (st_ctx s) + max_delay_taps (st_ctx s)));
    cbn [andb]; try lia.
  - f_equal. rewrite lookup_total_app_r by lia. f_equal. lia.
  - destruct (Z.leb_spec 0 i), (Z.ltb_spec i (0 + max_delay_taps (st_ctx s)));
      cbn [andb]; try lia.
    f_equal. rewrite lookup_total_app_l by lia. f_equal. lia.
Qed.

(** One tap of a CS sweep. *)
Lemma CS_scan_single_tap_line channel rank shift s :
  0 <= cursor s < buffer_size s ->
  runs (CS_scan_single_tap env channel rank shift) s
    (fun _ s' => cursor s' = cursor s + 1 /\ st_ctx s' = st_ctx s /\
                 frame (cs_line channel rank) s s').
Proof.
  intros Hit. unfold runs. rewrite CS_scan_single_tap_run, advance_Some by exact Hit.
  eexists tt, _. split; [reflexivity|]. split; [reflexivity|]. split; [reflexivity|].
  split; cbn [st_helper st_ctx st_hw Eye.helper_arr].
  - apply length_insert.
  - exists (fun m => m). symmetry. apply set_cs_invert_id.
  - destruct (bool_decide (training_type (st_ctx s) ≠ HOST_RCD)).
    + eexists [_; _; _]. split; [reflexivity|].
      repeat (constructor; [line_in|]). constructor.
    + eexists [_; _]. split; [reflexivity|].
      repeat (constructor; [line_in|]). constructor.
Qed.

Lemma CS_scan_single_line channel rank shift s :
  0 <= cursor s -> 0 <= max_delay_taps (st_ctx s) ->
  cursor s + max_delay_taps (st_ctx s) <= buffer_size s ->
  runs (CS_scan_single env channel rank shift) s
    (fun _ s' => cursor s' = cursor s + max_delay_taps (st_ctx s) /\
                 st_ctx s' = st_ctx s /\
                 frame (cs_line channel rank) s s' /\
                 programmed_delay "cs.rst_dly" "cs.inc_dly" [channel; rank; 0] (st_hw s') = 0).
Proof.
  intros Hit Hmax Hcap. unfold CS_scan_single.
  apply runs_bind, runs_get_ctx. apply runs_bind.
  apply (runs_for_range (fun i s1 => cursor s1 = cursor s + i /\ st_ctx s1 = st_ctx s /\
                                     frame (cs_line channel rank) s s1));
    [exact Hmax|split; [lia|split; [reflexivity|apply frame_refl]]| |].
  - intros i s1 Hi (Hc & Hx & Hf). eapply runs_conseq.
    + apply CS_scan_single_tap_line. rewrite (frame_size _ _ _ Hf). lia.
    + intros _ s2 (Hc2 & Hx2 & Hf2). split; [lia|]. split; [congruence|].
      eapply frame_trans; eassumption.
  - intros s1 (Hc & Hx & Hf). apply runs_call_. split; [exact Hc|]. split; [exact Hx|].
    split; [apply frame_push_event; [line_in|exact Hf]|]. apply programmed_delay_rst.
Qed.

(** What a CS scan leaves behind: the buffer is full, the delay line of
    the rank is reset, and the context is as before but for the stored
    polarity of the channel. *)
Lemma CS_two_sweeps_line channel rank shift1 shift2 s0 s (b : bool)
    (Q : bool -> state -> Prop) :
  1 <= max_delay_taps (st_ctx s0) ->
  2 * max_delay_taps (st_ctx s0) <= buffer_size s0 ->
  frame (cs_line channel rank) s0 s -> cursor s = 0 ->
  (forall s', cursor s' = 2 * max_delay_taps (st_ctx s0) ->
              st_ctx s' = st_ctx s ->
              frame (cs_line channel rank) s0 s' ->
              programmed_delay "cs.rst_dly" "cs.inc_dly" [channel; rank; 0] (st_hw s') = 0 ->
              Q b s') ->
  runs (CS_scan_single env channel rank shift1 ;;
        CS_scan_single env channel rank shift2 ;; mret b) s Q.
Proof.
  intros Hmax Hcap F C HQ.
  destruct (frame_config _ _ _ F) as (_ & _ & _ & _ & Hm & _).
  apply runs_bind. eapply runs_conseq.
  { apply CS_scan_single_line; rewrite ?Hm, ?C, ?(frame_size _ _ _ F); lia. }
  intros _ s1 (C1 & X1 & F1 & _). cbv beta.
  apply runs_bind. eapply runs_conseq.
  { apply CS_scan_single_line;
      rewrite ?X1, ?Hm, ?C1, ?C, ?(frame_size _ _ _ F1), ?(frame_size _ _ _ F); lia. }
  intros _ s2 (C2 & X2 & F2 & P2). cbv beta. apply runs_ret. apply HQ.
  - rewrite C2, C1, C, X1, Hm. lia.
  - congruence.
  - eapply frame_trans; [exact F|]. eapply frame_trans; eassumption.
  - exact P2.
Qed.

Lemma CS_scan_line channel rank s :
  1 <= max_delay_taps (st_ctx s) ->
  2 * max_delay_taps (st_ctx s) <= buffer_size s ->
  runs (CS_scan env channel rank) s
    (fun _ s' =>
       cursor s' = 2 * max_delay_taps (st_ctx s) /\
       frame (cs_line channel rank) s s' /\
       programmed_delay "cs.rst_dly" "cs.inc_dly" [channel; rank; 0] (st_hw s') = 0 /\
       (st_ctx s' = st_ctx s \/
        training_type (st_ctx s) = HOST_RCD /\
        st_ctx s' = set_cs_invert <[channel := 1]> (st_ctx s))).
Proof.
  intros Hmax Hcap. unfold CS_scan. wp.
  set (keeps := fun s' : state =>
         st_ctx s' = st_ctx s \/
         training_type (st_ctx s) = HOST_RCD /\
         st_ctx s' = set_cs_invert <[channel := 1]> (st_ctx s)).
  match goal with |- runs _ ?s0 _ => set (s0' := s0) end.
  assert (F0 : frame (cs_line channel rank) s s0').
  { subst s0'. apply frame_push_event; [line_in|]. apply frame_push_event; [line_in|].
    apply frame_push_statics. apply frame_clear. }
  assert (C0 : cursor s0' = 0) by reflexivity.
  assert (X0 : st_ctx s0' = st_ctx s) by reflexivity.
  clearbody s0'.
  eapply runs_conseq.
  { apply CS_scan_single_line; rewrite ?X0, ?C0, ?(frame_size _ _ _ F0); lia. }
  intros _ s1 (C1 & X1 & F1 & P1). cbv beta. rewrite C0, X0 in C1. rewrite X0 in X1.
  assert (F01 : frame (cs_line channel rank) s s1) by (eapply frame_trans; eassumption).
  clear F0 F1 C0 X0 s0'.
  (* the polarity change *)
  apply runs_bind.
  apply (runs_conseq _ _ (fun _ s2 =>
           cursor s2 = max_delay_taps (st_ctx s) /\
           frame (cs_line channel rank) s s2 /\
           programmed_delay "cs.rst_dly" "cs.inc_dly" [channel; rank; 0] (st_hw s2) = 0 /\
           keeps s2)).
  { assert (Hsame : cursor s1 = max_delay_taps (st_ctx s) /\
                    frame (cs_line channel rank) s s1 /\
                    programmed_delay "cs.rst_dly" "cs.inc_dly" [channel; rank; 0] (st_hw s1) = 0 /\
                    keeps s1).
    { split; [lia|]. split; [exact F01|]. split; [exact P1|]. left. exact X1. }
    destruct (bool_decide_reflect (training_type (st_ctx s) = HOST_RCD)) as [Hrcd|_];
      [|wp; exact Hsame].
    apply runs_bind. apply runs_one_in; [lia|rewrite (frame_size _ _ _ F01); lia|].
    intros one _. destruct (one =? -1); [|wp; exact Hsame].
    apply runs_bind. apply runs_one_stride; [lia|rewrite (frame_size _ _ _ F01); lia|].
    intros stride. destruct (stride <? _); [|wp; exact Hsame].
    unfold clear_cs_sets. wp.
    match goal with |- runs _ ?s0 _ => set (s0' := s0) end.
    assert (F0 : frame (cs_line channel rank) s s0').
    { subst s0'. apply frame_push_statics.
      apply frame_push_helper; [cbn; apply length_replicate|].
      apply frame_push_invert. exact F01. }
    assert (C0 : cursor s0' = 0) by reflexivity.
    assert (X0 : st_ctx s0' = set_cs_invert <[channel := 1]> (st_ctx s)).
    { subst s0'. cbn. rewrite X1. reflexivity. }
    destruct (frame_config _ _ _ F0) as (_ & _ & _ & _ & Hm & _).
    clearbody s0'. eapply runs_conseq.
    { apply CS_scan_single_line; rewrite ?Hm, ?C0, ?(frame_size _ _ _ F0); lia. }
    intros _ s2 (C2 & X2 & F2 & P2). cbv beta. wp. split; [lia|].
    split; [eapply frame_trans; eassumption|]. split; [exact P2|].
    right. split; [exact Hrcd|congruence]. }
  intros shift s2 (C2 & F2 & P2 & K2). cbv beta.
  destruct (frame_config _ _ _ F2) as (_ & _ & _ & _ & Hm2 & _).
  apply runs_bind. apply runs_one_in; [lia|rewrite (frame_size _ _ _ F2); lia|].
  intros one Hone. apply runs_bind.
  apply (runs_conseq _ _ (fun _ s3 =>
           cursor s3 = 2 * max_delay_taps (st_ctx s) /\
           frame (cs_line channel rank) s s3 /\
           programmed_delay "cs.rst_dly" "cs.inc_dly" [channel; rank; 0] (st_hw s3) = 0 /\
           keeps s3)).
  { destruct (Z.eqb_spec one (-1)) as [_|Hn1].
    { apply runs_bind, runs_clear_helper_arr.
      eapply CS_two_sweeps_line; [exact Hmax|exact Hcap| |reflexivity|].
      - apply frame_push_helper; [cbn; apply length_replicate|exact F2].
      - intros s3 C3 X3 F3 P3. split; [exact C3|]. split; [exact F3|]. split; [exact P3|].
        unfold keeps in *. rewrite X3. exact K2. }
    destruct (Z.eqb_spec one 1) as [_|Hn2].
    { apply runs_bind. eapply runs_conseq.
      { apply CS_scan_single_line; rewrite ?Hm2, ?C2, ?(frame_size _ _ _ F2); lia. }
      intros _ s3 (C3 & X3 & F3 & P3). cbv beta. wp. split; [lia|].
      split; [eapply frame_trans; eassumption|]. split; [exact P3|].
      unfold keeps in *. rewrite X3. exact K2. }
    destruct (Z.eqb_spec one 0) as [_|Hn3]; [|lia].
    unfold clear_cs_sets. apply runs_bind, runs_clear_helper_arr.
    apply runs_bind, runs_modify.
    eapply CS_two_sweeps_line; [exact Hmax|exact Hcap| |reflexivity|].
    - apply frame_push_statics. apply frame_push_helper; [cbn; apply length_replicate|exact F2].
    - intros s3 C3 X3 F3 P3. split; [exact C3|]. split; [exact F3|]. split; [exact P3|].
      unfold keeps in *. rewrite X3. exact K2. }
  intros subtract s3 (C3 & F3 & P3 & K3). cbv beta. wp. split; [exact C3|].
  split; [apply frame_push_event; [line_in|exact F3]|].
  split; [|exact K3].
  cbn [st_hw set_hw]. rewrite programmed_delay_other by (intros; discriminate). exact P3.
Qed.

End ScanLines.

(** ** The rescan programs the final delays *)

Lemma cs_line_scan channel rank e : cs_line channel rank e -> call_of scan_names e.
Proof. intros [H _]. apply call_of_cs_scan. exact H. Qed.

Lemma ca_line_scan channel rank address e :
  ca_line channel rank address e -> call_of scan_names e.
Proof. intros [H _]. apply call_of_ca_scan. exact H. Qed.

(** A scan of one line keeps the delays of the lines of the other kind. *)
Lemma cs_line_keeps_ca channel rank sel s s' :
  frame (cs_line channel rank) s s' ->
  programmed_delay "ca.rst_dly" "ca.inc_dly" sel (st_hw s')
    = programmed_delay "ca.rst_dly" "ca.inc_dly" sel (st_hw s).
Proof.
  intros F. apply (frame_programmed _ _ _ cs_names); [name_out|name_out|].
  eapply frame_weaken; [|exact F]. intros e [H _]. exact H.
Qed.

Lemma ca_line_keeps_cs channel rank address sel s s' :
  frame (ca_line channel rank address) s s' ->
  programmed_delay "cs.rst_dly" "cs.inc_dly" sel (st_hw s')
    = programmed_delay "cs.rst_dly" "cs.inc_dly" sel (st_hw s).
Proof.
  intros F. apply (frame_programmed _ _ _ ca_names); [name_out|name_out|].
  eapply frame_weaken; [|exact F]. intros e [H _]. exact H.
Qed.

Section Rescan.

Variable env : env_t.

(** [n] increments of the delay line [line]. *)
Lemma runs_incs_line names rst inc line n s (Q : unit -> state -> Prop) :
  rst <> inc -> inc ∈ names ->
  (forall s', programmed_delay rst inc line (st_hw s')
                = programmed_delay rst inc line (st_hw s) + Z.max 0 n ->
              st_ctx s' = st_ctx s ->
              frame (on_line names rst inc line) s s' -> Q tt s') ->
  runs (for_range 0 n (fun _ => call_ env inc line)) s Q.
Proof.
  intros Hne Hin HQ. destruct (Z.le_gt_cases 0 n) as [Hn|Hn].
  - apply (runs_for_range
      (fun i s1 => programmed_delay rst inc line (st_hw s1)
                     = programmed_delay rst inc line (st_hw s) + i /\
                   st_ctx s1 = st_ctx s /\
                   frame (on_line names rst inc line) s s1)); [exact Hn| | |].
    + split; [lia|]. split; [reflexivity|apply frame_refl].
    + intros i s1 Hi (Hp & Hc & Hf). apply runs_call_. split; [|split].
      * cbn [st_hw set_hw]. rewrite programmed_delay_inc by exact Hne. lia.
      * exact Hc.
      * apply frame_push_event; [|exact Hf]. split; [exact Hin|]. intros _. reflexivity.
    + intros s' (Hp & Hc & Hf). apply HQ; [lia|exact Hc|exact Hf].
  - apply runs_for_range_empty; [lia|]. apply HQ; [lia|reflexivity|apply frame_refl].
Qed.

(** One rank of the CS loop of [CS_CA_rescan]. *)
Lemma rescan_cs_rank channel rank s :
  1 <= max_delay_taps (st_ctx s) ->
  2 * max_delay_taps (st_ctx s) <= buffer_size s ->
  runs (CS_scan env channel rank;;
        call_ env "cs.rst_dly" [channel; rank; 0];;
        c ← get_ctx;
        for_range 0 (rd (cs_final_delays c) (channel, rank)) (fun _ =>
          call_ env "cs.inc_dly" [channel; rank; 0])) s
    (fun _ s' =>
       frame (cs_line channel rank) s s' /\
       programmed_delay "cs.rst_dly" "cs.inc_dly" [channel; rank; 0] (st_hw s')
         = Z.max 0 (rd (cs_final_delays (st_ctx s)) (channel, rank))).
Proof.
  intros Hmax Hcap. apply runs_bind.
  eapply runs_conseq; [apply CS_scan_line; assumption|].
  intros b s1 (_ & F1 & _ & _). cbv beta. wp.
  destruct (frame_delays _ _ _ F1) as (_ & Hfin & _ & _).
  cbn [st_ctx set_hw]. rewrite Hfin.
  apply (runs_incs_line cs_names "cs.rst_dly" "cs.inc_dly"); [discriminate|name_in|].
  intros s2 P2 _ F2. cbn [st_hw set_hw] in P2. rewrite programmed_delay_rst in P2.
  split; [|lia].
  eapply frame_trans; [|exact F2]. apply frame_push_event; [line_in|exact F1].
Qed.

(** One line of the CA loops of [CS_CA_rescan]. *)
Lemma rescan_ca_line channel rank address s :
  0 <= max_delay_taps (st_ctx s) ->
  2 * max_delay_taps (st_ctx s) <= buffer_size s ->
  runs (CA_scan env channel rank address;;
        call_ env "ca.rst_dly" [channel; rank; address];;
        c ← get_ctx;
        for_range 0 (rd (ca_final_delays c) (channel, address)) (fun _ =>
          call_ env "ca.inc_dly" [channel; rank; address])) s
    (fun _ s' =>
       frame (ca_line channel rank address) s s' /\
       programmed_delay "ca.rst_dly" "ca.inc_dly" [channel; rank; address] (st_hw s')
         = Z.max 0 (rd (ca_final_delays (st_ctx s)) (channel, address))).
Proof.
  intros Hmax Hcap. apply runs_bind.
  eapply runs_conseq; [apply CA_scan_line; assumption|].
  intros b s1 (_ & X1 & F1 & _). cbv beta. wp.
  cbn [st_ctx set_hw]. rewrite X1.
  apply (runs_incs_line ca_names "ca.rst_dly" "ca.inc_dly"); [discriminate|name_in|].
  intros s2 P2 _ F2. cbn [st_hw set_hw] in P2. rewrite programmed_delay_rst in P2.
  split; [|lia].
  eapply frame_trans; [|exact F2]. apply frame_push_event; [line_in|exact F1].
Qed.

Lemma rescan_inv_cs s lo c r s1 s2 :
  0 <= r -> lo <= c ->
  rescan_inv s lo c r 0 0 s1 ->
  frame (cs_line c r) s1 s2 ->
  programmed_delay "cs.rst_dly" "cs.inc_dly" [c; r; 0] (st_hw s2)
    = Z.max 0 (rd (cs_final_delays (st_ctx s1)) (c, r)) ->
  rescan_inv s lo c (r + 1) 0 0 s2.
Proof.
  intros Hr Hc (F & Hcs & Hca) F2 P2.
  destruct (frame_delays _ _ _ F) as (_ & Hfin & _ & _).
  split; [|split].
  - eapply frame_trans; [exact F|]. eapply frame_weaken; [apply cs_line_scan|exact F2].
  - intros c' r' Hr' Hc' Hd.
    destruct (decide (c' = c /\ r' = r)) as [[-> ->]|Hne].
    + rewrite P2, Hfin. reflexivity.
    + assert (Hsel : [c'; r'; 0] <> [c; r; 0]) by (intros [= -> ->]; apply Hne; auto).
      rewrite (frame_on_line _ _ _ _ _ _ _ Hsel F2).
      apply Hcs; [exact Hr'|exact Hc'|lia].
  - intros c' r' a' Hr' Ha' Hs Hc' Hd. rewrite (cs_line_keeps_ca _ _ _ _ _ F2).
    apply Hca; assumption.
Qed.

Lemma rescan_inv_ca s lo c r a s1 s2 :
  0 <= r -> 0 <= a -> lo <= c ->
  rescan_inv s lo c (ranks (st_ctx s)) r a s1 ->
  frame (ca_line c r a) s1 s2 ->
  programmed_delay "ca.rst_dly" "ca.inc_dly" [c; r; a] (st_hw s2)
    = Z.max 0 (rd (ca_final_delays (st_ctx s1)) (c, a)) ->
  rescan_inv s lo c (ranks (st_ctx s)) r (a + 1) s2.
Proof.
  intros Hr Ha Hc (F & Hcs & Hca) F2 P2.
  destruct (frame_delays _ _ _ F) as (_ & _ & _ & Hfin).
  split; [|split].
  - eapply frame_trans; [exact F|]. eapply frame_weaken; [apply ca_line_scan|exact F2].
  - intros c' r' Hr' Hc' Hd. rewrite (ca_line_keeps_cs _ _ _ _ _ _ F2).
    apply Hcs; assumption.
  - intros c' r' a' Hr' Ha' Hs Hc' Hd.
    destruct (decide (c' = c /\ r' = r /\ a' = a)) as [(-> & -> & ->)|Hne].
    + rewrite P2, Hfin. reflexivity.
    + assert (Hsel : [c'; r'; a'] <> [c; r; a]) by (intros [= -> -> ->]; apply Hne; auto).
      rewrite (frame_on_line _ _ _ _ _ _ _ Hsel F2).
      apply Hca; [exact Hr'|exact Ha'|exact Hs|exact Hc'|lia].
Qed.

(** Moving the position of the loops on. *)
Lemma rescan_inv_move s lo c r_cs r_ca a c2 r_cs2 r_ca2 a2 s1 :
  (forall c' r', 0 <= r' < ranks (st_ctx s) -> lo <= c' ->
     c' < c2 \/ c' = c2 /\ r' < r_cs2 -> c' < c \/ c' = c /\ r' < r_cs) ->
  (forall c' r' a', 0 <= r' < ranks (st_ctx s) -> 0 <= a' < ca_line_count (st_ctx s) ->
     ~ ca_rank_skipped (st_ctx s) r' -> lo <= c' ->
     c' < c2 \/ c' = c2 /\ (r' < r_ca2 \/ r' = r_ca2 /\ a' < a2) ->
     c' < c \/ c' = c /\ (r' < r_ca \/ r' = r_ca /\ a' < a)) ->
  rescan_inv s lo c r_cs r_ca a s1 -> rescan_inv s lo c2 r_cs2 r_ca2 a2 s1.
Proof.
  intros H1 H2 (F & Hcs & Hca). split; [exact F|]. split.
  - intros c' r' Hr' Hc' Hd. apply Hcs; auto.
  - intros c' r' a' Hr' Ha' Hs Hc' Hd. apply Hca; auto.
Qed.

Lemma CS_CA_rescan_inv ckdly channel s :
  1 <= max_delay_taps (st_ctx s) ->
  2 * max_delay_taps (st_ctx s) <= buffer_size s ->
  0 <= ranks (st_ctx s) -> 0 <= ca_line_count (st_ctx s) ->
  fst (channel_span (st_ctx s) channel) <= snd (channel_span (st_ctx s) channel) ->
  runs (CS_CA_rescan env ckdly channel) s
    (fun _ s' => rescan_inv s (fst (channel_span (st_ctx s) channel))
                   (snd (channel_span (st_ctx s) channel)) 0 0 0 s').
Proof.
  intros Hmax Hcap Hranks Hlines Hspan. unfold CS_CA_rescan. wp.
  destruct (channel_span (st_ctx s) channel) as [lo hi]. cbn [fst snd] in *.
  assert (Hkeep : forall c r_cs r_ca a s1, rescan_inv s lo c r_cs r_ca a s1 ->
            1 <= max_delay_taps (st_ctx s1) /\
            2 * max_delay_taps (st_ctx s1) <= buffer_size s1).
  { intros c r_cs r_ca a s1 (F & _). destruct (frame_config _ _ _ F) as (_ & _ & _ & _ & Hm & _).
    rewrite Hm, (frame_size _ _ _ F). auto. }
  apply (runs_for_range (fun c s1 => rescan_inv s lo c 0 0 0 s1)); [exact Hspan| | |auto].
  { split; [apply frame_refl|]. split; intros; lia. }
  intros c s1 Hc I1. apply runs_bind.
  apply (runs_for_range (fun r s2 => rescan_inv s lo c r 0 0 s2)); [exact Hranks|exact I1| |].
  { intros r s2 Hr I2. destruct (Hkeep _ _ _ _ _ I2) as [Hm2 Hc2].
    eapply runs_conseq; [apply rescan_cs_rank; assumption|].
    intros _ s3 [F3 P3]. cbv beta. eapply rescan_inv_cs; eauto; lia. }
  intros s2 I2.
  apply (runs_for_range (fun r s3 => rescan_inv s lo c (ranks (st_ctx s)) r 0 s3));
    [exact Hranks|exact I2| |].
  2:{ intros s3 I3. revert I3. apply rescan_inv_move; intros; lia. }
  intros r s3 Hr I3.
  destruct (bool_decide_reflect (training_type (st_ctx s) = HOST_RCD)) as [Hrcd|Hrcd];
    cbn [andb].
  - destruct (Z.eqb_spec r 1) as [Hr1|Hr1].
    + wp. revert I3. apply rescan_inv_move; [intros; lia|].
      intros c' r' a' Hr' Ha' Hs Hc' Hd.
      assert (r' <> r) by (intros ->; apply Hs; split; assumption). lia.
    + apply (runs_for_range (fun a s4 => rescan_inv s lo c (ranks (st_ctx s)) r a s4));
        [exact Hlines|exact I3| |].
      2:{ intros s4 I4. revert I4. apply rescan_inv_move; intros; lia. }
      intros a s4 Ha I4. destruct (Hkeep _ _ _ _ _ I4) as [Hm4 Hc4].
      eapply runs_conseq; [apply rescan_ca_line; [lia|assumption]|].
      intros _ s5 [F5 P5]. cbv beta. eapply rescan_inv_ca; eauto; lia.
  - apply (runs_for_range (fun a s4 => rescan_inv s lo c (ranks (st_ctx s)) r a s4));
      [exact Hlines|exact I3| |].
    2:{ intros s4 I4. revert I4. apply rescan_inv_move; intros; lia. }
    intros a s4 Ha I4. destruct (Hkeep _ _ _ _ _ I4) as [Hm4 Hc4].
    eapply runs_conseq; [apply rescan_ca_line; [lia|assumption]|].
    intros _ s5 [F5 P5]. cbv beta. eapply rescan_inv_ca; eauto; lia.
Qed.

End Rescan.

Section ScanTheorems.

Variable env : env_t.

(** X13: a CA scan of one address line stores in the buffer, in order, what
    its [2 * max_delay_taps] checks answered, the sweep with the shifted
    command first; it leaves the delay line of the address at no delay and
    every other CS and CA delay line as programmed before, and it keeps the
    training context. *)
Theorem CA_scan_records_answers channel rank address s :
  0 <= max_delay_taps (st_ctx s) ->
  2 * max_delay_taps (st_ctx s) <= buffer_size s ->
  runs (CA_scan env channel rank address) s
    (fun _ s' =>
       let max := max_delay_taps (st_ctx s) in
       st_ctx s' = st_ctx s /\
       (exists xs,
          Z.of_nat (length xs) = 2 * max /\
          answers "ca.check" (st_hw s') = answers "ca.check" (st_hw s) ++ xs /\
          calls "ca.check" (st_hw s')
            = calls "ca.check" (st_hw s)
                ++ replicate (Z.to_nat max) [channel; rank; address; 1]
                ++ replicate (Z.to_nat max) [channel; rank; address; 0] /\
          forall i, 0 <= i < 2 * max ->
            Eye.sample (st_helper s') i = wrap_i32 (xs !!! Z.to_nat i)) /\
       programmed_delay "ca.rst_dly" "ca.inc_dly" [channel; rank; address] (st_hw s') = 0 /\
       (forall sel, sel <> [channel; rank; address] ->
          programmed_delay "ca.rst_dly" "ca.inc_dly" sel (st_hw s')
            = programmed_delay "ca.rst_dly" "ca.inc_dly" sel (st_hw s)) /\
       (forall sel,
          programmed_delay "cs.rst_dly" "cs.inc_dly" sel (st_hw s')
            = programmed_delay "cs.rst_dly" "cs.inc_dly" sel (st_hw s))).
Proof.
  intros Hmax Hcap. eapply runs_conseq; [apply CA_scan_line; assumption|].
  intros _ s' (_ & X & F & P & Hxs). cbv zeta.
  split; [exact X|]. split; [exact Hxs|]. split; [exact P|]. split.
  - intros sel Hsel. exact (frame_on_line _ _ _ _ _ _ _ Hsel F).
  - intros sel. exact (ca_line_keeps_cs _ _ _ _ _ _ F).
Qed.

(** X14: a CS scan of one rank leaves the CS delay line of the rank at no
    delay and every other CS and CA delay line as programmed before.  Of
    the training context it changes nothing, except that with the host
    training an RCD it may set the stored polarity of the channel to 1. *)
Theorem CS_scan_leaves_line_reset channel rank s :
  1 <= max_delay_taps (st_ctx s) ->
  2 * max_delay_taps (st_ctx s) <= buffer_size s ->
  runs (CS_scan env channel rank) s
    (fun _ s' =>
       programmed_delay "cs.rst_dly" "cs.inc_dly" [channel; rank; 0] (st_hw s') = 0 /\
       (forall sel, sel <> [channel; rank; 0] ->
          programmed_delay "cs.rst_dly" "cs.inc_dly" sel (st_hw s')
            = programmed_delay "cs.rst_dly" "cs.inc_dly" sel (st_hw s)) /\
       (forall sel,
          programmed_delay "ca.rst_dly" "ca.inc_dly" sel (st_hw s')
            = programmed_delay "ca.rst_dly" "ca.inc_dly" sel (st_hw s)) /\
       (training_type (st_ctx s) <> HOST_RCD -> st_ctx s' = st_ctx s) /\
       (st_ctx s' = st_ctx s \/
        st_ctx s' = set_cs_invert <[channel := 1]> (st_ctx s))).
Proof.
  intros Hmax Hcap. eapply runs_conseq; [apply CS_scan_line; assumption|].
  intros _ s' (_ & F & P & K). cbv beta.
  split; [exact P|]. split; [|split; [|split]].
  - intros sel Hsel. exact (frame_on_line _ _ _ _ _ _ _ Hsel F).
  - intros sel. exact (cs_line_keeps_ca _ _ _ _ _ F).
  - intros Hne. destruct K as [K|[Hrcd _]]; [exact K|contradiction].
  - destruct K as [K|[_ K]]; auto.
Qed.

(** X15: when [CS_CA_rescan] returns, every CS delay line of the channels
    at hand carries the final delay stored for its rank, and every CA delay
    line of every rank scanned (all but rank 1 behind an RCD) the final
    delay stored for its address, a negative final delay counting as none;
    the stored final delays are as before. *)
Theorem CS_CA_rescan_programs_final_delays ckdly channel s :
  let ctx := st_ctx s in
  let lo := fst (channel_span ctx channel) in
  let hi := snd (channel_span ctx channel) in
  1 <= max_delay_taps ctx -> 2 * max_delay_taps ctx <= buffer_size s ->
  0 <= ranks ctx -> 0 <= ca_line_count ctx -> lo <= hi ->
  runs (CS_CA_rescan env ckdly channel) s
    (fun _ s' =>
       cs_final_delays (st_ctx s') = cs_final_delays ctx /\
       ca_final_delays (st_ctx s') = ca_final_delays ctx /\
       (forall c r, lo <= c < hi -> 0 <= r < ranks ctx ->
          programmed_delay "cs.rst_dly" "cs.inc_dly" [c; r; 0] (st_hw s')
            = Z.max 0 (rd (cs_final_delays ctx) (c, r))) /\
       (forall c r a, lo <= c < hi -> 0 <= r < ranks ctx -> 0 <= a < ca_line_count ctx ->
          ~ ca_rank_skipped ctx r ->
          programmed_delay "ca.rst_dly" "ca.inc_dly" [c; r; a] (st_hw s')
            = Z.max 0 (rd (ca_final_delays ctx) (c, a)))).
Proof.
  intros ctx lo hi Hmax Hcap Hranks Hlines Hspan.
  eapply runs_conseq; [apply CS_CA_rescan_inv; assumption|].
  intros _ s' (F & Hcs & Hca). cbv beta. fold ctx lo hi in Hcs, Hca.
  destruct (frame_delays _ _ _ F) as (_ & Hf1 & _ & Hf2).
  split; [exact Hf1|]. split; [exact Hf2|]. split.
  - intros c r Hc Hr. apply Hcs; [exact Hr|lia|lia].
  - intros c r a Hc Hr Ha Hs. apply Hca; [exact Hr|exact Ha|exact Hs|lia|lia].
Qed.

(** X16: when [CK_CS_CA_finalize_timings] returns, the delay lines carry
    the final delays it stored: every CS line of the channels at hand the
    final delay of its rank, every CA line of every rank rescanned the final
    delay of its address (a negative final delay counting as none). *)
Theorem CK_CS_CA_finalize_timings_programs channel s :
  let ctx := st_ctx s in
  let lo := fst (channel_span ctx channel) in
  let hi := snd (channel_span ctx channel) in
  1 <= max_delay_taps ctx -> 2 * max_delay_taps ctx <= buffer_size s ->
  0 <= ranks ctx -> 0 <= ca_line_count ctx -> lo <= hi ->
  runs (CK_CS_CA_finalize_timings env channel) s
    (fun _ s' =>
       (forall c r, lo <= c < hi -> 0 <= r < ranks ctx ->
          programmed_delay "cs.rst_dly" "cs.inc_dly" [c; r; 0] (st_hw s')
            = Z.max 0 (rd (cs_final_delays (st_ctx s')) (c, r))) /\
       (forall c r a, lo <= c < hi -> 0 <= r < ranks ctx -> 0 <= a < ca_line_count ctx ->
          ~ ca_rank_skipped ctx r ->
          programmed_delay "ca.rst_dly" "ca.inc_dly" [c; r; a] (st_hw s')
            = Z.max 0 (rd (ca_final_delays (st_ctx s')) (c, a)))).
Proof.
  intros ctx lo hi Hmax Hcap Hranks Hlines Hspan.
  unfold CK_CS_CA_finalize_timings. wp. fold ctx.
  eapply runs_conseq; [apply CS_CA_calculate_midpoints_runs; assumption|].
  intros [mn mx] s1 (Hhw1 & Hhe1 & Hcfg1 & _). cbv beta. wp.
  apply (runs_incs env "ck.rst_dly" "ck.inc_dly" _ ["ck.inc_dly"]);
    [discriminate|apply list_elem_of_here|].
  intros s2 _ Hctx2 F2. cbn [st_hw st_ctx set_hw] in Hctx2. wp.
  match goal with |- runs _ ?st _ => set (s2' := st) end.
  assert (Hctx2' : st_ctx s2' = st_ctx s1) by exact Hctx2.
  assert (Hsz2 : buffer_size s2' = buffer_size s).
  { unfold s2', buffer_size. cbn [st_helper set_hw].
    destruct F2 as [Hl _ _]. cbn [st_helper set_hw] in Hl. rewrite Hl, Hhe1. reflexivity. }
  destruct (config_fields _ _ Hcfg1) as (Hch & Hrk & Hmx & Htt & Hlc).
  assert (Hspan2 : channel_span (st_ctx s2') channel = channel_span ctx channel).
  { unfold channel_span. rewrite Hctx2', Hch. reflexivity. }
  clearbody s2'.
  eapply runs_conseq.
  { apply CS_CA_set_adjusted_delays_runs; rewrite ?Hspan2, ?Hctx2', ?Hrk, ?Hlc; assumption. }
  intros _ s3 (_ & Hsz3 & Hcfg3 & _). cbv beta.
  destruct (config_fields _ _ Hcfg3) as (Hch3 & Hrk3 & Hmx3 & Htt3 & Hlc3).
  assert (E3 : channels (st_ctx s3) = channels ctx /\
               ranks (st_ctx s3) = ranks ctx /\
               max_delay_taps (st_ctx s3) = max_delay_taps ctx /\
               training_type (st_ctx s3) = training_type ctx /\
               ca_line_count (st_ctx s3) = ca_line_count ctx /\
               buffer_size s3 = buffer_size s).
  { unfold ctx. repeat split; congruence. }
  destruct E3 as (Ech & Erk & Emx & Ett & Elc & Esz).
  assert (Hspan3 : channel_span (st_ctx s3) channel = channel_span ctx channel).
  { unfold channel_span. rewrite Ech. reflexivity. }
  eapply runs_conseq.
  { apply CS_CA_rescan_inv; rewrite ?Hspan3, ?Erk, ?Emx, ?Elc, ?Esz; assumption. }
  intros u4 s4 (F4 & Hcs & Hca). cbv beta.
  rewrite Hspan3, Erk in Hcs. rewrite Hspan3, Erk, Elc in Hca. fold lo hi in Hcs, Hca.
  destruct (frame_delays _ _ _ F4) as (_ & Hcsf & _ & Hcaf). rewrite Hcsf, Hcaf.
  split.
  - intros c r Hc Hr. apply Hcs; [exact Hr|lia|lia].
  - intros c r a Hc Hr Ha Hs. apply Hca; [exact Hr|exact Ha| |lia|lia].
    intros [H1 H2]. apply Hs. split; [congruence|exact H2].
Qed.

End ScanTheorems.

Lemma CA_scan_records_answers_witness :
  0 <= max_delay_taps (st_ctx bench_state) /\
  2 * max_delay_taps (st_ctx bench_state) <= buffer_size bench_state /\
  runs (CA_scan env_all_pass 0 0 3) bench_state
    (fun _ s' => programmed_delay "ca.rst_dly" "ca.inc_dly" [0; 0; 3] (st_hw s') = 0).
Proof.
  assert (H1 : 0 <= max_delay_taps (st_ctx bench_state)) by (cbn; lia).
  assert (H2 : 2 * max_delay_taps (st_ctx bench_state) <= buffer_size bench_state)
    by (vm_compute; discriminate).
  split; [exact H1|]. split; [exact H2|].
  eapply runs_conseq; [exact (CA_scan_records_answers env_all_pass 0 0 3 bench_state H1 H2)|].
  intros _ s' (_ & _ & P & _). exact P.
Defined.

Lemma CS_scan_leaves_line_reset_witness :
  1 <= max_delay_taps (st_ctx bench_state) /\
  2 * max_delay_taps (st_ctx bench_state) <= buffer_size bench_state /\
  runs (CS_scan env_all_pass 0 0) bench_state (fun _ s' => st_ctx s' = bench_ctx).
Proof.
  assert (H1 : 1 <= max_delay_taps (st_ctx bench_state)) by (cbn; lia).
  assert (H2 : 2 * max_delay_taps (st_ctx bench_state) <= buffer_size bench_state)
    by (vm_compute; discriminate).
  split; [exact H1|]. split; [exact H2|].
  eapply runs_conseq; [exact (CS_scan_leaves_line_reset env_all_pass 0 0 bench_state H1 H2)|].
  intros _ s' (_ & _ & _ & K & _). apply K. discriminate.
Defined.

Lemma CS_CA_rescan_programs_final_delays_witness :
  1 <= max_delay_taps (st_ctx trained_state) /\
  2 * max_delay_taps (st_ctx trained_state) <= buffer_size trained_state /\
  runs (CS_CA_rescan env_all_pass 0 0) trained_state
    (fun _ s' => programmed_delay "ca.rst_dly" "ca.inc_dly" [0; 0; 1] (st_hw s') = 0).
Proof.
  assert (H1 : 1 <= max_delay_taps (st_ctx trained_state)) by (cbn; lia).
  assert (H2 : 2 * max_delay_taps (st_ctx trained_state) <= buffer_size trained_state)
    by (vm_compute; discriminate).
  split; [exact H1|]. split; [exact H2|].
  eapply runs_conseq.
  { apply (CS_CA_rescan_programs_final_delays env_all_pass 0 0 trained_state H1 H2);
      vm_compute; discriminate. }
  intros _ s' (_ & _ & _ & Hca). cbv beta.
  rewrite (Hca 0 0 1); [reflexivity|cbn; lia|cbn; lia|cbn; lia|].
  intros [H _]. discriminate H.
Defined.

Lemma CK_CS_CA_finalize_timings_programs_witness :
  1 <= max_delay_taps (st_ctx trained_state) /\
  2 * max_delay_taps (st_ctx trained_state) <= buffer_size trained_state /\
  runs (CK_CS_CA_finalize_timings env_all_pass 0) trained_state
    (fun _ s' =>
       programmed_delay "cs.rst_dly" "cs.inc_dly" [0; 0; 0] (st_hw s')
         = Z.max 0 (rd (cs_final_delays (st_ctx s')) (0, 0))).
Proof.
  assert (H1 : 1 <= max_delay_taps (st_ctx trained_state)) by (cbn; lia).
  assert (H2 : 2 * max_delay_taps (st_ctx trained_state) <= buffer_size trained_state)
    by (vm_compute; discriminate).
  split; [exact H1|]. split; [exact H2|].
  eapply runs_conseq.
  { apply (CK_CS_CA_finalize_timings_programs env_all_pass 0 trained_state H1 H2);
      vm_compute; discriminate. }
  intros _ s' (Hcs & _). cbv beta. apply Hcs; cbn; lia.
Defined.

(** * Procedures that only add to the trace *)

Lemma set_hw_nil s : set_hw (app []) s = s.
Proof. destruct s. reflexivity. Qed.

Lemma set_hw_app evs evs' s : set_hw (app evs') (set_hw (app evs) s) = set_hw (app (evs' ++ evs)) s.
Proof. destruct s. unfold set_hw. cbn. rewrite app_assoc. reflexivity. Qed.

Section Emits.

Variable ok : event -> Prop.

Lemma emits_ret {A} (a : A) : emits ok (mret a : M A).
Proof. intros s. exists a, []. rewrite set_hw_nil. split; [reflexivity|constructor]. Qed.

Lemma emits_bind {A B} (m : M A) (f : A -> M B) :
  emits ok m -> (forall a, emits ok (f a)) -> emits ok (m ≫= f).
Proof.
  intros Hm Hf s. destruct (Hm s) as (a & evs & Em & Fm).
  destruct (Hf a (set_hw (app evs) s)) as (b & evs' & Ef & Ff).
  exists b, (evs' ++ evs). split.
  - unfold mbind, M_bind. rewrite Em, Ef, set_hw_app. reflexivity.
  - apply Forall_app. auto.
Qed.

Lemma emits_get : emits ok get.
Proof. intros s. exists s, []. rewrite set_hw_nil. split; [reflexivity|constructor]. Qed.

Lemma emits_get_ctx : emits ok get_ctx.
Proof. intros s. exists (st_ctx s), []. rewrite set_hw_nil. split; [reflexivity|constructor]. Qed.

Lemma emits_printf fmt args : ok (Print fmt args) -> emits ok (printf fmt args).
Proof.
  intros Hok s. exists tt, [Print fmt args]. split; [reflexivity|].
  apply Forall_singleton. exact Hok.
Qed.

Lemma emits_call env name args :
  (forall r, ok (Call name args r)) -> emits ok (call env name args).
Proof.
  intros Hok s. exists (env (st_hw s) name args), [Call name args (env (st_hw s) name args)].
  split; [reflexivity|]. apply Forall_singleton. apply Hok.
Qed.

Lemma emits_call_ env name args :
  (forall r, ok (Call name args r)) -> emits ok (call_ env name args).
Proof.
  intros Hok. unfold call_. apply emits_bind; [apply emits_call; exact Hok|].
  intros _. apply emits_ret.
Qed.

Lemma emits_for_loop n i body :
  (forall i, emits ok (body i)) -> emits ok (for_loop n i body).
Proof.
  intros Hb. revert i. induction n as [|n IH]; intros i; cbn [for_loop].
  - apply emits_ret.
  - apply emits_bind; [apply Hb|]. intros _. apply IH.
Qed.

Lemma emits_for_range lo hi body :
  (forall i, emits ok (body i)) -> emits ok (for_range lo hi body).
Proof. apply emits_for_loop. Qed.

Lemma emits_for_while {S : Type} n i (cond : S -> bool) body (acc : S) :
  (forall i acc, emits ok (body i acc)) -> emits ok (for_while n i cond body acc).
Proof.
  intros Hb. revert i acc. induction n as [|n IH]; intros i acc; cbn [for_while].
  - apply emits_ret.
  - destruct (cond acc); [|apply emits_ret].
    apply emits_bind; [apply Hb|]. intros acc'. apply IH.
Qed.

End Emits.

Lemma emits_weaken {A} (ok ok' : event -> Prop) (m : M A) :
  (forall e, ok e -> ok' e) -> emits ok m -> emits ok' m.
Proof.
  intros Himp Hm s. destruct (Hm s) as (a & evs & E & F). exists a, evs.
  split; [exact E|]. eapply Forall_impl; [exact F|exact Himp].
Qed.

(** What a run of such a procedure is. *)
Lemma runs_emits {A} ok (m : M A) s (Q : A -> state -> Prop) :
  emits ok m ->
  (forall a s', m s = Some (a, s') -> st_ctx s' = st_ctx s -> adds ok s s' ->
                frame ok s s' -> Q a s') ->
  runs m s Q.
Proof.
  intros Hm HQ. destruct (Hm s) as (a & evs & E & F). exists a, (set_hw (app evs) s).
  split; [exact E|]. apply HQ; [exact E|reflexivity| |].
  - exists evs. split; [reflexivity|exact F].
  - split; [reflexivity|exists (fun f => f); symmetry; apply set_cs_invert_id|].
    exists evs. split; [reflexivity|exact F].
Qed.

(** Goes through a procedure made of calls and prints. *)
Ltac emits_step :=
  lazymatch goal with
  | |- emits _ (mbind _ _) => apply emits_bind; [|intros ?]
  | |- emits _ (let _ := _ in _) => cbv zeta
  | |- emits _ (mret _) => apply emits_ret
  | |- emits _ get_ctx => apply emits_get_ctx
  | |- emits _ get => apply emits_get
  | |- emits _ (call_ _ _ _) => apply emits_call_; intros ?
  | |- emits _ (call _ _ _) => apply emits_call; intros ?
  | |- emits _ (printf _ _) => apply emits_printf
  | |- emits _ (for_range _ _ _) => apply emits_for_range; intros ?
  | |- emits _ (for_while _ _ _ _ _) => apply emits_for_while; intros ? ?
  | |- emits _ (if ?b then _ else _) => destruct b
  | |- emits _ (match ?p with (_, _) => _ end) => destruct p
  end.

Ltac in_list := repeat first [apply list_elem_of_here | apply list_elem_of_further].

(** * The cycle alignments of write leveling *)

Lemma passes_snoc xs c : passes (xs ++ [c]) = passes xs && Z.odd c.
Proof. unfold passes. rewrite forallb_app. cbn. rewrite andb_true_r. reflexivity. Qed.

Lemma land_b2z_odd (b : bool) c : Z.land (Z.b2z b) c = Z.b2z (b && Z.odd c).
Proof. destruct b; [apply land_1_odd|reflexivity]. Qed.

Lemma wltm_step_inside eye works start :
  eye_state eye = INSIDE -> wltm_step eye works start = eye.
Proof.
  intros H. unfold wltm_step. rewrite (bool_decide_eq_false_2 (eye_state eye = BEFORE))
    by (rewrite H; discriminate).
  rewrite andb_false_r. reflexivity.
Qed.

Section WriteLevelFacts.

Variable env : env_t.
Variable SDRAM_PHY_CWL : Z.
Variable SDRAM_PHY_MIN_WR_LATENCY : Z.
Variable MAX_WRITE_CYCLE_DELAY : Z.

(** The sixteen checks of one cycle, all of them made. *)
Lemma wr_dqs_checks_run channel rank module width s :
  runs (for_acc 0 16 (fun _ works =>
          temp ← call env "wr_dqs_check_if_works" [channel; rank; module; width];
          printf "%d" [temp];;
          mret (Z.land works temp)) 1) s
    (fun works s' =>
       exists xs, length xs = 16%nat /\
         answers "wr_dqs_check_if_works" (st_hw s')
           = answers "wr_dqs_check_if_works" (st_hw s) ++ xs /\
         works = Z.b2z (passes xs) /\
         forall sel, programmed_delay "wr_dqs_rst" "wr_dqs_inc" sel (st_hw s')
                     = programmed_delay "wr_dqs_rst" "wr_dqs_inc" sel (st_hw s)).
Proof.
  apply (runs_for_acc (fun i works s1 =>
           exists xs, Z.of_nat (length xs) = i /\
             answers "wr_dqs_check_if_works" (st_hw s1)
               = answers "wr_dqs_check_if_works" (st_hw s) ++ xs /\
             works = Z.b2z (passes xs) /\
             forall sel, programmed_delay "wr_dqs_rst" "wr_dqs_inc" sel (st_hw s1)
                         = programmed_delay "wr_dqs_rst" "wr_dqs_inc" sel (st_hw s)));
    [lia| | |].
  - exists []. split; [reflexivity|]. split; [symmetry; apply app_nil_r|].
    split; [reflexivity|]. reflexivity.
  - intros i works s1 Hi (xs & Hl & Ha & Hw & Hp). wp_more.
    set (c := env _ _ _). exists (xs ++ [c]). rewrite length_app. cbn [length].
    split; [lia|]. trace_simpl. split; [rewrite Ha, app_assoc; reflexivity|].
    split; [rewrite Hw, passes_snoc; apply land_b2z_odd|].
    intros sel. rewrite <- Hp. reflexivity.
  - intros works s' (xs & Hl & Ha & Hw & Hp). exists xs.
    split; [lia|]. auto.
Qed.

(** X17: [wltm_align_external_cycle] tries the write strobe cycles one by
    one from [max 0 (SDRAM_PHY_CWL / 2 - SDRAM_PHY_MIN_WR_LATENCY)], making
    all sixteen checks of each.  It returns the first cycle below
    [MAX_WRITE_CYCLE_DELAY] whose sixteen checks all pass, or -1 when it
    has come to [MAX_WRITE_CYCLE_DELAY] without one; the strobe is left one
    cycle past the last cycle tried. *)
Theorem wltm_align_external_cycle_first channel rank module width s :
  let first := Z.max 0 (Z.quot SDRAM_PHY_CWL 2 - SDRAM_PHY_MIN_WR_LATENCY) in
  runs (wltm_align_external_cycle env SDRAM_PHY_CWL SDRAM_PHY_MIN_WR_LATENCY
          MAX_WRITE_CYCLE_DELAY channel rank module width) s
    (fun res s' =>
       exists xss,
         answers "wr_dqs_check_if_works" (st_hw s')
           = answers "wr_dqs_check_if_works" (st_hw s) ++ concat xss /\
         Forall (fun xs => length xs = 16%nat) xss /\
         programmed_delay "wr_dqs_rst" "wr_dqs_inc" [channel; module; width] (st_hw s')
           = first + Z.of_nat (length xss) /\
         ((res = -1 /\ Forall (fun xs => passes xs = false) xss /\
           Z.of_nat (length xss) = Z.max 0 (MAX_WRITE_CYCLE_DELAY - first)) \/
          (exists xss0 xs,
             xss = xss0 ++ [xs] /\ Forall (fun xs => passes xs = false) xss0 /\
             passes xs = true /\
             res = first + Z.of_nat (length xss0) /\ res < MAX_WRITE_CYCLE_DELAY))).
Proof.
  intros first. unfold wltm_align_external_cycle. fold first. wp_more.
  apply (runs_incs env "wr_dqs_rst" "wr_dqs_inc" _ ["wr_dqs_inc"]);
    [discriminate|apply list_elem_of_here|].
  intros s1 P1 _ F1. cbn [st_hw set_hw] in P1. rewrite programmed_delay_rst in P1.
  assert (A1 : answers "wr_dqs_check_if_works" (st_hw s1)
               = answers "wr_dqs_check_if_works" (st_hw s)).
  { rewrite (frame_answers "wr_dqs_check_if_works" ["wr_dqs_inc"] _ _ ltac:(name_out) F1).
    trace_simpl. reflexivity. }
  fold first in P1. clear F1.
  apply runs_bind.
  apply (runs_for_while (fun k eye s2 =>
           exists xss,
             answers "wr_dqs_check_if_works" (st_hw s2)
               = answers "wr_dqs_check_if_works" (st_hw s) ++ concat xss /\
             Forall (fun xs => length xs = 16%nat) xss /\
             Z.of_nat (length xss) = k - first /\
             programmed_delay "wr_dqs_rst" "wr_dqs_inc" [channel; module; width] (st_hw s2) = k /\
             if bool_decide (eye_state eye = INSIDE)
             then exists xss0 xs,
                    xss = xss0 ++ [xs] /\ Forall (fun xs => passes xs = false) xss0 /\
                    passes xs = true /\ eye_start eye = k - 1
             else eye = DEFAULT_EYE /\ Forall (fun xs => passes xs = false) xss)).
  - exists []. split; [rewrite A1; symmetry; apply app_nil_r|].
    split; [constructor|]. split; [cbn; lia|]. split; [lia|].
    cbn. split; [reflexivity|constructor].
  - intros k eye s2 Hk Hcond (xss & Ha & Hl16 & Hlen & Hp & Heye).
    apply negb_true_iff in Hcond. rewrite Hcond in Heye. destruct Heye as [-> Hfail].
    wp_more. eapply runs_conseq; [apply wr_dqs_checks_run|].
    intros works s3 (xs & Hl & Ha3 & Hw & Hp3). cbv beta. wp_more.
    exists (xss ++ [xs]). trace_simpl.
    split; [rewrite Ha3; cbn [st_hw set_hw]; trace_simpl;
            rewrite Ha, concat_app, app_assoc; cbn; rewrite app_nil_r; reflexivity|].
    split; [apply Forall_app; split; [exact Hl16|repeat constructor; exact Hl]|].
    split; [rewrite length_app; cbn; lia|].
    split.
    { rewrite programmed_delay_inc by discriminate.
      rewrite programmed_delay_other by (intros; discriminate).
      rewrite Hp3. cbn [st_hw set_hw].
      rewrite programmed_delay_other by (intros; discriminate). lia. }
    unfold wltm_step. subst works. cbn [eye_state DEFAULT_EYE].
    rewrite (bool_decide_eq_true_2 (BEFORE = BEFORE)) by reflexivity.
    rewrite andb_true_r. destruct (passes xs) eqn:Hpass; cbn.
    + exists xss, xs. split; [reflexivity|]. split; [exact Hfail|].
      split; [exact Hpass|lia].
    + split; [reflexivity|]. apply Forall_app. split; [exact Hfail|].
      repeat constructor. exact Hpass.
  - intros k eye s' Hk (xss & Ha & Hl16 & Hlen & Hp & Heye) Hstop. wp_more.
    exists xss. split; [exact Ha|]. split; [exact Hl16|]. split; [lia|].
    destruct (bool_decide_reflect (eye_state eye = INSIDE)) as [Hin|Hout].
    + right. destruct Heye as (xss0 & xs & -> & Hfail & Hpass & Hstart).
      exists xss0, xs. rewrite length_app in Hlen. cbn in Hlen.
      split; [reflexivity|]. split; [exact Hfail|]. split; [exact Hpass|]. lia.
    + left. destruct Heye as [-> Hfail]. split; [reflexivity|]. split; [exact Hfail|].
      destruct (Z.lt_ge_cases k (first + Z.of_nat (Z.to_nat (MAX_WRITE_CYCLE_DELAY - first))))
        as [Hlt|Hge]; [specialize (Hstop Hlt); discriminate|]. lia.
Qed.

(** The checks of one WICA value, which stop at the first that fails. *)
Lemma wica_checks_run channel rank module width s :
  runs (for_while 16 0 truthy (fun _ works =>
          c ← call env "wr_dqs_check_if_works" [channel; rank; module; width];
          mret (Z.land works c)) 1) s
    (fun works s' =>
       frame (call_of ["wr_dqs_check_if_works"]) s s' /\
       exists xs,
         answers "wr_dqs_check_if_works" (st_hw s')
           = answers "wr_dqs_check_if_works" (st_hw s) ++ xs /\
         block 16 xs works).
Proof.
  apply (block_loop (frame (call_of ["wr_dqs_check_if_works"])) "wr_dqs_check_if_works" 1 16);
    [apply frame_refl|apply frame_trans|].
  intros i s1 _. wp_more. rewrite land_1_odd. set (c := env _ _ _). split.
  - apply frame_call. apply list_elem_of_here.
  - exists [c]. split; [trace_simpl; reflexivity|apply block_one].
Qed.

(** X18: [wltm_align_internal_cycle] enables the internal write timing in
    MR2, then writes the WICA values 0, 1, ... to MR3 in turn and checks
    each up to sixteen times, giving a value up at its first failed check.
    It stops at the first value whose sixteen checks pass, and after the
    value 6 at the latest: when no value passes it returns as well, with
    WICA 6 in MR3 and the internal write timing enabled. *)
Theorem wltm_align_internal_cycle_first single_cycle_MPC channel rank module width s :
  runs (wltm_align_internal_cycle env single_cycle_MPC channel rank module width) s
    (fun res s' =>
       res = 128 /\
       exists xss0 xs w,
         let n0 := Z.of_nat (length xss0) in
         Forall (fun xs => block 16 xs 0) xss0 /\ block 16 xs w /\
         n0 < 7 /\ (w = 1 \/ n0 = 6) /\
         answers "wr_dqs_check_if_works" (st_hw s')
           = answers "wr_dqs_check_if_works" (st_hw s) ++ concat xss0 ++ xs /\
         printed "WICA:%d,%d|" (st_hw s')
           = printed "WICA:%d,%d|" (st_hw s)
               ++ map (fun j => [j; 0]) (seqZ 0 n0) ++ [[n0; w]] /\
         calls "send_mrw" (st_hw s')
           = calls "send_mrw" (st_hw s)
               ++ [channel; rank; module; 2; Z.lor 130 single_cycle_MPC]
                  :: map (fun j => [channel; rank; module; 3; j]) (seqZ 0 (n0 + 1))).
Proof.
  unfold wltm_align_internal_cycle. wp_more.
  match goal with |- runs _ ?s0 _ => set (s0' := s0) end.
  set (mr2 := [channel; rank; module; 2; Z.lor 130 single_cycle_MPC]).
  set (mr3 := fun j : Z => [channel; rank; module; 3; j]).
  set (line := fun j : Z => [j; 0]).
  assert (A0 : answers "wr_dqs_check_if_works" (st_hw s0')
               = answers "wr_dqs_check_if_works" (st_hw s)).
  { subst s0'. trace_simpl. reflexivity. }
  assert (P0 : printed "WICA:%d,%d|" (st_hw s0') = printed "WICA:%d,%d|" (st_hw s)).
  { subst s0'. trace_simpl. reflexivity. }
  assert (K0 : calls "send_mrw" (st_hw s0') = calls "send_mrw" (st_hw s) ++ [mr2]).
  { subst s0'. trace_simpl. reflexivity. }
  clearbody s0'.
  apply (runs_for_while (fun k eye s1 =>
           exists xss,
             Z.of_nat (length xss) = k /\
             answers "wr_dqs_check_if_works" (st_hw s1)
               = answers "wr_dqs_check_if_works" (st_hw s) ++ concat xss /\
             calls "send_mrw" (st_hw s1)
               = calls "send_mrw" (st_hw s) ++ mr2 :: map mr3 (seqZ 0 k) /\
             if bool_decide (eye_state eye = INSIDE)
             then exists xss0 xs,
                    xss = xss0 ++ [xs] /\ Forall (fun xs => block 16 xs 0) xss0 /\
                    block 16 xs 1 /\
                    printed "WICA:%d,%d|" (st_hw s1)
                      = printed "WICA:%d,%d|" (st_hw s)
                          ++ map line (seqZ 0 (k - 1)) ++ [[k - 1; 1]]
             else eye = DEFAULT_EYE /\ Forall (fun xs => block 16 xs 0) xss /\
                  printed "WICA:%d,%d|" (st_hw s1)
                    = printed "WICA:%d,%d|" (st_hw s) ++ map line (seqZ 0 k))).
  - exists []. split; [reflexivity|]. split; [rewrite A0; symmetry; apply app_nil_r|].
    split; [exact K0|]. cbn. split; [reflexivity|]. split; [constructor|].
    rewrite P0. symmetry. apply app_nil_r.
  - intros k eye s1 Hk Hcond (xss & Hlen & Ha & Hc & Heye).
    apply negb_true_iff in Hcond. rewrite Hcond in Heye. destruct Heye as (-> & Hfail & Hp).
    wp_more. eapply runs_conseq; [apply wica_checks_run|].
    intros works s2 (F2 & xs & Ha2 & Hb). cbv beta. wp_more.
    assert (Hc2 : calls "send_mrw" (st_hw s2)
                  = calls "send_mrw" (st_hw s) ++ mr2 :: map mr3 (seqZ 0 (k + 1))).
    { rewrite (frame_calls "send_mrw" ["wr_dqs_check_if_works"] _ _ ltac:(name_out) F2).
      trace_simpl. rewrite Hc, seqZ_snoc, map_app by lia. cbn [map].
      rewrite <- app_assoc. reflexivity. }
    assert (Hp2 : printed "WICA:%d,%d|" (st_hw s2)
                  = printed "WICA:%d,%d|" (st_hw s) ++ map line (seqZ 0 k)).
    { rewrite (frame_printed _ _ _ _ F2). trace_simpl. exact Hp. }
    assert (Ha2' : answers "wr_dqs_check_if_works" (st_hw s2)
                   = answers "wr_dqs_check_if_works" (st_hw s) ++ concat (xss ++ [xs])).
    { rewrite Ha2. trace_simpl. rewrite Ha, concat_app, app_assoc. cbn.
      rewrite app_nil_r. reflexivity. }
    exists (xss ++ [xs]). rewrite length_app. cbn [length]. split; [lia|]. trace_simpl.
    split; [exact Ha2'|]. split; [exact Hc2|].
    unfold wltm_step. cbn [eye_state DEFAULT_EYE].
    rewrite (bool_decide_eq_true_2 (BEFORE = BEFORE)) by reflexivity.
    rewrite andb_true_r. destruct (proj1 Hb) as [-> | ->]; cbn.
    + split; [reflexivity|]. split.
      * apply Forall_app. split; [exact Hfail|]. apply Forall_singleton. exact Hb.
      * rewrite Hp2, seqZ_snoc, map_app by lia. cbn [map].
        rewrite <- app_assoc. reflexivity.
    + exists xss, xs. split; [reflexivity|]. split; [exact Hfail|]. split; [exact Hb|].
      rewrite Hp2. replace (k + 1 - 1) with k by lia. rewrite <- app_assoc. reflexivity.
  - intros k eye s' Hk (xss & Hlen & Ha & Hc & Heye) Hstop. wp_more.
    split; [reflexivity|].
    destruct (bool_decide_reflect (eye_state eye = INSIDE)) as [Hin|Hout].
    + destruct Heye as (xss0 & xs & -> & Hfail & Hb & Hp).
      rewrite length_app in Hlen. cbn [length] in Hlen.
      exists xss0, xs, 1. cbv zeta.
      replace (k - 1) with (Z.of_nat (length xss0)) in Hp by lia.
      replace k with (Z.of_nat (length xss0) + 1) in Hc by lia.
      split; [exact Hfail|]. split; [exact Hb|]. split; [lia|]. split; [left; reflexivity|].
      split; [rewrite Ha, concat_app; cbn; rewrite app_nil_r; reflexivity|].
      split; [exact Hp|exact Hc].
    + destruct Heye as (-> & Hfail & Hp).
      assert (k = 7) as ->.
      { destruct (Z.eq_dec k 7) as [|Hne]; [assumption|].
        assert (Hlt : k < 0 + Z.of_nat 7) by lia. specialize (Hstop Hlt). discriminate. }
      destruct xss as [|xs xss _] using rev_ind; [discriminate Hlen|].
      rewrite length_app in Hlen. cbn [length] in Hlen.
      apply Forall_app in Hfail. destruct Hfail as [Hfail Hlast].
      rewrite Forall_singleton in Hlast.
      exists xss, xs, 0. cbv zeta.
      replace (Z.of_nat (length xss)) with 6 by lia.
      split; [exact Hfail|]. split; [exact Hlast|]. split; [lia|]. split; [right; reflexivity|].
      split; [rewrite Ha, concat_app; cbn; rewrite app_nil_r; reflexivity|].
      split; [|exact Hc].
      rewrite Hp. change 7 with (6 + 1). rewrite seqZ_snoc, map_app by lia. reflexivity.
Qed.

End WriteLevelFacts.

(** ** The strobe that write leveling programs *)

Section WriteLevelingFacts.

Variable env : env_t.

Lemma set_wr_dqs_runs channel module width cd s :
  runs (set_wr_dqs env channel module width cd) s
    (fun _ s' =>
       st_ctx s' = st_ctx s /\
       frame (call_of wr_dqs_names) s s' /\
       programmed_delay "wr_dqs_rst" "wr_dqs_inc" [channel; module; width] (st_hw s')
         = Z.max 0 (fst cd) /\
       programmed_delay "odly_dqs_rst" "odly_dqs_inc" [channel; module; width] (st_hw s')
         = Z.max 0 (snd cd)).
Proof.
  unfold set_wr_dqs. wp_more.
  apply (runs_incs env "wr_dqs_rst" "wr_dqs_inc" _ wr_dqs_names);
    [discriminate|unfold wr_dqs_names; name_in|].
  intros s1 P1 X1 F1. cbn [st_hw set_hw] in P1. rewrite programmed_delay_rst in P1. wp_more.
  apply (runs_incs env "odly_dqs_rst" "odly_dqs_inc" _ ["odly_dqs_rst"; "odly_dqs_inc"]);
    [discriminate|name_in|].
  intros s2 P2 X2 F2. cbn [st_hw set_hw] in P2. rewrite programmed_delay_rst in P2.
  split; [rewrite X2; exact X1|]. split; [|split; [|lia]].
  - eapply frame_trans; [|eapply frame_incl; [|exact F2]; unfold wr_dqs_names; names_incl].
    apply frame_push_call; [unfold wr_dqs_names; name_in|].
    eapply frame_trans; [|exact F1]. apply frame_call. unfold wr_dqs_names. name_in.
  - rewrite (frame_programmed "wr_dqs_rst" "wr_dqs_inc" _ ["odly_dqs_rst"; "odly_dqs_inc"]
               _ _ ltac:(name_out) ltac:(name_out) F2).
    cbn [st_hw set_hw]. rewrite programmed_delay_other by (intros; discriminate). lia.
Qed.

End WriteLevelingFacts.

(** * The choice of the reference voltage *)

Lemma arr_get_Some arr i :
  0 <= i < Z.of_nat (length arr) -> Eye.arr_get arr i = Some (at_index arr i).
Proof.
  intros Hi. unfold at_index, Eye.arr_get.
  destruct (Z.leb_spec 0 i); [|lia].
  destruct (lookup_lt_is_Some_2 arr (Z.to_nat i)) as [x Hx]; [lia|].
  rewrite Hx. reflexivity.
Qed.

Lemma at_index_insert arr i p v :
  0 <= i < Z.of_nat (length arr) ->
  at_index (<[Z.to_nat i := v]> arr) p = if p =? i then v else at_index arr p.
Proof. intros Hi. unfold at_index. apply sample_insert_eq. exact Hi. Qed.

Lemma at_index_replicate n v p : 0 <= p < Z.of_nat n -> at_index (replicate n v) p = v.
Proof.
  intros Hp. unfold at_index, Eye.arr_get. destruct (Z.leb_spec 0 p); [|lia].
  rewrite lookup_replicate_2 by lia. reflexivity.
Qed.

(** One scan marks the entries below its width. *)
Lemma mark_widths_spec (N : Z) n p0 vref lo hi :
  0 <= p0 -> p0 + Z.of_nat n <= N ->
  Z.of_nat (length lo) = N -> Z.of_nat (length hi) = N ->
  exists lo' hi',
    mark_widths n p0 vref (lo, hi) = Some (lo', hi') /\
    Z.of_nat (length lo') = N /\ Z.of_nat (length hi') = N /\
    forall p,
      (at_index lo' p, at_index hi' p)
        = if (p0 <=? p) && (p <? p0 + Z.of_nat n)
          then ((if at_index lo p =? -1 then vref else at_index lo p), vref + 1)
          else (at_index lo p, at_index hi p).
Proof.
  revert p0 lo hi. induction n as [|n IH]; intros p0 lo hi Hp0 Hn Hlo Hhi.
  - exists lo, hi. split; [reflexivity|]. split; [exact Hlo|]. split; [exact Hhi|].
    intros p. destruct (Z.leb_spec p0 p), (Z.ltb_spec p (p0 + Z.of_nat 0));
      cbn [andb]; try lia; reflexivity.
  - cbn [mark_widths fst snd]. rewrite arr_get_Some by lia.
    unfold arr_set.
    destruct (Z.leb_spec 0 p0); [|lia].
    destruct (Z.ltb_spec p0 (Z.of_nat (length hi))); [|lia].
    destruct (Z.ltb_spec p0 (Z.of_nat (length lo))); [|lia]. cbn [andb].
    set (lo1 := if at_index lo p0 =? -1 then <[Z.to_nat p0 := vref]> lo else lo).
    assert (Hlo1 : (if at_index lo p0 =? -1 then Some (<[Z.to_nat p0 := vref]> lo) else Some lo)
                   = Some lo1).
    { unfold lo1. destruct (at_index lo p0 =? -1); reflexivity. }
    rewrite Hlo1.
    assert (Hl1 : Z.of_nat (length lo1) = N).
    { unfold lo1. destruct (at_index lo p0 =? -1); rewrite ?length_insert; exact Hlo. }
    destruct (IH (p0 + 1) lo1 (<[Z.to_nat p0 := vref + 1]> hi))
      as (lo' & hi' & Hrun & Hlo' & Hhi' & Hat);
      [lia|lia|exact Hl1|rewrite length_insert; exact Hhi|].
    exists lo', hi'. split; [exact Hrun|]. split; [exact Hlo'|]. split; [exact Hhi'|].
    intros p. rewrite Hat.
    assert (Hat1 : at_index lo1 p
                   = if p =? p0 then (if at_index lo p0 =? -1 then vref else at_index lo p0)
                     else at_index lo p).
    { unfold lo1. destruct (at_index lo p0 =? -1) eqn:E.
      - rewrite at_index_insert by lia. reflexivity.
      - destruct (Z.eqb_spec p p0) as [->|]; reflexivity. }
    rewrite Hat1, at_index_insert by lia.
    destruct (Z.eqb_spec p p0) as [Heq|Hne].
    + rewrite Heq.
      destruct (Z.leb_spec (p0 + 1) p0); [lia|].
      destruct (Z.leb_spec p0 p0); [|lia].
      destruct (Z.ltb_spec p0 (p0 + Z.of_nat (S n))); [|lia]. reflexivity.
    + destruct (Z.leb_spec (p0 + 1) p), (Z.leb_spec p0 p),
        (Z.ltb_spec p (p0 + 1 + Z.of_nat n)), (Z.ltb_spec p (p0 + Z.of_nat (S n)));
        cbn [andb]; try lia; reflexivity.
Qed.

(** The scans in a row, entry by entry. *)
Lemma vref_marks_spec (N : Z) widths vref lo hi :
  Forall (fun w => w <= N) widths ->
  Z.of_nat (length lo) = N -> Z.of_nat (length hi) = N ->
  exists lo' hi',
    vref_marks widths vref (lo, hi) = Some (lo', hi') /\
    Z.of_nat (length lo') = N /\ Z.of_nat (length hi') = N /\
    forall p, 0 <= p ->
      (at_index lo' p, at_index hi' p) = marks_at p widths vref (at_index lo p, at_index hi p).
Proof.
  intros Hw. revert vref lo hi. induction Hw as [|w widths Hle _ IH]; intros vref lo hi Hlo Hhi.
  - exists lo, hi. split; [reflexivity|]. split; [exact Hlo|]. split; [exact Hhi|].
    intros p _. reflexivity.
  - cbn [vref_marks marks_at].
    destruct (mark_widths_spec N (Z.to_nat w) 0 vref lo hi)
      as (lo1 & hi1 & Hrun & Hlo1 & Hhi1 & Hat); [lia|lia|exact Hlo|exact Hhi|].
    rewrite Hrun.
    destruct (IH (vref + 1) lo1 hi1 Hlo1 Hhi1) as (lo' & hi' & Hrun' & Hlo' & Hhi' & Hat').
    exists lo', hi'. split; [exact Hrun'|]. split; [exact Hlo'|]. split; [exact Hhi'|].
    intros p Hp. rewrite (Hat' p Hp), Hat. f_equal. unfold mark_at. cbn [fst].
    destruct (Z.leb_spec 0 p); [|lia].
    destruct (Z.ltb_spec p (0 + Z.of_nat (Z.to_nat w))), (Z.ltb_spec p w);
      cbn [andb]; try lia; reflexivity.
Qed.

(** An entry holds the first and the last scan with an eye wider than
    its index. *)
Lemma marks_at_spec p widths vref a b :
  0 <= vref ->
  ((forall k, ~ above p widths k) /\ marks_at p widths vref (a, b) = (a, b)) \/
  (exists i j : nat,
     above p widths i /\ above p widths j /\
     (forall k, above p widths k -> (i <= k <= j)%nat) /\
     marks_at p widths vref (a, b)
       = ((if a =? -1 then vref + Z.of_nat i else a), vref + Z.of_nat j + 1)).
Proof.
  revert vref a b. induction widths as [|w widths IH]; intros vref a b Hv.
  - left. split; [|reflexivity]. intros k (w & Hk & _). discriminate.
  - cbn [marks_at]. unfold mark_at. cbn [fst].
    assert (Hhead : forall k, above p (w :: widths) (S k) <-> above p widths k).
    { intros k. unfold above. cbn. reflexivity. }
    destruct (Z.ltb_spec p w) as [Hpw|Hpw].
    + assert (H0 : above p (w :: widths) 0) by (exists w; auto).
      set (a1 := if a =? -1 then vref else a).
      assert (Ha1 : (a1 =? -1) = false).
      { unfold a1. destruct (Z.eqb_spec a (-1)); [|apply Z.eqb_neq; assumption].
        apply Z.eqb_neq. lia. }
      right. destruct (IH (vref + 1) a1 (vref + 1)) as [[Hnone Heq]|(i & j & Hi & Hj & Hall & Heq)];
        [lia| |].
      * exists 0%nat, 0%nat. split; [exact H0|]. split; [exact H0|]. split.
        { intros [|k] Hk; [lia|]. apply Hhead in Hk. destruct (Hnone k Hk). }
        rewrite Heq. unfold a1. rewrite Z.add_0_r. reflexivity.
      * exists 0%nat, (S j). split; [exact H0|]. split; [apply Hhead; exact Hj|]. split.
        { intros [|k] Hk; [lia|]. apply Hhead in Hk. specialize (Hall k Hk). lia. }
        rewrite Heq, Ha1. unfold a1. rewrite Z.add_0_r. f_equal. lia.
    + assert (H0 : ~ above p (w :: widths) 0).
      { intros (w' & Hw' & Hlt). cbn in Hw'. injection Hw' as <-. lia. }
      destruct (IH (vref + 1) a b) as [[Hnone Heq]|(i & j & Hi & Hj & Hall & Heq)]; [lia| |].
      * left. split; [|exact Heq]. intros [|k] Hk; [exact (H0 Hk)|].
        apply Hhead in Hk. exact (Hnone k Hk).
      * right. exists (S i), (S j). split; [apply Hhead; exact Hi|].
        split; [apply Hhead; exact Hj|]. split.
        { intros [|k] Hk; [destruct (H0 Hk)|]. apply Hhead in Hk. specialize (Hall k Hk). lia. }
        rewrite Heq. f_equal; [|lia]. destruct (a =? -1); [lia|reflexivity].
Qed.

(** The last loop keeps the midpoint of the last entry that is set. *)
Lemma best_vref_loop_none (N : Z) n p0 lo hi best :
  0 <= p0 -> p0 + Z.of_nat n <= N ->
  Z.of_nat (length lo) = N -> Z.of_nat (length hi) = N ->
  (forall p, p0 <= p < p0 + Z.of_nat n -> at_index lo p = -1) ->
  best_vref_loop n p0 (lo, hi) best = Some best.
Proof.
  revert p0. induction n as [|n IH]; intros p0 Hp0 Hn Hlo Hhi Hnone; [reflexivity|].
  cbn [best_vref_loop fst snd]. rewrite arr_get_Some by lia.
  rewrite (Hnone p0) by lia. cbn [Z.eqb Pos.eqb negb].
  apply IH; [lia|lia|exact Hlo|exact Hhi|]. intros p Hp. apply Hnone. lia.
Qed.

Lemma best_vref_loop_last (N : Z) n p0 lo hi best q :
  0 <= p0 -> p0 + Z.of_nat n <= N ->
  Z.of_nat (length lo) = N -> Z.of_nat (length hi) = N ->
  p0 <= q < p0 + Z.of_nat n -> at_index lo q <> -1 ->
  (forall p, q < p < p0 + Z.of_nat n -> at_index lo p = -1) ->
  best_vref_loop n p0 (lo, hi) best = Some (Z.quot (at_index lo q + at_index hi q) 2).
Proof.
  revert p0 best. induction n as [|n IH]; intros p0 best Hp0 Hn Hlo Hhi Hq Hset Hnone; [lia|].
  cbn [best_vref_loop fst snd]. rewrite !arr_get_Some by lia.
  destruct (Z.eq_dec q p0) as [->|Hne].
  - apply Z.eqb_neq in Hset. rewrite Hset. cbn [negb].
    apply (best_vref_loop_none N); [lia|lia|exact Hlo|exact Hhi|].
    intros p Hp. apply Hnone. lia.
  - destruct (negb (at_index lo p0 =? -1));
      (apply IH; [lia|lia|exact Hlo|exact Hhi|lia|exact Hset|]);
      intros p Hp; apply Hnone; lia.
Qed.

(** A list that is not empty has a greatest element. *)
Lemma greatest_width (widths : list Z) :
  widths <> [] -> exists W, W ∈ widths /\ Forall (fun w => w <= W) widths.
Proof.
  induction widths as [|w widths IH]; [congruence|]. intros _.
  destruct widths as [|w' widths'].
  - exists w. split; [apply list_elem_of_here|]. repeat constructor. lia.
  - destruct IH as (W & Hin & Hall); [discriminate|].
    destruct (Z.le_gt_cases w W).
    + exists W. split; [apply list_elem_of_further; exact Hin|]. constructor; assumption.
    + exists w. split; [apply list_elem_of_here|]. constructor; [lia|].
      eapply Forall_impl; [exact Hall|]. cbv beta. intros. lia.
Qed.

(** The voltage that the two loops pick. *)
Lemma best_vref_selection (SDRAM_PHY_DELAYS : Z) (widths : list Z) (vref : Z) :
  0 <= vref ->
  Forall (fun w => w <= Z.max 0 SDRAM_PHY_DELAYS) widths ->
  exists range best_vref,
    vref_marks widths vref (eye_width_range_init SDRAM_PHY_DELAYS) = Some range /\
    best_vref_loop (Z.to_nat SDRAM_PHY_DELAYS) 0 range (-1) = Some best_vref /\
    ((Forall (fun w => w <= 0) widths /\ best_vref = -1) \/
     (exists W (i j : nat),
        0 < W /\ Forall (fun w => w <= W) widths /\
        widths !! i = Some W /\ widths !! j = Some W /\
        (forall k, widths !! k = Some W -> (i <= k <= j)%nat) /\
        best_vref = Z.quot ((vref + Z.of_nat i) + (vref + Z.of_nat j + 1)) 2)).
Proof.
  intros Hv Hw'. set (N := Z.max 0 SDRAM_PHY_DELAYS) in *.
  assert (HN : Z.to_nat SDRAM_PHY_DELAYS = Z.to_nat N) by lia.
  unfold eye_width_range_init. rewrite HN.
  destruct (vref_marks_spec N widths vref (replicate (Z.to_nat N) (-1))
              (replicate (Z.to_nat N) (-1)) Hw')
    as (lo & hi & Hrun & Hlo & Hhi & Hat); [rewrite length_replicate; lia..|].
  exists (lo, hi). rewrite Hrun.
  assert (Hat' : forall p, 0 <= p < N ->
            (at_index lo p, at_index hi p) = marks_at p widths vref (-1, -1)).
  { intros p Hp. rewrite (Hat p) by lia. rewrite !at_index_replicate by lia. reflexivity. }
  clear Hat Hrun.
  (* the widest eye *)
  destruct (decide (Forall (fun w => w <= 0) widths)) as [Hflat|Hwide].
  - exists (-1). split; [reflexivity|]. split; [|left; auto].
    apply (best_vref_loop_none N); [lia|lia|exact Hlo|exact Hhi|].
    intros p Hp.
    destruct (marks_at_spec p widths vref (-1) (-1) Hv) as [[_ Heq]|(i & _ & (w & Hi & Hlt) & _)].
    + rewrite <- Hat' in Heq by lia. congruence.
    + rewrite Forall_lookup in Hflat. specialize (Hflat i w Hi). cbv beta in Hflat. lia.
  - destruct (greatest_width widths) as (W & HinW & HallW).
    { intros ->. apply Hwide. constructor. }
    assert (HW : 0 < W).
    { destruct (Z.lt_ge_cases 0 W); [assumption|]. exfalso. apply Hwide.
      eapply Forall_impl; [exact HallW|]. cbv beta. intros. lia. }
    assert (HWN : W <= N).
    { rewrite Forall_forall in Hw'. apply Hw'. exact HinW. }
    destruct (marks_at_spec (W - 1) widths vref (-1) (-1) Hv)
      as [[Hnone _]|(i & j & (wi & Hi & Hlti) & (wj & Hj & Hltj) & Hall & Heq)].
    { exfalso. apply list_elem_of_lookup_1 in HinW. destruct HinW as [k Hk].
      apply (Hnone k). exists W. split; [exact Hk|lia]. }
    assert (wi = W) as ->.
    { rewrite Forall_lookup in HallW. specialize (HallW i wi Hi). cbv beta in HallW. lia. }
    assert (wj = W) as ->.
    { rewrite Forall_lookup in HallW. specialize (HallW j wj Hj). cbv beta in HallW. lia. }
    rewrite <- Hat' in Heq by lia. cbn [Z.eqb Pos.eqb] in Heq.
    injection Heq as Hlo_q Hhi_q.
    exists (Z.quot ((vref + Z.of_nat i) + (vref + Z.of_nat j + 1)) 2).
    split; [reflexivity|]. split.
    + rewrite <- Hlo_q, <- Hhi_q.
      apply (best_vref_loop_last N); [lia|lia|exact Hlo|exact Hhi|lia|lia|].
      intros p Hp.
      destruct (marks_at_spec p widths vref (-1) (-1) Hv)
        as [[_ Heq]|(k & _ & (w & Hk & Hlt) & _)].
      * rewrite <- Hat' in Heq by lia. congruence.
      * rewrite Forall_lookup in HallW. specialize (HallW k w Hk). cbv beta in HallW. lia.
    + right. exists W, i, j. split; [exact HW|]. split; [exact HallW|].
      split; [exact Hi|]. split; [exact Hj|]. split; [|reflexivity].
      intros k Hk. apply Hall. exists W. split; [exact Hk|lia].
Qed.


(** X20: the reference voltage that [moduel_dq_vref_scan] picks.  When the
    scans at [vref], [vref + 1], ... give eyes of the widths [widths], none
    wider than the [SDRAM_PHY_DELAYS] entries of [eye_width_range], the
    loops leave [best_vref] at -1 if no eye has a positive width; otherwise
    at the mean, rounded down, of the first voltage that gave the widest
    eye and of the voltage after the last one that did. *)
Theorem best_vref_widest_eye (SDRAM_PHY_DELAYS : Z) (widths : list Z) (vref : Z) :
  0 <= vref ->
  Forall (fun w => w <= SDRAM_PHY_DELAYS) widths ->
  exists range best_vref,
    vref_marks widths vref (eye_width_range_init SDRAM_PHY_DELAYS) = Some range /\
    best_vref_loop (Z.to_nat SDRAM_PHY_DELAYS) 0 range (-1) = Some best_vref /\
    ((Forall (fun w => w <= 0) widths /\ best_vref = -1) \/
     (exists W (i j : nat),
        0 < W /\ Forall (fun w => w <= W) widths /\
        widths !! i = Some W /\ widths !! j = Some W /\
        (forall k, widths !! k = Some W -> (i <= k <= j)%nat) /\
        best_vref = Z.quot ((vref + Z.of_nat i) + (vref + Z.of_nat j + 1)) 2)).
Proof.
  intros Hv Hw. apply best_vref_selection; [exact Hv|].
  eapply Forall_impl; [exact Hw|]. cbv beta. intros. lia.
Qed.

Lemma best_vref_widest_eye_witness :
  exists range,
    vref_marks [0; 2; 3; 3; 1] 0x32 (eye_width_range_init 4) = Some range /\
    best_vref_loop (Z.to_nat 4) 0 range (-1) = Some 0x35.
Proof.
  destruct (best_vref_widest_eye 4 [0; 2; 3; 3; 1] 0x32) as (range & best & Hr & Hb & _);
    [lia|repeat constructor; lia|].
  exists range. split; [exact Hr|].
  vm_compute in Hr. injection Hr as <-. reflexivity.
Defined.

(** * Write training without a data eye *)

Lemma calls_call_in name names evs tr :
  name ∉ names -> Forall (call_in names) evs -> calls name (evs ++ tr) = calls name tr.
Proof.
  intros Hn. induction 1 as [|e evs He _ IH]; [reflexivity|].
  destruct e as [n args r|f args]; cbn [app].
  - rewrite calls_Call, IH.
    rewrite bool_decide_eq_false_2 by (intros ->; apply Hn; exact He). apply app_nil_r.
  - rewrite calls_Print. exact IH.
Qed.

Lemma printed_call_in fmt names evs tr :
  fmt ∉ training_fmts -> Forall (call_in names) evs ->
  printed fmt (evs ++ tr) = printed fmt tr.
Proof.
  intros Hn. induction 1 as [|e evs He _ IH]; [reflexivity|].
  destruct e as [n args r|f args]; cbn [app].
  - rewrite printed_Call. exact IH.
  - rewrite printed_Print, IH.
    rewrite bool_decide_eq_false_2 by (intros ->; apply Hn; exact He). apply app_nil_r.
Qed.

Lemma frame_printed_in fmt names s s' :
  fmt ∉ training_fmts -> frame (call_in names) s s' ->
  printed fmt (st_hw s') = printed fmt (st_hw s).
Proof. intros Hn [_ _ (evs & -> & F)]. eapply printed_call_in; eauto. Qed.

Lemma frame_calls_in name names s s' :
  name ∉ names -> frame (call_in names) s s' ->
  calls name (st_hw s') = calls name (st_hw s).
Proof. intros Hn [_ _ (evs & -> & F)]. eapply calls_call_in; eauto. Qed.

Lemma call_of_call_in names e : call_of names e -> call_in names e.
Proof. destruct e; [auto|intros []]. Qed.

Lemma call_in_incl names names' e :
  (forall n, n ∈ names -> n ∈ names') -> call_in names e -> call_in names' e.
Proof. intros Hincl. destruct e as [n args r|f args]; [apply Hincl|auto]. Qed.

Lemma frame_in_incl names names' s s' :
  (forall n, n ∈ names -> n ∈ names') ->
  frame (call_in names) s s' -> frame (call_in names') s s'.
Proof. intros Hincl. apply frame_weaken. intros e. apply call_in_incl. exact Hincl. Qed.

(** An event of the names and formats at hand. *)
Ltac event_ok :=
  unfold call_in; cbn [event_in];
  unfold data_scan_names, vref_scan_names, leveling_names, training_names, training_fmts;
  repeat first [apply list_elem_of_here | apply list_elem_of_further].

(** Extends a frame along such events. *)
Ltac frame_in :=
  repeat first
    [ apply frame_refl
    | eassumption
    | apply frame_push_event; [event_ok|] ].

Lemma eye_step_fail tap : eye_step DEFAULT_EYE 0 tap = DEFAULT_EYE.
Proof.
  unfold eye_step. cbn [DEFAULT_EYE eye_state].
  rewrite (bool_decide_eq_false_2 (BEFORE = INSIDE)) by discriminate.
  rewrite andb_false_r. reflexivity.
Qed.

Lemma serial_only_step_fail : serial_only_step BEFORE 0 = BEFORE.
Proof.
  unfold serial_only_step.
  rewrite (bool_decide_eq_false_2 (BEFORE = INSIDE)) by discriminate.
  rewrite andb_false_r. reflexivity.
Qed.

Lemma scan_goes_on_fail : scan_goes_on (DEFAULT_EYE, BEFORE) = true.
Proof.
  unfold scan_goes_on. cbn [fst snd DEFAULT_EYE eye_state].
  rewrite !(bool_decide_eq_false_2 (BEFORE = AFTER)) by discriminate. reflexivity.
Qed.

Section LevelingFrame.

Variable env : env_t.
Variable SDRAM_PHY_CWL : Z.
Variable SDRAM_PHY_MIN_WR_LATENCY : Z.
Variable MAX_WRITE_CYCLE_DELAY : Z.
Variable single_cycle_MPC : Z.
Variable wleveling_scan_eye : trace -> list Z -> eye_t -> eye_t.

Lemma write_leveling_emits channel rank module :
  emits (call_in leveling_names)
    (write_leveling env SDRAM_PHY_CWL SDRAM_PHY_MIN_WR_LATENCY MAX_WRITE_CYCLE_DELAY
       single_cycle_MPC wleveling_scan_eye channel rank module).
Proof.
  unfold write_leveling, wltm_align_external_cycle, wltm_align_to_eye_edge, wleveling_scan,
    set_wr_dqs, wltm_align_internal_cycle, for_acc.
  repeat emits_step; event_ok.
Qed.

(** Write leveling always returns, whatever the checks answer. *)
Lemma write_leveling_runs channel rank module s :
  runs (write_leveling env SDRAM_PHY_CWL SDRAM_PHY_MIN_WR_LATENCY MAX_WRITE_CYCLE_DELAY
          single_cycle_MPC wleveling_scan_eye channel rank module) s
    (fun _ s' => st_ctx s' = st_ctx s /\ frame (call_in leveling_names) s s').
Proof. apply (runs_emits _ _ _ _ (write_leveling_emits channel rank module)). auto. Qed.

End LevelingFrame.

Section NoEye.

Variable env : env_t.
Hypothesis Hfail : serial_checks_fail env.

Lemma write_data_tap_fails channel rank module s :
  runs (write_data_tap env channel rank module) s
    (fun w s' => w = (0, 0) /\ st_ctx s' = st_ctx s /\
                 frame (call_in data_scan_names) s s').
Proof.
  unfold write_data_tap. wp_more. rewrite land_1_odd, Hfail.
  change (truthy (Z.b2z false)) with false. cbv iota. wp_more.
  split; [reflexivity|]. split; [reflexivity|]. frame_in.
Qed.

Lemma write_data_scan_cycle_fails channel rank module print cycle s :
  runs (write_data_scan_cycle env channel rank module print cycle (DEFAULT_EYE, BEFORE)) s
    (fun acc s' => acc = (DEFAULT_EYE, BEFORE) /\ st_ctx s' = st_ctx s /\
                   frame (call_in data_scan_names) s s').
Proof.
  unfold write_data_scan_cycle. wp_more.
  apply (runs_conseq _ _ (fun _ s1 => st_ctx s1 = st_ctx s /\
                                      frame (call_in data_scan_names) s s1)).
  { destruct (truthy print); wp_more; (split; [reflexivity|frame_in]). }
  intros _ s1 [X1 F1]. cbv beta. wp_more. unfold for_acc.
  apply (runs_for_while (fun _ acc s2 =>
           acc = (DEFAULT_EYE, BEFORE) /\ st_ctx s2 = st_ctx s /\
           frame (call_in data_scan_names) s s2)).
  - split; [reflexivity|]. split; [exact X1|]. frame_in.
  - intros delay acc s2 _ _ (-> & X2 & F2). apply runs_bind.
    eapply runs_conseq; [apply write_data_tap_fails|].
    intros w s3 (-> & X3 & F3). cbv beta.
    assert (F03 : frame (call_in data_scan_names) s s3) by (eapply frame_trans; eassumption).
    apply runs_bind.
    apply (runs_conseq _ _ (fun _ s4 => st_ctx s4 = st_ctx s /\
                                        frame (call_in data_scan_names) s s4)).
    { destruct (truthy print); wp_more; (split; [cbn [st_ctx set_hw]; congruence|frame_in]). }
    intros _ s4 [X4 F4]. cbv beta. wp_more. cbn [fst snd].
    rewrite eye_step_fail, serial_only_step_fail.
    split; [reflexivity|]. split; [exact X4|]. frame_in.
  - intros k acc s2 _ (-> & X2 & F2) _. wp_more.
    split; [reflexivity|]. split; [exact X2|]. frame_in.
Qed.

(** Without a tap that works the scan goes through all its cycles and
    returns the eye that it started with. *)
Lemma write_data_scan_fails channel rank module write_strobe_cycle print s :
  runs (write_data_scan env channel rank module write_strobe_cycle print) s
    (fun eye s' => eye = DEFAULT_EYE /\ st_ctx s' = st_ctx s /\
                   frame (call_in data_scan_names) s s').
Proof.
  unfold write_data_scan. wp_more.
  apply (runs_incs env "wr_dq_rst" "wr_dq_inc" _ data_scan_names);
    [discriminate|unfold data_scan_names; name_in|].
  intros s1 _ X1 F1. cbn [st_ctx set_hw] in X1.
  assert (F01 : frame (call_in data_scan_names) s s1).
  { eapply frame_trans; [|eapply frame_weaken; [apply call_of_call_in|exact F1]]. frame_in. }
  clear F1. apply runs_bind. unfold write_data_scan_sweep.
  apply (runs_for_while (fun _ acc s2 =>
           acc = (DEFAULT_EYE, BEFORE) /\ st_ctx s2 = st_ctx s /\
           frame (call_in data_scan_names) s s2)).
  - auto.
  - intros cycle acc s2 _ _ (-> & X2 & F2).
    eapply runs_conseq; [apply write_data_scan_cycle_fails|].
    intros acc s3 (-> & X3 & F3). split; [reflexivity|]. split; [congruence|].
    eapply frame_trans; eassumption.
  - intros k acc s2 _ (-> & X2 & F2) _. wp_more. auto.
Qed.

Section Builds.

Variable SDRAM_PHY_DELAYS : Z.
Variable SDRAM_PHY_CWL : Z.
Variable SDRAM_PHY_MIN_WR_LATENCY : Z.
Variable MAX_WRITE_CYCLE_DELAY : Z.
Variable single_cycle_MPC : Z.
Variable wleveling_scan_eye : trace -> list Z -> eye_t -> eye_t.

Lemma best_vref_unset :
  best_vref_loop (Z.to_nat SDRAM_PHY_DELAYS) 0 (eye_width_range_init SDRAM_PHY_DELAYS) (-1)
  = Some (-1).
Proof.
  unfold eye_width_range_init.
  apply (best_vref_loop_none (Z.of_nat (Z.to_nat SDRAM_PHY_DELAYS)));
    [lia|lia|rewrite length_replicate; reflexivity..|].
  intros p Hp. apply at_index_replicate. lia.
Qed.

(** When no scan finds an eye, every voltage is tried and none is chosen. *)
Lemma moduel_dq_vref_scan_fails channel rank module wl_cycle s :
  runs (moduel_dq_vref_scan env SDRAM_PHY_DELAYS channel rank module wl_cycle) s
    (fun best_vref s' =>
       best_vref = -1 /\ st_ctx s' = st_ctx s /\
       frame (call_in vref_scan_names) s s' /\
       calls "send_mrw" (st_hw s')
         = calls "send_mrw" (st_hw s) ++ vref_writes channel rank module).
Proof.
  unfold moduel_dq_vref_scan. apply runs_bind. unfold for_acc.
  change (Z.to_nat (70 - 50)) with 20%nat.
  apply (runs_for_while (fun vref range s1 =>
           range = eye_width_range_init SDRAM_PHY_DELAYS /\ st_ctx s1 = st_ctx s /\
           frame (call_in vref_scan_names) s s1 /\
           calls "send_mrw" (st_hw s1)
             = calls "send_mrw" (st_hw s)
                 ++ ((fun vref => [channel; rank; module; 10; vref]) <$> seqZ 50 (vref - 50)))).
  - split; [reflexivity|]. split; [reflexivity|]. split; [apply frame_refl|].
    rewrite Z.sub_diag. symmetry. apply app_nil_r.
  - intros vref range s1 Hv _ (-> & X1 & F1 & K1). wp_more.
    eapply runs_conseq; [apply write_data_scan_fails|].
    intros eye s2 (-> & X2 & F2). cbv beta. cbn [DEFAULT_EYE eye_end eye_start].
    change (Z.to_nat (-1 - -1)) with 0%nat. cbn [mark_widths].
    eapply runs_lift_option; [reflexivity|].
    split; [reflexivity|]. split; [rewrite X2; exact X1|]. split.
    + eapply frame_trans; [|eapply frame_in_incl; [|exact F2]];
        [frame_in|unfold data_scan_names, vref_scan_names; names_incl].
    + rewrite (frame_calls_in "send_mrw" data_scan_names _ _ ltac:(name_out) F2).
      trace_simpl. rewrite K1. replace (vref + 1 - 50) with (vref - 50 + 1) by lia.
      rewrite seqZ_snoc, fmap_app by lia. cbn [fmap list_fmap].
      rewrite <- app_assoc. repeat f_equal. lia.
  - intros k range s1 Hk (-> & X1 & F1 & K1) Hstop.
    assert (k = 70) as ->.
    { destruct (Z.eq_dec k 70) as [|Hne]; [assumption|].
      assert (Hlt : k < 50 + Z.of_nat 20) by lia. specialize (Hstop Hlt). discriminate. }
    apply runs_bind. eapply runs_lift_option; [apply best_vref_unset|].
    wp_more. change (-1 >? -1) with false. cbv iota. wp_more.
    split; [reflexivity|]. split; [exact X1|]. split; [frame_in|].
    trace_simpl. exact K1.
Qed.

Lemma module_vref_scan_fails channel rank module wl_cycle s :
  runs (module_vref_scan env SDRAM_PHY_DELAYS false channel rank module wl_cycle) s
    (fun res s' =>
       res = -1 /\ st_ctx s' = st_ctx s /\
       frame (call_in vref_scan_names) s s' /\
       exists mr5,
         calls "send_mrw" (st_hw s')
           = calls "send_mrw" (st_hw s)
               ++ [channel; rank; module; 5; Z.land (wrap_u8 mr5) 0xDF]
                  :: vref_writes channel rank module).
Proof.
  unfold module_vref_scan. wp_more. set (mr5 := env _ "recover_mrr_value" _).
  eapply runs_conseq; [apply moduel_dq_vref_scan_fails|].
  intros best s1 (-> & X1 & F1 & K1). cbv beta.
  change (negb false && (-1 =? -1)) with true. cbv iota. wp_more.
  split; [reflexivity|]. split; [exact X1|]. split.
  - eapply frame_trans; [|exact F1]. frame_in.
  - exists mr5. rewrite K1. trace_simpl. rewrite <- app_assoc. reflexivity.
Qed.

(** One rank of write training, built to stop at errors: it fails in write
    leveling or at the first module of the DQ training. *)
Lemma write_training_rank_fails channel rank s :
  1 <= modules (st_ctx s) <= 16 ->
  runs (write_training_rank env SDRAM_PHY_CWL SDRAM_PHY_MIN_WR_LATENCY MAX_WRITE_CYCLE_DELAY
          single_cycle_MPC wleveling_scan_eye SDRAM_PHY_DELAYS false channel rank true) s
    (fun acc s' =>
       acc = (false, true) /\ st_ctx s' = st_ctx s /\
       frame (call_in training_names) s s' /\
       calls "exit_wltm" (st_hw s') = calls "exit_wltm" (st_hw s) ++ [[channel; rank]]).
Proof.
  intros Hmod. unfold write_training_rank. wp_more.
  apply (runs_for_while (fun k (acc : bool * list Z * bool) s1 =>
           length (snd (fst acc)) = 16%nat /\ snd acc = negb (fst (fst acc)) /\
           st_ctx s1 = st_ctx s /\
           frame (call_in training_names) s s1 /\
           calls "exit_wltm" (st_hw s1) = calls "exit_wltm" (st_hw s))).
  - split; [reflexivity|]. split; [reflexivity|]. split; [reflexivity|].
    split; [frame_in|]. trace_simpl. reflexivity.
  - intros module [[good wsc] stop] s1 Hm _ (Hl & Hs & X1 & F1 & K1).
    cbn [fst snd] in *. apply runs_bind.
    eapply runs_conseq; [apply write_leveling_runs|].
    intros cycle s2 [X2 F2]. cbv beta. apply runs_bind.
    eapply runs_lift_option.
    { unfold arr_set. destruct (Z.leb_spec 0 module); [|lia].
      destruct (Z.ltb_spec module (Z.of_nat (length wsc))); [reflexivity|lia]. }
    wp_more. cbn [fst snd]. rewrite length_insert.
    split; [exact Hl|]. split; [reflexivity|]. split; [congruence|]. split.
    + eapply frame_trans; [exact F1|]. eapply frame_in_incl; [|exact F2].
      unfold leveling_names, training_names. names_incl.
    + rewrite (frame_calls_in "exit_wltm" leveling_names _ _ ltac:(name_out) F2). exact K1.
  - intros k [[good wsc] stop] s1 Hk (Hl & Hs & X1 & F1 & K1) Hstop.
    cbn [fst snd] in *. subst stop. wp_more.
    destruct good; cbn [negb andb].
    + (* write leveling has passed: the DQ training fails at module 0 *)
      wp_more.
      match goal with |- runs _ ?s0 _ => set (s0' := s0) end.
      assert (X0 : st_ctx s0' = st_ctx s) by exact X1.
      assert (F0 : frame (call_in training_names) s s0') by (unfold s0'; frame_in).
      assert (K0 : calls "exit_wltm" (st_hw s0')
                   = calls "exit_wltm" (st_hw s) ++ [[channel; rank]]).
      { unfold s0'. trace_simpl. rewrite K1. reflexivity. }
      clearbody s0'.
      apply (runs_for_while (fun k (acc : bool * bool) s2 =>
               (acc = (false, true) \/ acc = (true, false) /\ k = 0) /\
               st_ctx s2 = st_ctx s /\
               frame (call_in training_names) s s2 /\
               calls "exit_wltm" (st_hw s2)
                 = calls "exit_wltm" (st_hw s) ++ [[channel; rank]])).
      * split; [right; auto|]. auto.
      * intros module acc s2 Hm Hcond (Hacc & X2 & F2 & K2).
        destruct Hacc as [->|[-> ->]]; [discriminate Hcond|].
        destruct (lookup_lt_is_Some_2 wsc 0) as [cycle Hcycle]; [lia|].
        apply runs_bind. eapply runs_lift_option.
        { unfold Eye.arr_get. cbn. exact Hcycle. }
        apply runs_bind. eapply runs_conseq; [apply module_vref_scan_fails|].
        intros res s3 (-> & X3 & F3 & _). cbv beta. wp_more.
        split; [left; reflexivity|]. split; [congruence|]. split.
        -- eapply frame_trans; [exact F2|]. eapply frame_in_incl; [|exact F3].
           unfold vref_scan_names, training_names. names_incl.
        -- rewrite (frame_calls_in "exit_wltm" vref_scan_names _ _ ltac:(name_out) F3).
           exact K2.
      * intros k2 acc s2 Hk2 (Hacc & X2 & F2 & K2) Hstop2.
        destruct Hacc as [->|[-> ->]]; [auto|].
        assert (Hlt : 0 < 0 + Z.of_nat (Z.to_nat (modules (st_ctx s)))) by lia.
        specialize (Hstop2 Hlt). discriminate.
    + wp_more. split; [reflexivity|]. split; [exact X1|]. split; [frame_in|].
      trace_simpl. rewrite K1. reflexivity.
Qed.

(** X21: when no written word ever reads back, [module_vref_scan], built
    to stop at errors, returns -1.  It has disabled the data mask in MR5
    and has tried each of the twenty voltages [0x32 .. 0x45] in MR10; it
    writes no voltage of its choice, so the last one tried stays in MR10,
    and it starts neither the centre scan nor the data mask scan. *)
Theorem module_vref_scan_without_eye channel rank module wl_cycle s :
  runs (module_vref_scan env SDRAM_PHY_DELAYS false channel rank module wl_cycle) s
    (fun res s' =>
       res = -1 /\ st_ctx s' = st_ctx s /\
       (exists mr5,
          calls "send_mrw" (st_hw s')
            = calls "send_mrw" (st_hw s)
                ++ [channel; rank; module; 5; Z.land (wrap_u8 mr5) 0xDF]
                   :: vref_writes channel rank module) /\
       printed "eye_width:%2d; eye center: cycle:%2d,delay:%2d" (st_hw s')
         = printed "eye_width:%2d; eye center: cycle:%2d,delay:%2d" (st_hw s) /\
       calls "write_dm_lfsr_check" (st_hw s') = calls "write_dm_lfsr_check" (st_hw s)).
Proof.
  eapply runs_conseq; [apply module_vref_scan_fails|].
  intros res s' (-> & X & F & K). cbv beta.
  split; [reflexivity|]. split; [exact X|]. split; [exact K|]. split.
  - apply (frame_printed_in "eye_width:%2d; eye center: cycle:%2d,delay:%2d" vref_scan_names);
      [unfold training_fmts; name_out|exact F].
  - apply (frame_calls_in "write_dm_lfsr_check" vref_scan_names); [name_out|exact F].
Qed.

(** X22: when no written word ever reads back, [sdram_ddr5_write_training],
    built to stop at errors, reports failure, whatever write leveling
    finds: it returns [false] from the first rank of the first channel,
    after it has left the write leveling mode of that rank. *)
Theorem sdram_ddr5_write_training_without_eye s :
  1 <= channels (st_ctx s) -> 1 <= ranks (st_ctx s) -> 1 <= modules (st_ctx s) <= 16 ->
  runs (sdram_ddr5_write_training env SDRAM_PHY_CWL SDRAM_PHY_MIN_WR_LATENCY
          MAX_WRITE_CYCLE_DELAY single_cycle_MPC wleveling_scan_eye SDRAM_PHY_DELAYS false) s
    (fun good s' =>
       good = false /\ st_ctx s' = st_ctx s /\
       calls "exit_wltm" (st_hw s') = calls "exit_wltm" (st_hw s) ++ [[0; 0]]).
Proof.
  intros Hch Hrk Hmod. unfold sdram_ddr5_write_training. wp_more.
  apply (runs_for_while (fun k (acc : bool * bool) s1 =>
           (acc = (true, false) /\ k = 0 /\ s1 = s) \/
           (acc = (false, true) /\ st_ctx s1 = st_ctx s /\
            calls "exit_wltm" (st_hw s1) = calls "exit_wltm" (st_hw s) ++ [[0; 0]]))).
  - left. auto.
  - intros channel acc s1 _ Hcond [(-> & -> & ->)|(-> & _)]; [|discriminate Hcond].
    wp_more.
    apply (runs_for_while (fun k (acc : bool * bool) s1 =>
           (acc = (true, false) /\ k = 0 /\
            st_ctx s1 = st_ctx s /\ calls "exit_wltm" (st_hw s1) = calls "exit_wltm" (st_hw s)) \/
           (acc = (false, true) /\ st_ctx s1 = st_ctx s /\
            calls "exit_wltm" (st_hw s1) = calls "exit_wltm" (st_hw s) ++ [[0; 0]]))).
    + left. split; [reflexivity|]. split; [reflexivity|]. split; [reflexivity|].
      trace_simpl. reflexivity.
    + intros rank acc2 s2 _ Hcond2 [(-> & -> & X2 & K2)|(-> & _)]; [|discriminate Hcond2].
      cbn [fst]. eapply runs_conseq; [apply write_training_rank_fails; rewrite X2; exact Hmod|].
      intros acc3 s3 (-> & X3 & _ & K3). cbv beta. right.
      split; [reflexivity|]. split; [congruence|]. rewrite K3, K2. reflexivity.
    + intros k acc2 s2 Hk [(-> & -> & _)|H] Hstop.
      * assert (Hlt : 0 < 0 + Z.of_nat (Z.to_nat (ranks (st_ctx s)))) by lia.
        specialize (Hstop Hlt). discriminate.
      * right. exact H.
  - intros k acc s1 Hk [(-> & -> & _)|(-> & X1 & K1)] Hstop.
    + assert (Hlt : 0 < 0 + Z.of_nat (Z.to_nat (channels (st_ctx s)))) by lia.
      specialize (Hstop Hlt). discriminate.
    + wp_more. auto.
Qed.

End Builds.

End NoEye.

Lemma module_vref_scan_without_eye_witness :
  serial_checks_fail env_all_fail /\
  runs (module_vref_scan env_all_fail 4 false 0 0 0 2) bench_state (fun res _ => res = -1).
Proof.
  assert (H : serial_checks_fail env_all_fail) by (intros tr args; reflexivity).
  split; [exact H|].
  eapply runs_conseq; [exact (module_vref_scan_without_eye env_all_fail H 4 0 0 0 2 bench_state)|].
  intros res s' (-> & _). reflexivity.
Defined.

Lemma sdram_ddr5_write_training_without_eye_witness :
  serial_checks_fail env_all_fail /\
  1 <= channels (st_ctx bench_state) /\ 1 <= ranks (st_ctx bench_state) /\
  1 <= modules (st_ctx bench_state) <= 16 /\
  runs (sdram_ddr5_write_training env_all_fail 8 2 16 0 (fun _ _ eye => eye) 4 false)
    bench_state (fun good _ => good = false).
Proof.
  assert (H : serial_checks_fail env_all_fail) by (intros tr args; reflexivity).
  assert (H1 : 1 <= channels (st_ctx bench_state)) by (cbn; lia).
  assert (H2 : 1 <= ranks (st_ctx bench_state)) by (cbn; lia).
  assert (H3 : 1 <= modules (st_ctx bench_state) <= 16) by (cbn; lia).
  split; [exact H|]. split; [exact H1|]. split; [exact H2|]. split; [exact H3|].
  eapply runs_conseq;
    [exact (sdram_ddr5_write_training_without_eye env_all_fail H 4 8 2 16 0
              (fun _ _ eye => eye) bench_state H1 H2 H3)|].
  intros good s' (-> & _). reflexivity.
Defined.

(** * CS training *)

Lemma MAX_max a b : MAX a b = Z.max a b.
Proof. unfold MAX. destruct (Z.gtb_spec a b); lia. Qed.

Lemma cs_midpoint_stored channel rank right left ctx :
  cs_midpoint
    (set_cs_delays (fun d => <[(channel, rank, 1) := left]> (<[(channel, rank, 0) := right]> d))
                   ctx) channel rank
  = Z.quot (right + left) 2.
Proof.
  unfold cs_midpoint. cbn [cs_delays set_cs_delays].
  rewrite rd_insert_ne by congruence. rewrite !rd_insert. reflexivity.
Qed.

Lemma cs_events_refl s : cs_events s s.
Proof. exists []. split; [reflexivity|constructor]. Qed.

Lemma cs_events_trans s s1 s2 : cs_events s s1 -> cs_events s1 s2 -> cs_events s s2.
Proof.
  intros (e1 & H1 & F1) (e2 & H2 & F2). exists (e2 ++ e1).
  rewrite H2, H1, app_assoc. split; [reflexivity|]. apply Forall_app. auto.
Qed.

Lemma cs_events_frame (ok : event -> Prop) s s' :
  (forall e, ok e -> call_of scan_names e) -> frame ok s s' -> cs_events s s'.
Proof.
  intros Hok [_ _ (evs & H & F)]. exists evs. split; [exact H|].
  eapply Forall_impl; [exact F|]. intros [n args r|f args] He; apply Hok in He;
    [exact He|destruct He].
Qed.

Lemma cs_events_print fmt args s :
  fmt ∈ cs_fmts -> cs_events s (set_hw (cons (Print fmt args)) s).
Proof.
  intros H. exists [Print fmt args]. split; [reflexivity|]. apply Forall_singleton. exact H.
Qed.

Lemma cs_events_call name args r s :
  name ∈ scan_names -> cs_events s (set_hw (cons (Call name args r)) s).
Proof.
  intros H. exists [Call name args r]. split; [reflexivity|]. apply Forall_singleton. exact H.
Qed.

Lemma cs_events_push_call name args r s s1 :
  name ∈ scan_names -> cs_events s s1 -> cs_events s (set_hw (cons (Call name args r)) s1).
Proof. intros H E. eapply cs_events_trans; [exact E|]. apply cs_events_call. exact H. Qed.

Lemma cs_events_push_print fmt args s s1 :
  fmt ∈ cs_fmts -> cs_events s s1 -> cs_events s (set_hw (cons (Print fmt args)) s1).
Proof. intros H E. eapply cs_events_trans; [exact E|]. apply cs_events_print. exact H. Qed.

Lemma cs_events_printed fmt s s' :
  fmt ∉ cs_fmts -> cs_events s s' -> printed fmt (st_hw s') = printed fmt (st_hw s).
Proof.
  intros Hn (evs & -> & F). induction F as [|e evs He _ IH]; [reflexivity|].
  destruct e as [n args r|f args]; cbn [app].
  - rewrite printed_Call. exact IH.
  - rewrite printed_Print, IH.
    rewrite bool_decide_eq_false_2 by (intros ->; apply Hn; exact He). apply app_nil_r.
Qed.

Lemma cs_events_calls name s s' :
  name ∉ scan_names -> cs_events s s' -> calls name (st_hw s') = calls name (st_hw s).
Proof.
  intros Hn (evs & -> & F). induction F as [|e evs He _ IH]; [reflexivity|].
  destruct e as [n args r|f args]; cbn [app].
  - rewrite calls_Call, IH.
    rewrite bool_decide_eq_false_2 by (intros ->; apply Hn; exact He). apply app_nil_r.
  - rewrite calls_Print. exact IH.
Qed.

(** A format of [CS_training]. *)
Ltac cs_fmt := unfold cs_fmts; repeat first [apply list_elem_of_here | apply list_elem_of_further].

Lemma cs_rank_kept_refl channel rank coarse s : cs_rank_kept channel rank coarse coarse s s.
Proof. do 5 (split; [reflexivity|]). apply cs_events_refl. Qed.

Lemma cs_rank_kept_trans channel rank co co1 co2 s s1 s2 :
  cs_rank_kept channel rank co co1 s s1 -> cs_rank_kept channel rank co1 co2 s1 s2 ->
  cs_rank_kept channel rank co co2 s s2.
Proof.
  intros (A1 & B1 & C1 & D1 & E1 & F1) (A2 & B2 & C2 & D2 & E2 & F2).
  split; [congruence|]. split; [congruence|]. split; [|split; [|split]].
  - intros sel Hsel. rewrite C2, C1 by exact Hsel. reflexivity.
  - intros r e Hr. rewrite D2, D1 by exact Hr. reflexivity.
  - intros r Hr. rewrite E2, E1 by exact Hr. reflexivity.
  - eapply cs_events_trans; eassumption.
Qed.

Lemma cs_rank_kept_cs_frame channel rank coarse s s' :
  frame (cs_line channel rank) s s' -> cs_rank_kept channel rank coarse coarse s s'.
Proof.
  intros F. split; [apply (frame_same_config _ _ _ F)|]. split; [apply (frame_size _ _ _ F)|].
  split; [|split; [|split]].
  - intros sel Hsel. exact (frame_on_line _ _ _ _ _ _ _ Hsel F).
  - intros r e _. destruct (frame_delays _ _ _ F) as (-> & _). reflexivity.
  - reflexivity.
  - eapply cs_events_frame; [apply cs_line_scan|exact F].
Qed.

Lemma cs_rank_kept_ca_frame channel rank address coarse s s' :
  frame (ca_line channel rank address) s s' -> cs_rank_kept channel rank coarse coarse s s'.
Proof.
  intros F. split; [apply (frame_same_config _ _ _ F)|]. split; [apply (frame_size _ _ _ F)|].
  split; [|split; [|split]].
  - intros sel _. exact (ca_line_keeps_cs _ _ _ _ _ _ F).
  - intros r e _. destruct (frame_delays _ _ _ F) as (-> & _). reflexivity.
  - reflexivity.
  - eapply cs_events_frame; [apply ca_line_scan|exact F].
Qed.

Lemma cs_rank_kept_print channel rank coarse fmt args s :
  fmt ∈ cs_fmts ->
  cs_rank_kept channel rank coarse coarse s (set_hw (cons (Print fmt args)) s).
Proof. intros H. do 5 (split; [reflexivity|]). apply cs_events_print. exact H. Qed.

(** A rank that is set stays set along the steps on another rank. *)
Lemma cs_coarse_set_kept channel rank r coarse coarse' s s' :
  r <> rank -> cs_rank_kept channel rank coarse coarse' s s' ->
  cs_coarse_set channel coarse s r -> cs_coarse_set channel coarse' s' r.
Proof.
  intros Hr (_ & _ & Hp & Hd & Hc & _) [P M]. unfold cs_coarse_set, cs_midpoint in *.
  rewrite Hp by congruence. rewrite Hc, !Hd by exact Hr. auto.
Qed.

Section CSTrainingFacts.

Variable env : env_t.

Lemma CS_set_coarse_runs channel rank right left coarse s :
  runs (CS_set_coarse env channel rank right left coarse) s
    (fun coarse' s' =>
       cs_rank_kept channel rank coarse coarse' s s' /\
       cs_coarse_set channel coarse' s' rank /\
       (forall e, rd (cs_delays (st_ctx s')) (channel, rank, e)
                  = if e =? 0 then right else if e =? 1 then left
                    else rd (cs_delays (st_ctx s)) (channel, rank, e)) /\
       printed CS_failed_fmt (st_hw s') = printed CS_failed_fmt (st_hw s)).
Proof.
  unfold CS_set_coarse. wp_more. rewrite MAX_max.
  set (coarse_v := Z.max 0 (Z.quot (right + left) 2)).
  apply (runs_incs_line env cs_names "cs.rst_dly" "cs.inc_dly"); [discriminate|name_in|].
  intros s2 P2 X2 F2. cbn [st_hw st_ctx set_hw] in P2, X2.
  rewrite programmed_delay_rst in P2. wp_more.
  assert (Hcfg : config (st_ctx s2) = config (st_ctx s)) by (rewrite X2; reflexivity).
  assert (Hsz : buffer_size s2 = buffer_size s) by apply (frame_size _ _ _ F2).
  split; [|split; [|split]].
  - split; [exact Hcfg|]. split; [exact Hsz|]. split; [|split; [|split]].
    + intros sel Hsel. cbn [st_hw set_ctx].
      rewrite (frame_on_line _ _ _ _ _ _ _ Hsel F2). cbn [st_hw set_hw programmed_delay].
      rewrite bool_decide_eq_false_2 by (intros [_ H]; congruence). reflexivity.
    + intros r e Hr. cbn [st_ctx set_ctx cs_delays set_cs_delays]. rewrite X2.
      rewrite !rd_insert_ne by congruence. reflexivity.
    + intros r Hr. apply rd_insert_ne. congruence.
    + assert (E : cs_events s s2).
      { eapply cs_events_trans; [|eapply cs_events_frame; [apply cs_line_scan|exact F2]].
        apply cs_events_push_call; [unfold scan_names, cs_names; cbn [app]; name_in|].
        apply cs_events_push_print; [cs_fmt|].
        apply cs_events_push_print; [cs_fmt|]. apply cs_events_refl. }
      destruct E as (evs & H & F). exists evs. split; [exact H|exact F].
  - split.
    + cbn [st_hw set_ctx]. rewrite rd_insert. unfold coarse_v in *. lia.
    + rewrite rd_insert. cbn [st_ctx set_ctx]. rewrite cs_midpoint_stored. reflexivity.
  - intros e. cbn [st_ctx set_ctx cs_delays set_cs_delays]. rewrite X2.
    destruct (Z.eqb_spec e 0) as [->|H0].
    + rewrite rd_insert_ne by congruence. apply rd_insert.
    + destruct (Z.eqb_spec e 1) as [->|H1]; [apply rd_insert|].
      rewrite !rd_insert_ne by congruence. reflexivity.
  - cbn [st_hw set_ctx].
    rewrite (frame_printed CS_failed_fmt cs_names _ _
               (frame_weaken _ _ _ _ (on_line_call_of _ _ _ _) F2)).
    unfold CS_failed_fmt. trace_simpl. reflexivity.
Qed.

Lemma cs_events_later s s' : cs_events s s' -> later s s'.
Proof. intros (evs & H & _). exists evs. exact H. Qed.

Lemma cs_rank_kept_later channel rank co co' s s' :
  cs_rank_kept channel rank co co' s s' -> later s s'.
Proof. intros (_ & _ & _ & _ & _ & H). apply cs_events_later. exact H. Qed.

Lemma cs_scan_sides_between channel rank s s0 s1 s' left right :
  later s s0 -> later s1 s' -> max_delay_taps (st_ctx s0) = max_delay_taps (st_ctx s) ->
  cs_scan_sides env channel rank s0 s1 left right ->
  cs_scan_sides env channel rank s s' left right.
Proof.
  intros L0 L1 Hmax (sa & subtract & sb & La & E & Lb & Hfind).
  exists sa, subtract, sb. rewrite <- Hmax.
  split; [eapply later_trans; eassumption|]. split; [exact E|].
  split; [eapply later_trans; eassumption|exact Hfind].
Qed.

Lemma cs_eye_found_between channel rank s s0 s1 s' :
  later s s0 -> later s1 s' -> max_delay_taps (st_ctx s0) = max_delay_taps (st_ctx s) ->
  cs_eye_found env channel rank s0 s1 -> cs_eye_found env channel rank s s'.
Proof.
  intros L0 L1 Hmax (left & right & H & Hl & Hr). exists left, right.
  split; [eapply cs_scan_sides_between; eassumption|]. auto.
Qed.

Lemma cs_no_eye_between channel rank s s0 s1 s' :
  later s s0 -> later s1 s' -> max_delay_taps (st_ctx s0) = max_delay_taps (st_ctx s) ->
  cs_no_eye env channel rank s0 s1 -> cs_no_eye env channel rank s s'.
Proof.
  intros L0 L1 Hmax (left & right & H & Hside). exists left, right.
  split; [eapply cs_scan_sides_between; eassumption|exact Hside].
Qed.

(** One rank of [CS_training]. *)
Lemma CS_training_rank_runs channel rank coarse s :
  1 <= max_delay_taps (st_ctx s) ->
  2 * max_delay_taps (st_ctx s) <= buffer_size s ->
  runs (CS_training_rank env channel rank coarse) s
    (fun res s' =>
       match res with
       | None =>
           cs_rank_kept channel rank coarse coarse s s' /\
           printed CS_failed_fmt (st_hw s') = printed CS_failed_fmt (st_hw s) ++ [[rank]] /\
           cs_no_eye env channel rank s s'
       | Some coarse' =>
           cs_rank_kept channel rank coarse coarse' s s' /\
           cs_coarse_set channel coarse' s' rank /\
           printed CS_failed_fmt (st_hw s') = printed CS_failed_fmt (st_hw s) /\
           (cs_scanned (st_ctx s) rank -> cs_eye_found env channel rank s s')
       end).
Proof.
  intros Hmax Hcap. unfold CS_training_rank. wp_more.
  set (max := max_delay_taps (st_ctx s)) in *.
  (* the sides of the eye of the rank *)
  apply (runs_conseq _ _ (fun sides s1 =>
           cs_rank_kept channel rank coarse coarse s s1 /\
           match sides with
           | None =>
               printed CS_failed_fmt (st_hw s1) = printed CS_failed_fmt (st_hw s) ++ [[rank]] /\
               cs_no_eye env channel rank s s1
           | Some _ =>
               printed CS_failed_fmt (st_hw s1) = printed CS_failed_fmt (st_hw s) /\
               (cs_scanned (st_ctx s) rank -> cs_eye_found env channel rank s s1)
           end)).
  { destruct (bool_decide (training_type (st_ctx s) ≠ HOST_RCD) || (Z.land rank 1 =? 0))
      eqn:Hscanned.
    - apply runs_bind.
      eapply runs_conseq; [apply runs_with_eq, CS_scan_line; assumption|].
      intros subtract s1 (Escan & _ & F1 & _ & _). cbv beta.
      pose proof (cs_rank_kept_cs_frame channel rank coarse _ _ F1) as K1.
      assert (P1 : printed CS_failed_fmt (st_hw s1) = printed CS_failed_fmt (st_hw s)).
      { apply (frame_printed CS_failed_fmt cs_names).
        eapply frame_weaken; [apply on_line_call_of|exact F1]. }
      apply runs_bind.
      apply runs_find_eye; [exact Hmax|rewrite (frame_size _ _ _ F1); exact Hcap|].
      intros left right Hfind.
      destruct ((left =? Eye.UNSET_DELAY) || (right =? Eye.UNSET_DELAY)) eqn:Hsides.
      + wp_more. split; [|split].
        * eapply cs_rank_kept_trans; [exact K1|apply cs_rank_kept_print; cs_fmt].
        * unfold CS_failed_fmt in *. trace_simpl. rewrite P1. reflexivity.
        * exists left, right. split.
          -- exists s, subtract, s1. split; [apply later_refl|]. split; [exact Escan|].
             split; [apply later_event|exact Hfind].
          -- apply orb_true_iff in Hsides. destruct Hsides as [H|H]; apply Z.eqb_eq in H; auto.
      + assert (Hfound : cs_eye_found env channel rank s s1).
        { exists left, right. split.
          - exists s, subtract, s1. split; [apply later_refl|]. split; [exact Escan|].
            split; [apply later_refl|exact Hfind].
          - apply orb_false_iff in Hsides. destruct Hsides as [Hl Hr].
            apply Z.eqb_neq in Hl, Hr. auto. }
        destruct subtract; wp_more; auto.
    - wp_more. split; [apply cs_rank_kept_refl|]. split; [reflexivity|].
      intros Hsc. exfalso. apply orb_false_iff in Hscanned. destruct Hscanned as [Ht Hr].
      apply bool_decide_eq_false in Ht. apply Z.eqb_neq in Hr.
      destruct Hsc as [Hsc|Hsc]; [apply Ht; exact Hsc|apply Hr; exact Hsc]. }
  intros [[right_side left_side]|] s1 [K1 [P1 E1]]; cbv beta; [|wp_more; auto].
  destruct K1 as (Hcfg1 & Hsz1 & K1').
  assert (K1 : cs_rank_kept channel rank coarse coarse s s1) by (split; [|split]; assumption).
  clear K1'.
  apply runs_bind. eapply runs_conseq; [apply CS_set_coarse_runs|].
  intros coarse2 s2 (K2 & S2 & D2 & P2). cbv beta.
  pose proof (cs_rank_kept_trans _ _ _ _ _ _ _ _ K1 K2) as K02.
  destruct K02 as (Hcfg2 & Hsz2 & K02').
  assert (K02 : cs_rank_kept channel rank coarse coarse2 s s2) by (split; [|split]; assumption).
  clear K02'.
  assert (Hmax2 : max_delay_taps (st_ctx s2) = max) by (apply config_max; exact Hcfg2).
  apply runs_bind. eapply runs_conseq; [apply CA_scan_line; rewrite ?Hmax2, ?Hsz2; lia|].
  intros _ s3 (_ & X3 & F3 & _). cbv beta.
  pose proof (cs_rank_kept_ca_frame channel rank 0 coarse2 _ _ F3) as K3.
  assert (P3 : printed CS_failed_fmt (st_hw s3) = printed CS_failed_fmt (st_hw s2)).
  { apply (frame_printed CS_failed_fmt ca_names).
    eapply frame_weaken; [apply on_line_call_of|exact F3]. }
  assert (S3 : cs_coarse_set channel coarse2 s3 rank).
  { destruct S2 as [Hp Hm]. split.
    - rewrite (ca_line_keeps_cs _ _ _ _ _ _ F3). exact Hp.
    - rewrite X3. exact Hm. }
  apply runs_bind.
  apply runs_find_eye; [exact Hmax|rewrite (frame_size _ _ _ F3), Hsz2; exact Hcap|].
  intros left right _.
  destruct (left - max <? 0).
  - wp_more. eapply runs_conseq; [apply CS_set_coarse_runs|].
    intros coarse4 s4 (K4 & S4 & D4 & P4). cbv beta. wp_more.
    assert (K34 : cs_rank_kept channel rank coarse2 coarse4 s2 s4).
    { eapply cs_rank_kept_trans; [exact K3|].
      eapply cs_rank_kept_trans; [|exact K4]. apply cs_rank_kept_print. cs_fmt. }
    split; [|split; [exact S4|split]].
    + eapply cs_rank_kept_trans; [exact K02|exact K34].
    + rewrite P4. unfold CS_failed_fmt in *. trace_simpl. rewrite P3, P2. exact P1.
    + intros Hsc. eapply (cs_eye_found_between channel rank s s s1);
        [apply later_refl| |reflexivity|exact (E1 Hsc)].
      eapply later_trans; [eapply cs_rank_kept_later; exact K2|].
      eapply cs_rank_kept_later; exact K34.
  - wp_more. split; [|split; [exact S3|split]].
    + eapply cs_rank_kept_trans; [exact K02|exact K3].
    + rewrite P3, P2. exact P1.
    + intros Hsc. eapply (cs_eye_found_between channel rank s s s1);
        [apply later_refl| |reflexivity|exact (E1 Hsc)].
      eapply later_trans; [eapply cs_rank_kept_later; exact K2|].
      eapply cs_rank_kept_later; exact K3.
Qed.

Lemma CS_training_runs channel success coarse s :
  1 <= max_delay_taps (st_ctx s) ->
  2 * max_delay_taps (st_ctx s) <= buffer_size s ->
  runs (CS_training env channel success coarse) s
    (fun res s' =>
       config (st_ctx s') = config (st_ctx s) /\ buffer_size s' = buffer_size s /\
       cs_events s s' /\
       exists n,
         0 <= n /\
         (forall r, 0 <= r < n ->
            cs_coarse_set channel (snd res) s' r /\
            (cs_scanned (st_ctx s) r -> cs_eye_found env channel r s s')) /\
         ((fst res = success /\ n = Z.max 0 (ranks (st_ctx s)) /\
           printed CS_failed_fmt (st_hw s') = printed CS_failed_fmt (st_hw s)) \/
          (fst res = 0 /\ n < ranks (st_ctx s) /\
           printed CS_failed_fmt (st_hw s') = printed CS_failed_fmt (st_hw s) ++ [[n]] /\
           cs_no_eye env channel n s s'))).
Proof.
  intros Hmax Hcap. unfold CS_training. wp_more.
  apply (runs_for_while (fun k (acc : bool * gmap (Z * Z) Z) s1 =>
           config (st_ctx s1) = config (st_ctx s) /\ buffer_size s1 = buffer_size s /\
           cs_events s s1 /\
           if fst acc
           then (forall r, 0 <= r < k ->
                   cs_coarse_set channel (snd acc) s1 r /\
                   (cs_scanned (st_ctx s) r -> cs_eye_found env channel r s s1)) /\
                printed CS_failed_fmt (st_hw s1) = printed CS_failed_fmt (st_hw s)
           else 1 <= k /\
                (forall r, 0 <= r < k - 1 ->
                   cs_coarse_set channel (snd acc) s1 r /\
                   (cs_scanned (st_ctx s) r -> cs_eye_found env channel r s s1)) /\
                printed CS_failed_fmt (st_hw s1)
                  = printed CS_failed_fmt (st_hw s) ++ [[k - 1]] /\
                cs_no_eye env channel (k - 1) s s1)).
  - split; [reflexivity|]. split; [reflexivity|]. split; [apply cs_events_refl|].
    cbn [fst]. split; [intros; lia|reflexivity].
  - intros k [ok co] s1 Hk Hcond (Hcfg & Hsz & Hev & Hinv). cbn [fst snd] in *. subst ok.
    destruct Hinv as [Hset Hpr]. apply runs_bind.
    eapply runs_conseq.
    { apply CS_training_rank_runs; rewrite ?(config_max _ _ Hcfg), ?Hsz; assumption. }
    intros [co'|] s2 Hres; cbv beta; wp_more; cbn [fst snd].
    + destruct Hres as (K & S & P & E). pose proof K as (Hcfg2 & Hsz2 & _ & _ & _ & Hev2).
      pose proof (cs_events_later _ _ Hev) as L1.
      pose proof (cs_events_later _ _ Hev2) as L2.
      pose proof (config_max _ _ Hcfg) as Hm1.
      split; [congruence|]. split; [congruence|].
      split; [eapply cs_events_trans; eassumption|]. split; [|congruence].
      intros r Hr. destruct (Z.eq_dec r k) as [->|Hne].
      * split; [exact S|]. intros Hsc.
        apply (cs_eye_found_between channel k s s1 s2 s2 L1 (later_refl _) Hm1).
        apply E. destruct (config_fields _ _ Hcfg) as (_ & _ & _ & Ht & _).
        unfold cs_scanned in *. rewrite Ht. exact Hsc.
      * destruct (Hset r ltac:(lia)) as [Hs He]. split.
        -- eapply cs_coarse_set_kept; [exact Hne|exact K|exact Hs].
        -- intros Hsc.
           apply (cs_eye_found_between channel r s s s1 s2 (later_refl _) L2 eq_refl).
           apply He. exact Hsc.
    + destruct Hres as (K & P & E). pose proof K as (Hcfg2 & Hsz2 & _ & _ & _ & Hev2).
      pose proof (cs_events_later _ _ Hev) as L1.
      pose proof (cs_events_later _ _ Hev2) as L2.
      pose proof (config_max _ _ Hcfg) as Hm1.
      split; [congruence|]. split; [congruence|].
      split; [eapply cs_events_trans; eassumption|]. split; [lia|]. split; [|split].
      * intros r Hr. destruct (Hset r ltac:(lia)) as [Hs He]. split.
        -- eapply cs_coarse_set_kept; [|exact K|exact Hs]. lia.
        -- intros Hsc.
           apply (cs_eye_found_between channel r s s s1 s2 (later_refl _) L2 eq_refl).
           apply He. exact Hsc.
      * rewrite P, Hpr. repeat f_equal; lia.
      * replace (k + 1 - 1) with k by lia.
        exact (cs_no_eye_between channel k s s1 s2 s2 L1 (later_refl _) Hm1 E).
  - intros k [ok co] s' Hk (Hcfg & Hsz & Hev & Hinv) Hstop. cbn [fst snd] in *. wp_more.
    cbn [fst snd]. split; [exact Hcfg|]. split; [exact Hsz|]. split; [exact Hev|].
    destruct ok.
    + destruct Hinv as [Hset Hpr]. exists k. split; [lia|]. split; [exact Hset|]. left.
      split; [reflexivity|]. split; [|exact Hpr].
      destruct (Z.lt_ge_cases k (0 + Z.of_nat (Z.to_nat (ranks (st_ctx s))))) as [Hlt|Hge];
        [specialize (Hstop Hlt); discriminate|lia].
    + destruct Hinv as (Hk1 & Hset & Hpr & Hno). exists (k - 1). split; [lia|].
      split; [exact Hset|]. right. split; [reflexivity|]. split; [lia|]. split; assumption.
Qed.

(** X23: [CS_training] handles the ranks of the channel in order and
    stops, with 0 in [*success], at the first rank whose CS scan shows no
    eye: the rank it reports is one whose CS scan ran and left samples in
    which [find_eye_in_helper_arr], started with both sides unset, misses a
    side.  Every rank handled before that was scanned (all of them, except
    the odd ranks behind an RCD) had a CS scan whose samples show both
    sides of an eye, and has its CS delay line programmed with the coarse
    delay stored for it, which is the midpoint of the eye stored for the
    rank, or no delay when that midpoint is negative; the scans of the later
    ranks do not disturb it.  When no rank fails, [*success] is as on entry
    and this holds for all ranks. *)
Theorem CS_training_coarse_delays channel success coarse s :
  1 <= max_delay_taps (st_ctx s) ->
  2 * max_delay_taps (st_ctx s) <= buffer_size s ->
  runs (CS_training env channel success coarse) s
    (fun res s' =>
       exists n,
         0 <= n /\
         (forall r, 0 <= r < n ->
            cs_coarse_set channel (snd res) s' r /\
            (cs_scanned (st_ctx s) r -> cs_eye_found env channel r s s')) /\
         ((fst res = success /\ n = Z.max 0 (ranks (st_ctx s)) /\
           printed CS_failed_fmt (st_hw s') = printed CS_failed_fmt (st_hw s)) \/
          (fst res = 0 /\ n < ranks (st_ctx s) /\
           printed CS_failed_fmt (st_hw s') = printed CS_failed_fmt (st_hw s) ++ [[n]] /\
           cs_no_eye env channel n s s'))).
Proof.
  intros Hmax Hcap. eapply runs_conseq; [apply CS_training_runs; assumption|].
  intros res s' (_ & _ & _ & H). exact H.
Qed.

End CSTrainingFacts.

Lemma CS_training_coarse_delays_witness :
  1 <= max_delay_taps (st_ctx bench_state) /\
  2 * max_delay_taps (st_ctx bench_state) <= buffer_size bench_state /\
  runs (CS_training env_all_fail 0 1 ∅) bench_state
    (fun res s' => fst res = 0 /\ cs_no_eye env_all_fail 0 0 bench_state s').
Proof.
  assert (H1 : 1 <= max_delay_taps (st_ctx bench_state)) by (cbn; lia).
  assert (H2 : 2 * max_delay_taps (st_ctx bench_state) <= buffer_size bench_state)
    by (vm_compute; discriminate).
  split; [exact H1|]. split; [exact H2|].
  destruct (CS_training_coarse_delays env_all_fail 0 1 ∅ bench_state H1 H2)
    as (res & s' & E & n & Hn & _ & Hcase).
  exists res, s'. split; [exact E|].
  assert (P0 : printed CS_failed_fmt (st_hw s') = [[0]]).
  { clear Hcase. vm_compute in E. injection E as <- <-. reflexivity. }
  destruct Hcase as [(_ & _ & P)|(-> & _ & P & Eno)].
  - exfalso. rewrite P0 in P. revert P. clear. vm_compute. discriminate.
  - split; [reflexivity|]. assert (n = 0) as ->; [|exact Eno].
    rewrite P0 in P. revert P. clear. vm_compute. intros P. injection P as P. lia.
Defined.

(** * Enumeration of the modules *)

Lemma seqZ_max m n : seqZ m (Z.max 0 n) = seqZ m n.
Proof. unfold seqZ. replace (Z.to_nat (Z.max 0 n)) with (Z.to_nat n) by lia. reflexivity. Qed.

Lemma enumerate_calls_snoc rank width c modules :
  0 <= c ->
  enumerate_calls rank width (c + 1) modules
  = enumerate_calls rank width c modules ++ ((fun m => [c; rank; m; width; 0]) <$> modules).
Proof.
  intros Hc. unfold enumerate_calls. rewrite seqZ_snoc by exact Hc.
  rewrite bind_app. cbn. rewrite app_nil_r. reflexivity.
Qed.

Lemma ok_and_odd ok c : ok_and ok c = ok && Z.odd c.
Proof.
  unfold ok_and. destruct ok; cbn [bool_to_int andb].
  - rewrite land_1_odd. destruct (Z.odd c); reflexivity.
  - reflexivity.
Qed.

Section EnumerateFacts.

Variable env : env_t.
Variable MODULE_BROADCAST : Z.
Variable KEEP_GOING_ON_DRAM_ERROR : bool.

(** A loop over a range that may be empty. *)
Lemma runs_for_range_max (I : Z -> state -> Prop) lo hi body s (Q : unit -> state -> Prop) :
  I lo s ->
  (forall i s1, lo <= i < hi -> I i s1 -> runs (body i) s1 (fun _ s2 => I (i + 1) s2)) ->
  (forall s', I (Z.max lo hi) s' -> Q tt s') ->
  runs (for_range lo hi body) s Q.
Proof.
  intros H0 Hstep HQ. destruct (Z.le_gt_cases lo hi) as [Hle|Hgt].
  - apply (runs_for_range I); [exact Hle|exact H0|exact Hstep|].
    intros s' H. apply HQ. replace (Z.max lo hi) with hi by lia. exact H.
  - apply runs_for_range_empty; [lia|]. apply HQ.
    replace (Z.max lo hi) with lo by lia. exact H0.
Qed.

Lemma sdram_ddr5_module_enumerate_runs rank width channels modules s :
  runs (sdram_ddr5_module_enumerate env rank width channels modules) s
    (fun enumerated s' =>
       st_ctx s' = st_ctx s /\
       answers "check_enumerate" (st_hw s') = answers "check_enumerate" (st_hw s) /\
       calls "check_enumerate" (st_hw s') = calls "check_enumerate" (st_hw s) /\
       calls "send_mrw" (st_hw s') = calls "send_mrw" (st_hw s) /\
       if modules >? 15
       then enumerated = 0 /\
            calls "setup_enumerate" (st_hw s') = calls "setup_enumerate" (st_hw s)
       else enumerated = 1 /\
            calls "setup_enumerate" (st_hw s')
              = calls "setup_enumerate" (st_hw s)
                  ++ enumerate_calls rank width channels (seqZ 0 modules)).
Proof.
  unfold sdram_ddr5_module_enumerate. destruct (modules >? 15).
  { wp_more. trace_simpl. auto 10. }
  wp_more.
  set (keeps := fun s1 : state =>
         st_ctx s1 = st_ctx s /\
         answers "check_enumerate" (st_hw s1) = answers "check_enumerate" (st_hw s) /\
         calls "check_enumerate" (st_hw s1) = calls "check_enumerate" (st_hw s) /\
         calls "send_mrw" (st_hw s1) = calls "send_mrw" (st_hw s)).
  apply (runs_for_range_max (fun c s1 =>
           keeps s1 /\
           calls "setup_enumerate" (st_hw s1)
             = calls "setup_enumerate" (st_hw s)
                 ++ enumerate_calls rank width c (seqZ 0 modules))).
  - split; [unfold keeps; trace_simpl; auto|]. trace_simpl.
    change (enumerate_calls rank width 0 (seqZ 0 modules)) with (@nil (list Z)).
    rewrite ?app_nil_r. reflexivity.
  - intros c s1 Hc [K1 C1]. wp_more.
    apply (runs_for_range_max (fun m s2 =>
             keeps s2 /\
             calls "setup_enumerate" (st_hw s2)
               = calls "setup_enumerate" (st_hw s)
                   ++ enumerate_calls rank width c (seqZ 0 modules)
                   ++ ((fun m => [c; rank; m; width; 0]) <$> seqZ 0 m))).
    + split; [unfold keeps in *; trace_simpl; exact K1|].
      trace_simpl; rewrite C1; cbn; rewrite ?app_nil_r; reflexivity.
    + intros m s2 Hm [K2 C2]. wp_more.
      split; [unfold keeps in *; trace_simpl; exact K2|]. trace_simpl.
      rewrite C2, seqZ_snoc, fmap_app by lia. cbn [fmap list_fmap].
      rewrite <- !app_assoc. repeat f_equal; lia.
    + intros s2 [K2 C2]. split; [exact K2|].
      rewrite C2, seqZ_max, enumerate_calls_snoc by lia. reflexivity.
  - intros s1 [(X1 & A1 & K1 & M1) C1]. wp_more. rewrite C1.
    split; [exact X1|]. split; [exact A1|]. split; [exact K1|]. split; [exact M1|].
    split; [reflexivity|]. unfold enumerate_calls. rewrite seqZ_max. reflexivity.
Qed.

Lemma sdram_ddr5_check_enumerate_runs use_internal_write_timing single_cycle_MPC
    rank width channels modules s :
  runs (sdram_ddr5_check_enumerate env MODULE_BROADCAST KEEP_GOING_ON_DRAM_ERROR
          1 use_internal_write_timing single_cycle_MPC rank width channels modules) s
    (fun ok s' =>
       st_ctx s' = st_ctx s /\
       calls "setup_enumerate" (st_hw s') = calls "setup_enumerate" (st_hw s) /\
       calls "check_enumerate" (st_hw s')
         = calls "check_enumerate" (st_hw s)
             ++ enumerate_calls rank width channels (-1 :: seqZ 0 modules) /\
       exists xs,
         answers "check_enumerate" (st_hw s') = answers "check_enumerate" (st_hw s) ++ xs /\
         ok = KEEP_GOING_ON_DRAM_ERROR || forallb Z.odd xs).
Proof.
  unfold sdram_ddr5_check_enumerate. change (negb (truthy 1)) with false. cbv iota.
  wp_more. unfold for_acc at 1.
  apply (runs_for_while (fun c ok s1 =>
           st_ctx s1 = st_ctx s /\
           calls "setup_enumerate" (st_hw s1) = calls "setup_enumerate" (st_hw s) /\
           calls "check_enumerate" (st_hw s1)
             = calls "check_enumerate" (st_hw s)
                 ++ enumerate_calls rank width c (-1 :: seqZ 0 modules) /\
           exists xs,
             answers "check_enumerate" (st_hw s1)
               = answers "check_enumerate" (st_hw s) ++ xs /\
             ok = forallb Z.odd xs)).
  - split; [reflexivity|]. trace_simpl. split; [reflexivity|].
    change (enumerate_calls rank width 0 (-1 :: seqZ 0 modules)) with (@nil (list Z)).
    split; [rewrite ?app_nil_r; reflexivity|].
    exists []. split; [rewrite ?app_nil_r; reflexivity|reflexivity].
  - intros c ok s1 Hc _ (X1 & S1 & C1 & xs & A1 & ->). wp_more.
    set (b := env _ "check_enumerate" _). unfold for_acc.
    apply (runs_for_while (fun m ok s2 =>
             st_ctx s2 = st_ctx s /\
             calls "setup_enumerate" (st_hw s2) = calls "setup_enumerate" (st_hw s) /\
             calls "check_enumerate" (st_hw s2)
               = calls "check_enumerate" (st_hw s)
                   ++ enumerate_calls rank width c (-1 :: seqZ 0 modules)
                   ++ ((fun m => [c; rank; m; width; 0]) <$> (-1 :: seqZ 0 m)) /\
             exists ys,
               answers "check_enumerate" (st_hw s2)
                 = answers "check_enumerate" (st_hw s) ++ ys /\
               ok = forallb Z.odd ys)).
    + split; [exact X1|]. trace_simpl. split; [exact S1|].
      split; [rewrite C1, <- app_assoc; reflexivity|]. exists (xs ++ [b]).
      split; [rewrite A1, app_assoc; reflexivity|].
      rewrite ok_and_odd, forallb_app. cbn. rewrite andb_true_r. reflexivity.
    + intros m ok s2 Hm _ (X2 & S2 & C2 & ys & A2 & ->). wp_more.
      set (b2 := env _ "check_enumerate" _).
      split; [exact X2|]. trace_simpl. split; [exact S2|]. split.
      * rewrite C2, seqZ_snoc by lia. cbn [fmap list_fmap]. rewrite fmap_app.
        cbn [fmap list_fmap]. rewrite <- !app_assoc. cbn [app]. repeat f_equal; lia.
      * exists (ys ++ [b2]). split; [rewrite A2, app_assoc; reflexivity|].
        rewrite ok_and_odd, forallb_app. cbn. rewrite andb_true_r. reflexivity.
    + intros m ok s2 Hm (X2 & S2 & C2 & ys & A2 & ->) Hstop. wp_more.
      assert (m = Z.max 0 modules) as ->.
      { destruct (Z.lt_ge_cases m (0 + Z.of_nat (Z.to_nat (modules - 0)))) as [Hlt|Hge];
          [specialize (Hstop Hlt); discriminate|lia]. }
      split; [exact X2|]. trace_simpl. split; [exact S2|]. split.
      * rewrite C2, seqZ_max, enumerate_calls_snoc by lia. reflexivity.
      * exists ys. auto.
  - intros c ok s1 Hc (X1 & S1 & C1 & xs & A1 & ->) Hstop. wp_more.
    assert (c = Z.max 0 channels) as ->.
    { destruct (Z.lt_ge_cases c (0 + Z.of_nat (Z.to_nat (channels - 0)))) as [Hlt|Hge];
        [specialize (Hstop Hlt); discriminate|lia]. }
    split; [exact X1|]. split; [exact S1|]. split.
    + rewrite C1. unfold enumerate_calls. rewrite seqZ_max. reflexivity.
    + exists xs. split; [exact A1|]. destruct KEEP_GOING_ON_DRAM_ERROR; reflexivity.
Qed.

(** X24: [dram_enumerate] refuses a rank of more than 15 modules: it
    returns [false] and sets up and checks nothing.  Otherwise it sets up
    every module of every channel, channel by channel, and then checks, for
    every channel, the base line and every module; it makes all the checks
    whatever the earlier ones gave, and returns [true] exactly when all
    of them answered with bit 0 set (always, when built with
    [KEEP_GOING_ON_DRAM_ERROR]). *)
Theorem dram_enumerate_checks_all use_internal_write_timing single_cycle_MPC rank s :
  runs (dram_enumerate env MODULE_BROADCAST KEEP_GOING_ON_DRAM_ERROR
          use_internal_write_timing single_cycle_MPC rank) s
    (fun res s' =>
       let ctx := st_ctx s in
       st_ctx s' = ctx /\
       if modules ctx >? 15 then
         res = (false, 0) /\
         calls "setup_enumerate" (st_hw s') = calls "setup_enumerate" (st_hw s) /\
         calls "check_enumerate" (st_hw s') = calls "check_enumerate" (st_hw s) /\
         calls "send_mrw" (st_hw s') = calls "send_mrw" (st_hw s)
       else
         snd res = 1 /\
         calls "setup_enumerate" (st_hw s')
           = calls "setup_enumerate" (st_hw s)
               ++ enumerate_calls rank (die_width ctx) (channels ctx) (seqZ 0 (modules ctx)) /\
         calls "check_enumerate" (st_hw s')
           = calls "check_enumerate" (st_hw s)
               ++ enumerate_calls rank (die_width ctx) (channels ctx)
                    (-1 :: seqZ 0 (modules ctx)) /\
         exists xs,
           answers "check_enumerate" (st_hw s')
             = answers "check_enumerate" (st_hw s) ++ xs /\
           fst res = KEEP_GOING_ON_DRAM_ERROR || forallb Z.odd xs).
Proof.
  unfold dram_enumerate. wp_more.
  eapply runs_conseq; [apply sdram_ddr5_module_enumerate_runs|].
  intros enumerated s1 (X1 & A1 & K1 & M1 & Hset). cbv beta. cbv zeta.
  destruct (modules (st_ctx s) >? 15).
  - destruct Hset as [-> S1]. unfold sdram_ddr5_check_enumerate.
    change (negb (truthy 0)) with true. cbv iota. wp_more. auto 10.
  - destruct Hset as [-> S1]. apply runs_bind.
    eapply runs_conseq; [apply sdram_ddr5_check_enumerate_runs|].
    intros ok s2 (X2 & S2 & C2 & xs & A2 & ->). cbv beta. wp_more. cbn [fst snd].
    split; [congruence|]. split; [reflexivity|]. split; [rewrite S2; exact S1|].
    split; [rewrite C2, K1; reflexivity|]. exists xs. split; [rewrite A2, A1; reflexivity|].
    reflexivity.
Qed.

End EnumerateFacts.

(** * What a procedure adds to the trace *)

Lemma adds_refl ok s : adds ok s s.
Proof. exists []. split; [reflexivity|constructor]. Qed.

Lemma adds_trans ok s s1 s2 : adds ok s s1 -> adds ok s1 s2 -> adds ok s s2.
Proof.
  intros (e1 & H1 & F1) (e2 & H2 & F2). exists (e2 ++ e1).
  rewrite H2, H1, app_assoc. split; [reflexivity|]. apply Forall_app. auto.
Qed.

Lemma adds_same_hw ok s s' : st_hw s' = st_hw s -> adds ok s s'.
Proof. intros H. exists []. split; [exact H|constructor]. Qed.

Lemma adds_printed names fmts fmt s s' :
  fmt ∉ fmts -> adds (event_in names fmts) s s' ->
  printed fmt (st_hw s') = printed fmt (st_hw s).
Proof.
  intros Hn (evs & -> & F). induction F as [|e evs He _ IH]; [reflexivity|].
  destruct e as [n args r|f args]; cbn [app].
  - rewrite printed_Call. exact IH.
  - rewrite printed_Print, IH.
    rewrite bool_decide_eq_false_2 by (intros ->; apply Hn; exact He). apply app_nil_r.
Qed.

Lemma adds_calls names fmts name s s' :
  name ∉ names -> adds (event_in names fmts) s s' ->
  calls name (st_hw s') = calls name (st_hw s).
Proof.
  intros Hn (evs & -> & F). induction F as [|e evs He _ IH]; [reflexivity|].
  destruct e as [n args r|f args]; cbn [app].
  - rewrite calls_Call, IH.
    rewrite bool_decide_eq_false_2 by (intros ->; apply Hn; exact He). apply app_nil_r.
  - rewrite calls_Print. exact IH.
Qed.

Lemma adds_programmed names fmts rst inc sel s s' :
  rst ∉ names -> inc ∉ names -> adds (event_in names fmts) s s' ->
  programmed_delay rst inc sel (st_hw s') = programmed_delay rst inc sel (st_hw s).
Proof.
  intros Hr Hi (evs & -> & F). induction F as [|e evs He _ IH]; [reflexivity|].
  cbn [app]. rewrite programmed_delay_other; [exact IH| |].
  - intros args r ->. apply Hr. exact He.
  - intros args r ->. apply Hi. exact He.
Qed.

Lemma adds_later ok s s' : adds ok s s' -> later s s'.
Proof. intros (evs & H & _). exists evs. exact H. Qed.

Lemma frame_later ok s s' : frame ok s s' -> later s s'.
Proof. intros [_ _ (evs & H & _)]. exists evs. exact H. Qed.

Section OnlyAdds.

Variable ok : event -> Prop.

Lemma only_adds_ret {A} (a : A) : only_adds ok (mret a : M A).
Proof. intros s a' s' H. injection H as _ <-. apply adds_refl. Qed.

Lemma only_adds_bind {A B} (m : M A) (f : A -> M B) :
  only_adds ok m -> (forall a, only_adds ok (f a)) -> only_adds ok (m ≫= f).
Proof.
  intros Hm Hf s b s' H. unfold mbind, M_bind in H.
  destruct (m s) as [[a s1]|] eqn:E; [|discriminate].
  eapply adds_trans; [exact (Hm _ _ _ E)|exact (Hf _ _ _ _ H)].
Qed.

Lemma only_adds_modify f : (forall s, st_hw (f s) = st_hw s) -> only_adds ok (modify f).
Proof. intros Hf s a s' H. injection H as _ <-. apply adds_same_hw, Hf. Qed.

Lemma only_adds_get_ctx : only_adds ok get_ctx.
Proof. intros s a s' H. injection H as _ <-. apply adds_refl. Qed.

Lemma only_adds_read_helper {A} (f : Eye.helper_t -> option A) : only_adds ok (read_helper f).
Proof.
  intros s a s' H. unfold read_helper in H. destruct (f (st_helper s)); [|discriminate].
  injection H as _ <-. apply adds_refl.
Qed.

Lemma only_adds_lift_helper f : only_adds ok (lift_helper f).
Proof.
  intros s a s' H. unfold lift_helper in H. destruct (f (st_helper s)); [|discriminate].
  injection H as _ <-. apply adds_same_hw. reflexivity.
Qed.

Lemma only_adds_printf fmt args : ok (Print fmt args) -> only_adds ok (printf fmt args).
Proof.
  intros Hok s a s' H. injection H as _ <-. exists [Print fmt args].
  split; [reflexivity|]. apply Forall_singleton. exact Hok.
Qed.

Lemma only_adds_call env name args :
  (forall r, ok (Call name args r)) -> only_adds ok (call env name args).
Proof.
  intros Hok s a s' H. injection H as _ <-. eexists [_].
  split; [reflexivity|]. apply Forall_singleton. apply Hok.
Qed.

Lemma only_adds_call_ env name args :
  (forall r, ok (Call name args r)) -> only_adds ok (call_ env name args).
Proof.
  intros Hok. unfold call_. apply only_adds_bind; [apply only_adds_call; exact Hok|].
  intros _. apply only_adds_ret.
Qed.

Lemma only_adds_for_loop n i body :
  (forall i, only_adds ok (body i)) -> only_adds ok (for_loop n i body).
Proof.
  intros Hb. revert i. induction n as [|n IH]; intros i; cbn [for_loop].
  - apply only_adds_ret.
  - apply only_adds_bind; [apply Hb|]. intros _. apply IH.
Qed.

Lemma only_adds_for_range lo hi body :
  (forall i, only_adds ok (body i)) -> only_adds ok (for_range lo hi body).
Proof. apply only_adds_for_loop. Qed.

Lemma only_adds_for_while {S : Type} n i (cond : S -> bool) body (acc : S) :
  (forall i acc, only_adds ok (body i acc)) -> only_adds ok (for_while n i cond body acc).
Proof.
  intros Hb. revert i acc. induction n as [|n IH]; intros i acc; cbn [for_while].
  - apply only_adds_ret.
  - destruct (cond acc); [|apply only_adds_ret].
    apply only_adds_bind; [apply Hb|]. intros acc'. apply IH.
Qed.

End OnlyAdds.

(** A run that returns has the frame that the procedure has whenever it
    returns. *)
Lemma runs_only_adds {A} ok (m : M A) s (Q : A -> state -> Prop) :
  only_adds ok m -> runs m s Q -> runs m s (fun a s' => Q a s' /\ adds ok s s').
Proof.
  intros Hm (a & s' & Hrun & HQ). exists a, s'. split; [exact Hrun|].
  split; [exact HQ|]. exact (Hm _ _ _ Hrun).
Qed.

(** Goes through a procedure made of the primitive operations. *)
Ltac only_adds_step :=
  lazymatch goal with
  | |- only_adds _ (mbind _ _) => apply only_adds_bind; [|intros ?]
  | |- only_adds _ (mret _) => apply only_adds_ret
  | |- only_adds _ get_ctx => apply only_adds_get_ctx
  | |- only_adds _ (call_ _ _ _) => apply only_adds_call_; intros ?
  | |- only_adds _ (call _ _ _) => apply only_adds_call; intros ?
  | |- only_adds _ (printf _ _) => apply only_adds_printf
  | |- only_adds _ (modify _) => apply only_adds_modify; intros ?; reflexivity
  | |- only_adds _ clear_helper_arr => apply only_adds_modify; intros ?; reflexivity
  | |- only_adds _ (set_helper_arr_value_and_advance _) => apply only_adds_lift_helper
  | |- only_adds _ (find_eye_in_helper_arr _ _ _) => apply only_adds_read_helper
  | |- only_adds _ (for_range _ _ _) => apply only_adds_for_range; intros ?
  | |- only_adds _ (for_while _ _ _ _ _) => apply only_adds_for_while; intros ? ?
  | |- only_adds _ (if ?b then _ else _) => destruct b
  | |- only_adds _ (match ?p with (_, _) => _ end) => destruct p
  end.

Ltac event_in_names :=
  unfold ca_training_event; cbn [event_in]; unfold ca_names, CA_window_fmt, CA_failed_fmt;
  repeat first [apply list_elem_of_here | apply list_elem_of_further].

Section CAAdds.

Variable env : env_t.

Lemma CA_training_only_adds channel success :
  only_adds ca_training_event (CA_training env channel success).
Proof.
  unfold CA_training, CA_training_line, CA_scan, CA_scan_single.
  repeat only_adds_step; event_in_names.
Qed.

End CAAdds.

(** * CS/CA training of a channel *)

Lemma snoc_ne {A} (l : list A) x : l ++ [x] <> l.
Proof.
  intros H. apply (f_equal length) in H. rewrite length_app in H. cbn in H. lia.
Qed.

Section ChannelFacts.

Variable env : env_t.
Variable KEEP_GOING_ON_DRAM_ERROR : bool.

Lemma CA_check_lines_runs channel rank s :
  runs (CA_check_lines env channel rank) s
    (fun _ s' =>
       max_delay_taps (st_ctx s') = max_delay_taps (st_ctx s) /\
       ranks (st_ctx s') = ranks (st_ctx s) /\
       buffer_size s' = buffer_size s /\
       (ca_line_count (st_ctx s') = 13 \/ ca_line_count (st_ctx s') = 14 \/
        training_type (st_ctx s) <> HOST_DRAM /\
        ca_line_count (st_ctx s') = ca_line_count (st_ctx s)) /\
       printed CS_failed_fmt (st_hw s') = printed CS_failed_fmt (st_hw s) /\
       printed CA_failed_fmt (st_hw s') = printed CA_failed_fmt (st_hw s)).
Proof.
  unfold CA_check_lines. wp_more.
  destruct (bool_decide_reflect (training_type (st_ctx s) = HOST_DRAM)) as [Hd|Hd].
  - wp_more. unfold CS_failed_fmt, CA_failed_fmt.
    cbn [st_hw set_hw set_ctx]. trace_simpl. cbn [st_hw set_hw set_ctx]. trace_simpl.
    cbn [st_ctx set_ctx set_hw max_delay_taps ranks ca_line_count set_ca_line_count].
    split; [reflexivity|]. split; [reflexivity|]. split; [reflexivity|].
    split; [destruct (truthy _); auto|]. split; reflexivity.
  - wp_more. unfold CS_failed_fmt, CA_failed_fmt. trace_simpl.
    split; [reflexivity|]. split; [reflexivity|]. split; [reflexivity|].
    split; [right; right; auto|]. split; reflexivity.
Qed.

(** X25: [sdram_ddr5_cs_ca_channel_training] returns [true] exactly when
    neither [CS_training] nor [CA_training] has reported a rank or a line
    without an eye (always, when built with [KEEP_GOING_ON_DRAM_ERROR]).
    Built to stop at errors, it does not start the CA training after a CS
    failure: the number of address lines is not looked up. *)
Theorem sdram_ddr5_cs_ca_channel_training_result channel coarse s :
  1 <= max_delay_taps (st_ctx s) ->
  2 * max_delay_taps (st_ctx s) <= buffer_size s ->
  0 <= ranks (st_ctx s) -> 0 <= ca_line_count (st_ctx s) ->
  runs (sdram_ddr5_cs_ca_channel_training env KEEP_GOING_ON_DRAM_ERROR channel coarse) s
    (fun res s' =>
       (fst res = true <->
        KEEP_GOING_ON_DRAM_ERROR = true \/
        (printed CS_failed_fmt (st_hw s') = printed CS_failed_fmt (st_hw s) /\
         printed CA_failed_fmt (st_hw s') = printed CA_failed_fmt (st_hw s))) /\
       (KEEP_GOING_ON_DRAM_ERROR = false ->
        printed CS_failed_fmt (st_hw s') <> printed CS_failed_fmt (st_hw s) ->
        printed "CA training" (st_hw s') = printed "CA training" (st_hw s) /\
        calls "ca.has_line13" (st_hw s') = calls "ca.has_line13" (st_hw s))).
Proof.
  intros Hmax Hcap Hranks Hlines. unfold sdram_ddr5_cs_ca_channel_training. wp_more.
  match goal with |- runs _ ?s0 _ => set (s0' := s0) end.
  assert (E0 : st_ctx s0' = st_ctx s /\ buffer_size s0' = buffer_size s /\
               printed CS_failed_fmt (st_hw s0') = printed CS_failed_fmt (st_hw s) /\
               printed CA_failed_fmt (st_hw s0') = printed CA_failed_fmt (st_hw s) /\
               printed "CA training" (st_hw s0') = printed "CA training" (st_hw s) /\
               calls "ca.has_line13" (st_hw s0') = calls "ca.has_line13" (st_hw s)).
  { subst s0'. unfold CS_failed_fmt, CA_failed_fmt. trace_simpl. auto 10. }
  destruct E0 as (X0 & Z0 & PS0 & PA0 & PT0 & KH0). clearbody s0'.
  eapply runs_conseq; [apply CS_training_runs; rewrite ?X0, ?Z0; assumption|].
  intros [CS_success coarse1] s1 (Hcfg1 & Hsz1 & Hev1 & n & _ & _ & Hres). cbv beta.
  cbn [fst snd] in Hres.
  assert (PA1 : printed CA_failed_fmt (st_hw s1) = printed CA_failed_fmt (st_hw s)).
  { rewrite <- PA0. apply cs_events_printed; [|exact Hev1].
    unfold cs_fmts, CA_failed_fmt. name_out. }
  assert (PT1 : printed "CA training" (st_hw s1) = printed "CA training" (st_hw s)).
  { rewrite <- PT0. apply cs_events_printed; [|exact Hev1]. unfold cs_fmts. name_out. }
  assert (KH1 : calls "ca.has_line13" (st_hw s1) = calls "ca.has_line13" (st_hw s)).
  { rewrite <- KH0. apply cs_events_calls; [|exact Hev1].
    unfold scan_names, cs_names, ca_names. cbn [app]. name_out. }
  destruct (config_fields _ _ Hcfg1) as (_ & Hrk1 & Hmx1 & _ & Hlc1).
  rewrite X0 in Hrk1, Hmx1, Hlc1.
  (* the rest, once CS training is over *)
  assert (Hrest : forall PS : Prop,
            (PS <-> printed CS_failed_fmt (st_hw s1) = printed CS_failed_fmt (st_hw s)) ->
            (KEEP_GOING_ON_DRAM_ERROR = false -> PS /\ CS_success = 1) ->
            runs (printf "CA training" [];;
                  CA_check_lines env channel 0;;
                  CA_success ← CA_training env channel 1;
                  if negb KEEP_GOING_ON_DRAM_ERROR && negb (truthy CA_success)
                  then mret (false, coarse1)
                  else mret (if KEEP_GOING_ON_DRAM_ERROR then true
                             else truthy (Z.land CS_success CA_success), coarse1)) s1
              (fun res s' =>
                 (fst res = true <->
                  KEEP_GOING_ON_DRAM_ERROR = true \/
                  (printed CS_failed_fmt (st_hw s') = printed CS_failed_fmt (st_hw s) /\
                   printed CA_failed_fmt (st_hw s') = printed CA_failed_fmt (st_hw s))) /\
                 (KEEP_GOING_ON_DRAM_ERROR = false ->
                  printed CS_failed_fmt (st_hw s') <> printed CS_failed_fmt (st_hw s) ->
                  printed "CA training" (st_hw s') = printed "CA training" (st_hw s) /\
                  calls "ca.has_line13" (st_hw s') = calls "ca.has_line13" (st_hw s)))).
  { intros PS HPS Hkeep. wp_more.
    eapply runs_conseq; [apply CA_check_lines_runs|].
    intros _ s2 (Hmx2 & Hrk2 & Hsz2 & Hlc2 & PS2 & PA2). cbv beta.
    cbn [st_ctx st_hw set_hw] in Hmx2, Hrk2, Hsz2, Hlc2, PS2, PA2.
    unfold CS_failed_fmt, CA_failed_fmt in PS2, PA2. rewrite !printed_Print in PS2, PA2.
    rewrite !bool_decide_eq_false_2, !app_nil_r in PS2, PA2 by discriminate.
    fold CS_failed_fmt in PS2. fold CA_failed_fmt in PA2.
    assert (Hsz2' : buffer_size s2 = buffer_size s1) by exact Hsz2.
    apply runs_bind. eapply runs_conseq.
    { apply runs_only_adds; [apply CA_training_only_adds|].
      apply CA_training_runs; rewrite ?Hmx2, ?Hrk2, ?Hsz2', ?Hmx1, ?Hrk1, ?Hsz1, ?Z0; lia. }
    intros CA_success s3 [(ok & -> & _ & _ & new & _ & _ & Hok & Hbad) Hadds]. cbv beta.
    assert (PS3 : printed CS_failed_fmt (st_hw s3) = printed CS_failed_fmt (st_hw s1)).
    { rewrite <- PS2. apply (adds_printed ca_names [CA_window_fmt; CA_failed_fmt]);
        [|exact Hadds]. unfold CA_window_fmt, CA_failed_fmt, CS_failed_fmt. name_out. }
    destruct KEEP_GOING_ON_DRAM_ERROR.
    - cbn [negb andb]. wp_more. split; [split; auto|]. intros H. discriminate H.
    - cbn [negb andb]. destruct (Hkeep eq_refl) as [HP ->]. apply HPS in HP.
      destruct ok.
      + change (negb (truthy 1)) with false. cbv iota. wp_more. cbn [fst].
        destruct (Hok eq_refl) as [PA3 _].
        split.
        * split; [intros _; right|reflexivity].
          split; [rewrite PS3; exact HP|rewrite PA3, PA2; exact PA1].
        * intros _ Hne. exfalso. apply Hne. rewrite PS3. exact HP.
      + change (negb (truthy 0)) with true. cbv iota. wp_more. cbn [fst].
        destruct (Hbad eq_refl) as [a PA3].
        split.
        * split; [discriminate|]. intros [H|[_ H]]; [discriminate H|].
          exfalso. rewrite PA3, PA2, PA1 in H. exact (snoc_ne _ _ H).
        * intros _ Hne. exfalso. apply Hne. rewrite PS3. exact HP. }
  destruct Hres as [(-> & _ & PS1)|(-> & _ & PS1 & _)].
  - (* CS training has passed *)
    change (negb (truthy 1)) with false. rewrite andb_false_r.
    apply (Hrest True); [|auto]. split; [intros _; rewrite PS1; exact PS0|auto].
  - (* CS training has failed *)
    change (negb (truthy 0)) with true. rewrite andb_true_r.
    destruct KEEP_GOING_ON_DRAM_ERROR eqn:Hk.
    + cbn [negb]. apply (Hrest False); [|discriminate].
      split; [intros []|]. intros H. rewrite PS1, PS0 in H. exact (snoc_ne _ _ H).
    + cbn [negb]. wp_more. cbn [fst]. split.
      * split; [discriminate|]. intros [H|[H _]]; [discriminate H|].
        exfalso. rewrite PS1, PS0 in H. exact (snoc_ne _ _ H).
      * intros _ _. split; [exact PT1|exact KH1].
Qed.

End ChannelFacts.

Lemma sdram_ddr5_cs_ca_channel_training_result_witness :
  1 <= max_delay_taps (st_ctx bench_state) /\
  2 * max_delay_taps (st_ctx bench_state) <= buffer_size bench_state /\
  runs (sdram_ddr5_cs_ca_channel_training env_all_fail true 0 ∅) bench_state
    (fun res _ => fst res = true).
Proof.
  assert (H1 : 1 <= max_delay_taps (st_ctx bench_state)) by (cbn; lia).
  assert (H2 : 2 * max_delay_taps (st_ctx bench_state) <= buffer_size bench_state)
    by (vm_compute; discriminate).
  split; [exact H1|]. split; [exact H2|].
  eapply runs_conseq.
  { apply (sdram_ddr5_cs_ca_channel_training_result env_all_fail true 0 ∅ bench_state H1 H2);
      cbn; lia. }
  intros res s' [H _]. apply H. left. reflexivity.
Defined.

(** * What a procedure returns, when it returns *)

Section Returning.

Context {A B : Type}.

Lemma returning_ret (a : A) s (Q : A -> state -> Prop) : Q a s -> returning (mret a) s Q.
Proof. intros H a' s' E. injection E as <- <-. exact H. Qed.

Lemma returning_bind (m : M A) (f : A -> M B) s (Q : B -> state -> Prop) :
  returning m s (fun a s1 => returning (f a) s1 Q) -> returning (m ≫= f) s Q.
Proof.
  intros H b s' E. unfold mbind, M_bind in E.
  destruct (m s) as [[a s1]|] eqn:Em; [|discriminate]. exact (H _ _ Em _ _ E).
Qed.

Lemma returning_conseq (m : M A) s (Q Q' : A -> state -> Prop) :
  returning m s Q -> (forall a s', Q a s' -> Q' a s') -> returning m s Q'.
Proof. intros H Himp a s' E. apply Himp. exact (H _ _ E). Qed.

Lemma returning_runs (m : M A) s (Q : A -> state -> Prop) : runs m s Q -> returning m s Q.
Proof. intros H a s' E. exact (runs_inv _ _ _ _ _ H E). Qed.

Lemma returning_adds ok (m : M A) s : only_adds ok m -> returning m s (fun _ s' => adds ok s s').
Proof. intros H a s' E. exact (H _ _ _ E). Qed.

Lemma returning_lift_option (o : option A) s (Q : A -> state -> Prop) :
  (forall a, o = Some a -> Q a s) -> returning (lift_option o) s Q.
Proof.
  intros H a s' E. unfold lift_option in E. destruct o as [a0|]; [|discriminate].
  injection E as <- <-. apply H. reflexivity.
Qed.

End Returning.

Lemma returning_for_while {S : Type} (I : Z -> S -> state -> Prop) n lo (cond : S -> bool)
    body (acc : S) s (Q : S -> state -> Prop) :
  I lo acc s ->
  (forall i acc s1, lo <= i < lo + Z.of_nat n -> cond acc = true -> I i acc s1 ->
     returning (body i acc) s1 (fun acc' s2 => I (i + 1) acc' s2)) ->
  (forall k acc' s', lo <= k <= lo + Z.of_nat n -> I k acc' s' ->
     (k < lo + Z.of_nat n -> cond acc' = false) -> Q acc' s') ->
  returning (for_while n lo cond body acc) s Q.
Proof.
  revert lo acc s. induction n as [|n IH]; intros lo acc s H0 Hstep HQ.
  - apply returning_ret. apply (HQ lo); [lia|exact H0|lia].
  - cbn [for_while]. destruct (cond acc) eqn:Hc.
    + apply returning_bind. eapply returning_conseq; [apply (Hstep lo); [lia|exact Hc|exact H0]|].
      intros acc1 s1 H1. apply (IH (lo + 1)); [exact H1| |].
      * intros i a' s' Hi. apply Hstep. lia.
      * intros k a' s' Hk Hk' Hstop. apply (HQ k); [lia|exact Hk'|].
        intros Hlt. apply Hstop. lia.
    + apply returning_ret. apply (HQ lo); [lia|exact H0|]. intros _. exact Hc.
Qed.

(** * The reference voltage that a scan returns *)

Lemma mark_widths_fits (N : Z) n p0 vref lo hi range :
  0 <= p0 -> Z.of_nat (length lo) = N -> Z.of_nat (length hi) = N ->
  mark_widths n p0 vref (lo, hi) = Some range ->
  (n = 0%nat \/ p0 + Z.of_nat n <= N) /\
  Z.of_nat (length (fst range)) = N /\ Z.of_nat (length (snd range)) = N.
Proof.
  revert p0 lo hi. induction n as [|n IH]; intros p0 lo hi Hp0 Hlo Hhi Hrun.
  - injection Hrun as <-. auto.
  - cbn [mark_widths fst snd] in Hrun.
    destruct (Eye.arr_get lo p0) as [first|] eqn:Hget; [|discriminate].
    assert (Hin : p0 < N).
    { unfold Eye.arr_get in Hget. destruct (0 <=? p0); [|discriminate].
      apply lookup_lt_Some in Hget. lia. }
    unfold arr_set in Hrun.
    destruct (Z.leb_spec 0 p0); [|lia].
    destruct (Z.ltb_spec p0 (Z.of_nat (length hi))); [|lia].
    destruct (Z.ltb_spec p0 (Z.of_nat (length lo))); [|lia]. cbn [andb] in Hrun.
    destruct (first =? -1).
    + apply IH in Hrun; [|lia|rewrite length_insert; exact Hlo|rewrite length_insert; exact Hhi].
      destruct Hrun as ([->|Hle] & L1 & L2); (split; [right; lia|auto]).
    + apply IH in Hrun; [|lia|exact Hlo|rewrite length_insert; exact Hhi].
      destruct Hrun as ([->|Hle] & L1 & L2); (split; [right; lia|auto]).
Qed.

Lemma vref_marks_snoc widths w vref range :
  vref_marks (widths ++ [w]) vref range
  = match vref_marks widths vref range with
    | None => None
    | Some range' => mark_widths (Z.to_nat w) 0 (vref + Z.of_nat (length widths)) range'
    end.
Proof.
  revert vref range. induction widths as [|w0 widths IH]; intros vref range.
  - cbn. rewrite Z.add_0_r. destruct (mark_widths _ _ _ _); reflexivity.
  - cbn [app vref_marks length]. destruct (mark_widths _ 0 vref range) as [range1|]; [|reflexivity].
    rewrite IH. destruct (vref_marks widths (vref + 1) range1); [|reflexivity].
    f_equal. lia.
Qed.

(** Scans that have marked their widths had eyes that fit the rows. *)
Lemma vref_marks_fit (N : Z) widths vref lo hi range :
  0 <= N -> Z.of_nat (length lo) = N -> Z.of_nat (length hi) = N ->
  vref_marks widths vref (lo, hi) = Some range ->
  Forall (fun w => w <= N) widths.
Proof.
  intros HN. revert vref lo hi. induction widths as [|w widths IH]; intros vref lo hi Hlo Hhi Hrun.
  - constructor.
  - cbn [vref_marks] in Hrun.
    destruct (mark_widths (Z.to_nat w) 0 vref (lo, hi)) as [[lo1 hi1]|] eqn:Hm; [|discriminate].
    apply (mark_widths_fits N) in Hm; [|lia|exact Hlo|exact Hhi].
    destruct Hm as (Hw & L1 & L2). cbn [fst snd] in L1, L2.
    constructor; [lia|]. exact (IH _ _ _ L1 L2 Hrun).
Qed.

Ltac data_scan_ok :=
  unfold data_scan_event; cbn [event_in];
  repeat first [apply list_elem_of_here | apply list_elem_of_further].

Section VrefResult.

Variable env : env_t.
Variable SDRAM_PHY_DELAYS : Z.

Lemma write_data_scan_only_adds channel rank module write_strobe_cycle print :
  only_adds data_scan_event (write_data_scan env channel rank module write_strobe_cycle print).
Proof.
  unfold write_data_scan, write_data_scan_sweep, write_data_scan_cycle, write_data_tap, for_acc.
  repeat only_adds_step; data_scan_ok.
Qed.

(** X26: whenever [moduel_dq_vref_scan] returns, what it returns is -1 or
    one of the voltages [0x32 .. 0x45] that it has tried, and the mode
    register writes it has made are the twenty that try these voltages in
    MR10, in order, followed by one that sets MR10 to the voltage returned
    unless that is -1. *)
Theorem moduel_dq_vref_scan_result channel rank module wl_cycle s best_vref s' :
  moduel_dq_vref_scan env SDRAM_PHY_DELAYS channel rank module wl_cycle s
    = Some (best_vref, s') ->
  (best_vref = -1 \/ 0x32 <= best_vref <= 0x45) /\
  calls "send_mrw" (st_hw s')
    = calls "send_mrw" (st_hw s) ++ vref_writes channel rank module
        ++ (if best_vref >? -1 then [[channel; rank; module; 10; best_vref]] else []).
Proof.
  revert best_vref s'.
  change (returning (moduel_dq_vref_scan env SDRAM_PHY_DELAYS channel rank module wl_cycle) s
            (fun best_vref s' =>
               (best_vref = -1 \/ 0x32 <= best_vref <= 0x45) /\
               calls "send_mrw" (st_hw s')
                 = calls "send_mrw" (st_hw s) ++ vref_writes channel rank module
                     ++ (if best_vref >? -1 then [[channel; rank; module; 10; best_vref]]
                         else []))).
  unfold moduel_dq_vref_scan. apply returning_bind. unfold for_acc.
  change (Z.to_nat (70 - 50)) with 20%nat.
  apply (returning_for_while (fun vref range s1 =>
           exists widths,
             Z.of_nat (length widths) = vref - 50 /\
             vref_marks widths 50 (eye_width_range_init SDRAM_PHY_DELAYS) = Some range /\
             calls "send_mrw" (st_hw s1)
               = calls "send_mrw" (st_hw s)
                   ++ ((fun vref => [channel; rank; module; 10; vref]) <$> seqZ 50 (vref - 50)))).
  - exists []. split; [reflexivity|]. split; [reflexivity|].
    rewrite Z.sub_diag. symmetry. apply app_nil_r.
  - intros vref range s1 Hv _ (widths & Hlen & Hmarks & K1).
    apply returning_bind, returning_runs. wp_more.
    apply returning_bind, returning_runs. wp_more.
    apply returning_bind.
    eapply returning_conseq; [apply returning_adds, write_data_scan_only_adds|].
    intros eye s2 Hadds. cbv beta. apply returning_lift_option.
    intros range' Hmark. exists (widths ++ [eye_end eye - eye_start eye]).
    rewrite length_app. cbn [length]. split; [lia|]. split.
    + rewrite vref_marks_snoc, Hmarks. rewrite <- Hmark. f_equal. lia.
    + cbv beta in Hadds. unfold data_scan_event in Hadds.
      apply (adds_calls _ _ "send_mrw") in Hadds; [|name_out]. rewrite Hadds.
      trace_simpl. rewrite K1. replace (vref + 1 - 50) with (vref - 50 + 1) by lia.
      rewrite seqZ_snoc, fmap_app by lia. cbn [fmap list_fmap].
      rewrite <- app_assoc. repeat f_equal; lia.
  - intros k range s1 Hk (widths & Hlen & Hmarks & K1) Hstop.
    assert (k = 70) as ->.
    { destruct (Z.eq_dec k 70) as [|Hne]; [assumption|].
      assert (Hlt : k < 50 + Z.of_nat 20) by lia. specialize (Hstop Hlt). discriminate. }
    apply returning_bind, returning_lift_option. intros best Hbest.
    (* the voltage picked *)
    assert (Hfit : Forall (fun w => w <= Z.max 0 SDRAM_PHY_DELAYS) widths).
    { unfold eye_width_range_init in Hmarks.
      apply (vref_marks_fit (Z.max 0 SDRAM_PHY_DELAYS) _ _ _ _ _ ltac:(lia)) in Hmarks;
        [exact Hmarks|rewrite length_replicate; lia..]. }
    destruct (best_vref_selection SDRAM_PHY_DELAYS widths 50 ltac:(lia) Hfit)
      as (range' & best' & Hr & Hb & Hsel).
    assert (range' = range) as -> by congruence.
    assert (best' = best) as -> by congruence.
    assert (Hrange : best = -1 \/ 50 <= best <= 69).
    { destruct Hsel as [[_ ->]|(W & i & j & _ & _ & Hi & Hj & Hall & ->)]; [left; reflexivity|].
      right. apply lookup_lt_Some in Hi. apply lookup_lt_Some in Hj.
      rewrite Z.quot_div_nonneg by lia. split.
      - apply Z.div_le_lower_bound; lia.
      - apply Z.lt_succ_r. apply Z.div_lt_upper_bound; lia. }
    apply returning_runs. wp_more.
    destruct (best >? -1) eqn:Hg; wp_more; rewrite ?Hg; (split; [exact Hrange|]);
      trace_simpl; rewrite K1, ?app_nil_r, <- ?app_assoc; reflexivity.
Qed.

End VrefResult.

Lemma moduel_dq_vref_scan_result_witness :
  exists s',
    moduel_dq_vref_scan env_all_fail 4 0 0 0 2 bench_state = Some (-1, s') /\
    calls "send_mrw" (st_hw s') = vref_writes 0 0 0.
Proof.
  destruct (moduel_dq_vref_scan env_all_fail 4 0 0 0 2 bench_state) as [[best s']|] eqn:E;
    [|vm_compute in E; discriminate].
  assert (Hbest : best = -1) by (vm_compute in E; congruence).
  subst best. exists s'. split; [reflexivity|].
  destruct (moduel_dq_vref_scan_result env_all_fail 4 0 0 0 2 bench_state (-1) s' E) as [_ H].
  rewrite H. cbn. rewrite app_nil_r. reflexivity.
Defined.

(** * The centre that [module_vref_scan] programs *)

Lemma only_adds_lift_option {A} ok (o : option A) : only_adds ok (lift_option o).
Proof.
  intros s a s' H. unfold lift_option in H. destruct o; [|discriminate].
  injection H as _ <-. apply adds_refl.
Qed.

Lemma returning_assoc {A B C} (m : M A) (f : A -> M B) (g : B -> M C) s Q :
  returning ((m ≫= f) ≫= g) s Q -> returning (m ≫= fun a => f a ≫= g) s Q.
Proof.
  intros H c s' E. apply H. unfold mbind, M_bind in *.
  destruct (m s) as [[a s1]|]; [exact E|discriminate].
Qed.

Ltac scan_event_ok :=
  unfold vref_scan_event, dm_scan_event; cbn [event_in];
  repeat first [apply list_elem_of_here | apply list_elem_of_further].

(** One primitive operation of a procedure that may not return. *)
Ltac returning_step :=
  lazymatch goal with
  | |- returning (get_ctx ≫= _) _ _ => apply returning_bind, returning_runs, runs_get_ctx
  | |- returning (call_ _ _ _ ≫= _) _ _ => apply returning_bind, returning_runs, runs_call_
  | |- returning (call _ _ _ ≫= _) _ _ => apply returning_bind, returning_runs, runs_call
  | |- returning (printf _ _ ≫= _) _ _ => apply returning_bind, returning_runs, runs_printf
  | |- returning (mret _) _ _ => apply returning_ret
  end; cbv beta.

Section Centre.

Variable env : env_t.
Variable SDRAM_PHY_DELAYS : Z.
Variable KEEP_GOING_ON_DRAM_ERROR : bool.

Lemma moduel_dq_vref_scan_only_adds channel rank module wl_cycle :
  only_adds vref_scan_event
    (moduel_dq_vref_scan env SDRAM_PHY_DELAYS channel rank module wl_cycle).
Proof.
  unfold moduel_dq_vref_scan, for_acc.
  apply only_adds_bind.
  { apply only_adds_for_while. intros vref range.
    apply only_adds_bind; [apply only_adds_call_; intros; scan_event_ok|intros _].
    apply only_adds_bind; [apply only_adds_call_; intros; scan_event_ok|intros _].
    apply only_adds_bind; [|intros eye; apply only_adds_lift_option].
    unfold write_data_scan, write_data_scan_sweep, write_data_scan_cycle, write_data_tap,
      for_acc.
    repeat only_adds_step; scan_event_ok. }
  intros range. apply only_adds_bind; [apply only_adds_lift_option|intros best].
  repeat only_adds_step; scan_event_ok.
Qed.

Lemma moduel_dm_scan_only_adds channel rank module mr5 :
  only_adds dm_scan_event (moduel_dm_scan env channel rank module mr5).
Proof.
  unfold moduel_dm_scan, moduel_dm_scan_eye, dm_tap.
  repeat only_adds_step; scan_event_ok.
Qed.

(** X27: whenever [module_vref_scan] returns, either it has stopped after
    a voltage scan without an eye (it returns -1 and prints no eye centre;
    only when built to stop at errors), or it has made one more write data
    scan, with its taps printed, has printed the width and the middle of
    the eye that this scan has returned and has left the write DQ delay
    lines of the module at that middle, cycle and output delay, when this
    eye has closed, and at no delay when it has not.  The data mask scan
    that may follow does not move these lines. *)
Theorem module_vref_scan_centre channel rank module wl_cycle s res s' :
  module_vref_scan env SDRAM_PHY_DELAYS KEEP_GOING_ON_DRAM_ERROR
    channel rank module wl_cycle s = Some (res, s') ->
  let line := [channel; module; die_width (st_ctx s)] in
  (KEEP_GOING_ON_DRAM_ERROR = false /\ res = -1 /\
   printed eye_centre_fmt (st_hw s') = printed eye_centre_fmt (st_hw s)) \/
  (exists eye s1 s2,
     later s s1 /\
     write_data_scan env channel rank module wl_cycle 1 s1 = Some (eye, s2) /\
     later s2 s' /\
     printed eye_centre_fmt (st_hw s')
       = printed eye_centre_fmt (st_hw s) ++ [eye_centre (max_delay_taps (st_ctx s)) eye] /\
     let centre := eye_centre (max_delay_taps (st_ctx s)) eye in
     programmed_delay "wr_dq_rst" "wr_dq_inc" line (st_hw s')
       = (if bool_decide (eye_state eye = AFTER) then Z.max 0 (centre !!! 1%nat) else 0) /\
     programmed_delay "odly_dq_rst" "odly_dq_inc" line (st_hw s')
       = (if bool_decide (eye_state eye = AFTER) then Z.max 0 (centre !!! 2%nat) else 0)).
Proof.
  revert res s'. cbv zeta.
  set (line := [channel; module; die_width (st_ctx s)]).
  set (max := max_delay_taps (st_ctx s)).
  set (Q := fun (res : Z) (s' : state) =>
    (KEEP_GOING_ON_DRAM_ERROR = false /\ res = -1 /\
     printed eye_centre_fmt (st_hw s') = printed eye_centre_fmt (st_hw s)) \/
    (exists eye s1 s2,
       later s s1 /\
       write_data_scan env channel rank module wl_cycle 1 s1 = Some (eye, s2) /\
       later s2 s' /\
       printed eye_centre_fmt (st_hw s')
         = printed eye_centre_fmt (st_hw s) ++ [eye_centre max eye] /\
       programmed_delay "wr_dq_rst" "wr_dq_inc" line (st_hw s')
         = (if bool_decide (eye_state eye = AFTER)
            then Z.max 0 (eye_centre max eye !!! 1%nat) else 0) /\
       programmed_delay "odly_dq_rst" "odly_dq_inc" line (st_hw s')
         = (if bool_decide (eye_state eye = AFTER)
            then Z.max 0 (eye_centre max eye !!! 2%nat) else 0))).
  change (returning (module_vref_scan env SDRAM_PHY_DELAYS KEEP_GOING_ON_DRAM_ERROR
                       channel rank module wl_cycle) s Q).
  unfold module_vref_scan. repeat returning_step. fold max line.
  match goal with |- returning _ ?s0 _ => set (s0' := s0) end.
  assert (P0 : printed eye_centre_fmt (st_hw s0') = printed eye_centre_fmt (st_hw s)).
  { subst s0'. unfold eye_centre_fmt. trace_simpl. reflexivity. }
  assert (L0 : later s s0').
  { subst s0'. repeat (eapply later_trans; [|apply later_event]). apply later_refl. }
  clearbody s0'.
  apply returning_bind.
  eapply returning_conseq; [apply returning_adds, moduel_dq_vref_scan_only_adds|].
  intros best s1 A1. cbv beta.
  pose proof (later_trans _ _ _ L0 (adds_later _ _ _ A1)) as L1.
  assert (P1 : printed eye_centre_fmt (st_hw s1) = printed eye_centre_fmt (st_hw s)).
  { rewrite <- P0. unfold vref_scan_event in A1.
    apply (adds_printed _ _ eye_centre_fmt) in A1; [exact A1|].
    unfold eye_centre_fmt. name_out. }
  destruct (negb KEEP_GOING_ON_DRAM_ERROR && (best =? -1)) eqn:Hstop.
  { apply returning_ret. left. apply andb_true_iff in Hstop. destruct Hstop as [Hk Hb].
    apply negb_true_iff in Hk. apply Z.eqb_eq in Hb. auto. }
  repeat returning_step.
  match goal with |- returning _ ?s0 _ => set (sS := s0) end.
  assert (PS : printed eye_centre_fmt (st_hw sS) = printed eye_centre_fmt (st_hw s)).
  { subst sS. unfold eye_centre_fmt in *. trace_simpl. exact P1. }
  assert (LS : later s sS).
  { subst sS. repeat (eapply later_trans; [|apply later_event]). exact L1. }
  clearbody sS.
  apply returning_bind. intros eye s2 E2.
  pose proof (write_data_scan_only_adds env channel rank module wl_cycle 1 _ _ _ E2) as A2.
  assert (P2 : printed eye_centre_fmt (st_hw s2) = printed eye_centre_fmt (st_hw s)).
  { rewrite <- PS. unfold data_scan_event in A2.
    apply (adds_printed _ _ eye_centre_fmt) in A2; [exact A2|].
    unfold eye_centre_fmt. name_out. }
  apply returning_bind, returning_lift_option. intros _ _.
  repeat returning_step.
  match goal with |- returning _ ?s0 _ => set (s3 := s0) end.
  assert (P3 : printed eye_centre_fmt (st_hw s3)
               = printed eye_centre_fmt (st_hw s) ++ [eye_centre max eye]).
  { subst s3. unfold eye_centre_fmt in *. trace_simpl. rewrite P2. reflexivity. }
  assert (W3 : programmed_delay "wr_dq_rst" "wr_dq_inc" line (st_hw s3) = 0).
  { subst s3. cbn [st_hw set_hw]. rewrite programmed_delay_other by (intros; discriminate).
    apply programmed_delay_rst. }
  assert (O3 : programmed_delay "odly_dq_rst" "odly_dq_inc" line (st_hw s3) = 0).
  { subst s3. cbn [st_hw set_hw]. apply programmed_delay_rst. }
  assert (L3 : later s2 s3).
  { subst s3. repeat (eapply later_trans; [|apply later_event]). apply later_refl. }
  clearbody s3.
  (* the centre *)
  set (after := bool_decide (eye_state eye = AFTER)).
  set (mc := Z.quot (Z.quot (eye_start eye + eye_end eye) 2) max).
  set (md := Z.rem (Z.quot (eye_start eye + eye_end eye) 2) max).
  assert (Hcentre : returning
            ((if after
              then for_range 0 mc (fun _ => call_ env "wr_dq_inc" line)
              else mret tt);;
             (if after
              then for_range 0 md (fun _ => call_ env "odly_dq_inc" line)
              else mret tt)) s3
            (fun _ s5 =>
               later s3 s5 /\
               printed eye_centre_fmt (st_hw s5)
                 = printed eye_centre_fmt (st_hw s) ++ [eye_centre max eye] /\
               programmed_delay "wr_dq_rst" "wr_dq_inc" line (st_hw s5)
                 = (if after then Z.max 0 mc else 0) /\
               programmed_delay "odly_dq_rst" "odly_dq_inc" line (st_hw s5)
                 = (if after then Z.max 0 md else 0))).
  { apply returning_runs. destruct after.
    - apply runs_bind.
      apply (runs_incs env "wr_dq_rst" "wr_dq_inc" line ["wr_dq_inc"]);
        [discriminate|apply list_elem_of_here|].
      intros s4 W4 _ F4.
      apply (runs_incs env "odly_dq_rst" "odly_dq_inc" line ["odly_dq_inc"]);
        [discriminate|apply list_elem_of_here|].
      intros s5 O5 _ F5.
      split; [exact (later_trans _ _ _ (frame_later _ _ _ F4) (frame_later _ _ _ F5))|].
      split; [|split].
      + rewrite (frame_printed _ _ _ _ F5), (frame_printed _ _ _ _ F4). exact P3.
      + rewrite (frame_programmed "wr_dq_rst" "wr_dq_inc" _ ["odly_dq_inc"] _ _
                   ltac:(name_out) ltac:(name_out) F5). lia.
      + rewrite O5.
        rewrite (frame_programmed "odly_dq_rst" "odly_dq_inc" _ ["wr_dq_inc"] _ _
                   ltac:(name_out) ltac:(name_out) F4). lia.
    - wp_more. split; [apply later_refl|]. auto. }
  (* the data mask scan *)
  apply returning_assoc, returning_bind.
  eapply returning_conseq; [exact Hcentre|]. clear Hcentre.
  intros _ s5 (L5 & P5 & W5 & O5). cbv beta.
  assert (HQ : forall res s6, adds dm_scan_event s5 s6 -> Q res s6).
  { intros res s6 A6. right. exists eye, sS, s2. fold after.
    change (eye_centre max eye !!! 1%nat) with mc.
    change (eye_centre max eye !!! 2%nat) with md.
    split; [exact LS|]. split; [exact E2|].
    split; [exact (later_trans _ _ _ L3 (later_trans _ _ _ L5 (adds_later _ _ _ A6)))|].
    unfold dm_scan_event in A6. split; [|split].
    - apply (adds_printed _ _ eye_centre_fmt) in A6; [|unfold eye_centre_fmt; name_out].
      rewrite A6. exact P5.
    - apply (adds_programmed _ _ "wr_dq_rst" "wr_dq_inc" line) in A6; [|name_out..].
      rewrite A6. exact W5.
    - apply (adds_programmed _ _ "odly_dq_rst" "odly_dq_inc" line) in A6; [|name_out..].
      rewrite A6. exact O5. }
  match goal with |- returning (if ?c then _ else _) _ _ => destruct c end.
  - apply returning_bind.
    eapply returning_conseq; [apply returning_adds, moduel_dm_scan_only_adds|].
    intros good s6 A6. cbv beta. destruct good; apply returning_ret, HQ, A6.
  - apply returning_ret, HQ, adds_refl.
Qed.

End Centre.

Lemma module_vref_scan_centre_witness :
  exists res s',
    module_vref_scan env_write_eye 4 false 0 0 0 4 bench_state = Some (res, s') /\
    res = 60 /\
    programmed_delay "wr_dq_rst" "wr_dq_inc" [0; 0; 8] (st_hw s') = 1 /\
    programmed_delay "odly_dq_rst" "odly_dq_inc" [0; 0; 8] (st_hw s') = 2 /\
    exists eye s1 s2,
      later bench_state s1 /\
      write_data_scan env_write_eye 0 0 0 4 1 s1 = Some (eye, s2) /\
      later s2 s' /\
      printed eye_centre_fmt (st_hw s') = [eye_centre 4 eye].
Proof.
  destruct (module_vref_scan env_write_eye 4 false 0 0 0 4 bench_state) as [[res s']|] eqn:E;
    [|vm_compute in E; discriminate].
  pose proof (module_vref_scan_centre env_write_eye 4 false 0 0 0 4 bench_state res s' E)
    as H.
  cbv zeta in H. vm_compute in E. injection E as <- <-.
  eexists _, _. split; [reflexivity|]. split; [reflexivity|].
  split; [vm_compute; reflexivity|]. split; [vm_compute; reflexivity|].
  destruct H as [(_ & Hres & _)|(eye & s1 & s2 & L1 & E2 & L2 & P & _)]; [discriminate Hres|].
  exists eye, s1, s2. split; [exact L1|]. split; [exact E2|]. split; [exact L2|exact P].
Defined.

(** * Write leveling *)

Lemma adds_answers names fmts name s s' :
  name ∉ names -> adds (event_in names fmts) s s' ->
  answers name (st_hw s') = answers name (st_hw s).
Proof.
  intros Hn (evs & -> & F). induction F as [|e evs He _ IH]; [reflexivity|].
  destruct e as [n args r|f args]; cbn [app].
  - rewrite answers_Call, IH.
    rewrite bool_decide_eq_false_2 by (intros ->; apply Hn; exact He). apply app_nil_r.
  - rewrite answers_Print. exact IH.
Qed.

Lemma adds_keeps_printed names fmts s s' fmt :
  adds (event_in names fmts) s s' -> fmt ∉ fmts ->
  printed fmt (st_hw s') = printed fmt (st_hw s).
Proof. intros H Hn. eapply adds_printed; eauto. Qed.



(** The two adjustments, as changes of the total offset. *)
Lemma WL_ADJ_start_offset max cycle delay :
  max mod 4 = 0 -> 0 <= delay < max ->
  fst (WL_ADJ_start max (cycle, delay)) * max + snd (WL_ADJ_start max (cycle, delay))
    = cycle * max + delay - 3 * (max / 4) /\
  0 <= snd (WL_ADJ_start max (cycle, delay)) < max.
Proof.
  intros Hdiv Hdelay. pose proof (Z.div_mod max 4 ltac:(lia)) as Hq.
  assert (Hquot : Z.quot max 4 = max / 4) by (apply Z.quot_div_nonneg; lia).
  unfold WL_ADJ_start. cbn [fst snd]. rewrite Hquot.
  destruct (Z.geb_spec (delay + max / 4) max); cbn [fst snd]; lia.
Qed.

Lemma WL_ADJ_end_offset max cycle delay :
  max mod 4 = 0 -> 0 <= delay < max ->
  fst (WL_ADJ_end max (cycle, delay)) * max + snd (WL_ADJ_end max (cycle, delay))
    = cycle * max + delay + 5 * (max / 4) /\
  0 <= snd (WL_ADJ_end max (cycle, delay)) < max.
Proof.
  intros Hdiv Hdelay. pose proof (Z.div_mod max 4 ltac:(lia)) as Hq.
  assert (Hquot : Z.quot max 4 = max / 4) by (apply Z.quot_div_nonneg; lia).
  unfold WL_ADJ_end. cbn [fst snd]. rewrite Hquot.
  destruct (Z.geb_spec (delay + max / 4) max); cbn [fst snd]; lia.
Qed.

Ltac leveling_event_ok :=
  unfold external_cycle_event, internal_cycle_event, eye_edge_event; cbn [event_in]; in_list.

Section LevelingFlow.

Variable env : env_t.
Variable SDRAM_PHY_CWL : Z.
Variable SDRAM_PHY_MIN_WR_LATENCY : Z.
Variable MAX_WRITE_CYCLE_DELAY : Z.
Variable single_cycle_MPC : Z.
Variable wleveling_scan_eye : trace -> list Z -> eye_t -> eye_t.

Lemma wltm_align_external_cycle_emits channel rank module width :
  emits external_cycle_event
    (wltm_align_external_cycle env SDRAM_PHY_CWL SDRAM_PHY_MIN_WR_LATENCY
       MAX_WRITE_CYCLE_DELAY channel rank module width).
Proof.
  unfold wltm_align_external_cycle, for_acc. repeat emits_step; leveling_event_ok.
Qed.

Lemma wltm_align_internal_cycle_emits channel rank module width :
  emits internal_cycle_event
    (wltm_align_internal_cycle env single_cycle_MPC channel rank module width).
Proof.
  unfold wltm_align_internal_cycle. repeat emits_step; leveling_event_ok.
Qed.

Lemma wltm_align_to_eye_edge_emits channel rank module width max transition_cycle :
  emits eye_edge_event
    (wltm_align_to_eye_edge env MAX_WRITE_CYCLE_DELAY wleveling_scan_eye
       channel rank module width max transition_cycle).
Proof.
  unfold wltm_align_to_eye_edge, wleveling_scan. repeat emits_step; leveling_event_ok.
Qed.

(** X28: [wltm_align_to_eye_edge] goes one cycle back from the cycle that
    it is given and scans the output delays cycle by cycle from there, one
    [wleveling_scan] per cycle; it goes on only below
    [MAX_WRITE_CYCLE_DELAY].  The cycle that it leaves in
    [*transition_cycle] is the last one scanned, and the write strobe is
    left programmed with the cycles stepped from the first one, which is
    that cycle when the first one is not negative ([wleveling_scan], a
    procedure of the environment, moves the output delay and not the cycle
    delay). *)
Theorem wltm_align_to_eye_edge_cycle channel rank module width max transition_cycle s :
  runs (wltm_align_to_eye_edge env MAX_WRITE_CYCLE_DELAY wleveling_scan_eye
          channel rank module width max transition_cycle) s
    (fun res s' =>
       let first := transition_cycle - 1 in
       exists n,
         0 <= n /\ fst res = first + n /\
         (0 < n -> fst res <= MAX_WRITE_CYCLE_DELAY) /\
         printed "%2d|" (st_hw s')
           = printed "%2d|" (st_hw s) ++ ((fun c => [c]) <$> seqZ first (n + 1)) /\
         calls "wleveling_scan" (st_hw s')
           = calls "wleveling_scan" (st_hw s)
               ++ replicate (Z.to_nat (n + 1)) [channel; rank; module; width; max] /\
         programmed_delay "wr_dqs_rst" "wr_dqs_inc" [channel; module; width] (st_hw s')
           = Z.max 0 first + n).
Proof.
  unfold wltm_align_to_eye_edge, wleveling_scan. cbv zeta.
  set (first := transition_cycle - 1).
  set (args := [channel; rank; module; width; max]).
  set (line := [channel; module; width]).
  wp_more.
  apply (runs_incs env "wr_dqs_rst" "wr_dqs_inc" _ ["wr_dqs_inc"]);
    [discriminate|apply list_elem_of_here|].
  intros s1 P1 _ F1. cbn [st_hw set_hw] in P1. rewrite programmed_delay_rst in P1.
  assert (R1 : printed "%2d|" (st_hw s1) = printed "%2d|" (st_hw s)).
  { rewrite (frame_printed _ _ _ _ F1). trace_simpl. reflexivity. }
  assert (K1 : calls "wleveling_scan" (st_hw s1) = calls "wleveling_scan" (st_hw s)).
  { rewrite (frame_calls "wleveling_scan" ["wr_dqs_inc"] _ _ ltac:(name_out) F1).
    trace_simpl. reflexivity. }
  clear F1. wp_more.
  apply (runs_for_while (fun k (acc : Z * eye_t) s2 =>
           fst acc = k /\ first <= k /\
           printed "%2d|" (st_hw s2)
             = printed "%2d|" (st_hw s) ++ ((fun c => [c]) <$> seqZ first (k - first + 1)) /\
           calls "wleveling_scan" (st_hw s2)
             = calls "wleveling_scan" (st_hw s) ++ replicate (Z.to_nat (k - first + 1)) args /\
           programmed_delay "wr_dqs_rst" "wr_dqs_inc" line (st_hw s2)
             = Z.max 0 first + (k - first))).
  - cbn [fst]. split; [reflexivity|]. split; [lia|]. rewrite Z.sub_diag. trace_simpl.
    split; [rewrite R1; reflexivity|]. split; [rewrite K1; reflexivity|].
    rewrite !programmed_delay_other by (intros; discriminate). lia.
  - intros k [c eye] s2 Hk _ (Hc & Hle & R2 & K2 & P2). cbn [fst snd] in *. subst c.
    wp_more. cbn [fst]. split; [reflexivity|]. split; [lia|]. trace_simpl.
    replace (k + 1 - first + 1) with (k - first + 1 + 1) by lia.
    split; [|split].
    + rewrite R2, (seqZ_snoc first (k - first + 1)), fmap_app by lia. cbn.
      rewrite <- app_assoc.
      replace (first + (k - first + 1)) with (k + 1) by lia. reflexivity.
    + rewrite K2. rewrite (Z2Nat.inj_add (k - first + 1) 1) by lia.
      rewrite (replicate_add (Z.to_nat (k - first + 1))), <- app_assoc. reflexivity.
    + rewrite !programmed_delay_other by (intros; discriminate).
      rewrite programmed_delay_inc by discriminate. lia.
  - intros k [c eye] s' Hk (Hc & Hle & R2 & K2 & P2) _. cbn [fst snd] in *. subst c.
    wp_more. cbn [fst snd]. exists (k - first).
    split; [lia|]. split; [lia|]. split; [lia|]. auto.
Qed.

(** The steps of [write_leveling], one after the other. *)
Lemma write_leveling_flow channel rank module s :
  let width := die_width (st_ctx s) in
  let max := max_delay_taps (st_ctx s) in
  let line := [channel; module; width] in
  let edge := wltm_align_to_eye_edge env MAX_WRITE_CYCLE_DELAY wleveling_scan_eye
                channel rank module width max in
  runs (write_leveling env SDRAM_PHY_CWL SDRAM_PHY_MIN_WR_LATENCY MAX_WRITE_CYCLE_DELAY
          single_cycle_MPC wleveling_scan_eye channel rank module) s
    (fun res s' =>
       st_ctx s' = st_ctx s /\
       exists r1 r2 sA tc sB,
         st_ctx sA = st_ctx s /\
         st_hw sA = Call "odly_dqs_rst" line r2 :: Print "WL m:%2d" [module]
                    :: Call "enter_wltm" [channel; rank] r1 :: st_hw s /\
         wltm_align_external_cycle env SDRAM_PHY_CWL SDRAM_PHY_MIN_WR_LATENCY
           MAX_WRITE_CYCLE_DELAY channel rank module width sA = Some (tc, sB) /\
         adds external_cycle_event sA sB /\
         if tc =? -1 then
           res = -1 /\ s' = set_hw (cons (Print WL_failed_fmt [module])) sB
         else
           exists c1 d1 s1 s2 u s3 c2 d2 s4,
             let s0 := set_hw (cons (Print
                 "DQS write leveling response transition starts in cycle:%2d (adjusted %2d)"
                 [tc; tc + SDRAM_PHY_MIN_WR_LATENCY])) sB in
             let cd1 := WL_ADJ_start max (c1, d1) in
             let cd2 := WL_ADJ_end max (c2, d2) in
             let s5 := set_hw (cons (Print WL_final_fmt
                 [fst cd2; fst cd2 + SDRAM_PHY_MIN_WR_LATENCY; snd cd2])) s4 in
             edge tc s0 = Some ((c1, d1), s1) /\ adds eye_edge_event s0 s1 /\
             set_wr_dqs env channel module width cd1 s1 = Some (tt, s2) /\
             frame (call_of wr_dqs_names) s1 s2 /\
             programmed_delay "wr_dqs_rst" "wr_dqs_inc" line (st_hw s2) = Z.max 0 (fst cd1) /\
             programmed_delay "odly_dqs_rst" "odly_dqs_inc" line (st_hw s2)
               = Z.max 0 (snd cd1) /\
             wltm_align_internal_cycle env single_cycle_MPC channel rank module width s2
               = Some (u, s3) /\
             adds internal_cycle_event s2 s3 /\
             edge (fst cd1) s3 = Some ((c2, d2), s4) /\ adds eye_edge_event s3 s4 /\
             set_wr_dqs env channel module width cd2 s5 = Some (tt, s') /\
             frame (call_of wr_dqs_names) s5 s' /\
             programmed_delay "wr_dqs_rst" "wr_dqs_inc" line (st_hw s') = Z.max 0 (fst cd2) /\
             programmed_delay "odly_dqs_rst" "odly_dqs_inc" line (st_hw s')
               = Z.max 0 (snd cd2) /\
             res = fst cd2).
Proof.
  intros width max line edge. unfold write_leveling. wp_more. fold width max line.
  match goal with |- runs _ ?s0 _ => set (sA := s0) end.
  apply (runs_emits _ _ _ _ (wltm_align_external_cycle_emits channel rank module width)).
  intros tc sB Eext XB AB _.
  assert (HA : st_hw sA = Call "odly_dqs_rst" line (env (st_hw (set_hw (cons (Print "WL m:%2d" [module]))
                 (set_hw (cons (Call "enter_wltm" [channel; rank]
                                  (env (st_hw s) "enter_wltm" [channel; rank]))) s)))
                 "odly_dqs_rst" line)
              :: Print "WL m:%2d" [module]
              :: Call "enter_wltm" [channel; rank] (env (st_hw s) "enter_wltm" [channel; rank])
              :: st_hw s) by reflexivity.
  assert (XA : st_ctx sA = st_ctx s) by reflexivity.
  clearbody sA.
  destruct (tc =? -1) eqn:Htc.
  - wp_more. split; [rewrite <- XA, <- XB; reflexivity|].
    eexists _, _, sA, tc, sB. split; [exact XA|]. split; [exact HA|].
    split; [exact Eext|]. split; [exact AB|]. rewrite Htc.
    apply Z.eqb_eq in Htc. split; [exact Htc|reflexivity].
  - wp_more.
    match goal with |- runs _ ?s0 _ => set (s0' := s0) end.
    apply (runs_emits _ _ _ _
             (wltm_align_to_eye_edge_emits channel rank module width max tc)).
    intros [c1 d1] s1 E1 X1 A1 _.
    set (cd1 := WL_ADJ_start max (c1, d1)).
    apply runs_bind. eapply runs_conseq; [apply runs_with_eq, set_wr_dqs_runs|].
    intros [] s2 (E2 & X2 & F2 & P2 & O2). cbv beta.
    apply runs_bind.
    apply (runs_emits _ _ _ _ (wltm_align_internal_cycle_emits channel rank module width)).
    intros u s3 E3 X3 A3 _.
    apply runs_bind.
    apply (runs_emits _ _ _ _
             (wltm_align_to_eye_edge_emits channel rank module width max (fst cd1))).
    intros [c2 d2] s4 E4 X4 A4 _.
    set (cd2 := WL_ADJ_end max (c2, d2)).
    wp_more.
    match goal with |- runs _ ?s0 _ => set (s5 := s0) end.
    eapply runs_conseq; [apply runs_with_eq, set_wr_dqs_runs|].
    intros [] s' (E5 & X5 & F5 & P5 & O5). cbv beta. wp_more.
    split; [rewrite X5; subst s5; cbn [st_ctx set_hw]; rewrite X4, X3, X2, X1; subst s0'; cbn [st_ctx set_hw]; rewrite XB; exact XA|].
    eexists _, _, sA, tc, sB. split; [exact XA|]. split; [exact HA|].
    split; [exact Eext|]. split; [exact AB|]. rewrite Htc.
    exists c1, d1, s1, s2, u, s3, c2, d2, s4. cbv zeta. fold cd1 cd2.
    repeat (split; [eassumption|]). reflexivity.
Qed.

(** C8: in write leveling, with [max_delay_taps] divisible by 4, once the
    external cycle alignment has found a cycle, the pair of cycle and delay
    that the first edge search leaves is adjusted before the internal cycle
    alignment starts: the strobe is programmed, and the
    second edge search started, at a pair whose total offset
    [cycle * max_delay_taps + delay] is less by exactly three quarters of
    [max_delay_taps]; the pair that the second edge search leaves is
    adjusted after it: the strobe is left, and the cycle returned, at a
    pair whose total offset is more by exactly five quarters.  Both hold
    when the delay carried lies in [[0, max_delay_taps)], and both leave
    the delay in that range, the overflow being carried into the cycle. *)
Theorem write_leveling_adjustments channel rank module s :
  let width := die_width (st_ctx s) in
  let max := max_delay_taps (st_ctx s) in
  let line := [channel; module; width] in
  let edge := wltm_align_to_eye_edge env MAX_WRITE_CYCLE_DELAY wleveling_scan_eye
                channel rank module width max in
  max mod 4 = 0 ->
  runs (write_leveling env SDRAM_PHY_CWL SDRAM_PHY_MIN_WR_LATENCY MAX_WRITE_CYCLE_DELAY
          single_cycle_MPC wleveling_scan_eye channel rank module) s
    (fun res s' =>
       (res = -1 /\
        printed WL_failed_fmt (st_hw s') = printed WL_failed_fmt (st_hw s) ++ [[module]]) \/
       exists sA tc sB c1 d1 s1 c1' d1' s2 u s3 c2 d2 s4 c2' d2',
         let s0 := set_hw (cons (Print
             "DQS write leveling response transition starts in cycle:%2d (adjusted %2d)"
             [tc; tc + SDRAM_PHY_MIN_WR_LATENCY])) sB in
         (* the external cycle alignment has found the cycle [tc] *)
         later s sA /\
         wltm_align_external_cycle env SDRAM_PHY_CWL SDRAM_PHY_MIN_WR_LATENCY
           MAX_WRITE_CYCLE_DELAY channel rank module width sA = Some (tc, sB) /\
         tc <> -1 /\
         (* the first edge search, and the adjustment by -0.75 tCK *)
         edge tc s0 = Some ((c1, d1), s1) /\
         (0 <= d1 < max ->
            c1' * max + d1' = c1 * max + d1 - 3 * (max / 4) /\ 0 <= d1' < max) /\
         set_wr_dqs env channel module width (c1', d1') s1 = Some (tt, s2) /\
         programmed_delay "wr_dqs_rst" "wr_dqs_inc" line (st_hw s2) = Z.max 0 c1' /\
         programmed_delay "odly_dqs_rst" "odly_dqs_inc" line (st_hw s2) = Z.max 0 d1' /\
         (* the internal cycle alignment and the second edge search *)
         wltm_align_internal_cycle env single_cycle_MPC channel rank module width s2
           = Some (u, s3) /\
         edge c1' s3 = Some ((c2, d2), s4) /\
         (* the adjustment by +1.25 tCK *)
         (0 <= d2 < max ->
            c2' * max + d2' = c2 * max + d2 + 5 * (max / 4) /\ 0 <= d2' < max) /\
         set_wr_dqs env channel module width (c2', d2')
           (set_hw (cons (Print WL_final_fmt
                            [c2'; c2' + SDRAM_PHY_MIN_WR_LATENCY; d2'])) s4)
           = Some (tt, s') /\
         programmed_delay "wr_dqs_rst" "wr_dqs_inc" line (st_hw s') = Z.max 0 c2' /\
         programmed_delay "odly_dqs_rst" "odly_dqs_inc" line (st_hw s') = Z.max 0 d2' /\
         res = c2').
Proof.
  intros width max line edge Hdiv.
  eapply runs_conseq; [apply write_leveling_flow|].
  intros res s' (_ & r1 & r2 & sA & tc & sB & XA & HA & Eext & AB & H). cbv beta.
  fold width max line edge in H. fold width in Eext.
  destruct (tc =? -1) eqn:Htc.
  - left. destruct H as [-> ->]. split; [reflexivity|].
    unfold WL_failed_fmt in *. trace_simpl.
    unfold external_cycle_event in AB.
    rewrite (adds_keeps_printed _ _ _ _ _ AB) by name_out.
    rewrite HA. trace_simpl. reflexivity.
  - right. apply Z.eqb_neq in Htc.
    destruct H as (c1 & d1 & s1 & s2 & u & s3 & c2 & d2 & s4 & H). cbv zeta in H.
    destruct H as (E1 & _ & E2 & _ & P2 & O2 & E3 & _ & E4 & _ & E5 & _ & P5 & O5 & ->).
    destruct (WL_ADJ_start max (c1, d1)) as [c1' d1'] eqn:Hs.
    destruct (WL_ADJ_end max (c2, d2)) as [c2' d2'] eqn:He.
    cbn [fst snd] in *.
    exists sA, tc, sB, c1, d1, s1, c1', d1', s2, u, s3, c2, d2, s4, c2', d2'. cbv zeta.
    split; [eexists [_; _; _]; exact HA|]. split; [exact Eext|]. split; [exact Htc|].
    split; [exact E1|]. split.
    { intros Hd. pose proof (WL_ADJ_start_offset max c1 d1 Hdiv Hd) as Hoff.
      rewrite Hs in Hoff. exact Hoff. }
    split; [exact E2|]. split; [exact P2|]. split; [exact O2|]. split; [exact E3|].
    split; [exact E4|]. split.
    { intros Hd. pose proof (WL_ADJ_end_offset max c2 d2 Hdiv Hd) as Hoff.
      rewrite He in Hoff. exact Hoff. }
    split; [exact E5|]. split; [exact P5|]. split; [exact O5|]. reflexivity.
Qed.


End LevelingFlow.

Lemma write_leveling_adjustments_witness :
  max_delay_taps (st_ctx bench_state) mod 4 = 0 /\
  runs (write_leveling env_all_pass 8 2 16 0 (eye_at 3) 0 0 0) bench_state
    (fun res s' =>
       res = -1 \/
       exists c2 d2 c2' d2',
         (0 <= d2 < 4 -> c2' * 4 + d2' = c2 * 4 + d2 + 5 * (4 / 4) /\ 0 <= d2' < 4) /\
         programmed_delay "wr_dqs_rst" "wr_dqs_inc" [0; 0; 8] (st_hw s') = Z.max 0 c2' /\
         res = c2') /\
  exists s',
    write_leveling env_all_pass 8 2 16 0 (eye_at 3) 0 0 0 bench_state = Some (2, s') /\
    programmed_delay "wr_dqs_rst" "wr_dqs_inc" [0; 0; 8] (st_hw s') = 2 /\
    programmed_delay "odly_dqs_rst" "odly_dqs_inc" [0; 0; 8] (st_hw s') = 0.
Proof.
  assert (H : max_delay_taps (st_ctx bench_state) mod 4 = 0) by reflexivity.
  split; [exact H|]. split.
  - eapply runs_conseq;
      [exact (write_leveling_adjustments env_all_pass 8 2 16 0 (eye_at 3) 0 0 0 bench_state H)|].
    intros res s' [[Hres _]|Hok]; [left; exact Hres|right].
    destruct Hok as (sA & tc & sB & c1 & d1 & s1 & c1' & d1' & s2 & u & s3 & c2 & d2 & s4
                     & c2' & d2' & _ & _ & _ & _ & _ & _ & _ & _ & _ & _ & Hadj & _ & P
                     & _ & Hres).
    exists c2, d2, c2', d2'. split; [exact Hadj|]. split; [exact P|exact Hres].
  - eexists. split; [vm_compute; reflexivity|]. split; vm_compute; reflexivity.
Defined.

(** * The sweep of the write data scan *)










Lemma printed_if_ctx print fmt args s : st_ctx (printed_if print fmt args s) = st_ctx s.
Proof. unfold printed_if. destruct (truthy print); reflexivity. Qed.



Section ScanInv.

Variables (s0 : state) (line : list Z) (base print : Z).





End ScanInv.

Section WriteScan.

Variable env : env_t.






End WriteScan.


(** * The verification step of read training *)

Lemma for_while_split {T : Type} n1 n2 (cond : T -> bool) body : forall i (acc : T) s,
  for_while (n1 + n2) i cond body acc s =
  match for_while n1 i cond body acc s with
  | Some (acc1, s1) => for_while n2 (i + Z.of_nat n1) cond body acc1 s1
  | None => None
  end.
Proof.
  induction n1 as [|n1 IH]; intros i acc s.
  - cbn [Nat.add for_while]. rewrite run_ret, Z.add_0_r. reflexivity.
  - change (S n1 + n2)%nat with (S (n1 + n2)). rewrite !for_while_S.
    destruct (cond acc) eqn:Hc.
    + destruct (body i acc s) as [[acc1 s1]|]; [|reflexivity].
      rewrite IH. replace (i + 1 + Z.of_nat n1) with (i + Z.of_nat (S n1)) by lia.
      reflexivity.
    + rewrite for_while_stop by exact Hc. reflexivity.
Qed.

Lemma emits_eq {A} ok (m : M A) s a s' :
  emits ok m -> m s = Some (a, s') -> st_ctx s' = st_ctx s /\ adds ok s s'.
Proof.
  intros Hm E. destruct (Hm s) as (a' & evs & E' & F). rewrite E in E'.
  injection E' as -> ->. split; [reflexivity|]. exists evs. auto.
Qed.

Ltac read_event_ok :=
  unfold read_rank_event, read_check_event, read_scan_event; cbn [event_in]; in_list.

Section ReadFlow.

Variable env : env_t.
Variable DRAM_SCRATCH_PAD : Z.

Lemma rank_read_training_emits channel rank modules die_width max_taps :
  emits read_scan_event (rank_read_training env channel rank modules die_width max_taps).
Proof.
  unfold rank_read_training, for_acc. repeat emits_step; read_event_ok.
Qed.

Lemma rank_read_check_emits channel rank modules die_width rb :
  emits read_check_event
    (rank_read_check env DRAM_SCRATCH_PAD channel rank modules die_width rb).
Proof.
  unfold rank_read_check, read_serial_number, simple_read_check, test_data, for_acc.
  cbn [simple_read_check_loop]. repeat emits_step; read_event_ok.
Qed.

Lemma read_scan_read_rank e : read_scan_event e -> read_rank_event e.
Proof.
  destruct e as [n args r|f args]; unfold read_scan_event, read_rank_event; cbn [event_in];
    intros H; repeat (apply elem_of_cons in H; destruct H as [->|H]; [in_list|]);
    apply elem_of_nil in H; destruct H.
Qed.

Lemma read_check_read_rank e : read_check_event e -> read_rank_event e.
Proof.
  destruct e as [n args r|f args]; unfold read_check_event, read_rank_event; cbn [event_in];
    intros H; repeat (apply elem_of_cons in H; destruct H as [->|H]; [in_list|]);
    apply elem_of_nil in H; destruct H.
Qed.

Lemma read_training_rank_emits keep channel rank acc :
  emits read_rank_event (read_training_rank env DRAM_SCRATCH_PAD keep channel rank acc).
Proof.
  unfold read_training_rank.
  apply emits_bind; [apply emits_get_ctx|intros ctx].
  apply emits_bind; [apply emits_printf; read_event_ok|intros _].
  apply emits_bind.
  { eapply emits_weaken; [apply read_scan_read_rank|apply rank_read_training_emits]. }
  intros g. destruct (negb keep && negb (fst acc && g)); [apply emits_ret|].
  apply emits_bind.
  { eapply emits_weaken; [apply read_check_read_rank|apply rank_read_check_emits]. }
  intros g2. destruct (negb keep && negb (fst acc && g && g2)); apply emits_ret.
Qed.

Lemma read_training_until_emits keep channel rank :
  emits read_rank_event (read_training_until env DRAM_SCRATCH_PAD keep channel rank).
Proof.
  unfold read_training_until.
  repeat first [apply read_training_rank_emits | emits_step]; read_event_ok.
Qed.

Lemma read_serial_number_reads channel rank module width s :
  runs (read_serial_number env channel rank module width) s
    (fun _ s' =>
       exists vs, length vs = 5%nat /\
         answers "recover_mrr_value" (st_hw s') = answers "recover_mrr_value" (st_hw s) ++ vs).
Proof.
  unfold read_serial_number.
  apply (runs_for_acc (fun i _ s1 =>
           exists vs, Z.of_nat (length vs) = i /\
             answers "recover_mrr_value" (st_hw s1)
               = answers "recover_mrr_value" (st_hw s) ++ vs)); [lia| | |].
  - exists []. split; [reflexivity|]. symmetry. apply app_nil_r.
  - intros i acc s1 _ (vs & Hl & Ha). wp_more. set (v := env _ _ _).
    exists (vs ++ [v]). rewrite length_app. cbn [length]. split; [lia|].
    trace_simpl. rewrite Ha, app_assoc. reflexivity.
  - intros acc s' (vs & Hl & Ha). exists vs. split; [lia|exact Ha].
Qed.

(** The verification of a rank: every module is checked, and the result
    is that of all the self-tests. *)
Lemma rank_read_check_result channel rank modules die_width rb s :
  0 <= modules ->
  runs (rank_read_check env DRAM_SCRATCH_PAD channel rank modules die_width rb) s
    (fun good s' =>
       exists serials reads,
         Z.of_nat (length serials) = 5 * modules /\
         answers "recover_mrr_value" (st_hw s')
           = answers "recover_mrr_value" (st_hw s) ++ serials ++ concat reads /\
         if rb
         then Z.of_nat (length reads) = modules /\
              Forall (fun rds => length rds = 4%nat) reads /\
              good = forallb read_back_ok reads
         else reads = [] /\ good = true).
Proof.
  intros Hm. unfold rank_read_check. apply runs_bind.
  apply (runs_for_range (fun i s1 =>
           exists serials, Z.of_nat (length serials) = 5 * i /\
             answers "recover_mrr_value" (st_hw s1)
               = answers "recover_mrr_value" (st_hw s) ++ serials)); [exact Hm| | |].
  - exists []. split; [reflexivity|]. symmetry. apply app_nil_r.
  - intros i s1 _ (serials & Hl & Ha). apply runs_bind.
    eapply runs_conseq; [apply read_serial_number_reads|].
    intros sn s2 (vs & Hv & Ha2). cbv beta. wp_more.
    exists (serials ++ vs). rewrite length_app. split; [lia|].
    trace_simpl. rewrite Ha2, Ha, app_assoc. reflexivity.
  - intros s1 (serials & Hl & Ha).
    apply (runs_for_acc (fun i (good : bool) s2 =>
             exists reads,
               answers "recover_mrr_value" (st_hw s2)
                 = answers "recover_mrr_value" (st_hw s) ++ serials ++ concat reads /\
               if rb
               then Z.of_nat (length reads) = i /\
                    Forall (fun rds => length rds = 4%nat) reads /\
                    good = forallb read_back_ok reads
               else reads = [] /\ good = true)); [exact Hm| | |].
    + exists []. cbn [concat]. rewrite app_nil_r. split; [exact Ha|].
      destruct rb; [|auto]. split; [reflexivity|]. split; [constructor|reflexivity].
    + intros i good s2 _ (reads & Ha2 & Hrb). destruct rb.
      * destruct Hrb as (Hlen & Hall & ->). unfold simple_read_check. wp_more.
        eapply runs_conseq; [apply simple_read_check_loop_spec; right; reflexivity|].
        intros works s3 (_ & rds & Ha3 & Hl3 & _ & H01 & Hiff). cbv beta. wp_more.
        exists (reads ++ [rds]). split.
        { rewrite Ha3. trace_simpl. rewrite Ha2, concat_app. cbn [concat].
          rewrite app_nil_r, <- !app_assoc. reflexivity. }
        rewrite length_app. cbn [length]. split; [lia|]. split.
        { apply Forall_app. split; [exact Hall|]. apply Forall_singleton. exact Hl3. }
        rewrite forallb_app. cbn [forallb]. rewrite andb_true_r. unfold read_back_ok.
        destruct H01 as [-> | ->].
        -- change (truthy 0) with false. cbv iota.
           rewrite bool_decide_eq_false_2; [symmetry; apply andb_false_r|].
           intros Heq. assert (H : 0 = 1) by (apply Hiff; auto). discriminate H.
        -- change (truthy 1) with true. cbv iota.
           rewrite bool_decide_eq_true_2 by (apply Hiff; reflexivity).
           symmetry. apply andb_true_r.
      * wp_more. exists reads. auto.
    + intros good s' (reads & Ha2 & Hrb). exists serials, reads.
      split; [exact Hl|]. split; [exact Ha2|exact Hrb].
Qed.

(** With [KEEP_GOING_ON_DRAM_ERROR] a rank runs to its end, whatever its
    steps give, and the loops go on. *)
Lemma read_training_rank_keep channel rank acc s :
  runs (read_training_rank env DRAM_SCRATCH_PAD true channel rank acc) s
    (fun acc' s' =>
       snd acc' = false /\ st_ctx s' = st_ctx s /\
       printed "Training rank%2d" (st_hw s')
         = printed "Training rank%2d" (st_hw s) ++ [[rank]]).
Proof.
  unfold read_training_rank. wp_more.
  apply (runs_emits _ _ _ _ (rank_read_training_emits _ _ _ _ _)).
  intros g s1 _ X1 A1 _. cbn [negb andb].
  apply runs_bind. apply (runs_emits _ _ _ _ (rank_read_check_emits _ _ _ _ _)).
  intros g2 s2 _ X2 A2 _. wp_more. cbn [snd].
  split; [reflexivity|]. split; [rewrite X2, X1; reflexivity|].
  unfold read_check_event, read_scan_event in *.
  rewrite (adds_keeps_printed _ _ _ _ _ A2) by name_out.
  rewrite (adds_keeps_printed _ _ _ _ _ A1) by name_out.
  trace_simpl. reflexivity.
Qed.

(** Built to stop at errors, a rank whose preamble search or data scan
    fails, or whose verification fails, ends the loops. *)
Lemma read_training_rank_stops channel rank s0 g sa :
  let ctx := st_ctx s0 in
  rank_read_training env channel rank (modules ctx) (die_width ctx) (max_delay_taps ctx)
    (set_hw (cons (Print "Training rank%2d" [rank])) s0) = Some (g, sa) ->
  (g = false ->
   read_training_rank env DRAM_SCRATCH_PAD false channel rank (true, false) s0
     = Some ((false, true), sa)) /\
  (g = true -> forall sb,
   rank_read_check env DRAM_SCRATCH_PAD channel rank (modules ctx) (die_width ctx)
     (bool_decide (training_type ctx = HOST_DRAM) && negb (RDIMM ctx)) sa = Some (false, sb) ->
   read_training_rank env DRAM_SCRATCH_PAD false channel rank (true, false) s0
     = Some ((false, true), sb)).
Proof.
  intros ctx Htrain. unfold read_training_rank.
  rewrite run_bind. cbn [get_ctx]. fold ctx. rewrite run_bind. cbn [printf modify].
  rewrite run_bind, Htrain. cbn [fst andb negb]. split.
  - intros ->. reflexivity.
  - intros -> sb Hcheck. cbn [negb]. rewrite run_bind, Hcheck. reflexivity.
Qed.

Lemma sdram_ddr5_read_training_stops channel rank s s0 sb :
  0 <= channel < channels (st_ctx s) -> 0 <= rank < ranks (st_ctx s) ->
  read_training_until env DRAM_SCRATCH_PAD false channel rank s = Some ((true, false), s0) ->
  read_training_rank env DRAM_SCRATCH_PAD false channel rank (true, false) s0
    = Some ((false, true), sb) ->
  sdram_ddr5_read_training env DRAM_SCRATCH_PAD false s = Some (false, sb).
Proof.
  intros Hc Hr Huntil Hrank. unfold read_training_until in Huntil.
  unfold sdram_ddr5_read_training.
  rewrite run_bind in Huntil. rewrite run_bind. cbn [get_ctx] in Huntil |- *.
  set (ctx := st_ctx s) in *.
  rewrite run_bind in Huntil. rewrite run_bind.
  match type of Huntil with
  | context [match ?X with _ => _ end] => destruct X as [[acc1 s1]|] eqn:E1
  end; [|discriminate Huntil].
  rewrite run_bind, run_call_ in Huntil. rewrite run_bind in Huntil.
  cbn [printf modify] in Huntil.
  assert (Hgo : negb (snd acc1) = true).
  { destruct (negb (snd acc1)) eqn:Hcond; [reflexivity|].
    rewrite for_while_stop in Huntil by exact Hcond. injection Huntil as -> _.
    discriminate Hcond. }
  replace (Z.to_nat (channels ctx))
    with (Z.to_nat channel + S (Z.to_nat (channels ctx - channel - 1)))%nat by lia.
  rewrite for_while_split, E1, for_while_S, Hgo.
  rewrite Z.add_0_l, Z2Nat.id by lia.
  rewrite run_bind, run_call_, run_bind. cbn [printf modify].
  replace (Z.to_nat (ranks ctx))
    with (Z.to_nat rank + S (Z.to_nat (ranks ctx - rank - 1)))%nat by lia.
  rewrite for_while_split, Huntil, for_while_S. cbn [snd negb].
  rewrite Z.add_0_l, Z2Nat.id by lia. rewrite Hrank.
  rewrite for_while_stop by reflexivity. rewrite for_while_stop by reflexivity.
  reflexivity.
Qed.

(** C6 (amended): in read training the verification of a rank makes the
    scratch-pad self-test of every module of the rank, also after one has
    failed, and its result is true exactly when each of them has read back
    the four bytes written; what the serial-number readback returns has no
    part in it.  Built to stop at errors ([KEEP_GOING_ON_DRAM_ERROR] not
    defined), a rank of any channel that the loops reach and whose
    verification fails makes [sdram_ddr5_read_training] return false in the
    state that the verification has left, exactly as a rank whose preamble
    search or data scan fails makes it return false in the state that
    these have left: no later rank or channel is trained.  Built to go on,
    read training trains every rank of every channel and returns true. *)
Theorem read_verification_failure s :
  0 <= modules (st_ctx s) ->
  let ctx := st_ctx s in
  let read_back_check := bool_decide (training_type ctx = HOST_DRAM) && negb (RDIMM ctx) in
  (forall channel rank rb s1,
     runs (rank_read_check env DRAM_SCRATCH_PAD channel rank (modules ctx) (die_width ctx) rb) s1
       (fun good s' =>
          exists serials reads,
            Z.of_nat (length serials) = 5 * modules ctx /\
            answers "recover_mrr_value" (st_hw s')
              = answers "recover_mrr_value" (st_hw s1) ++ serials ++ concat reads /\
            if rb
            then Z.of_nat (length reads) = modules ctx /\
                 Forall (fun rds => length rds = 4%nat) reads /\
                 good = forallb read_back_ok reads
            else reads = [] /\ good = true)) /\
  (forall channel rank s0 g sa,
     0 <= channel < channels ctx -> 0 <= rank < ranks ctx ->
     read_training_until env DRAM_SCRATCH_PAD false channel rank s = Some ((true, false), s0) ->
     rank_read_training env channel rank (modules ctx) (die_width ctx) (max_delay_taps ctx)
       (set_hw (cons (Print "Training rank%2d" [rank])) s0) = Some (g, sa) ->
     (g = false -> sdram_ddr5_read_training env DRAM_SCRATCH_PAD false s = Some (false, sa)) /\
     (g = true -> forall sb,
        rank_read_check env DRAM_SCRATCH_PAD channel rank (modules ctx) (die_width ctx)
          read_back_check sa = Some (false, sb) ->
        sdram_ddr5_read_training env DRAM_SCRATCH_PAD false s = Some (false, sb))) /\
  runs (sdram_ddr5_read_training env DRAM_SCRATCH_PAD true) s
    (fun good s' =>
       good = true /\
       printed "Training rank%2d" (st_hw s')
         = printed "Training rank%2d" (st_hw s) ++ all_ranks (channels ctx) (ranks ctx)).
Proof.
  intros Hm ctx read_back_check. split; [|split].
  - intros channel rank rb s1. apply rank_read_check_result. exact Hm.
  - intros channel rank s0 g sa Hc Hr Huntil Htrain.
    destruct (emits_eq _ _ _ _ _ (read_training_until_emits false channel rank) Huntil)
      as [X0 _].
    fold ctx in X0.
    destruct (read_training_rank_stops channel rank s0 g sa) as [Hfail Hcheck].
    { rewrite X0. exact Htrain. }
    split.
    + intros Hg. eapply sdram_ddr5_read_training_stops; eauto.
    + intros Hg sb Hsb. eapply sdram_ddr5_read_training_stops; eauto.
      apply Hcheck; [exact Hg|]. rewrite X0. exact Hsb.
  - unfold sdram_ddr5_read_training. wp_more. fold ctx.
    set (row := (fun r : Z => [r]) <$> seqZ 0 (ranks ctx)).
    apply (runs_for_while (fun c (acc : bool * bool) s1 =>
             snd acc = false /\ st_ctx s1 = st_ctx s /\
             printed "Training rank%2d" (st_hw s1)
               = printed "Training rank%2d" (st_hw s) ++ concat (replicate (Z.to_nat c) row))).
    + split; [reflexivity|]. split; [reflexivity|]. cbn. symmetry. apply app_nil_r.
    + intros c acc s1 Hc _ (Ha & X1 & P1). wp_more.
      apply (runs_for_while (fun r (acc : bool * bool) s2 =>
               snd acc = false /\ st_ctx s2 = st_ctx s /\
               printed "Training rank%2d" (st_hw s2)
                 = printed "Training rank%2d" (st_hw s)
                     ++ concat (replicate (Z.to_nat c) row)
                     ++ ((fun r : Z => [r]) <$> seqZ 0 r))).
      * split; [exact Ha|]. split; [exact X1|]. trace_simpl. rewrite P1.
        change (seqZ 0 0) with (@nil Z). cbn [fmap list_fmap]. rewrite ?app_nil_r. reflexivity.
      * intros r acc2 s2 Hr _ (Ha2 & X2 & P2).
        eapply runs_conseq; [apply read_training_rank_keep|].
        intros acc3 s3 (Ha3 & X3 & P3). split; [exact Ha3|]. split; [congruence|].
        rewrite P3, P2, seqZ_snoc, fmap_app by lia. cbn. rewrite <- !app_assoc. reflexivity.
      * intros r acc2 s2 Hr (Ha2 & X2 & P2) Hstop. split; [exact Ha2|]. split; [exact X2|].
        assert (r = Z.of_nat (Z.to_nat (ranks ctx))) as ->.
        { destruct (Z.lt_ge_cases r (0 + Z.of_nat (Z.to_nat (ranks ctx)))) as [Hlt|Hge];
            [|lia]. specialize (Hstop Hlt). rewrite Ha2 in Hstop. discriminate Hstop. }
        rewrite P2. replace (Z.to_nat (c + 1)) with (Z.to_nat c + 1)%nat by lia.
        rewrite replicate_add, concat_app. cbn [replicate concat]. rewrite app_nil_r.
        unfold row. do 3 f_equal. unfold seqZ. rewrite Nat2Z.id. reflexivity.
    + intros c [good stop] s' Hc (Ha & X1 & P1) Hstop. cbn [snd] in Ha. subst stop.
      wp_more. split; [reflexivity|]. rewrite P1. unfold all_ranks. fold row.
      do 3 f_equal.
      destruct (Z.lt_ge_cases c (0 + Z.of_nat (Z.to_nat (channels ctx)))) as [Hlt|Hge];
        [specialize (Hstop Hlt); discriminate Hstop|lia].
Qed.

End ReadFlow.

Lemma read_verification_failure_witness :
  0 <= modules (st_ctx two_rank_state) /\
  runs (sdram_ddr5_read_training env_readback_fails 63 true) two_rank_state
    (fun good s' => good = true /\ printed "Training rank%2d" (st_hw s') = [[0]; [1]]) /\
  exists sb,
    sdram_ddr5_read_training env_readback_fails 63 false two_rank_state = Some (false, sb) /\
    printed "Training rank%2d" (st_hw sb) = [[0]].
Proof.
  assert (H : 0 <= modules (st_ctx two_rank_state)) by (cbn; lia).
  split; [exact H|].
  destruct (read_verification_failure env_readback_fails 63 two_rank_state H)
    as (_ & Hstop & Hkeep).
  split.
  - eapply runs_conseq; [exact Hkeep|]. intros good s' [-> ->]. split; reflexivity.
  - edestruct (Hstop 0 0) as [_ Hcheck];
      [cbn; lia|cbn; lia|vm_compute; reflexivity|vm_compute; reflexivity|].
    eexists. split.
    + apply Hcheck; [reflexivity|]. vm_compute. reflexivity.
    + vm_compute. reflexivity.
Defined.

(** C6, counterexample: one channel, two ranks, direct attach, built to
    stop at errors.  Steps (a) and (b) succeed on rank 0 and the scratch
    pad does not read back: read training returns false in the state that
    the verification of rank 0 has left, and rank 1 is never trained. *)
Lemma read_verification_failure_aborts :
  let env := env_readback_fails in
  let pad := 63 in
  let s := two_rank_state in
  let ctx := st_ctx s in
  channels ctx = 1 /\ ranks ctx = 2 /\
  exists s0 sa sb,
    read_training_until env pad false 0 0 s = Some ((true, false), s0) /\
    rank_read_training env 0 0 (modules ctx) (die_width ctx) (max_delay_taps ctx)
      (set_hw (cons (Print "Training rank%2d" [0])) s0) = Some (true, sa) /\
    rank_read_check env pad 0 0 (modules ctx) (die_width ctx)
      (bool_decide (training_type ctx = HOST_DRAM) && negb (RDIMM ctx)) sa
      = Some (false, sb) /\
    sdram_ddr5_read_training env pad false s = Some (false, sb) /\
    printed "Training rank%2d" (st_hw sb) = [[0]].
Proof.
  cbv zeta. split; [reflexivity|]. split; [reflexivity|]. eexists. eexists. eexists.
  split; [vm_compute; reflexivity|].
  split; [vm_compute; reflexivity|].
  split; [vm_compute; reflexivity|].
  split; [vm_compute; reflexivity|].
  vm_compute. reflexivity.
Qed.
